(* ===== verification/_CoqProject ===== *)
-Q . S2P
Prelude.v
Text.v
Status.v
ServiceConfig.v
PeerTypes.v
IpText.v
Dedup.v
ConnParts.v
NetTypes.v
Fbs.v
Noise.v
LowLevel.v
Framing.v
ReadSafety.v
HandshakeXX.v
HandshakeSafety.v
FfiHelpers.v
CatchUp.v
Buckets.v
Float.v
Config.v
NodeState.v
Bans.v
ConnMethods.v
Connectivity.v
ConsensusPlugin.v
Maintenance.v
NodeExample.v
ConnFrame.v
ConnLoops.v
NodeInvariant.v
Sending.v
Admission.v
Messages.v
Upkeep.v
QueueThreads.v
QueueSystem.v
OutOfBand.v
Container.v
CollectorBackend.v
Collector.v
Rpc.v
Foreign.v
Queries.v
QueriesV1.v
Streams.v
StreamProofs.v
Relay.v
Runner.v
NodeStatus.v
BlockItems.v
WindowsConfig.v
WindowsService.v
Preferences.v
Metrics.v
Dumper.v
Lifecycle.v
Abi.v
Services.v
Startup.v
Bootstrap.v
MacLog.v
Runtime.v
LibraryStart.v
Installer.v
CollectorServer.v
