(* ===== verification/Prelude.v ===== *)
(** * The Concordium node: its network layer and the programs around it

    The Concordium node is a Rust program ([src/concordium-node]) that connects
    a consensus library to a peer-to-peer network.  This development models the
    program as Rocq functions and proves what its parts promise.  This file
    holds what they share: machine integers, the results and the state monad
    that the translation uses, and lemmas on them.

    ** The program and the files that model it

    Paths are relative to [src/concordium-node/src] unless they say otherwise.

    A connection reads octets from a socket.  [connection/low_level.rs] cuts
    them into messages and decrypts them with a Noise XX session.
    [connection/mod.rs] and [connection/message_handlers.rs] decode a message and
    act on it.  Packets for consensus go through two priority queues to threads
    that hand them to the library ([plugins/consensus.rs], [bin/cli.rs]); what
    the library sends goes the opposite way.  The poll thread
    ([p2p/maintenance.rs], [p2p/connectivity.rs]) accepts, opens, promotes and
    closes connections.  Operators act on the node through [rpc.rs] and
    [grpc2.rs], and clients query consensus through them: a request is converted
    for a foreign call, answered by an exported function of the consensus
    library ([src/concordium-consensus/src/Concordium/External.hs] and
    [External/GRPC2.hs]), and its answer is returned as one message or as a
    stream.  Around the node there are a collector that observes it
    ([bin/collector.rs]), a backend that the collectors report to
    ([src/collector-backend]) and a Windows service that runs nodes and
    collectors ([src/service/windows]).

    - [Text], [IpText]: Rust's strings and the parser of IP addresses.
    - [PeerTypes]: identifiers, addresses and peers ([common/p2p_node_id.rs],
      [common/p2p_peer.rs]).
    - [Dedup], [ConnParts]: the deduplication queues, the queues of pending
      messages and the statistics of a connection ([connection/mod.rs]).
    - [NetTypes], [Fbs]: network messages and their serialization
      ([network/mod.rs], [network/serialization/fbs.rs]).
    - [Noise], [LowLevel]: the Noise session as a parameter and the low-level
      connection over it; [Framing], [ReadSafety], [HandshakeXX] and
      [HandshakeSafety] prove what it promises.
    - [FfiHelpers], [CatchUp], [Container]: consensus messages and responses, the
      catch-up state of the peers, the handle to the consensus library
      ([consensus_ffi]).
    - [Buckets]: the nodes a bootstrapper knows ([network/buckets.rs]).
    - [Float], [Config]: doubles, the options and their checks
      ([configuration.rs]).
    - [NodeState]: the node, its connections, queues and counters, as one record.
    - [Bans], [ConnMethods], [Connectivity], [ConsensusPlugin], [Maintenance]: the
      operations on it, one definition per function of the source.
    - [NodeExample]: concrete instances of all parameters and a node with two
      peers, for the witnesses.
    - [ConnFrame], [ConnLoops], [NodeInvariant], [Sending], [Admission],
      [Messages], [Upkeep]: the theorems on connections and nodes.
    - [QueueThreads], [QueueSystem], [OutOfBand]: the consensus message threads, by
      themselves and interleaved with their senders, and the import of blocks from a
      file or a server ([bin/cli.rs]).
    - [CollectorBackend], [CollectorServer], [Collector]: the service nodes report
      to ([src/collector-backend]), its handlers and the server around them, and
      the collector that makes the reports ([bin/collector.rs]).
    - [Status], [ServiceConfig]: replies of endpoints and the endpoints that are
      enabled.
    - [Rpc], [NodeStatus], [BlockItems]: the requests of operators, the status of
      the node, and block items, from the request to the queue for the peers
      ([rpc.rs], [grpc2.rs]).
    - [Foreign]: the arguments of foreign calls, as the node makes them and as the
      library reads them.
    - [Queries], [QueriesV1]: queries with one answer, of the second and of the
      first interface, on both sides of the foreign calls
      ([consensus_ffi/ffi.rs], [External.hs], [External/GRPC2.hs]).
    - [Streams], [StreamProofs]: queries that are answered with a stream: channels,
      boxed senders, and the threads of the library that enqueue messages.
    - [Relay]: subscriptions to blocks, and the health check ([health.rs]).
    - [Runner]: the calls that pass messages to the library and the callbacks by
      which it sends them; [Runner.library_consensus] instantiates the record of
      answers that [ConsensusPlugin] assumes.
    - [Abi]: the declarations of the foreign functions in both languages
      ([consensus_ffi/ffi.rs], [External.hs], [External/GRPC2.hs]) as data, those of the
      Haskell runtime included, and when a value arrives on the other side as it was sent.
    - [Services]: the description of the second interface from which the build
      script ([../build.rs]) generates the server, the codec of the server, and
      requests from the path of an HTTP request to the answer.
    - [WindowsConfig], [WindowsService], [Installer]: the configuration and the life
      of the Windows service, its commands and the actions of its installer.
    - [Preferences], [Metrics], [Dumper]: the preferences file, the metrics, the
      network dump.
    - [Lifecycle], [Startup]: the start of the second server and of consensus, the
      parts that main starts, their shutdown, and how a signal reaches main
      ([bin/cli.rs]).
    - [Runtime]: the flags of the Haskell runtime when profiling, and the threads that
      start and stop it ([consensus_ffi/ffi.rs]).
    - [LibraryStart]: the start of the library on both sides of the call
      ([consensus_ffi/ffi.rs], [External.hs], [MultiVersion.hs], [TreeState.hs]): the
      migration of its data, the check for an existing database, its exceptions, and
      its log messages on their way to the log of the node.
    - [MacLog]: the logger for macOS ([macos_log.rs]) and the choice of a logger
      ([utils.rs]).
    - [Bootstrap]: the bootstrapper and the program that checks bootstrapping
      ([bin/bootstrapper.rs], [bin/bootstrap_checker.rs]).

    ** How the code is translated

    A function that may fail returns an [outcome]: a value, an error, or a panic.
    Panics of slices, of unwrapping and of division are written out.  A function
    that changes state is a function [S → outcome A * S] ([ST]); an error keeps the
    changes made before it, as in the source.  Integers are [Z], wrapped to their
    width.  Maps and sets are those of stdpp; their iteration order is a class
    ([MapIter], [SetIter]) that only promises a permutation, and random choices
    are answered by a class as well ([Rng]), so that no theorem depends on
    either.  Time is an argument.  Code from elsewhere (the Noise session,
    flatbuffers, hash functions, semantic versions, the key-value store, the
    operating system, HTTP, the consensus library) is a class or a record of
    functions with the laws that are relied on; every theorem that uses such
    laws has a witness with concrete instances.

    Critical sections of the source are steps of the model: an operation runs to
    its end before the next one begins.  [NodeInvariant.node_step] is the relation
    of all steps on a node, [QueueSystem.sys_step] that of the two message
    threads and their senders; streams, relays, the dump, the Windows service
    and the shutdown of the node have step relations of their own.  Memory that
    is handed over a foreign call (boxed senders, strings of the library) is a
    store with explicit allocation, so that a use after it was freed is a crash
    of the model.

    ** What the theorems show

    - Transport: what is sent over an established session arrives unchanged and
      in order, for all partial reads and writes; after the handshake the reader
      neither panics nor exceeds its limits on any octets, and during it only on
      messages that are too short and that the session accepts; the handshake
      completes when each of its messages arrives in a read of its own.
    - Serialization: messages survive a round trip; whatever is decoded is well
      typed.
    - The node: an invariant of all reachable states; admission and bans;
      nothing but a handshake has an effect before the handshake; messages reach
      exactly their targets and are not echoed; broadcasts are delivered once;
      housekeeping and requested changes do their work and respect the limits.
    - Consensus: the catch-up state, the order in which the threads handle
      messages, how they stop and when they do not, and what out-of-band catch-up
      imports.
    - Operators: access control of each endpoint, requests as steps of the node,
      submission of block items.
    - Queries: each endpoint refines a specification that mentions only what the
      library computes: which block, which answer, which code.  Streams and
      relays deliver in order and without repetition, a stream completes for a
      client that reads, and no memory is used after it was freed.
    - The library and the node: a message that one library sends arrives at
      another as it was sent, and the container methods do what the consensus
      plugin assumes of the library.
    - Collectors: bounds on the reports that are accepted, and what a report says
      of the node it was made of.
    - The Windows service: a configuration describes the nodes that are run;
      the service leaves no process behind, and it stops in bounded time.
    - Lifecycle: the identity of a node is kept; main starts consensus only with what
      it needs, and exactly the configured servers; a signal leads to a shutdown;
      nothing calls the library after it was stopped when the servers stop in
      time; the runtime is started and stopped at most once.
    - The boundary of the languages: every foreign function that the node calls is
      there with arguments and results of the same representation; every
      query is routed to the method of its name and kind, and its endpoint is
      governed by the switch of that name; the pointer that starting the library returns is that of a runner
      made from the parameters of the node.
    - Logging and installation: what the system log shows; the handles that the
      installer opens are closed whatever fails.
    - Behaviour that differs from what the code means to do is stated as well,
      as theorems on the code as it is: [psk_not_enforced],
      [relay_percentage_inverted], [short_packet_panics],
      [block_size_check_too_weak], [unauthenticated_packet_suppresses],
      [close_can_hang], [inbound_can_hang], [handshake_read_safe],
      [later_genesis_chunk_skipped],
      [truncated_download_accepted], [average_panics_iff],
      [connect_port_truncated], [refused_sender_leaks],
      [failed_signal_abandons_nodes], [error_output_lost],
      [pushed_metrics_stale], [set_config_flush_lost], [dump_not_restartable],
      [server_outlives_shutdown], [early_signal_imports_all],
      [log_message_delivered], [interrupted_migration],
      [untrimmed_ban_ineffective], [logging_set_up].

    ** Bounds and fuel

    - [LowLevel.flush_loop] gets one round more than there are octets in the
      queue; every productive round removes an octet
      ([Framing.flush_socket_delivers]).
    - [LowLevel.encrypt_loop] gets more rounds than the message has octets; every
      round takes at least one.
    - [ConnMethods.read_rounds] bounds the rounds of [read_stream];
      [ConnLoops.read_stream_ends] shows that they suffice.
    - A pass of a message thread drains at most as many messages of high priority
      as the queue holds ([QueueThreads.drain_high]); the source goes on while
      messages arrive, which the next pass of the model does.
    - [StreamProofs.stream_completes] bounds the rounds that a stream of [n]
      messages takes by [2 * n + 1]; [WindowsService.service_stops] bounds the
      steps of the service by its state.
    - [Bootstrap.ROUNDS]: the checker sleeps half a second in each round and gives up
      after ten, so that twenty-one rounds are enough
      ([Bootstrap.bootstrap_check_ends]).
    - Steps that open connections assume that the 64-bit token counter has not
      come to its end ([NodeInvariant.tokens_left]).

    ** What is not modelled

    - The consensus protocol and the block state of the library
      ([src/concordium-consensus]): a separate program in Haskell.  Its exported
      functions are modelled, what they compute is a parameter.
    - Everything generated from protobuf definitions; the types of
      [concordium-base], which is a submodule, are parameters.
    - The parsing of command lines by structopt, the text of log lines, and the part
      of the build script that runs compilers and passes flags to the linker.
    - [bin/genesis_tester.rs] and [bin/network_stress_test.rs]: they are not targets
      of the build, and the first calls a constructor with arguments that it no
      longer has.
    - Interleavings inside a critical section, and the parallel iterators of the
      poll thread, which are taken as sequential in any order.
    - The effect of a panic on other threads (poisoned locks). *)
From stdpp Require Export base tactics numbers list option gmap sets strings.


Declare Scope node_scope.
Delimit Scope node_scope with node.
#[global] Open Scope node_scope.

(** ** Machine integers

    Fixed-width integers are [Z]; the release profile of the crates does not
    enable overflow checks, so additions and subtractions wrap around. *)

Abbreviation u8 := Z (only parsing).
Abbreviation u16 := Z (only parsing).
Abbreviation u32 := Z (only parsing).
Abbreviation u64 := Z (only parsing).
Abbreviation i64 := Z (only parsing).
Abbreviation bytes := (list Z) (only parsing).

(** The value [x] fits in [w] bits. *)
Definition fits (w x : Z) : Prop := (0 ≤ x < 2 ^ w)%Z.

#[global] Instance fits_dec w x : Decision (fits w x).
Proof. unfold fits. apply _. Defined.

Definition wrap (w x : Z) : Z := (x mod 2 ^ w)%Z.

(** [a + b], [a - b] and [a * b] on [u64]. *)
Definition u64_add (a b : u64) : u64 := wrap 64 (a + b).
Definition u64_sub (a b : u64) : u64 := wrap 64 (a - b).
Definition u64_mul (a b : u64) : u64 := wrap 64 (a * b).

(** [a.saturating_sub(b)] *)
Definition u64_saturating_sub (a b : u64) : u64 := Z.max 0 (a - b).

(** [x as u16], [x as u32], [x as u64] for a non-negative or signed source. *)
Definition as_u16 (x : Z) : u16 := wrap 16 x.
Definition as_u32 (x : Z) : u32 := wrap 32 x.
Definition as_u64 (x : Z) : u64 := wrap 64 x.

(** Two's complement reading of the low 64 bits: [x as i64]. *)
Definition as_i64 (x : Z) : i64 := ((x + 2 ^ 63) mod 2 ^ 64 - 2 ^ 63)%Z.

(** The bitwise complement [!x] of a [w]-bit value. *)
Definition bit_not (w x : Z) : Z := (2 ^ w - 1 - x)%Z.

Lemma wrap_fits w x : (0 ≤ w)%Z → fits w (wrap w x).
Proof. intros Hw. unfold fits, wrap. apply Z.mod_pos_bound. lia. Qed.

Lemma wrap_small w x : fits w x → wrap w x = x.
Proof. apply Z.mod_small. Qed.

Lemma as_i64_small x : (- 2 ^ 63 ≤ x < 2 ^ 63)%Z → as_i64 x = x.
Proof. intros Hx. unfold as_i64. rewrite Z.mod_small; lia. Qed.

Lemma u64_add_small a b : fits 64 (a + b) → u64_add a b = (a + b)%Z.
Proof. apply wrap_small. Qed.

Lemma u64_sub_small a b : (0 ≤ b ≤ a)%Z → fits 64 a → u64_sub a b = (a - b)%Z.
Proof. intros Hb [? ?]. apply wrap_small. split; lia. Qed.

Lemma u64_mul_small a b : fits 64 (a * b) → u64_mul a b = (a * b)%Z.
Proof. apply wrap_small. Qed.

Lemma bit_not_fits w x : fits w x → fits w (bit_not w x).
Proof. unfold fits, bit_not. lia. Qed.

Lemma bit_not_ne w x : (0 < w)%Z → bit_not w x ≠ x.
Proof.
  unfold bit_not. intros Hw.
  pose proof (Z.pow_succ_r 2 (w - 1) ltac:(lia)) as Hp.
  replace (Z.succ (w - 1)) with w in Hp by lia. lia.
Qed.

(** ** Big-endian byte strings *)

Fixpoint to_be_bytes (n : nat) (x : Z) : bytes :=
  match n with
  | O => []
  | S n => ((x / 256 ^ Z.of_nat n) mod 256)%Z :: to_be_bytes n x
  end.

Definition from_be_bytes (bs : bytes) : Z :=
  foldl (λ acc b, (acc * 256 + b)%Z) 0%Z bs.

(** A list of octets. *)
Definition is_bytes (bs : bytes) : Prop := Forall (fits 8) bs.

Lemma length_to_be_bytes n x : length (to_be_bytes n x) = n.
Proof. induction n; simpl; congruence. Qed.

Lemma to_be_bytes_is_bytes n x : is_bytes (to_be_bytes n x).
Proof.
  unfold is_bytes. induction n; simpl; constructor; auto.
  apply (wrap_fits 8); lia.
Qed.

Lemma from_be_bytes_acc bs acc :
  foldl (λ acc b, (acc * 256 + b)%Z) acc bs
  = (acc * 256 ^ Z.of_nat (length bs) + from_be_bytes bs)%Z.
Proof.
  unfold from_be_bytes. revert acc. induction bs as [|b bs IH]; intros acc.
  - simpl. lia.
  - change (length (b :: bs)) with (S (length bs)).
    simpl foldl. rewrite IH, (IH (0 * 256 + b)%Z).
    rewrite Nat2Z.inj_succ, Z.pow_succ_r by lia. lia.
Qed.

Lemma from_be_bytes_fits bs :
  is_bytes bs → fits (8 * Z.of_nat (length bs)) (from_be_bytes bs).
Proof.
  unfold fits. rewrite Z.pow_mul_r by lia. change (2 ^ 8)%Z with 256%Z.
  induction 1 as [|b bs Hb _ IH]; [done|]. unfold from_be_bytes. simpl foldl.
  rewrite from_be_bytes_acc. change (length (b :: bs)) with (S (length bs)).
  rewrite Nat2Z.inj_succ, Z.pow_succ_r by lia. unfold fits in Hb. nia.
Qed.

Lemma from_to_be_bytes n x :
  from_be_bytes (to_be_bytes n x) = (x mod 256 ^ Z.of_nat n)%Z.
Proof.
  induction n as [|n IH]; [by rewrite Z.mod_1_r|].
  unfold from_be_bytes. simpl to_be_bytes. simpl foldl.
  rewrite from_be_bytes_acc, IH, length_to_be_bytes.
  rewrite Nat2Z.inj_succ, Z.pow_succ_r by lia.
  rewrite (Z.mul_comm 256 (256 ^ _)), Z.rem_mul_r by lia. lia.
Qed.

Lemma from_to_be_bytes_small n x :
  fits (8 * Z.of_nat n) x → from_be_bytes (to_be_bytes n x) = x.
Proof.
  intros [? Hx]. rewrite from_to_be_bytes. apply Z.mod_small.
  change 256%Z with (2 ^ 8)%Z. rewrite <-Z.pow_mul_r by lia. lia.
Qed.

(** ** Outcomes

    A Rust function returns a value, returns an [Err], or panics.  [anyhow]
    errors carry whether they can be downcast to [std::io::Error], because the
    event loop treats those differently. *)

Inductive error :=
  | IoError (what : string)
  | Other (what : string).

Inductive outcome (A : Type) :=
  | Ok (a : A)
  | Err (e : error)
  | Panic (what : string).
Arguments Ok {_} _.
Arguments Err {_} _.
Arguments Panic {_} _.

#[global] Instance error_eq_dec : EqDecision error.
Proof. solve_decision. Defined.
#[global] Instance outcome_eq_dec `{EqDecision A} : EqDecision (outcome A).
Proof. solve_decision. Defined.

Definition is_io_error (e : error) : bool :=
  match e with IoError _ => true | Other _ => false end.

Definition is_ok {A} (o : outcome A) : bool :=
  match o with Ok _ => true | _ => false end.

Definition is_panic {A} (o : outcome A) : bool :=
  match o with Panic _ => true | _ => false end.

(** [r.unwrap_or(d)]; a panic of the computation itself is not caught. *)
Definition unwrap_or {A} (d : A) (o : outcome A) : outcome A :=
  match o with Ok a => Ok a | Err _ => Ok d | Panic m => Panic m end.

#[global] Instance outcome_ret : MRet outcome := λ A a, Ok a.
#[global] Instance outcome_bind : MBind outcome := λ A B f o,
  match o with Ok a => f a | Err e => Err e | Panic m => Panic m end.

(** [ensure!(b, msg)] and [bail!(msg)]. *)
Definition ensure (b : bool) (msg : string) : outcome unit :=
  if b then Ok tt else Err (Other msg).
Definition bail {A} (msg : string) : outcome A := Err (Other msg).

(** [option.context(msg)?] *)
Definition context {A} (msg : string) (o : option A) : outcome A :=
  match o with Some a => Ok a | None => Err (Other msg) end.

(** Slicing [v[..n]] and [v[n..]] panics out of range. *)
Definition slice_to {A} (n : nat) (v : list A) : outcome (list A) :=
  if decide (n ≤ length v) then Ok (take n v) else Panic "range end index out of range".
Definition slice_from {A} (n : nat) (v : list A) : outcome (list A) :=
  if decide (n ≤ length v) then Ok (drop n v) else Panic "range start index out of range".

(** [a - b] on [usize] lengths.  The model makes an underflow a panic, as a build
    with overflow checks does.  The theorems show that it is not reached, but
    for handshake messages that are too short ([HandshakeSafety]): there a
    build without these checks panics as well, because it takes a slice of the
    length that has wrapped around. *)
Definition usize_sub (a b : nat) : outcome nat :=
  if decide (b ≤ a) then Ok (a - b) else Panic "attempt to subtract with overflow".

(** Division of [u64] panics when the divisor is zero. *)
Definition u64_div (a b : u64) : outcome u64 :=
  if decide (b = 0%Z) then Panic "attempt to divide by zero" else Ok (a / b)%Z.

Lemma u64_div_ok a b : b ≠ 0%Z → u64_div a b = Ok (a / b)%Z.
Proof. intros. unfold u64_div. by rewrite decide_False. Qed.

Lemma slice_to_ok {A} n (v : list A) : n ≤ length v → slice_to n v = Ok (take n v).
Proof. intros. unfold slice_to. by rewrite decide_True. Qed.

Lemma slice_from_ok {A} n (v : list A) : n ≤ length v → slice_from n v = Ok (drop n v).
Proof. intros. unfold slice_from. by rewrite decide_True. Qed.

Lemma usize_sub_ok a b : b ≤ a → usize_sub a b = Ok (a - b).
Proof. intros. unfold usize_sub. by rewrite decide_True. Qed.

Lemma outcome_bind_ok {A B} (o : outcome A) (f : A → outcome B) b :
  o ≫= f = Ok b ↔ ∃ a, o = Ok a ∧ f a = Ok b.
Proof. destruct o; simpl; naive_solver. Qed.

Lemma length_pos {A} (l : list A) : l ≠ [] → 0 < length l.
Proof. destruct l; simpl; [done|lia]. Qed.

Lemma size_list_to_set_le `{Countable A} (l : list A) :
  size (list_to_set l : gset A) ≤ length l.
Proof.
  induction l as [|x l IH]; simpl; [done|].
  rewrite size_union_alt, size_singleton.
  assert (size ((list_to_set l : gset A) ∖ {[x]}) ≤ size (list_to_set l : gset A))
    by (apply subseteq_size; set_solver). lia.
Qed.

Lemma NoDup_submseteq {A} (l k : list A) : l ⊆+ k → NoDup k → NoDup l.
Proof. intros [r ->]%submseteq_Permutation. by intros [? _]%NoDup_app. Qed.

Lemma bind_Ok {A B} (a : A) (f : A → outcome B) : Ok a ≫= f = f a.
Proof. done. Qed.

Lemma ensure_ok b msg u : ensure b msg = Ok u ↔ b = true.
Proof. destruct b, u; unfold ensure; naive_solver. Qed.

(** ** State and outcome

    Methods with [&mut self] that return [anyhow::Result] keep the mutations
    made before the error, so the state is returned in every case. *)

Definition ST (S A : Type) : Type := S → outcome A * S.

#[global] Instance ST_ret S : MRet (ST S) := λ A a s, (Ok a, s).
#[global] Instance ST_bind S : MBind (ST S) := λ A B f c s,
  match c s with
  | (Ok a, s') => f a s'
  | (Err e, s') => (Err e, s')
  | (Panic m, s') => (Panic m, s')
  end.

Definition st_get {S} : ST S S := λ s, (Ok s, s).
Definition st_put {S} (s' : S) : ST S unit := λ _, (Ok tt, s').
Definition st_modify {S} (f : S → S) : ST S unit := λ s, (Ok tt, f s).
Definition st_lift {S A} (o : outcome A) : ST S A := λ s, (o, s).

Lemma ST_bind_ok {S A B} (c : ST S A) (f : A → ST S B) s a s' :
  c s = (Ok a, s') → (c ≫= f) s = f a s'.
Proof. intros H. unfold mbind, ST_bind. by rewrite H. Qed.

Lemma ST_bind_inv {S A B} (c : ST S A) (f : A → ST S B) s b s'' :
  (c ≫= f) s = (Ok b, s'') → ∃ a s', c s = (Ok a, s') ∧ f a s' = (Ok b, s'').
Proof. unfold mbind, ST_bind. destruct (c s) as [[] ?]; naive_solver. Qed.

(** Steps of a computation whose first action is known. *)
Lemma bind_get {S A} (f : S → ST S A) s : (st_get ≫= f) s = f s s.
Proof. done. Qed.
Lemma bind_modify {S A} (g : S → S) (f : unit → ST S A) s : (st_modify g ≫= f) s = f tt (g s).
Proof. done. Qed.
Lemma bind_mret {S A B} (a : A) (f : A → ST S B) s : (mret a ≫= f) s = f a s.
Proof. done. Qed.
Lemma bind_lift {S A B} (o : outcome A) (a : A) (f : A → ST S B) s :
  o = Ok a → (st_lift o ≫= f) s = f a s.
Proof. by intros ->. Qed.
Lemma ST_bind_assoc {S A B C} (c : ST S A) (f : A → ST S B) (g : B → ST S C) s :
  ((c ≫= f) ≫= g) s = (c ≫= λ a, f a ≫= g) s.
Proof. unfold mbind, ST_bind. by destruct (c s) as [[] ?]. Qed.

(** *** Specifications

    [wp c Q E s]: run from [s], the computation does not panic; if it returns
    [a] in state [s'] then [Q a s'], and if it fails with [e] then [E e s']. *)
Definition wp {S A} (c : ST S A) (Q : A → S → Prop) (E : error → S → Prop) (s : S) : Prop :=
  match c s with
  | (Ok a, s') => Q a s'
  | (Err e, s') => E e s'
  | (Panic _, _) => False
  end.

Section wp.
Context {S : Type}.
Implicit Types (s : S) (E : error → S → Prop).

Lemma wp_bind {A B} (c : ST S A) (f : A → ST S B) Q E s :
  wp c (λ a, wp (f a) Q E) E s → wp (c ≫= f) Q E s.
Proof. unfold wp, mbind, ST_bind. by destruct (c s) as [[] ?]. Qed.

Lemma wp_get (Q : S → S → Prop) E s : Q s s → wp st_get Q E s.
Proof. done. Qed.
Lemma wp_modify g (Q : unit → S → Prop) E s : Q tt (g s) → wp (st_modify g) Q E s.
Proof. done. Qed.
Lemma wp_mret {A} (a : A) (Q : A → S → Prop) E s : Q a s → wp (mret a) Q E s.
Proof. done. Qed.
Lemma wp_lift {A} (o : outcome A) a (Q : A → S → Prop) E s :
  o = Ok a → Q a s → wp (st_lift o) Q E s.
Proof. by intros ->. Qed.

Lemma wp_ensure b msg (Q : unit → S → Prop) E s :
  b = true → Q tt s → wp (st_lift (ensure b msg)) Q E s.
Proof. by intros ->. Qed.

Lemma wp_mono {A} (c : ST S A) (Q Q' : A → S → Prop) E E' s :
  wp c Q E s → (∀ a s', Q a s' → Q' a s') → (∀ e s', E e s' → E' e s') → wp c Q' E' s.
Proof. unfold wp. destruct (c s) as [[] ?]; auto. Qed.

Lemma wp_ok {A} (c : ST S A) Q E s a s' : wp c Q E s → c s = (Ok a, s') → Q a s'.
Proof. unfold wp. intros Hwp Hc. by rewrite Hc in Hwp. Qed.

Lemma wp_total {A} (c : ST S A) Q s :
  wp c Q (λ _ _, False) s → ∃ a s', c s = (Ok a, s') ∧ Q a s'.
Proof. unfold wp. destruct (c s) as [[] ?]; naive_solver. Qed.

Lemma wp_no_panic {A} (c : ST S A) Q E s : wp c Q E s → is_panic (c s).1 = false.
Proof. unfold wp. by destruct (c s) as [[] ?]. Qed.
End wp.

(** What a computation does to the state in every case, also when it fails:
    [keeps R m] relates the states before and after, [preserves P m] says that
    an invariant is kept. *)
Definition keeps {S A} (R : relation S) (m : ST S A) : Prop := ∀ s, R s (m s).2.
Definition preserves {S A} (P : S → Prop) (m : ST S A) : Prop := ∀ s, P s → P (m s).2.

Section keeps.
Context {S : Type} (R : relation S) `{!PreOrder R}.

Lemma keeps_bind {A B} (m : ST S A) (f : A → ST S B) :
  keeps R m → (∀ a, keeps R (f a)) → keeps R (m ≫= f).
Proof.
  intros Hm Hf s. pose proof (Hm s) as Hs. unfold mbind, ST_bind.
  destruct (m s) as [[a| |] s']; simpl in *; [|done|done]. etrans; [exact Hs|apply Hf].
Qed.
Lemma keeps_get : keeps R st_get.
Proof. by intros s. Qed.
Lemma keeps_mret {A} (a : A) : keeps R (mret a).
Proof. by intros s. Qed.
Lemma keeps_lift {A} (o : outcome A) : keeps R (st_lift o).
Proof. by intros s. Qed.
Lemma keeps_modify g : (∀ s, R s (g s)) → keeps R (st_modify g).
Proof. intros Hg s. apply Hg. Qed.
End keeps.

Section preserves.
Context {S : Type} (P : S → Prop).

Lemma preserves_bind {A B} (m : ST S A) (f : A → ST S B) :
  preserves P m → (∀ a, preserves P (f a)) → preserves P (m ≫= f).
Proof.
  intros Hm Hf s Hs. pose proof (Hm s Hs) as Hs'. unfold mbind, ST_bind.
  destruct (m s) as [[a| |] s']; simpl in *; [by apply Hf|done|done].
Qed.
Lemma preserves_get : preserves P st_get.
Proof. by intros s. Qed.
Lemma preserves_mret {A} (a : A) : preserves P (mret a).
Proof. by intros s. Qed.
Lemma preserves_lift {A} (o : outcome A) : preserves P (st_lift o).
Proof. by intros s. Qed.
Lemma preserves_modify g : (∀ s, P s → P (g s)) → preserves P (st_modify g).
Proof. intros Hg s. apply Hg. Qed.
End preserves.

(** ** Hash tables

    The iteration order of [HashMap] and [HashSet] is unspecified.  Every
    definition that iterates takes the order as an instance of these classes;
    the theorems hold for each of them. *)

Class MapIter (K V : Type) `{Countable K} := {
  map_iter : gmap K V → list (K * V);
  map_iter_perm (m : gmap K V) : map_iter m ≡ₚ map_to_list m;
}.

Class SetIter (K : Type) `{Countable K} := {
  set_iter : gset K → list K;
  set_iter_perm (s : gset K) : set_iter s ≡ₚ elements s;
}.

(** The orders used to evaluate concrete examples. *)
Definition canonical_map_iter K V `{Countable K} : MapIter K V :=
  {| map_iter := map_to_list; map_iter_perm _ := Permutation_refl _ |}.
Definition canonical_set_iter K `{Countable K} : SetIter K :=
  {| set_iter := elements; set_iter_perm _ := Permutation_refl _ |}.

Section map_iter.
Context `{Countable K} {V : Type} `{!MapIter K V}.
Implicit Types m : gmap K V.

Definition map_keys m : list K := (map_iter m).*1.
Definition map_values m : list V := (map_iter m).*2.

Lemma elem_of_map_iter m k v : (k, v) ∈ map_iter m ↔ m !! k = Some v.
Proof. by rewrite map_iter_perm, elem_of_map_to_list. Qed.

Lemma elem_of_map_keys m k : k ∈ map_keys m ↔ is_Some (m !! k).
Proof.
  unfold map_keys. rewrite list_elem_of_fmap. split.
  - intros [[k' v] [-> Hin]]. apply elem_of_map_iter in Hin. by eexists.
  - intros [v Hv]. exists (k, v). by rewrite elem_of_map_iter.
Qed.

Lemma elem_of_map_values m v : v ∈ map_values m ↔ ∃ k, m !! k = Some v.
Proof.
  unfold map_values. rewrite list_elem_of_fmap. split.
  - intros [[k' v'] [-> Hin]]. apply elem_of_map_iter in Hin. by eexists.
  - intros [k Hv]. exists (k, v). by rewrite elem_of_map_iter.
Qed.

Lemma NoDup_map_keys m : NoDup (map_keys m).
Proof. unfold map_keys. rewrite map_iter_perm. apply NoDup_fst_map_to_list. Qed.

Lemma length_map_iter m : length (map_iter m) = size m.
Proof. by rewrite map_iter_perm, length_map_to_list. Qed.

Lemma length_map_keys m : length (map_keys m) = size m.
Proof. unfold map_keys. by rewrite length_fmap, length_map_iter. Qed.

Lemma length_map_values m : length (map_values m) = size m.
Proof. unfold map_values. by rewrite length_fmap, length_map_iter. Qed.
End map_iter.

Lemma filter_everything {A} (P : A → Prop) `{!∀ x, Decision (P x)} (l : list A) :
  (∀ x, x ∈ l → P x) → filter P l = l.
Proof.
  induction l as [|x l IH]; intros Hl; [done|]. rewrite filter_cons, decide_True by set_solver.
  f_equal. apply IH. set_solver.
Qed.

(** ** Random choice

    [IteratorRandom::choose_multiple] and [SliceRandom::choose_multiple] of the
    [rand] crate return [min n len] distinct positions of the sequence;
    [shuffle] permutes it. *)

Class Rng := {
  choose_multiple {A} : list A → nat → list A;
  choose_multiple_submseteq {A} (l : list A) n : choose_multiple l n ⊆+ l;
  choose_multiple_length {A} (l : list A) n : length (choose_multiple l n) = n `min` length l;
  shuffle {A} : list A → list A;
  shuffle_perm {A} (l : list A) : shuffle l ≡ₚ l;
}.

(** The generator used to evaluate concrete examples. *)
Definition prefix_rng : Rng := {|
  choose_multiple A l n := take n l;
  choose_multiple_submseteq A l n := sublist_submseteq _ _ (sublist_take l n);
  choose_multiple_length A l n := length_take l n;
  shuffle A l := l;
  shuffle_perm A l := Permutation_refl l;
|}.

(** ** Automation *)

Create HintDb node.
Create HintDb keeps.
Create Rewrite HintDb node.
#[export] Hint Resolve wrap_fits wrap_small bit_not_fits to_be_bytes_is_bytes : node.
#[export] Hint Rewrite length_to_be_bytes @length_app @length_take @length_drop
  @length_replicate @length_map_iter : node.

(** Case analysis on the guards of a definition. *)
Ltac guards :=
  repeat match goal with
  | |- context [decide ?P] => destruct (decide P)
  | H : context [decide ?P] |- _ => destruct (decide P)
  | |- context [if ?b then _ else _] => destruct b eqn:?
  | H : context [if ?b then _ else _] |- _ => destruct b eqn:?
  end.

(** Open existentials and conjunctions of the context. *)
Ltac unpack :=
  repeat match goal with
  | H : ∃ _, _ |- _ => destruct H
  | H : _ ∧ _ |- _ => destruct H
  end.

(** Run the leading state accesses of a computation. *)
Ltac st_run :=
  repeat (rewrite bind_get || rewrite bind_modify || rewrite bind_mret); cbv beta.

(** Steps of a [keeps] or [preserves] proof. *)
#[export] Hint Resolve keeps_bind keeps_get keeps_mret keeps_lift keeps_modify
  preserves_bind preserves_get preserves_mret preserves_lift preserves_modify : keeps.

(** Steps of a specification proof. *)
Ltac wp_step :=
  lazymatch goal with
  | |- wp (_ ≫= _) _ _ _ => apply wp_bind
  | |- wp st_get _ _ _ => apply wp_get
  | |- wp (st_modify _) _ _ _ => apply wp_modify
  | |- wp (mret _) _ _ _ => apply wp_mret
  end; cbv beta.
Ltac wp_run := repeat wp_step.

(** Split syntactic conjunctions, without unfolding definitions. *)
Ltac conjs := repeat match goal with |- _ ∧ _ => split end.
