(* ===== verification/Text.v ===== *)
(** * Text

    The operations of Rust's [str] the programs use.  Text is the list of its
    Unicode scalar values. *)
From S2P Require Import Prelude.

Abbreviation text := (list Z) (only parsing).

Definition of_string (s : string) : text :=
  (λ a, Z.of_N (Ascii.N_of_ascii a)) <$> String.list_ascii_of_string s.

(** [char::is_whitespace] *)
Definition is_whitespace (c : Z) : bool :=
  bool_decide (9 ≤ c ≤ 13)%Z || bool_decide (c ∈ [32; 133; 160; 5760; 8232; 8233; 8239; 8287; 12288]%Z)
  || bool_decide (8192 ≤ c ≤ 8202)%Z.

Fixpoint drop_while {A} (p : A → bool) (l : list A) : list A :=
  match l with
  | [] => []
  | x :: l' => if p x then drop_while p l' else l
  end.

(** [str::trim] *)
Definition trim (s : text) : text :=
  reverse (drop_while is_whitespace (reverse (drop_while is_whitespace s))).

(** [str::strip_prefix] *)
Fixpoint strip_prefix (p s : text) : option text :=
  match p, s with
  | [], _ => Some s
  | x :: p, y :: s => if decide (x = y) then strip_prefix p s else None
  | _ :: _, [] => None
  end.

(** [str::lines]: a line ends with a line feed, or a carriage return and a line
    feed; the last one may end with the text. *)
Fixpoint lines (s : text) : list text :=
  match s with
  | [] => []
  | 10%Z :: s => [] :: lines s
  | 13%Z :: 10%Z :: s => [] :: lines s
  | c :: s =>
    match lines s with
    | [] => [[c]]
    | l :: ls => (c :: l) :: ls
    end
  end.

(** [str::len], the number of octets of the UTF-8 encoding. *)
Definition char_len (c : Z) : nat :=
  if decide (c < 128)%Z then 1 else if decide (c < 2048)%Z then 2
  else if decide (c < 65536)%Z then 3 else 4.
Definition text_len (s : text) : nat := sum_list (char_len <$> s).

Lemma drop_while_split {A} (p : A → bool) l :
  ∃ pre, l = pre ++ drop_while p l ∧ Forall (λ x, p x = true) pre
    ∧ ∀ x, head (drop_while p l) = Some x → p x = false.
Proof.
  induction l as [|x l (pre & Hl & Hpre & Hhd)]; [by exists []|]. simpl.
  destruct (p x) eqn:Hp; [exists (x :: pre)|exists []].
  - split; [simpl; by f_equal|]. split; [by constructor|done].
  - split; [done|]. split; [constructor|]. by intros ? [= <-].
Qed.

Lemma drop_while_none {A} (p : A → bool) l : Forall (λ x, p x = false) l → drop_while p l = l.
Proof. destruct 1 as [|x l Hx _]; simpl; [done|by rewrite Hx]. Qed.

(** Text without white space is not changed. *)
Lemma trim_no_whitespace s : Forall (λ c, is_whitespace c = false) s → trim s = s.
Proof.
  intros Hs. unfold trim. rewrite (drop_while_none _ s) by done.
  rewrite drop_while_none by by rewrite Forall_reverse. apply reverse_involutive.
Qed.

Lemma strip_prefix_app p s : strip_prefix p (p ++ s) = Some s.
Proof. induction p as [|x p IH]; simpl; [done|]. by rewrite decide_True. Qed.

(** A line feed ends a line that contains neither it nor a carriage return. *)
Lemma lines_first l s :
  Forall (λ c, c ≠ 10 ∧ c ≠ 13)%Z l → lines (l ++ 10%Z :: s) = l :: lines s.
Proof.
  induction 1 as [|c l [H10 H13] Hl IH]; [done|].
  change ((c :: l) ++ 10%Z :: s) with (c :: (l ++ 10%Z :: s)).
  assert (lines (c :: (l ++ 10%Z :: s)) = match lines (l ++ 10%Z :: s) with
    | [] => [[c]] | l' :: ls => (c :: l') :: ls end) as ->; [|by rewrite IH].
  cbn [lines]. repeat case_match; congruence.
Qed.
