(* ===== verification/Status.v ===== *)
(** * Replies to requests

    The results of the gRPC endpoints: a value or one of the status codes of the
    [tonic] crate. *)
From S2P Require Import Prelude.

(** The codes of [tonic::Status] in use. *)
Inductive Code :=
  | Unimplemented | Unauthenticated | FailedPrecondition | InvalidArgument | Aborted | Internal
  | AlreadyExists | NotFound | Unavailable.

#[global] Instance Code_eq_dec : EqDecision Code.
Proof. solve_decision. Defined.

(** What comes of a request: a value, an error status, a panic of the task that
    handles it, or no reply, because the task waits. *)
Inductive Reply (A : Type) := Value (a : A) | Status (c : Code) | Crashed | NoReply.
Arguments Value {_} _.
Arguments Status {_} _.
Arguments Crashed {_}.
Arguments NoReply {_}.

#[global] Instance Reply_eq_dec `{EqDecision A} : EqDecision (Reply A).
Proof. solve_decision. Defined.

(** The operator [?] on a result with a status. *)
#[global] Instance Reply_ret : MRet Reply := λ A a, Value a.
#[global] Instance Reply_bind : MBind Reply := λ A B f r,
  match r with Value a => f a | Status c => Status c | Crashed => Crashed | NoReply => NoReply end.

Lemma Reply_bind_value {A B} (r : Reply A) (f : A → Reply B) b :
  r ≫= f = Value b ↔ ∃ a, r = Value a ∧ f a = Value b.
Proof. destruct r; simpl; naive_solver. Qed.

(** [field.require()?] of [grpc2.rs] *)
Definition require {A} (field : option A) : Reply A :=
  match field with
  | Some a => Value a
  | None => Status InvalidArgument
  end.

Lemma require_value {A} (o : option A) a : require o = Value a ↔ o = Some a.
Proof. destruct o; simpl; naive_solver. Qed.

(** A reply that is a value or an error status. *)
Definition settled {A} (r : Reply A) : Prop :=
  match r with Value _ | Status _ => True | _ => False end.

Lemma settled_bind {A B} (r : Reply A) (f : A → Reply B) :
  settled r → (∀ a, r = Value a → settled (f a)) → settled (r ≫= f).
Proof. destruct r; simpl; auto. Qed.

Lemma settled_require {A} (o : option A) : settled (require o).
Proof. by destruct o. Qed.
#[export] Hint Resolve settled_require : node.

(** ** State and reply *)

Definition RS (S A : Type) : Type := S → Reply A * S.

#[global] Instance RS_ret {S} : MRet (RS S) := λ A a s, (Value a, s).
#[global] Instance RS_bind {S} : MBind (RS S) := λ A B f m s,
  match m s with
  | (Value a, s) => f a s
  | (Status c, s) => (Status c, s)
  | (Crashed, s) => (Crashed, s)
  | (NoReply, s) => (NoReply, s)
  end.

Section state_reply.
Context {S : Type}.

Definition rs_reply {A} (r : Reply A) : RS S A := λ s, (r, s).
Definition rs_modify (f : S → S) : RS S unit := λ s, (Value tt, f s).
Definition undefined {A} : RS S A := rs_reply Crashed.
Definition rs_lift {A} (o : outcome A) : RS S A :=
  match o with Ok a => mret a | _ => undefined end.

Lemma rs_bind_value {A B} (m : RS S A) (f : A → RS S B) s a s' :
  m s = (Value a, s') → (m ≫= f) s = f a s'.
Proof. intros E. unfold mbind, RS_bind. by rewrite E. Qed.

Lemma rs_bind_status {A B} (m : RS S A) (f : A → RS S B) s e s' :
  m s = (Status e, s') → (m ≫= f) s = (Status e, s').
Proof. intros E. unfold mbind, RS_bind. by rewrite E. Qed.
End state_reply.
