(* ===== verification/ServiceConfig.v ===== *)
(** * Which endpoints of the second interface are enabled

    Models [ServiceConfig] of [concordium-node/src/grpc2.rs]. *)
From S2P Require Import Prelude.

Record ServiceConfig := MkServiceConfig {
  en_get_finalized_blocks : bool;
  en_get_blocks : bool;
  en_get_account_list : bool;
  en_get_account_info : bool;
  en_get_module_list : bool;
  en_get_module_source : bool;
  en_get_instance_list : bool;
  en_get_instance_info : bool;
  en_get_instance_state : bool;
  en_instance_state_lookup : bool;
  en_get_next_account_sequence_number : bool;
  en_get_consensus_info : bool;
  en_get_ancestors : bool;
  en_get_block_item_status : bool;
  en_invoke_instance : bool;
  en_get_cryptographic_parameters : bool;
  en_get_block_info : bool;
  en_get_baker_list : bool;
  en_get_pool_info : bool;
  en_get_passive_delegation_info : bool;
  en_get_blocks_at_height : bool;
  en_get_tokenomics_info : bool;
  en_get_pool_delegators : bool;
  en_get_pool_delegators_reward_period : bool;
  en_get_passive_delegators : bool;
  en_get_passive_delegators_reward_period : bool;
  en_get_branches : bool;
  en_get_election_info : bool;
  en_get_identity_providers : bool;
  en_get_anonymity_revokers : bool;
  en_get_account_non_finalized_transactions : bool;
  en_get_block_transaction_events : bool;
  en_get_block_special_events : bool;
  en_get_block_pending_updates : bool;
  en_get_next_update_sequence_numbers : bool;
  en_get_block_chain_parameters : bool;
  en_get_block_finalization_summary : bool;
  en_shutdown : bool;
  en_peer_connect : bool;
  en_peer_disconnect : bool;
  en_get_banned_peers : bool;
  en_ban_peer : bool;
  en_unban_peer : bool;
  en_dump_start : bool;
  en_dump_stop : bool;
  en_get_peers_info : bool;
  en_get_node_info : bool;
  en_send_block_item : bool;
  en_get_account_transaction_sign_hash : bool;
  en_get_block_items : bool;
}.

Definition new_all_enabled : ServiceConfig := {|
  en_get_finalized_blocks := true;
  en_get_blocks := true;
  en_get_account_list := true;
  en_get_account_info := true;
  en_get_module_list := true;
  en_get_module_source := true;
  en_get_instance_list := true;
  en_get_instance_info := true;
  en_get_instance_state := true;
  en_instance_state_lookup := true;
  en_get_next_account_sequence_number := true;
  en_get_consensus_info := true;
  en_get_ancestors := true;
  en_get_block_item_status := true;
  en_invoke_instance := true;
  en_get_cryptographic_parameters := true;
  en_get_block_info := true;
  en_get_baker_list := true;
  en_get_pool_info := true;
  en_get_passive_delegation_info := true;
  en_get_blocks_at_height := true;
  en_get_tokenomics_info := true;
  en_get_pool_delegators := true;
  en_get_pool_delegators_reward_period := true;
  en_get_passive_delegators := true;
  en_get_passive_delegators_reward_period := true;
  en_get_branches := true;
  en_get_election_info := true;
  en_get_identity_providers := true;
  en_get_anonymity_revokers := true;
  en_get_account_non_finalized_transactions := true;
  en_get_block_transaction_events := true;
  en_get_block_special_events := true;
  en_get_block_pending_updates := true;
  en_get_next_update_sequence_numbers := true;
  en_get_block_chain_parameters := true;
  en_get_block_finalization_summary := true;
  en_shutdown := true;
  en_peer_connect := true;
  en_peer_disconnect := true;
  en_get_banned_peers := true;
  en_ban_peer := true;
  en_unban_peer := true;
  en_dump_start := true;
  en_dump_stop := true;
  en_get_peers_info := true;
  en_get_node_info := true;
  en_send_block_item := true;
  en_get_account_transaction_sign_hash := true;
  en_get_block_items := true;
|}.

(** [from_file]: the configuration file is a TOML table, whose parser is a parameter
    ([None] when the file cannot be read or parsed); an endpoint that is not listed is
    disabled, and a key that is listed has to be a boolean. *)
Definition from_table (table : string → option bool) : ServiceConfig := {|
  en_get_finalized_blocks := default false (table "get_finalized_blocks");
  en_get_blocks := default false (table "get_blocks");
  en_get_account_list := default false (table "get_account_list");
  en_get_account_info := default false (table "get_account_info");
  en_get_module_list := default false (table "get_module_list");
  en_get_module_source := default false (table "get_module_source");
  en_get_instance_list := default false (table "get_instance_list");
  en_get_instance_info := default false (table "get_instance_info");
  en_get_instance_state := default false (table "get_instance_state");
  en_instance_state_lookup := default false (table "instance_state_lookup");
  en_get_next_account_sequence_number := default false (table "get_next_account_sequence_number");
  en_get_consensus_info := default false (table "get_consensus_info");
  en_get_ancestors := default false (table "get_ancestors");
  en_get_block_item_status := default false (table "get_block_item_status");
  en_invoke_instance := default false (table "invoke_instance");
  en_get_cryptographic_parameters := default false (table "get_cryptographic_parameters");
  en_get_block_info := default false (table "get_block_info");
  en_get_baker_list := default false (table "get_baker_list");
  en_get_pool_info := default false (table "get_pool_info");
  en_get_passive_delegation_info := default false (table "get_passive_delegation_info");
  en_get_blocks_at_height := default false (table "get_blocks_at_height");
  en_get_tokenomics_info := default false (table "get_tokenomics_info");
  en_get_pool_delegators := default false (table "get_pool_delegators");
  en_get_pool_delegators_reward_period := default false (table "get_pool_delegators_reward_period");
  en_get_passive_delegators := default false (table "get_passive_delegators");
  en_get_passive_delegators_reward_period := default false (table "get_passive_delegators_reward_period");
  en_get_branches := default false (table "get_branches");
  en_get_election_info := default false (table "get_election_info");
  en_get_identity_providers := default false (table "get_identity_providers");
  en_get_anonymity_revokers := default false (table "get_anonymity_revokers");
  en_get_account_non_finalized_transactions := default false (table "get_account_non_finalized_transactions");
  en_get_block_transaction_events := default false (table "get_block_transaction_events");
  en_get_block_special_events := default false (table "get_block_special_events");
  en_get_block_pending_updates := default false (table "get_block_pending_updates");
  en_get_next_update_sequence_numbers := default false (table "get_next_update_sequence_numbers");
  en_get_block_chain_parameters := default false (table "get_block_chain_parameters");
  en_get_block_finalization_summary := default false (table "get_block_finalization_summary");
  en_shutdown := default false (table "shutdown");
  en_peer_connect := default false (table "peer_connect");
  en_peer_disconnect := default false (table "peer_disconnect");
  en_get_banned_peers := default false (table "get_banned_peers");
  en_ban_peer := default false (table "ban_peer");
  en_unban_peer := default false (table "unban_peer");
  en_dump_start := default false (table "dump_start");
  en_dump_stop := default false (table "dump_stop");
  en_get_peers_info := default false (table "get_peers_info");
  en_get_node_info := default false (table "get_node_info");
  en_send_block_item := default false (table "send_block_item");
  en_get_account_transaction_sign_hash := default false (table "get_account_transaction_sign_hash");
  en_get_block_items := default false (table "get_block_items");
|}.

Definition from_file (parsed : option (string → option bool)) : outcome ServiceConfig :=
  match parsed with
  | Some table => Ok (from_table table)
  | None => bail "Unable to read or parse the endpoints configuration file."
  end.
