(* ===== verification/PeerTypes.v ===== *)
(** * Peers and their identifiers

    Models [concordium-node/src/common/p2p_node_id.rs] and
    [concordium-node/src/common/p2p_peer.rs]: node and peer identifiers, their
    hexadecimal form and their wire form, peer types, socket addresses and the
    peer objects kept by connections and sent in peer lists. *)
From S2P Require Import Prelude.
From Stdlib Require Import Ascii.

(** ** Identifiers *)

(** The identifier a node announces to its peers. *)
Record P2PNodeId := MkP2PNodeId { as_raw : u64 }.

(** The local identifier of a connection; [usize] is 64 bits wide. *)
Record RemotePeerId := MkRemotePeerId { remote_peer_id : u64 }.

(** The poll token of a socket, [mio::Token]. *)
Record Token := MkToken { token_id : u64 }.

#[global] Instance P2PNodeId_eq_dec : EqDecision P2PNodeId.
Proof. solve_decision. Defined.
#[global] Instance RemotePeerId_eq_dec : EqDecision RemotePeerId.
Proof. solve_decision. Defined.
#[global] Instance Token_eq_dec : EqDecision Token.
Proof. solve_decision. Defined.
#[global] Instance RemotePeerId_countable : Countable RemotePeerId.
Proof. apply (inj_countable' remote_peer_id MkRemotePeerId). by intros []. Defined.
#[global] Instance Token_countable : Countable Token.
Proof. apply (inj_countable' token_id MkToken). by intros []. Defined.

(** [RemotePeerId::to_token] and [From<mio::Token> for RemotePeerId]. *)
Definition to_token (id : RemotePeerId) : Token := MkToken (remote_peer_id id).
Definition RemotePeerId_from_token (t : Token) : RemotePeerId := MkRemotePeerId (token_id t).

#[global] Instance to_token_inj : Inj (=) (=) to_token.
Proof. intros [] []; cbv; naive_solver. Qed.

Lemma to_token_from_token t : to_token (RemotePeerId_from_token t) = t.
Proof. by destruct t. Qed.

(** ** Hexadecimal form *)

Module Hex.

(** A lower-case hexadecimal digit, as printed by ["{:x}"]. *)
Definition digit (d : Z) : ascii :=
  if decide (d < 10)%Z then ascii_of_nat (48 + Z.to_nat d)
  else ascii_of_nat (87 + Z.to_nat d).

(** [char::to_digit(16)]: digits of either case. *)
Definition to_digit (c : ascii) : option Z :=
  let n := Z.of_nat (nat_of_ascii c) in
  if decide (48 ≤ n ≤ 57)%Z then Some (n - 48)%Z
  else if decide (97 ≤ n ≤ 102)%Z then Some (n - 87)%Z
  else if decide (65 ≤ n ≤ 70)%Z then Some (n - 55)%Z
  else None.

(** The [k] low-order hexadecimal digits, most significant first. *)
Fixpoint digits (k : nat) (x : Z) : list ascii :=
  match k with
  | O => []
  | S k => digit ((x / 16 ^ Z.of_nat k) mod 16)%Z :: digits k x
  end.

(** [format!("{:016x}", x)] for a 64-bit [x]. *)
Definition format_016x (x : u64) : list ascii := digits 16 x.

(** The digit loop of [u64::from_str_radix(s, 16)]: each digit is checked
    and each multiplication and addition may overflow. *)
Fixpoint from_digits (acc : Z) (s : list ascii) : outcome Z :=
  match s with
  | [] => Ok acc
  | c :: s =>
    match to_digit c with
    | None => Err (Other "invalid digit found in string")
    | Some d =>
      let acc' := (acc * 16 + d)%Z in
      if decide (fits 64 acc') then from_digits acc' s
      else Err (Other "number too large to fit in target type")
    end
  end.

(** [u64::from_str_radix(s, 16)]: the empty string and a lone sign are
    rejected, a leading plus sign is skipped. *)
Definition from_str_radix_16 (s : list ascii) : outcome Z :=
  match s with
  | [] => Err (Other "cannot parse integer from empty string")
  | [c] => if decide (c = "+"%char ∨ c = "-"%char)
           then Err (Other "invalid digit found in string") else from_digits 0 s
  | c :: s' => if decide (c = "+"%char) then from_digits 0 s' else from_digits 0 s
  end.

Lemma to_digit_digit d : (0 ≤ d < 16)%Z → to_digit (digit d) = Some d.
Proof.
  intros Hd.
  assert (d ∈ (Z.of_nat <$> seq 0 16)) as Hin.
  { apply list_elem_of_fmap. exists (Z.to_nat d). split; [lia|]. apply elem_of_seq. lia. }
  revert Hin. simpl. intros Hin.
  repeat (apply elem_of_cons in Hin as [->|Hin]; [reflexivity|]).
  by apply not_elem_of_nil in Hin.
Qed.

Lemma digit_not_sign d : (0 ≤ d < 16)%Z → digit d ≠ "+"%char ∧ digit d ≠ "-"%char.
Proof.
  intros Hd. pose proof (to_digit_digit d Hd) as H.
  split; intros E; rewrite E in H; vm_compute in H; discriminate.
Qed.

Lemma from_digits_digits k acc x :
  (0 ≤ acc)%Z → fits 64 (acc * 16 ^ Z.of_nat k + x mod 16 ^ Z.of_nat k) →
  from_digits acc (digits k x) = Ok (acc * 16 ^ Z.of_nat k + x mod 16 ^ Z.of_nat k)%Z.
Proof.
  revert acc. induction k as [|k IH]; intros acc Hacc Hfit.
  - simpl. f_equal. rewrite Z.mod_1_r. lia.
  - pose proof (Z.mod_pos_bound (x / 16 ^ Z.of_nat k) 16 ltac:(lia)) as Hd.
    pose proof (Z.mod_pos_bound x (16 ^ Z.of_nat k) ltac:(lia)) as Hm.
    assert (acc * 16 ^ Z.of_nat (S k) + x mod 16 ^ Z.of_nat (S k)
      = (acc * 16 + (x / 16 ^ Z.of_nat k) mod 16) * 16 ^ Z.of_nat k
        + x mod 16 ^ Z.of_nat k)%Z as Heq.
    { rewrite Nat2Z.inj_succ, Z.pow_succ_r by lia.
      rewrite (Z.mul_comm 16 (16 ^ _)), Z.rem_mul_r by lia. lia. }
    rewrite Heq in Hfit |- *. simpl. rewrite to_digit_digit by lia.
    rewrite decide_True.
    + apply IH; [lia|done].
    + destruct Hfit as [? Hfit]. split; [lia|].
      assert (1 ≤ 16 ^ Z.of_nat k)%Z by lia. nia.
Qed.

(** Printing an identifier and parsing it back is the identity. *)
Lemma from_str_format x : fits 64 x → from_str_radix_16 (format_016x x) = Ok x.
Proof.
  intros Hx. unfold format_016x.
  assert (from_digits 0 (digits 16 x) = Ok x) as Hr.
  { pose proof (from_digits_digits 16 0 x ltac:(lia)) as H.
    change (16 ^ Z.of_nat 16)%Z with (2 ^ 64)%Z in H.
    rewrite Z.mul_0_l, Z.add_0_l, Z.mod_small in H by apply Hx. by apply H. }
  change (digits 16 x) with
    (digit ((x / 16 ^ Z.of_nat 15) mod 16)%Z :: digits 15 x) in *.
  pose proof (digit_not_sign ((x / 16 ^ Z.of_nat 15) mod 16)%Z
    (Z.mod_pos_bound _ 16 ltac:(lia))) as [Hplus _].
  change (digits 15 x) with
    (digit ((x / 16 ^ Z.of_nat 14) mod 16)%Z :: digits 14 x) in *.
  unfold from_str_radix_16. rewrite decide_False by exact Hplus. exact Hr.
Qed.
End Hex.

(** [Display] and [FromStr] of [P2PNodeId]. *)
Definition P2PNodeId_fmt (id : P2PNodeId) : list ascii := Hex.format_016x (as_raw id).
Definition P2PNodeId_from_str (s : list ascii) : outcome P2PNodeId :=
  match Hex.from_str_radix_16 s with
  | Ok n => Ok (MkP2PNodeId n)
  | Err _ => bail "Invalid Node Id: The Node Id should be a hexadecimal string at most 16 characters long."
  | Panic m => Panic m
  end.

(** [Display] and [FromStr] of [RemotePeerId]. *)
Definition RemotePeerId_fmt (id : RemotePeerId) : list ascii :=
  Hex.format_016x (remote_peer_id id).
Definition RemotePeerId_from_str (s : list ascii) : outcome RemotePeerId :=
  match Hex.from_str_radix_16 s with
  | Ok n => Ok (MkRemotePeerId n)
  | Err _ => bail "Invalid Remote Peer Id"
  | Panic m => Panic m
  end.

(** ** Wire form

    [concordium_base] serializes integers and addresses; only what the node
    relies on is assumed: reading back what was written returns the value and
    leaves the rest of the input. *)

Class Serial (A : Type) := {
  serial : A → bytes;
  deserial : bytes → outcome (A * bytes);
}.

(** The round trip on the values that satisfy [P]. *)
Class SerialLaws (A : Type) `{!Serial A} (P : A → Prop) :=
  deserial_serial (a : A) (rest : bytes) : P a → deserial (serial a ++ rest) = Ok (a, rest).

(** Big-endian integers of [n] bytes; used for concrete inputs. *)
Definition be_serial (n : nat) : Serial Z := {|
  serial := to_be_bytes n;
  deserial bs := if decide (n ≤ length bs)
                 then Ok (from_be_bytes (take n bs), drop n bs)
                 else Err (IoError "failed to fill whole buffer");
|}.

Lemma be_serial_laws n :
  @SerialLaws Z (be_serial n) (fits (8 * Z.of_nat n)).
Proof.
  intros x rest Hx. simpl. rewrite decide_True by (autorewrite with node; lia).
  rewrite take_app_length', drop_app_length' by by rewrite length_to_be_bytes.
  by rewrite from_to_be_bytes_small.
Qed.

Section serial.
Context `{!Serial u64}.

(** [Serial] and [Deserial] of [P2PNodeId] and [RemotePeerId]. *)
Definition P2PNodeId_serial (id : P2PNodeId) : bytes := serial (as_raw id).
Definition P2PNodeId_deserial (source : bytes) : outcome (P2PNodeId * bytes) :=
  '(n, rest) ← deserial source; Ok (MkP2PNodeId n, rest).

Definition RemotePeerId_serial (id : RemotePeerId) : bytes :=
  serial (as_u64 (remote_peer_id id)).
Definition RemotePeerId_deserial (source : bytes) : outcome (RemotePeerId * bytes) :=
  '(n, rest) ← deserial source; Ok (MkRemotePeerId n, rest).
End serial.

(** ** Addresses *)

(** [std::net::IpAddr]; an address is its 32-bit or 128-bit value. *)
Inductive IpAddr :=
  | V4 (ip : Z)
  | V6 (ip : Z).

#[global] Instance IpAddr_eq_dec : EqDecision IpAddr.
Proof. solve_decision. Defined.
#[global] Instance IpAddr_countable : Countable IpAddr.
Proof.
  apply (inj_countable'
    (λ a, match a with V4 ip => inl ip | V6 ip => inr ip end)
    (λ s, match s with inl ip => V4 ip | inr ip => V6 ip end)).
  by intros [].
Defined.

(** [octets()] and [IpAddr::from([u8; 4])], [IpAddr::from([u8; 16])]. *)
Definition octets (ip : IpAddr) : bytes :=
  match ip with V4 ip => to_be_bytes 4 ip | V6 ip => to_be_bytes 16 ip end.

Definition ip_wf (ip : IpAddr) : Prop :=
  match ip with V4 ip => fits 32 ip | V6 ip => fits 128 ip end.

(** [Ipv4Addr::is_loopback], [is_link_local], [is_multicast], [is_broadcast]. *)
Definition ipv4_octet (i : nat) (ip : Z) : Z :=
  default 0%Z (to_be_bytes 4 ip !! i).
Definition is_loopback (ip : Z) : bool := bool_decide (ipv4_octet 0 ip = 127%Z).
Definition is_link_local (ip : Z) : bool :=
  bool_decide (ipv4_octet 0 ip = 169%Z ∧ ipv4_octet 1 ip = 254%Z).
Definition is_multicast (ip : Z) : bool := bool_decide (224 ≤ ipv4_octet 0 ip ≤ 239)%Z.
Definition is_broadcast (ip : Z) : bool := bool_decide (to_be_bytes 4 ip = [255;255;255;255]%Z).

Record SocketAddr := MkSocketAddr { addr_ip : IpAddr; addr_port : u16 }.

#[global] Instance SocketAddr_eq_dec : EqDecision SocketAddr.
Proof. solve_decision. Defined.
#[global] Instance SocketAddr_countable : Countable SocketAddr.
Proof.
  apply (inj_countable' (λ a, (addr_ip a, addr_port a)) (λ p, MkSocketAddr p.1 p.2)).
  by intros [].
Defined.

(** ** Peers *)

Inductive PeerType := Node | Bootstrapper.

#[global] Instance PeerType_eq_dec : EqDecision PeerType.
Proof. solve_decision. Defined.

(** A peer as it is announced over the network. *)
Record P2PPeer := MkP2PPeer {
  p2p_id : P2PNodeId;
  p2p_addr : SocketAddr;
  p2p_peer_type : PeerType;
}.

Definition P2PPeer_ip (p : P2PPeer) : IpAddr := addr_ip (p2p_addr p).
Definition P2PPeer_port (p : P2PPeer) : u16 := addr_port (p2p_addr p).

(** A remote node as it is kept by a connection. *)
Record RemotePeer := MkRemotePeer {
  self_id : option P2PNodeId;
  rp_addr : SocketAddr;
  local_id : RemotePeerId;
  external_port : u16;
  peer_type : PeerType;
}.

(** [RemotePeer::external_addr] and [RemotePeer::peer]. *)
Definition external_addr (p : RemotePeer) : SocketAddr :=
  MkSocketAddr (addr_ip (rp_addr p)) (external_port p).

Definition RemotePeer_peer (p : RemotePeer) : option P2PPeer :=
  (λ id, MkP2PPeer id (external_addr p) (peer_type p)) <$> self_id p.

(** [PartialEq for RemotePeer]: peers are compared by their local id. *)
Definition RemotePeer_eqb (p q : RemotePeer) : bool := bool_decide (local_id p = local_id q).
