(* ===== verification/IpText.v ===== *)
(** * IP addresses as text

    [FromStr] of [std::net::IpAddr], which the requests of operators are parsed
    with, and [Display] of the addresses of version 4. *)
From S2P Require Import Prelude.
From S2P Require Import PeerTypes.
From Stdlib Require Import Ascii.

(** A parser consumes a prefix of the input, or leaves it alone and fails. *)
Definition parser (A : Type) : Type := list ascii → option (A * list ascii).

Definition read_given_char (c : ascii) : parser unit := λ s,
  match s with
  | x :: s => if decide (x = c) then Some (tt, s) else None
  | [] => None
  end.

(** [read_separator(sep, index, inner)] *)
Definition read_separator {A} (sep : ascii) (index : nat) (inner : parser A) : parser A := λ s,
  match index with
  | O => inner s
  | S _ => '(_, s) ← read_given_char sep s; inner s
  end.

(** [char::to_digit] *)
Definition to_digit (radix : Z) (c : ascii) : option Z :=
  d ← Hex.to_digit c;
  if decide (d < radix)%Z then Some d else None.

(** The digits at the start of the input, with their value and number. *)
Fixpoint read_digits (radix : Z) (acc : Z) (count : nat) (s : list ascii) : Z * nat * list ascii :=
  match s with
  | c :: s' =>
    match to_digit radix c with
    | Some d => read_digits radix (acc * radix + d) (S count) s'
    | None => (acc, count, s)
    end
  | [] => (acc, count, [])
  end.

(** [read_number(radix, Some(max_digits), allow_zero_prefix)] for a type of numbers
    below [bound]. *)
Definition read_number (bound radix : Z) (max_digits : nat) (allow_zero_prefix : bool) : parser Z :=
  λ s,
  let has_leading_zero := bool_decide (head s = Some "0"%char) in
  let '(result, count, rest) := read_digits radix 0 0 s in
  if decide (count = 0 ∨ max_digits < count ∨ (bound ≤ result)%Z) then None
  else if negb allow_zero_prefix && has_leading_zero && bool_decide (1 < count) then None
  else Some (result, rest).

(** [read_ipv4_addr]: the octets. *)
Fixpoint read_octets (k : nat) (i : nat) : parser (list Z) := λ s,
  match k with
  | O => Some ([], s)
  | S k =>
    '(o, s) ← read_separator "."%char i (read_number 256 10 3 false) s;
    '(os, s) ← read_octets k (S i) s;
    Some (o :: os, s)
  end.
Definition read_ipv4_addr : parser (list Z) := read_octets 4 0.

(** [read_groups]: up to [k] groups, from the [i]-th of [limit] on; whether the last
    two came as an address of version 4. *)
Fixpoint read_groups (k i : nat) : list ascii → list Z * bool * list ascii := λ s,
  match k with
  | O => ([], false, s)
  | S k =>
    match (if decide (0 < k) then read_separator ":"%char i read_ipv4_addr s else None) with
    | Some ([a; b; c; d], s) => ([a * 256 + b; c * 256 + d]%Z, true, s)
    | _ =>
      match read_separator ":"%char i (read_number 65536 16 4 true) s with
      | Some (g, s) => let '(gs, v4, s) := read_groups k (S i) s in (g :: gs, v4, s)
      | None => ([], false, s)
      end
    end
  end.

(** [read_ipv6_addr]: the eight groups. *)
Definition read_ipv6_addr : parser (list Z) := λ s,
  let '(head, head_ipv4, s) := read_groups 8 0 s in
  if decide (length head = 8) then Some (head, s)
  else if (head_ipv4 : bool) then None
  else
    '(_, s) ← read_given_char ":"%char s;
    '(_, s) ← read_given_char ":"%char s;
    let limit := 8 - (length head + 1) in
    let '(tail, _, s) := read_groups limit 0 s in
    Some (head ++ replicate (8 - length head - length tail) 0%Z ++ tail, s).

Definition of_digits (base : Z) (ds : list Z) : Z := foldl (λ acc d, acc * base + d)%Z 0%Z ds.

(** [IpAddr::from_str] *)
Definition IpAddr_from_str (s : list ascii) : option IpAddr :=
  match (match read_ipv4_addr s with
         | Some (os, s) => Some (V4 (of_digits 256 os), s)
         | None => '(gs, s) ← read_ipv6_addr s; Some (V6 (of_digits 65536 gs), s)
         end) with
  | Some (ip, []) => Some ip
  | _ => None
  end.

(** ** Printing and parsing *)

(** A number below 256 in decimal. *)
Definition decimal (x : Z) : list ascii :=
  if decide (x < 10)%Z then [Hex.digit x]
  else if decide (x < 100)%Z then [Hex.digit (x / 10)%Z; Hex.digit (x mod 10)%Z]
  else [Hex.digit (x / 100)%Z; Hex.digit (x / 10 mod 10)%Z; Hex.digit (x mod 10)%Z].

(** [Display for Ipv4Addr] *)
Definition Ipv4Addr_fmt (ip : Z) : list ascii :=
  decimal (ip / 2 ^ 24 mod 256)%Z ++ "."%char :: decimal (ip / 2 ^ 16 mod 256)%Z
  ++ "."%char :: decimal (ip / 2 ^ 8 mod 256)%Z ++ "."%char :: decimal (ip mod 256)%Z.

Lemma read_decimal x s :
  fits 8 x → head s = None ∨ head s = Some "."%char →
  read_number 256 10 3 false (decimal x ++ s) = Some (x, s).
Proof.
  intros Hx Hs.
  assert (x ∈ (Z.of_nat <$> seq 0 256)) as Hin.
  { apply list_elem_of_fmap. exists (Z.to_nat x). unfold fits in Hx.
    split; [lia|]. apply elem_of_seq. lia. }
  clear Hx. assert (∀ x, x ∈ (Z.of_nat <$> seq 0 256) →
    read_number 256 10 3 false (decimal x ++ []) = Some (x, [])
    ∧ ∀ r, read_number 256 10 3 false (decimal x ++ "."%char :: r) = Some (x, "."%char :: r)) as H.
  { apply Forall_forall. simpl. repeat constructor; reflexivity. }
  specialize (H x Hin) as [H1 H2]. clear Hin.
  destruct s as [|c s]; [exact H1|]. destruct Hs as [Hs|Hs]; [discriminate Hs|]. injection Hs as ->. apply H2.
Qed.

(** An address of version 4 that is printed is parsed as itself. *)
Theorem ipv4_print_parse ip : fits 32 ip → IpAddr_from_str (Ipv4Addr_fmt ip) = Some (V4 ip).
Proof.
  intros Hip. set (o k := (ip / 2 ^ k mod 256)%Z).
  assert (∀ k, fits 8 (o k)) as Hf by (intros k; unfold o, fits; apply Z.mod_pos_bound; lia).
  assert (read_ipv4_addr (Ipv4Addr_fmt ip) = Some ([o 24; o 16; o 8; o 0]%Z, [])) as Hr.
  { unfold read_ipv4_addr, Ipv4Addr_fmt. fold (o 24%Z) (o 16%Z) (o 8%Z).
    assert (ip mod 256 = o 0)%Z as -> by (unfold o; by rewrite Z.div_1_r).
    cbn [read_octets read_separator]. rewrite read_decimal by auto.
    cbn [mbind option_bind read_given_char]. rewrite decide_True by done. cbn [mbind option_bind].
    rewrite read_decimal by auto. cbn [mbind option_bind read_given_char].
    rewrite decide_True by done. cbn [mbind option_bind]. rewrite read_decimal by auto.
    cbn [mbind option_bind read_given_char]. rewrite decide_True by done. cbn [mbind option_bind].
    rewrite <-(app_nil_r (decimal (o 0%Z))), read_decimal by auto. done. }
  unfold IpAddr_from_str. rewrite Hr. f_equal. f_equal. unfold of_digits, o. simpl.
  unfold fits in Hip. rewrite Z.div_1_r. clear Hr Hf o.
  rewrite (Z.mod_small (ip / 2 ^ 24)) by (split; [apply Z.div_pos; lia|apply Z.div_lt_upper_bound; lia]).
  pose proof (Z.div_mod ip 256 ltac:(lia)).
  pose proof (Z.div_mod (ip / 2 ^ 8) 256 ltac:(lia)). pose proof (Z.div_mod (ip / 2 ^ 16) 256 ltac:(lia)).
  change (2 ^ 24)%Z with (2 ^ 16 * 256)%Z. change (2 ^ 16)%Z with (2 ^ 8 * 256)%Z in *.
  change (2 ^ 8)%Z with 256%Z in *. rewrite <-!Z.div_div in * by lia. lia.
Qed.
