(* ===== verification/Dedup.v ===== *)
(** * Deduplication of broadcast packets

    Models the deduplication queues of [concordium-node/src/connection/mod.rs]:
    a bounded circular queue of hashes per packet type, with XxHash64 or SHA256
    as the hashing algorithm.  The [DeduplicationQueue] trait is a class; the
    two implementations and the boxed [dyn] object are instances.  [DedupWindow]
    states what a queue promises to the connection code (a sliding window over
    the accepted messages), and the implementations are shown to provide it. *)
From S2P Require Import Prelude.

(** ** The circular queue

    The [circular_queue] crate: pushing onto a full queue overwrites the oldest
    element, iteration goes from the newest element to the oldest, and
    [iter_mut] gives access to the elements in that order. *)

Class CircularQueue (cq : Type → Type) := {
  cq_with_capacity {A} : nat → cq A;
  cq_capacity {A} : cq A → nat;
  cq_push {A} : A → cq A → cq A;
  cq_iter {A} : cq A → list A;
  cq_set {A} : nat → A → cq A → cq A;
}.

Class CircularQueueLaws (cq : Type → Type) `{!CircularQueue cq} := {
  cq_iter_new A n : cq_iter (cq_with_capacity (A:=A) n) = [];
  cq_capacity_new A n : cq_capacity (cq_with_capacity (A:=A) n) = n;
  cq_iter_push A (x : A) q : cq_iter (cq_push x q) = take (cq_capacity q) (x :: cq_iter q);
  cq_capacity_push A (x : A) q : cq_capacity (cq_push x q) = cq_capacity q;
  cq_iter_set A i (x : A) q : cq_iter (cq_set i x q) = <[i:=x]> (cq_iter q);
  cq_capacity_set A i (x : A) q : cq_capacity (cq_set i x q) = cq_capacity q;
}.

(** A list-based queue, for concrete inputs. *)
Record list_cq (A : Type) := MkListCq { lcq_cap : nat; lcq_items : list A }.
Arguments MkListCq {_} _ _.
Arguments lcq_cap {_} _.
Arguments lcq_items {_} _.

#[global] Instance list_cq_queue : CircularQueue list_cq := {|
  cq_with_capacity A n := MkListCq n [];
  cq_capacity A q := lcq_cap q;
  cq_push A x q := MkListCq (lcq_cap q) (take (lcq_cap q) (x :: lcq_items q));
  cq_iter A q := lcq_items q;
  cq_set A i x q := MkListCq (lcq_cap q) (<[i:=x]> (lcq_items q));
|}.

#[global] Instance list_cq_laws : CircularQueueLaws list_cq.
Proof. by constructor. Qed.

(** ** The hashes *)

Class DedupHashes := {
  (** [XxHash64::with_seed(seed)] applied to the input. *)
  xxhash64 : u64 → bytes → u64;
  (** [Sha256::digest(input)] *)
  sha256 : bytes → bytes;
}.

(** ** The queues *)

Class DeduplicationQueue (Q : Type) := {
  check_and_insert : Q → bytes → outcome bool * Q;
  invalidate_if_exists : Q → bytes → Q;
}.

Section dedup.
Context {cq : Type → Type} `{!CircularQueue cq, !DedupHashes}.

(** XxHash64 *)
Record DeduplicationQueueXxHash64 := MkXx {
  seed : u64;
  xx_queue : cq u64;
}.

(** [new]: the seed is drawn at random. *)
Definition Xx_new (random_seed : u64) (capacity : nat) : DeduplicationQueueXxHash64 :=
  MkXx random_seed (cq_with_capacity capacity).

Definition Xx_hash (self : DeduplicationQueueXxHash64) (input : bytes) : u64 :=
  xxhash64 (seed self) input.

Definition Xx_check_and_insert (self : DeduplicationQueueXxHash64) (input : bytes) :
    outcome bool * DeduplicationQueueXxHash64 :=
  let num := Xx_hash self input in
  if negb (existsb (λ n, bool_decide (n = num)) (cq_iter (xx_queue self)))
  then (Ok false, MkXx (seed self) (cq_push num (xx_queue self)))
  else (Ok true, self).

Definition Xx_invalidate_if_exists (self : DeduplicationQueueXxHash64) (input : bytes) :
    DeduplicationQueueXxHash64 :=
  let num := Xx_hash self input in
  match list_find (λ val, val = num) (cq_iter (xx_queue self)) with
  | Some (i, old_val) => MkXx (seed self) (cq_set i (bit_not 64 old_val) (xx_queue self))
  | None => self
  end.

#[global] Instance Xx_DeduplicationQueue : DeduplicationQueue DeduplicationQueueXxHash64 := {|
  check_and_insert := Xx_check_and_insert;
  invalidate_if_exists := Xx_invalidate_if_exists;
|}.

(** SHA256 *)
Record DeduplicationQueueSha256 := MkSha {
  sha_queue : cq bytes;
}.

Definition Sha_new (capacity : nat) : DeduplicationQueueSha256 :=
  MkSha (cq_with_capacity capacity).

Definition Sha_check_and_insert (self : DeduplicationQueueSha256) (input : bytes) :
    outcome bool * DeduplicationQueueSha256 :=
  let hash := sha256 input in
  if negb (existsb (λ n, bool_decide (n = hash)) (cq_iter (sha_queue self)))
  then (Ok false, MkSha (cq_push hash (sha_queue self)))
  else (Ok true, self).

Definition Sha_invalidate_if_exists (self : DeduplicationQueueSha256) (input : bytes) :
    DeduplicationQueueSha256 :=
  let hash := sha256 input in
  match list_find (λ val, val = hash) (cq_iter (sha_queue self)) with
  | Some (i, _) => MkSha (cq_set i (replicate 32 0%Z) (sha_queue self))
  | None => self
  end.

#[global] Instance Sha_DeduplicationQueue : DeduplicationQueue DeduplicationQueueSha256 := {|
  check_and_insert := Sha_check_and_insert;
  invalidate_if_exists := Sha_invalidate_if_exists;
|}.

(** [Box<dyn DeduplicationQueue>] *)
Inductive DynQueue :=
  | DynXx (q : DeduplicationQueueXxHash64)
  | DynSha (q : DeduplicationQueueSha256).

#[global] Instance Dyn_DeduplicationQueue : DeduplicationQueue DynQueue := {|
  check_and_insert q input :=
    match q with
    | DynXx q => let '(r, q') := check_and_insert q input in (r, DynXx q')
    | DynSha q => let '(r, q') := check_and_insert q input in (r, DynSha q')
    end;
  invalidate_if_exists q input :=
    match q with
    | DynXx q => DynXx (invalidate_if_exists q input)
    | DynSha q => DynSha (invalidate_if_exists q input)
    end;
|}.

(** ** The four queues of a node *)

Inductive DeduplicationHashAlgorithm := XxHash64 | Sha256.

Definition DeduplicationHashAlgorithm_from_str (algorithm : string) :
    outcome DeduplicationHashAlgorithm :=
  if decide (algorithm = "xxhash64") then Ok XxHash64
  else if decide (algorithm = "sha256") then Ok Sha256
  else bail "Could not parse deduplication hashing algorithm".

Record DeduplicationQueues := MkDeduplicationQueues {
  finalizations : DynQueue;
  transactions : DynQueue;
  blocks : DynQueue;
  fin_records : DynQueue;
}.

(** [DeduplicationQueues::new]; [seeds] are the four random seeds. *)
Definition DeduplicationQueues_new (algorithm : DeduplicationHashAlgorithm)
    (seeds : u64 * u64 * u64 * u64) (long_size short_size : nat) : DeduplicationQueues :=
  let '(s1, s2, s3, s4) := seeds in
  match algorithm with
  | XxHash64 => {|
      finalizations := DynXx (Xx_new s1 long_size);
      transactions := DynXx (Xx_new s2 long_size);
      blocks := DynXx (Xx_new s3 short_size);
      fin_records := DynXx (Xx_new s4 short_size) |}
  | Sha256 => {|
      finalizations := DynSha (Sha_new long_size);
      transactions := DynSha (Sha_new long_size);
      blocks := DynSha (Sha_new short_size);
      fin_records := DynSha (Sha_new short_size) |}
  end.

(** [dedup_with]: is the message a duplicate? *)
Definition dedup_with (message : bytes) (queue : DynQueue) : outcome bool * DynQueue :=
  check_and_insert queue message.
End dedup.
Arguments DeduplicationQueueXxHash64 : clear implicits.
Arguments DeduplicationQueueSha256 : clear implicits.
Arguments DynQueue : clear implicits.
Arguments DeduplicationQueues : clear implicits.

(** ** What a queue promises

    A sliding window: the hashes of the last [dedup_capacity] messages that
    were not duplicates, the newest first. *)
Class DedupWindow (Q : Type) `{!DeduplicationQueue Q} (H : Type) := {
  dedup_window : Q → list H;
  dedup_capacity : Q → nat;
  dedup_hash : Q → bytes → H;
  check_duplicate q m :
    dedup_hash q m ∈ dedup_window q → check_and_insert q m = (Ok true, q);
  check_fresh q m :
    dedup_hash q m ∉ dedup_window q →
    ∃ q', check_and_insert q m = (Ok false, q') ∧
      dedup_window q' = take (dedup_capacity q) (dedup_hash q m :: dedup_window q) ∧
      dedup_capacity q' = dedup_capacity q ∧ dedup_hash q' = dedup_hash q;
}.

Section window_instances.
Context {cq : Type → Type} `{!CircularQueue cq, !CircularQueueLaws cq, !DedupHashes}.

Lemma existsb_decide_eq `{EqDecision A} (x : A) (l : list A) :
  existsb (λ n, bool_decide (n = x)) l = bool_decide (x ∈ l).
Proof.
  apply eq_iff_eq_true. rewrite existsb_exists, bool_decide_eq_true.
  setoid_rewrite bool_decide_eq_true. setoid_rewrite <-list_elem_of_In. naive_solver.
Qed.

#[global] Program Instance Xx_window :
    DedupWindow (DeduplicationQueueXxHash64 cq) u64 := {|
  dedup_window q := cq_iter (xx_queue q);
  dedup_capacity q := cq_capacity (xx_queue q);
  dedup_hash q := Xx_hash q;
|}.
Next Obligation.
  intros q m Hin. simpl. unfold Xx_check_and_insert.
  by rewrite existsb_decide_eq, bool_decide_eq_true_2.
Qed.
Next Obligation.
  intros q m Hin. simpl. unfold Xx_check_and_insert.
  rewrite existsb_decide_eq, bool_decide_eq_false_2 by done. simpl.
  eexists; split_and!; [done| |by apply cq_capacity_push|done].
  cbn [xx_queue sha_queue]. by rewrite cq_iter_push.
Qed.

#[global] Program Instance Sha_window :
    DedupWindow (DeduplicationQueueSha256 cq) bytes := {|
  dedup_window q := cq_iter (sha_queue q);
  dedup_capacity q := cq_capacity (sha_queue q);
  dedup_hash _ := sha256;
|}.
Next Obligation.
  intros q m Hin. simpl. unfold Sha_check_and_insert.
  by rewrite existsb_decide_eq, bool_decide_eq_true_2.
Qed.
Next Obligation.
  intros q m Hin. simpl. unfold Sha_check_and_insert.
  rewrite existsb_decide_eq, bool_decide_eq_false_2 by done. simpl.
  eexists; split_and!; [done| |by apply cq_capacity_push|done].
  cbn [xx_queue sha_queue]. by rewrite cq_iter_push.
Qed.

Definition dyn_contents (q : DynQueue cq) : list (u64 + bytes) :=
  match q with
  | DynXx q => inl <$> dedup_window q
  | DynSha q => inr <$> dedup_window q
  end.
Definition dyn_capacity (q : DynQueue cq) : nat :=
  match q with DynXx q => dedup_capacity q | DynSha q => dedup_capacity q end.
Definition dyn_hash (q : DynQueue cq) (m : bytes) : u64 + bytes :=
  match q with DynXx q => inl (dedup_hash q m) | DynSha q => inr (dedup_hash q m) end.

#[global] Program Instance Dyn_window : DedupWindow (DynQueue cq) (u64 + bytes) := {|
  dedup_window := dyn_contents;
  dedup_capacity := dyn_capacity;
  dedup_hash := dyn_hash;
|}.
Next Obligation.
  intros [q|q] m; intros (h & [= <-] & Hin)%list_elem_of_fmap;
    pose proof (check_duplicate q m Hin) as E; simpl in E |- *; by rewrite E.
Qed.
Next Obligation.
  intros [q|q] m Hin;
    (destruct (check_fresh q m) as (q' & Hc & Hw & Hcap & Hh);
    [intros Hin'; apply Hin, list_elem_of_fmap; by eexists|]);
    simpl in Hc, Hw, Hcap, Hh; [exists (DynXx q')|exists (DynSha q')]; simpl; rewrite Hc;
    (split_and!; [done|by rewrite Hw, fmap_take|done|]); [|done].
  unfold dyn_hash. simpl. by rewrite Hh.
Qed.
End window_instances.

(** ** The window as seen by a client *)

Section window_theory.
Context `{!DeduplicationQueue Q} {H : Type} `{!EqDecision H} `{!DedupWindow Q H}.
Implicit Types (q : Q) (m : bytes).

Definition is_dup q m : bool := bool_decide (dedup_hash q m ∈ dedup_window q).

(** Feed a sequence of messages; the verdicts and the final queue. *)
Fixpoint check_all q (ms : list bytes) : list (outcome bool) * Q :=
  match ms with
  | [] => ([], q)
  | m :: ms =>
    let '(r, q1) := check_and_insert q m in
    let '(rs, q2) := check_all q1 ms in (r :: rs, q2)
  end.

(** The number of messages of a run that were accepted as new. *)
Definition accepted (rs : list (outcome bool)) : nat :=
  length (filter (λ r, r = Ok false) rs).

Lemma check_step q m :
  ∃ q', check_and_insert q m = (Ok (is_dup q m), q') ∧
    dedup_hash q' = dedup_hash q ∧ dedup_capacity q' = dedup_capacity q ∧
    dedup_window q' = if is_dup q m then dedup_window q
                      else take (dedup_capacity q) (dedup_hash q m :: dedup_window q).
Proof.
  unfold is_dup. case_bool_decide as Hin.
  - exists q. by rewrite check_duplicate.
  - destruct (check_fresh q m Hin) as (q' & ? & ? & ? & ?). by exists q'.
Qed.

(** An entry moves back by one place per accepted message, and is still in
    the window as long as its place is below the capacity. *)
Lemma check_all_lookup q ms rs q' i h :
  check_all q ms = (rs, q') → dedup_window q !! i = Some h →
  i + accepted rs < dedup_capacity q →
  dedup_window q' !! (i + accepted rs) = Some h ∧
  dedup_hash q' = dedup_hash q ∧ dedup_capacity q' = dedup_capacity q.
Proof.
  unfold accepted. revert q rs i.
  induction ms as [|m ms IH]; intros q rs i Hall Hi Hlt; simplify_eq/=.
  { by rewrite Nat.add_0_r. }
  destruct (check_step q m) as (q1 & Hc & Hh & Hcap & Hw).
  rewrite Hc in Hall. destruct (check_all q1 ms) as [rs1 q2] eqn:Hall1. simplify_eq.
  rewrite filter_cons in Hlt |- *. destruct (is_dup q m); simpl in *.
  - rewrite <-Hh, <-Hcap. eapply IH; [done|by rewrite Hw|congruence].
  - rewrite Nat.add_succ_r in Hlt |- *. rewrite <-Hh, <-Hcap.
    eapply (IH q1 rs1 (S i)); [done| |rewrite Hcap; simpl; lia].
    rewrite Hw, lookup_take_lt by lia. done.
Qed.

(** Every hash in the window comes from the initial window or from the run. *)
Lemma check_all_window_origin q ms rs q' h :
  check_all q ms = (rs, q') → h ∈ dedup_window q' →
  dedup_hash q' = dedup_hash q ∧
  (h ∈ dedup_window q ∨ ∃ m, m ∈ ms ∧ h = dedup_hash q m).
Proof.
  revert q rs. induction ms as [|m ms IH]; intros q rs Hall Hin; simplify_eq/=.
  { by auto. }
  destruct (check_step q m) as (q1 & Hc & Hh & Hcap & Hw).
  rewrite Hc in Hall. destruct (check_all q1 ms) as [rs1 q2] eqn:Hall1. simplify_eq.
  destruct (IH _ _ Hall1 Hin) as [Hh2 Horig]. split; [congruence|].
  rewrite Hw, Hh in Horig. destruct Horig as [Hin1|(m' & ? & ->)].
  - destruct (is_dup q m); [by left|].
    apply elem_of_take in Hin1 as (i & Hi & _).
    apply list_elem_of_lookup_2, elem_of_cons in Hi as [->|?]; set_solver.
  - right. exists m'. set_solver.
Qed.
End window_theory.

(** ** Correctness of the queues *)

Section dedup_properties.
Context {cq : Type → Type} `{!CircularQueue cq, !CircularQueueLaws cq, !DedupHashes}.

(** A message that was accepted is reported as a duplicate when it comes
    again, as long as fewer messages than the capacity of the queue have been
    accepted in between; this holds for both hashing algorithms and for every
    sequence of intermediate messages. *)
Theorem dedup_reports_repeat (q q0 q' : DynQueue cq) (m : bytes) (ms : list bytes) rs :
  check_and_insert q m = (Ok false, q0) →
  check_all q0 ms = (rs, q') →
  accepted rs < dyn_capacity q →
  dedup_with m q' = (Ok true, q').
Proof.
  intros Hm Hall Hlt. destruct (check_step q m) as (q1 & Hc & Hh & Hcap & Hw).
  rewrite Hc in Hm. injection Hm as Hd ->. simpl in *.
  destruct (check_all_lookup q0 ms rs q' 0 (dyn_hash q m)) as (Hin & Hh' & _);
    [done| |simpl; by rewrite Hcap|].
  { rewrite Hd in Hw. simpl. rewrite Hw. by destruct (dyn_capacity q); [lia|]. }
  apply check_duplicate. simpl in *. rewrite Hh', Hh.
  by eapply list_elem_of_lookup_2.
Qed.

(** A queue that starts empty only ever reports a duplicate for a message
    whose hash equals the hash of a message that was fed to it before, so with
    no hash collision no new message is dropped. *)
Theorem dedup_no_false_duplicate (q q' : DynQueue cq) (ms : list bytes) rs (m : bytes) :
  dyn_contents q = [] →
  check_all q ms = (rs, q') →
  Forall (λ m', dyn_hash q m' ≠ dyn_hash q m) ms →
  ∃ q'', dedup_with m q' = (Ok false, q'').
Proof.
  intros Hempty Hall Hms. destruct (check_step q' m) as (q'' & Hc & _).
  exists q''. unfold dedup_with. rewrite Hc. f_equal. f_equal.
  unfold is_dup. apply bool_decide_eq_false. intros Hin.
  destruct (check_all_window_origin _ _ _ _ _ Hall Hin) as [Hh [Horig|(m' & Hm' & E)]].
  - simpl in Horig. rewrite Hempty in Horig. by apply not_elem_of_nil in Horig.
  - rewrite Forall_forall in Hms. apply (Hms m'); [done|].
    simpl in E, Hh. by rewrite <-E, Hh.
Qed.

(** [x] is at no two places of [l]. *)
Definition occurs_once {A} (x : A) (l : list A) : Prop :=
  ∀ i j, l !! i = Some x → l !! j = Some x → i = j.

Lemma occurs_once_fmap {A B} (f : A → B) (x : A) (l : list A) :
  occurs_once (f x) (f <$> l) → occurs_once x l.
Proof. intros Ho i j Hi Hj. apply Ho; by rewrite list_lookup_fmap, ?Hi, ?Hj. Qed.

Lemma list_find_set_notin `{EqDecision A} (x y : A) (l : list A) :
  occurs_once x l → x ≠ y → match list_find (λ v, v = x) l with
                     | Some (i, _) => x ∉ <[i:=y]> l | None => x ∉ l end.
Proof.
  intros Hnd Hne. destruct (list_find (λ v, v = x) l) as [[i v]|] eqn:E.
  - apply list_find_Some in E as (Hi & -> & _). intros [j Hj]%list_elem_of_lookup.
    apply list_lookup_insert_Some in Hj as [(-> & -> & _)|(Hij & Hj)]; [done|].
    apply Hij. by apply Hnd.
  - apply list_find_None in E. rewrite Forall_forall in E. intros Hin. by apply (E x).
Qed.

(** After [invalidate_if_exists] the message is accepted again, for a
    queue that holds its hash at most once (the tombstones of other messages
    may repeat) and, with SHA256, a digest that is not the all-zero tombstone. *)
Theorem dedup_invalidate_accepts (q : DynQueue cq) (m : bytes) :
  occurs_once (dyn_hash q m) (dyn_contents q) →
  dyn_hash q m ≠ inr (replicate 32 0%Z) →
  ∃ q', check_and_insert (invalidate_if_exists q m) m = (Ok false, q').
Proof.
  intros Hnd Hz. destruct (check_step (invalidate_if_exists q m) m) as (q' & Hc & _).
  exists q'. rewrite Hc. f_equal. f_equal. unfold is_dup. apply bool_decide_eq_false.
  destruct q as [q|q]; simpl in *; intros (h & [= Hh] & Hin)%list_elem_of_fmap.
  - apply (occurs_once_fmap inl (Xx_hash q m)) in Hnd.
    pose proof (list_find_set_notin (Xx_hash q m) (bit_not 64 (Xx_hash q m))
      _ Hnd (not_eq_sym (bit_not_ne 64 _ ltac:(lia)))) as Hn.
    unfold Xx_invalidate_if_exists in *.
    destruct (list_find _ _) as [[i v]|] eqn:E; simpl in Hin; [|by rewrite Hh in Hn].
    apply list_find_Some in E as (_ & -> & _).
    rewrite cq_iter_set in Hin. change (Xx_hash q m = h) in Hh. by rewrite <-Hh in Hin.
  - apply (occurs_once_fmap inr (sha256 m)) in Hnd.
    pose proof (list_find_set_notin (sha256 m) (replicate 32 0%Z) _ Hnd
      ltac:(intros E; apply Hz; unfold dyn_hash; simpl; by rewrite E)) as Hn.
    unfold Sha_invalidate_if_exists in *.
    destruct (list_find _ _) as [[i v]|] eqn:E; simpl in Hin; [|by rewrite Hh in Hn].
    rewrite cq_iter_set in Hin. by rewrite Hh in Hn.
Qed.
End dedup_properties.

(** *** Witnesses: queues of capacity two over a toy hash *)

Definition toy_hashes : DedupHashes := {|
  xxhash64 s m := wrap 64 (s + foldr Z.add 0 m)%Z;
  sha256 m := replicate 31 1%Z ++ [foldr Z.add 0 m]%Z;
|}.

Definition toy_xx : DynQueue list_cq := DynXx (Xx_new (5)%Z 2).
Definition toy_sha : DynQueue list_cq := DynSha (Sha_new 2).

Lemma dedup_reports_repeat_witness :
  let H := toy_hashes in
  (dedup_with [1]%Z (check_all (check_and_insert toy_xx [1]%Z).2 [[2]; [1]; [2]]%Z).2).1 = Ok true ∧
  (dedup_with [1]%Z (check_all (check_and_insert toy_sha [1]%Z).2 [[2]; [1]; [2]]%Z).2).1 = Ok true.
Proof.
  intros H. split.
  - rewrite (dedup_reports_repeat toy_xx (check_and_insert toy_xx [1]%Z).2
      (check_all (check_and_insert toy_xx [1]%Z).2 [[2]; [1]; [2]]%Z).2 [1]%Z [[2]; [1]; [2]]%Z
      (check_all (check_and_insert toy_xx [1]%Z).2 [[2]; [1]; [2]]%Z).1);
      [reflexivity|reflexivity|reflexivity|vm_compute; lia].
  - rewrite (dedup_reports_repeat toy_sha (check_and_insert toy_sha [1]%Z).2
      (check_all (check_and_insert toy_sha [1]%Z).2 [[2]; [1]; [2]]%Z).2 [1]%Z [[2]; [1]; [2]]%Z
      (check_all (check_and_insert toy_sha [1]%Z).2 [[2]; [1]; [2]]%Z).1);
      [reflexivity|reflexivity|reflexivity|vm_compute; lia].
Defined.

Lemma dedup_no_false_duplicate_witness :
  let H := toy_hashes in
  ∃ q, dedup_with [9]%Z (check_all toy_xx [[2]; [1]; [2]]%Z).2 = (Ok false, q).
Proof.
  intros H.
  apply (dedup_no_false_duplicate toy_xx _ [[2]; [1]; [2]]%Z (check_all toy_xx [[2]; [1]; [2]]%Z).1);
    [reflexivity|reflexivity|].
  repeat constructor; vm_compute; intros; discriminate.
Defined.

Lemma dedup_invalidate_accepts_witness :
  let H := toy_hashes in
  let q := (check_all toy_sha [[2]; [1]]%Z).2 in
  ∃ q', check_and_insert (invalidate_if_exists q [1]%Z) [1]%Z = (Ok false, q').
Proof.
  intros H q. apply (dedup_invalidate_accepts q [1]%Z).
  - intros [|[|i]] [|[|j]]; vm_compute; intros; congruence.
  - vm_compute. discriminate.
Defined.
