(* ===== verification/ConnParts.v ===== *)
(** * Parts of a connection: outgoing queues and statistics

    Models [MessageQueues], [MessageSendingPriority] and [ConnectionStats] of
    [concordium-node/src/connection/mod.rs], and [PeerStats] of
    [concordium-node/src/common/p2p_peer.rs]. *)
From S2P Require Import Prelude.
From S2P Require Import PeerTypes.

(** ** Outgoing message queues *)

Inductive MessageSendingPriority := Normal | High.

#[global] Instance MessageSendingPriority_eq_dec : EqDecision MessageSendingPriority.
Proof. solve_decision. Defined.

Record MessageQueues := MkMessageQueues { low : list bytes; high : list bytes }.

(** [MessageQueues::new]: the capacities are allocation hints. *)
Definition MessageQueues_new (low_capacity high_capacity : nat) : MessageQueues :=
  MkMessageQueues [] [].

(** [Index] and [IndexMut]. *)
Definition MessageQueues_index (q : MessageQueues) (p : MessageSendingPriority) : list bytes :=
  match p with Normal => low q | High => high q end.

Definition MessageQueues_index_mut (q : MessageQueues) (p : MessageSendingPriority)
    (f : list bytes → list bytes) : MessageQueues :=
  match p with
  | Normal => MkMessageQueues (f (low q)) (high q)
  | High => MkMessageQueues (low q) (f (high q))
  end.

Definition enqueue (p : MessageSendingPriority) (message : bytes) (q : MessageQueues) :
    MessageQueues :=
  MessageQueues_index_mut q p (λ l, l ++ [message]).

Definition dequeue (q : MessageQueues) : option bytes * MessageQueues :=
  match high q with
  | message :: high' => (Some message, MkMessageQueues (low q) high')
  | [] =>
    match low q with
    | message :: low' => (Some message, MkMessageQueues low' [])
    | [] => (None, q)
    end
  end.

(** The number of messages waiting. *)
Definition pending (q : MessageQueues) : nat := length (high q) + length (low q).

(** The abstract priority queue: messages in order of arrival; the next one is
    the oldest message of high priority, or the oldest one if there is none. *)
Module PrioritySpec.
Abbreviation t := (list (MessageSendingPriority * bytes)) (only parsing).

Definition put (p : MessageSendingPriority) (m : bytes) (s : t) : t := s ++ [(p, m)].

Fixpoint take_first (p : MessageSendingPriority) (s : t) : option (bytes * t) :=
  match s with
  | [] => None
  | (p', m) :: s' =>
    if decide (p' = p) then Some (m, s')
    else match take_first p s' with
         | Some (m', s'') => Some (m', (p', m) :: s'')
         | None => None
         end
  end.

Definition get (s : t) : option (bytes * t) :=
  match take_first High s with Some r => Some r | None => take_first Normal s end.

Definition of_priority (p : MessageSendingPriority) (s : t) : list bytes :=
  (filter (λ e, e.1 = p) s).*2.
End PrioritySpec.

(** The concrete queues hold the messages of each priority in arrival order. *)
Definition queues_refine (q : MessageQueues) (s : PrioritySpec.t) : Prop :=
  high q = PrioritySpec.of_priority High s ∧ low q = PrioritySpec.of_priority Normal s.

Lemma of_priority_cons p p' m s :
  PrioritySpec.of_priority p ((p', m) :: s)
  = if decide (p' = p) then m :: PrioritySpec.of_priority p s else PrioritySpec.of_priority p s.
Proof.
  unfold PrioritySpec.of_priority. rewrite filter_cons. simpl. by destruct (decide (p' = p)).
Qed.

Lemma of_priority_app p s s' :
  PrioritySpec.of_priority p (s ++ s')
  = PrioritySpec.of_priority p s ++ PrioritySpec.of_priority p s'.
Proof. unfold PrioritySpec.of_priority. by rewrite filter_app, fmap_app. Qed.

Lemma take_first_spec p s :
  match PrioritySpec.take_first p s with
  | None => PrioritySpec.of_priority p s = []
  | Some (m, s') => PrioritySpec.of_priority p s = m :: PrioritySpec.of_priority p s' ∧
                    ∀ p', p' ≠ p → PrioritySpec.of_priority p' s = PrioritySpec.of_priority p' s'
  end.
Proof.
  induction s as [|[p1 m1] s IH]; [done|]. cbn [PrioritySpec.take_first].
  rewrite of_priority_cons. destruct (decide (p1 = p)) as [->|Hne].
  - split; [done|]. intros p' Hp'. by rewrite of_priority_cons, decide_False.
  - destruct (PrioritySpec.take_first p s) as [[m s']|]; [|done].
    destruct IH as [Hp Hother]. split.
    + by rewrite of_priority_cons, decide_False.
    + intros p' Hp'. rewrite !of_priority_cons, (Hother p' Hp'). done.
Qed.

Lemma queues_refine_new l h : queues_refine (MessageQueues_new l h) [].
Proof. done. Qed.

Lemma queues_refine_enqueue q s p m :
  queues_refine q s → queues_refine (enqueue p m q) (PrioritySpec.put p m s).
Proof.
  intros [Hh Hl]. unfold queues_refine, PrioritySpec.put.
  rewrite !of_priority_app, !of_priority_cons, <-Hh, <-Hl.
  destruct p; simpl; by rewrite ?app_nil_r.
Qed.

Lemma queues_refine_dequeue q s :
  queues_refine q s →
  match dequeue q, PrioritySpec.get s with
  | (Some m, q'), Some (m', s') => m = m' ∧ queues_refine q' s'
  | (None, q'), None => q' = q
  | _, _ => False
  end.
Proof.
  intros [Hh Hl]. unfold dequeue, PrioritySpec.get, queues_refine.
  pose proof (take_first_spec High s) as HH. pose proof (take_first_spec Normal s) as HN.
  destruct (PrioritySpec.take_first High s) as [[m s']|].
  - destruct HH as [HH Hother]. rewrite Hh, HH. simpl.
    rewrite <-(Hother Normal) by done. by rewrite Hl.
  - rewrite Hh, HH. destruct (PrioritySpec.take_first Normal s) as [[m s']|].
    + destruct HN as [HN Hother]. rewrite Hl, HN. simpl.
      rewrite <-(Hother High) by done. by rewrite HH.
    + by rewrite Hl, HN.
Qed.

(** A client that interleaves enqueues and dequeues. *)
Inductive queue_op := Enqueue (p : MessageSendingPriority) (m : bytes) | Dequeue.

Fixpoint run_queues (q : MessageQueues) (ops : list queue_op) : list (option bytes) :=
  match ops with
  | [] => []
  | Enqueue p m :: ops => run_queues (enqueue p m q) ops
  | Dequeue :: ops => let '(r, q') := dequeue q in r :: run_queues q' ops
  end.

Fixpoint run_spec (s : PrioritySpec.t) (ops : list queue_op) : list (option bytes) :=
  match ops with
  | [] => []
  | Enqueue p m :: ops => run_spec (PrioritySpec.put p m s) ops
  | Dequeue :: ops =>
    match PrioritySpec.get s with
    | Some (m, s') => Some m :: run_spec s' ops
    | None => None :: run_spec s ops
    end
  end.

Lemma run_queues_refine q s ops :
  queues_refine q s → run_queues q ops = run_spec s ops.
Proof.
  revert q s. induction ops as [|[p m|] ops IH]; intros q s Hr; simpl; [done| |].
  - by apply IH, queues_refine_enqueue.
  - pose proof (queues_refine_dequeue q s Hr) as Hd.
    destruct (dequeue q) as [[m|] q'], (PrioritySpec.get s) as [[m' s']|]; try done.
    + destruct Hd as [-> Hr']. f_equal. by apply IH.
    + subst q'. f_equal. by apply IH.
Qed.

(** For every interleaving of enqueues and dequeues, the pair of queues
    behaves as one stable priority queue: each dequeue returns the oldest
    waiting message of high priority, or the oldest waiting message of normal
    priority when there is none. *)
Theorem message_queues_priority_fifo (lc hc : nat) (ops : list queue_op) :
  run_queues (MessageQueues_new lc hc) ops = run_spec [] ops.
Proof. apply run_queues_refine, queues_refine_new. Qed.

Lemma dequeue_pending q :
  match dequeue q with
  | (Some m, q') => pending q = S (pending q')
  | (None, q') => pending q = 0 ∧ q' = q
  end.
Proof. destruct q as [[|m l] [|m' h]]; unfold pending; simpl; auto with lia. Qed.

(** ** Connection statistics *)

Record ConnectionStats := MkConnectionStats {
  created : u64;
  last_seen : u64;
  last_ping : u64;
  last_ping_interval : u64;
  pending_pongs : i64;
  last_latency : u64;
  messages_sent : u64;
  messages_received : u64;
  bytes_received : u64;
  bytes_sent : u64;
}.

Definition ConnectionStats_new (timestamp : u64) : ConnectionStats :=
  MkConnectionStats timestamp timestamp 0 0 0 0 0 0 0 0.

(** [notify_ping] at time [now]. *)
Definition notify_ping (now : u64) (st : ConnectionStats) : ConnectionStats :=
  MkConnectionStats (created st) (last_seen st) now (u64_sub now (last_ping st))
    (as_i64 (pending_pongs st + 1)) (last_latency st) (messages_sent st)
    (messages_received st) (bytes_received st) (bytes_sent st).

(** [notify_pong] at time [now]: the counter is decremented before the check. *)
Definition notify_pong (now : u64) : ST ConnectionStats unit := λ st,
  let old_pending_pongs := pending_pongs st in
  let with_latency l :=
    MkConnectionStats (created st) (last_seen st) (last_ping st) (last_ping_interval st)
      (as_i64 (old_pending_pongs - 1)) l (messages_sent st)
      (messages_received st) (bytes_received st) (bytes_sent st) in
  if decide (old_pending_pongs ≤ 0)%Z then (bail "unexpected pong", with_latency (last_latency st))
  else
    let extra_delay :=
      if decide (old_pending_pongs > 1)%Z
      then u64_mul (u64_sub (as_u64 old_pending_pongs) 1) (last_ping_interval st)
      else 0%Z in
    let measured_latency := u64_add (u64_sub now (last_ping st)) extra_delay in
    (Ok tt, with_latency measured_latency).

Definition get_latency (st : ConnectionStats) : u64 := last_latency st.

(** The counters touched by the read and write loops. *)
Definition note_received (now : option u64) (len : nat) (st : ConnectionStats) : ConnectionStats :=
  MkConnectionStats (created st) (default (last_seen st) now) (last_ping st)
    (last_ping_interval st) (pending_pongs st) (last_latency st) (messages_sent st)
    (u64_add (messages_received st) 1) (u64_add (bytes_received st) (Z.of_nat len)) (bytes_sent st).

Definition note_sent (len : nat) (st : ConnectionStats) : ConnectionStats :=
  MkConnectionStats (created st) (last_seen st) (last_ping st)
    (last_ping_interval st) (pending_pongs st) (last_latency st)
    (u64_add (messages_sent st) 1) (messages_received st) (bytes_received st)
    (u64_add (bytes_sent st) (Z.of_nat len)).

(** ** Peer statistics *)

Record PeerStats := MkPeerStats {
  ps_self_id : P2PNodeId;
  ps_addr : SocketAddr;
  ps_external_port : u16;
  ps_local_id : RemotePeerId;
  ps_peer_type : PeerType;
  ps_latency : u64;
  ps_msgs_sent : u64;
  ps_msgs_received : u64;
  ps_bytes_sent : u64;
  ps_bytes_received : u64;
}.

Definition PeerStats_new (local_id : RemotePeerId) (self_id : P2PNodeId) (addr : SocketAddr)
    (external_port : u16) (peer_type : PeerType) (st : ConnectionStats) : PeerStats :=
  MkPeerStats self_id addr external_port local_id peer_type (get_latency st)
    (messages_sent st) (messages_received st) (bytes_sent st) (bytes_received st).

Definition PeerStats_external_address (p : PeerStats) : SocketAddr :=
  MkSocketAddr (addr_ip (ps_addr p)) (ps_external_port p).

(** ** Properties of the ping statistics *)

Inductive liveness_event := PingSent (now : u64) | PongReceived (now : u64).

(** A connection sends pings and receives pongs until a pong is rejected. *)
Fixpoint run_liveness (evs : list liveness_event) : ST ConnectionStats unit :=
  match evs with
  | [] => mret tt
  | PingSent now :: evs => st_modify (notify_ping now) ;; run_liveness evs
  | PongReceived now :: evs => notify_pong now ;; run_liveness evs
  end.

(** No pong arrives before its ping; [n] pings are outstanding. *)
Fixpoint solicited (n : nat) (evs : list liveness_event) : bool :=
  match evs with
  | [] => true
  | PingSent _ :: evs => solicited (S n) evs
  | PongReceived _ :: evs => match n with O => false | S n => solicited n evs end
  end.

Lemma run_liveness_spec evs st n :
  pending_pongs st = Z.of_nat n → (Z.of_nat (n + length evs) < 2 ^ 63)%Z →
  (run_liveness evs st).1 = if solicited n evs then Ok tt else bail "unexpected pong".
Proof.
  revert st n. induction evs as [|[now|now] evs IH]; intros st n Hn Hlen; [done| |].
  - simpl. unfold mbind, ST_bind, st_modify. simpl in Hlen. apply IH; [|lia].
    simpl. rewrite as_i64_small; lia.
  - simpl. unfold mbind, ST_bind. unfold notify_pong. simpl in Hlen.
    destruct n as [|n]; [by rewrite decide_True by lia|].
    rewrite decide_False by lia. apply IH; [|lia].
    cbn [pending_pongs]. rewrite as_i64_small; lia.
Qed.

(** On a connection that sends pings and receives pongs, the handler
    rejects a pong with "unexpected pong" exactly when more pongs than pings
    have been seen; as long as each pong answers a ping, none is rejected. *)
Theorem pongs_accepted_iff_solicited (t : u64) (evs : list liveness_event) :
  (Z.of_nat (length evs) < 2 ^ 63)%Z →
  (run_liveness evs (ConnectionStats_new t)).1
  = if solicited 0 evs then Ok tt else bail "unexpected pong".
Proof. intros Hlen. by apply run_liveness_spec. Qed.

Lemma pongs_accepted_iff_solicited_witness :
  (run_liveness [PingSent 5; PingSent 9; PongReceived 11; PongReceived 12; PongReceived 13]%Z
    (ConnectionStats_new 0)).1 = bail "unexpected pong".
Proof.
  rewrite (pongs_accepted_iff_solicited 0
    [PingSent 5; PingSent 9; PongReceived 11; PongReceived 12; PongReceived 13]%Z);
    [reflexivity|vm_compute; reflexivity].
Defined.

(** [n] pings at the constant interval [i], the first one at [t0]. *)
Definition pings (t0 i : Z) (n : nat) (st : ConnectionStats) : ConnectionStats :=
  foldl (λ st k, notify_ping (t0 + Z.of_nat k * i)%Z st) st (seq 0 n).

Lemma pings_S t0 i n st :
  pings t0 i (S n) st = notify_ping (t0 + Z.of_nat n * i)%Z (pings t0 i n st).
Proof. unfold pings. rewrite seq_S, foldl_app. done. Qed.

Lemma pings_spec t0 i n c :
  (0 ≤ t0)%Z → (0 ≤ i)%Z → (t0 + Z.of_nat n * i < 2 ^ 64)%Z →
  (Z.of_nat (S n) < 2 ^ 63)%Z →
  let st := pings t0 i (S n) (ConnectionStats_new c) in
  last_ping st = (t0 + Z.of_nat n * i)%Z ∧ pending_pongs st = Z.of_nat (S n) ∧
  (n ≠ 0 → last_ping_interval st = i).
Proof.
  intros Ht0 Hi. induction n as [|n IH]; intros Hb Hn.
  - cbn. split_and!; [lia|by rewrite as_i64_small|done].
  - destruct IH as (Hlp & Hpp & _); [nia|lia|].
    rewrite pings_S. cbn [notify_ping last_ping pending_pongs last_ping_interval].
    rewrite Hlp, Hpp. split_and!; [done| |].
    + rewrite as_i64_small; lia.
    + intros _. rewrite u64_sub_small; [lia| |split]; nia.
Qed.

(** When pings are sent at a constant interval and the pongs lag behind,
    the latency recorded at the first pong is the time since the oldest
    unanswered ping, not the time since the latest one. *)
Theorem pong_latency_of_oldest_ping (c t0 i now : Z) (n : nat) :
  (0 ≤ t0)%Z → (0 ≤ i)%Z → (t0 + Z.of_nat n * i ≤ now)%Z → fits 64 now →
  (Z.of_nat (S n) < 2 ^ 63)%Z →
  let '(r, st) := notify_pong now (pings t0 i (S n) (ConnectionStats_new c)) in
  r = Ok tt ∧ get_latency st = (now - t0)%Z ∧ pending_pongs st = Z.of_nat n.
Proof.
  intros Ht0 Hi Hnow [Hnow0 Hnow1] Hn.
  destruct (pings_spec t0 i n c Ht0 Hi ltac:(lia) Hn) as (Hlp & Hpp & Hiv).
  unfold notify_pong. rewrite Hpp, Hlp, decide_False by lia.
  cbn [get_latency last_latency pending_pongs].
  split_and!; [done| |rewrite as_i64_small; lia].
  unfold get_latency. cbn [last_latency].
  rewrite (u64_sub_small now) by (split; nia).
  destruct (decide (Z.of_nat (S n) > 1)%Z) as [Hgt|Hle].
  - rewrite Hiv by lia. unfold as_u64. rewrite (wrap_small 64) by (split; lia).
    rewrite u64_sub_small by (split; lia). rewrite u64_mul_small by (split; nia).
    rewrite u64_add_small by (split; nia). lia.
  - assert (n = 0) as -> by lia. rewrite u64_add_small by (split; lia). lia.
Qed.

Lemma pong_latency_of_oldest_ping_witness :
  let '(r, st) := notify_pong 1700 (pings 1000 300 3 (ConnectionStats_new 0)) in
  r = Ok tt ∧ get_latency st = 700%Z ∧ pending_pongs st = 2%Z.
Proof.
  apply (pong_latency_of_oldest_ping 0 1000 300 1700 2); unfold fits; lia.
Defined.
