(* ===== verification/NetTypes.v ===== *)
(** * Network messages

    Models [concordium-node/src/network/mod.rs]: network identifiers, the
    high-level handshake, requests, responses and packets.  Node versions come
    from the [semver] crate and block hashes from [concordium_base]; both are
    parameters of the model. *)
From S2P Require Import Prelude.
From S2P Require Import PeerTypes.

(** ** Types of other crates *)

Class ExtTypes := {
  (** [semver::Version] *)
  Version : Type;
  major : Version → u64;
  minor : Version → u64;
  version_to_string : Version → bytes;
  version_parse : bytes → outcome Version;
  (** [concordium_base::hashes::BlockHash] *)
  BlockHash : Type;
  BlockHash_eq_dec :: EqDecision BlockHash;
  hash_bytes : BlockHash → bytes;
  BlockHash_try_from : bytes → outcome BlockHash;
}.

(** [std::str::from_utf8] as a check on the bytes of a string. *)
Definition continuation (b : Z) : bool := bool_decide (128 ≤ b < 192)%Z.

Fixpoint utf8_valid_fuel (fuel : nat) (bs : bytes) : bool :=
  match fuel with
  | O => false
  | S fuel =>
    match bs with
    | [] => true
    | b0 :: rest =>
      if bool_decide (0 ≤ b0 < 128)%Z then utf8_valid_fuel fuel rest
      else if bool_decide (194 ≤ b0 < 224)%Z then
        match rest with
        | b1 :: rest => continuation b1 && utf8_valid_fuel fuel rest
        | _ => false
        end
      else if bool_decide (224 ≤ b0 < 240)%Z then
        match rest with
        | b1 :: b2 :: rest =>
          continuation b1 && continuation b2 &&
          bool_decide (b0 ≠ 224 ∨ 160 ≤ b1)%Z && bool_decide (b0 ≠ 237 ∨ b1 < 160)%Z &&
          utf8_valid_fuel fuel rest
        | _ => false
        end
      else if bool_decide (240 ≤ b0 < 245)%Z then
        match rest with
        | b1 :: b2 :: b3 :: rest =>
          continuation b1 && continuation b2 && continuation b3 &&
          bool_decide (b0 ≠ 240 ∨ 144 ≤ b1)%Z && bool_decide (b0 ≠ 244 ∨ b1 < 144)%Z &&
          utf8_valid_fuel fuel rest
        | _ => false
        end
      else false
    end
  end.

Definition from_utf8 (bs : bytes) : outcome bytes :=
  if utf8_valid_fuel (S (length bs)) bs then Ok bs else Err (Other "invalid utf-8 sequence").

Class ExtTypesLaws `{!ExtTypes} := {
  version_utf8 v : from_utf8 (version_to_string v) = Ok (version_to_string v);
  version_is_bytes v : is_bytes (version_to_string v);
  version_parse_to_string v : version_parse (version_to_string v) = Ok v;
  hash_is_bytes h : is_bytes (hash_bytes h);
  BlockHash_try_from_bytes h : BlockHash_try_from (hash_bytes h) = Ok h;
}.

(** Versions counted in ones and two block hashes; used for concrete inputs. *)
Definition toy_ext : ExtTypes := {|
  Version := nat;
  major v := Z.of_nat v;
  minor _ := 1%Z;
  version_to_string v := replicate v 49%Z;
  version_parse bs := if decide (bs = replicate (length bs) 49%Z) then Ok (length bs)
                      else Err (Other "unexpected character");
  BlockHash := bool;
  hash_bytes h := replicate 32 (if h then 1 else 0)%Z;
  BlockHash_try_from bs :=
    if decide (bs = replicate 32 1%Z) then Ok true
    else if decide (bs = replicate 32 0%Z) then Ok false
    else Err (Other "invalid length");
|}.

Lemma toy_ext_laws : @ExtTypesLaws toy_ext.
Proof.
  assert (∀ n fuel, n < fuel → utf8_valid_fuel fuel (replicate n 49%Z) = true) as Hu.
  { induction n as [|n IH]; intros [|fuel] Hlt; try lia; [done|]. simpl. apply IH. lia. }
  split; simpl.
  - intros v. unfold from_utf8. rewrite Hu; [done|]. rewrite length_replicate. lia.
  - intros v. apply Forall_replicate. unfold fits. lia.
  - intros v. rewrite length_replicate, decide_True by done. done.
  - intros h. apply (Forall_replicate _ 32). unfold fits. destruct h; lia.
  - by intros [].
Qed.

(** ** Networks *)

(** The wire protocol versions this node supports, in descending order. *)
Definition WIRE_PROTOCOL_CURRENT_VERSION : u8 := 1.
Definition WIRE_PROTOCOL_VERSIONS : list u8 := [WIRE_PROTOCOL_CURRENT_VERSION].

Record NetworkId := MkNetworkId { net_id : u16 }.

#[global] Instance NetworkId_eq_dec : EqDecision NetworkId.
Proof. solve_decision. Defined.
#[global] Instance NetworkId_countable : Countable NetworkId.
Proof. apply (inj_countable' net_id MkNetworkId). by intros []. Defined.

Abbreviation Networks := (gset NetworkId) (only parsing).

(** ** Messages *)

Inductive PacketDestination :=
  | Direct (target : RemotePeerId)
  | Broadcast (dont_relay_to : list RemotePeerId).

Record NetworkPacket := MkNetworkPacket {
  destination : PacketDestination;
  network_id : NetworkId;
  message : bytes;
}.

Inductive NetworkResponse :=
  | Pong
  | PeerList (peers : list P2PPeer).

Section messages.
Context `{!ExtTypes}.

Record Handshake := MkHandshake {
  remote_id : P2PNodeId;
  remote_port : u16;
  networks : Networks;
  node_version : Version;
  wire_versions : list u8;
  genesis_blocks : list BlockHash;
  proof : bytes;
}.

Inductive NetworkRequest :=
  | Ping
  | GetPeers (nets : Networks)
  | HandshakeReq (h : Handshake)
  | JoinNetwork (id : NetworkId)
  | LeaveNetwork (id : NetworkId).

Inductive NetworkPayload :=
  | PRequest (r : NetworkRequest)
  | PResponse (r : NetworkResponse)
  | PPacket (p : NetworkPacket).

Record NetworkMessage := MkNetworkMessage {
  msg_created : u64;
  msg_received : option u64;
  msg_payload : NetworkPayload;
}.

(** The [netmsg!] macro at time [now]. *)
Definition netmsg (now : u64) (payload : NetworkPayload) : NetworkMessage :=
  MkNetworkMessage now None payload.
End messages.
