(* ===== verification/Fbs.v ===== *)
(** * Serialization of network messages

    Models [concordium-node/src/network/serialization/fbs.rs] over the tables of
    [schema.fbs].  The tables are records with the fields of the schema: scalar
    fields are integers, enumerations are their [u8] code (the generated Rust
    enums admit unknown codes), tables and vectors are optional.  The byte
    layout is the job of the flatbuffers crate and of the generated code, which
    are parameters: writing a well-formed root table and reading it back returns
    the table. *)
From S2P Require Import Prelude.
From S2P Require Import PeerTypes.
From S2P Require Import NetTypes.

(** ** The schema *)

Module fb.
(** enum Direction, RequestVariant, ResponseVariant, IpVariant, PeerVariant *)
Definition Direction_Direct : u8 := 0.
Definition Direction_Broadcast : u8 := 1.
Definition RequestVariant_Ping : u8 := 0.
Definition RequestVariant_GetPeers : u8 := 1.
Definition RequestVariant_Handshake : u8 := 2.
Definition RequestVariant_JoinNetwork : u8 := 5.
Definition RequestVariant_LeaveNetwork : u8 := 6.
Definition ResponseVariant_Pong : u8 := 0.
Definition ResponseVariant_PeerList : u8 := 1.
Definition IpVariant_V4 : u8 := 0.
Definition IpVariant_V6 : u8 := 1.
Definition PeerVariant_Node : u8 := 0.
Definition PeerVariant_Bootstrapper : u8 := 1.

Record Destination := MkDestination { d_variant : u8; d_target : u64 }.

Record NetworkPacket := MkNetworkPacket {
  pk_destination : option Destination;
  pk_network_id : u16;
  pk_payload : option bytes;
}.

Record Version := MkVersion { v_version : option bytes }.
Record BlockHash := MkBlockHash { b_genesis_block : option bytes }.

Record Handshake := MkHandshake {
  h_version : u8;
  h_node_id : u64;
  h_port : u16;
  h_network_ids : option (list u16);
  h_node_version : option Version;
  h_wire_versions : option bytes;
  h_genesis_blocks : option (list BlockHash);
  h_zk : option bytes;
}.

Record NetworkIds := MkNetworkIds { ni_ids : option (list u16) }.
Record NetworkId := MkNetworkId { ni_id : u16 }.

(** union RequestPayload; [RP_other] is a tag this node does not know. *)
Inductive RequestPayload :=
  | RP_NONE
  | RP_NetworkIds (t : NetworkIds)
  | RP_Handshake (t : Handshake)
  | RP_NetworkId (t : NetworkId)
  | RP_other (tag : u8).

Record NetworkRequest := MkNetworkRequest { rq_variant : u8; rq_payload : RequestPayload }.

Record IpAddr := MkIpAddr { ip_variant : u8; ip_octets : option bytes }.

Record P2PPeer := MkP2PPeer {
  p_id : u64;
  p_addr : option IpAddr;
  p_port : u16;
  p_variant : u8;
}.

Record PeerList := MkPeerList { pl_peers : option (list P2PPeer) }.

Inductive ResponsePayload :=
  | RS_NONE
  | RS_PeerList (t : PeerList)
  | RS_other (tag : u8).

Record NetworkResponse := MkNetworkResponse { rs_variant : u8; rs_payload : ResponsePayload }.

Inductive NetworkPayload :=
  | NP_NONE
  | NP_NetworkPacket (t : NetworkPacket)
  | NP_NetworkRequest (t : NetworkRequest)
  | NP_NetworkResponse (t : NetworkResponse)
  | NP_other (tag : u8).

Record NetworkMessage := MkNetworkMessage { m_timestamp : u64; m_payload : NetworkPayload }.

(** The [payload_as_...] accessors of the generated code. *)
Definition payload_as_network_packet (m : NetworkMessage) : option NetworkPacket :=
  match m_payload m with NP_NetworkPacket t => Some t | _ => None end.
Definition payload_as_network_request (m : NetworkMessage) : option NetworkRequest :=
  match m_payload m with NP_NetworkRequest t => Some t | _ => None end.
Definition payload_as_network_response (m : NetworkMessage) : option NetworkResponse :=
  match m_payload m with NP_NetworkResponse t => Some t | _ => None end.
Definition payload_as_network_ids (r : NetworkRequest) : option NetworkIds :=
  match rq_payload r with RP_NetworkIds t => Some t | _ => None end.
Definition payload_as_handshake (r : NetworkRequest) : option Handshake :=
  match rq_payload r with RP_Handshake t => Some t | _ => None end.
Definition payload_as_network_id (r : NetworkRequest) : option NetworkId :=
  match rq_payload r with RP_NetworkId t => Some t | _ => None end.
Definition payload_as_peer_list (r : NetworkResponse) : option PeerList :=
  match rs_payload r with RS_PeerList t => Some t | _ => None end.

(** A vector built by [start_vector], one [push] per element and
    [end_vector]: the buffer grows downwards, so the last element pushed is
    the first one of the vector. *)
Definition pushed {A} (elems : list A) : list A := foldl (λ v x, x :: v) [] elems.

Lemma pushed_reverse {A} (l : list A) : pushed l = reverse l.
Proof.
  unfold pushed. assert (∀ acc, foldl (λ v x, x :: v) acc l = reverse l ++ acc) as H.
  { induction l as [|x l IH]; intros acc; [done|]. simpl.
    by rewrite IH, reverse_cons, <-(assoc_L (++)). }
  by rewrite H, app_nil_r.
Qed.

Lemma pushed_rev {A} (l : list A) : pushed (reverse l) = l.
Proof. by rewrite pushed_reverse, reverse_involutive. Qed.

(** ** Well-formed tables: every scalar has its width. *)
Definition opt_wf {A} (P : A → Prop) (o : option A) : Prop := from_option P True o.

Definition Destination_wf d := fits 8 (d_variant d) ∧ fits 64 (d_target d).
Definition NetworkPacket_wf p :=
  opt_wf Destination_wf (pk_destination p) ∧ fits 16 (pk_network_id p) ∧
  opt_wf is_bytes (pk_payload p).
Definition Handshake_wf h :=
  fits 8 (h_version h) ∧ fits 64 (h_node_id h) ∧ fits 16 (h_port h) ∧
  opt_wf (Forall (fits 16)) (h_network_ids h) ∧
  opt_wf (λ v, opt_wf is_bytes (v_version v)) (h_node_version h) ∧
  opt_wf is_bytes (h_wire_versions h) ∧
  opt_wf (Forall (λ b, opt_wf is_bytes (b_genesis_block b))) (h_genesis_blocks h) ∧
  opt_wf is_bytes (h_zk h).
Definition RequestPayload_wf p :=
  match p with
  | RP_NONE => True
  | RP_NetworkIds t => opt_wf (Forall (fits 16)) (ni_ids t)
  | RP_Handshake t => Handshake_wf t
  | RP_NetworkId t => fits 16 (ni_id t)
  | RP_other tag => fits 8 tag
  end.
Definition NetworkRequest_wf r := fits 8 (rq_variant r) ∧ RequestPayload_wf (rq_payload r).
Definition P2PPeer_wf p :=
  fits 64 (p_id p) ∧
  opt_wf (λ a, fits 8 (ip_variant a) ∧ opt_wf is_bytes (ip_octets a)) (p_addr p) ∧
  fits 16 (p_port p) ∧ fits 8 (p_variant p).
Definition ResponsePayload_wf p :=
  match p with
  | RS_NONE => True
  | RS_PeerList t => opt_wf (Forall P2PPeer_wf) (pl_peers t)
  | RS_other tag => fits 8 tag
  end.
Definition NetworkResponse_wf r := fits 8 (rs_variant r) ∧ ResponsePayload_wf (rs_payload r).
Definition NetworkPayload_wf p :=
  match p with
  | NP_NONE => True
  | NP_NetworkPacket t => NetworkPacket_wf t
  | NP_NetworkRequest t => NetworkRequest_wf t
  | NP_NetworkResponse t => NetworkResponse_wf t
  | NP_other tag => fits 8 tag
  end.
Definition NetworkMessage_wf m := fits 64 (m_timestamp m) ∧ NetworkPayload_wf (m_payload m).
End fb.

(** ** The flatbuffers crate and the generated code *)

Class FlatBuffers := {
  (** [finish_size_prefixed_network_message_buffer] and [finished_data] *)
  fb_finish : fb.NetworkMessage → bytes;
  (** [network_message_size_prefixed_buffer_has_identifier] *)
  fb_has_identifier : bytes → outcome bool;
  (** [size_prefixed_root_as_network_message] *)
  fb_root : bytes → outcome fb.NetworkMessage;
  (** The message is within the limits of the verifier run by
      [size_prefixed_root_as_network_message] (number of tables, size). *)
  fb_verifiable : fb.NetworkMessage → Prop;
}.

Class FlatBuffersLaws `{!FlatBuffers} := {
  fb_finish_length m : 12 ≤ length (fb_finish m);
  fb_finish_identifier m : fb_has_identifier (fb_finish m) = Ok true;
  fb_root_finish m :
    fb.NetworkMessage_wf m → fb_verifiable m → fb_root (fb_finish m) = Ok m;
}.

(** ** Deserialization *)

Section fbs.
Context `{!ExtTypes, !FlatBuffers, !SetIter NetworkId}.

Definition deserialize_packet (root : fb.NetworkMessage) : outcome NetworkPayload :=
  packet ← context "missing network message payload (expected a packet)"
    (fb.payload_as_network_packet root);
  destination ←
    match fb.pk_destination packet with
    | Some d =>
      if decide (fb.d_variant d = fb.Direction_Direct)
      then Ok (Direct (MkRemotePeerId (fb.d_target d)))
      else if decide (fb.d_variant d = fb.Direction_Broadcast) then Ok (Broadcast [])
      else bail "Unsupported destination"
    | None => bail "missing direction on network packet"
    end;
  payload ← context "missing packet payload" (fb.pk_payload packet);
  Ok (PPacket (MkNetworkPacket destination (MkNetworkId (fb.pk_network_id packet)) payload)).

(** The genesis block hashes of a handshake. *)
Fixpoint deserialize_blocks (bs : list fb.BlockHash) : outcome (list BlockHash) :=
  match bs with
  | [] => Ok []
  | wv :: bs =>
    h ← match fb.b_genesis_block wv with
        | None => bail "Missing block hash"
        | Some bh => BlockHash_try_from bh
        end;
    hs ← deserialize_blocks bs;
    Ok (h :: hs)
  end.

Definition deserialize_handshake (handshake : fb.Handshake) : outcome Handshake :=
  networks ←
    match fb.h_network_ids handshake with
    | Some ids => Ok (list_to_set (MkNetworkId <$> ids) : Networks)
    | None => bail "missing network ids in a Handshake"
    end;
  node_version ←
    match fb.h_node_version handshake ≫= fb.v_version with
    | Some v => s ← from_utf8 v; version_parse s
    | None => bail "missing node version in a Handshake"
    end;
  wire_versions ← context "missing wire version in a Handshake" (fb.h_wire_versions handshake);
  genesis_blocks ←
    match fb.h_genesis_blocks handshake with
    | Some bs => deserialize_blocks bs
    | None => bail "missing genesis blocks in a Handshake"
    end;
  Ok (MkHandshake (MkP2PNodeId (fb.h_node_id handshake)) (fb.h_port handshake) networks
    node_version wire_versions genesis_blocks []).

Definition deserialize_request (root : fb.NetworkMessage) : outcome NetworkPayload :=
  request ← context "missing network message payload (expected a request)"
    (fb.payload_as_network_request root);
  let variant := fb.rq_variant request in
  if decide (variant = fb.RequestVariant_Ping) then Ok (PRequest Ping)
  else if decide (variant = fb.RequestVariant_GetPeers) then
    match fb.payload_as_network_ids request ≫= fb.ni_ids with
    | Some ids => Ok (PRequest (GetPeers (list_to_set (MkNetworkId <$> ids))))
    | None => bail "missing network ids in a GetPeers request"
    end
  else if decide (variant = fb.RequestVariant_Handshake) then
    match fb.payload_as_handshake request with
    | Some handshake => h ← deserialize_handshake handshake; Ok (PRequest (HandshakeReq h))
    | None => bail "missing handshake payload"
    end
  else if decide (variant = fb.RequestVariant_JoinNetwork ∨
                  variant = fb.RequestVariant_LeaveNetwork) then
    match fb.payload_as_network_id request with
    | Some id =>
      let id := MkNetworkId (fb.ni_id id) in
      Ok (PRequest (if decide (variant = fb.RequestVariant_JoinNetwork)
                    then JoinNetwork id else LeaveNetwork id))
    | None => bail "missing network id in a join/leave network request"
    end
  else bail "Unsupported request variant".

(** [ip.bytes().read_exact(&mut octets)] of [n] octets; a short vector is an
    [io::Error], trailing octets are ignored. *)
Definition read_exact (n : nat) (bs : bytes) : outcome bytes :=
  if decide (n ≤ length bs) then Ok (take n bs)
  else Err (IoError "failed to fill whole buffer").

Definition deserialize_peer (peer : fb.P2PPeer) : outcome P2PPeer :=
  addr ←
    match fb.p_addr peer with
    | Some addr =>
      match fb.ip_octets addr with
      | Some ip =>
        if decide (fb.ip_variant addr = fb.IpVariant_V4) then
          octets ← read_exact 4 ip; Ok (MkSocketAddr (V4 (from_be_bytes octets)) (fb.p_port peer))
        else if decide (fb.ip_variant addr = fb.IpVariant_V6) then
          octets ← read_exact 16 ip; Ok (MkSocketAddr (V6 (from_be_bytes octets)) (fb.p_port peer))
        else bail "Unsupported IP variant"
      | None => bail "missing peer ip in a PeerList response"
      end
    | None => bail "missing peer address in a PeerList response"
    end;
  peer_type ←
    (if decide (fb.p_variant peer = fb.PeerVariant_Node) then Ok Node
     else if decide (fb.p_variant peer = fb.PeerVariant_Bootstrapper) then Ok Bootstrapper
     else bail "Unsupported peer variant");
  Ok (MkP2PPeer (MkP2PNodeId (fb.p_id peer)) addr peer_type).

Fixpoint deserialize_peers (peers : list fb.P2PPeer) : outcome (list P2PPeer) :=
  match peers with
  | [] => Ok []
  | peer :: peers => p ← deserialize_peer peer; ps ← deserialize_peers peers; Ok (p :: ps)
  end.

Definition deserialize_response (root : fb.NetworkMessage) : outcome NetworkPayload :=
  response ← context "missing network message payload (expected a response)"
    (fb.payload_as_network_response root);
  if decide (fb.rs_variant response = fb.ResponseVariant_Pong) then Ok (PResponse Pong)
  else if decide (fb.rs_variant response = fb.ResponseVariant_PeerList) then
    match fb.payload_as_peer_list response ≫= fb.pl_peers with
    | Some peers => list ← deserialize_peers peers; Ok (PResponse (PeerList list))
    | None => bail "missing peers in a PeerList response"
    end
  else bail "Unsupported response variant".

(** [_deserialize]; [now] is the receipt timestamp. *)
Definition _deserialize (now : u64) (buffer : bytes) : outcome NetworkMessage :=
  ensure (bool_decide (12 ≤ length buffer)) "the buffer is too small" ;;
  has_id ← fb_has_identifier buffer;
  ensure has_id "unrecognized protocol name" ;;
  root ← fb_root buffer;
  payload ←
    match fb.m_payload root with
    | fb.NP_NetworkPacket _ => deserialize_packet root
    | fb.NP_NetworkRequest _ => deserialize_request root
    | fb.NP_NetworkResponse _ => deserialize_response root
    | _ => bail "invalid network message payload type"
    end;
  Ok (MkNetworkMessage (fb.m_timestamp root) (Some now) payload).

(** [NetworkMessage::deserialize]: panics are caught and become errors. *)
Definition deserialize (now : u64) (buffer : bytes) : outcome NetworkMessage :=
  match _deserialize now buffer with
  | Ok msg => Ok msg
  | Err e => Err e
  | Panic _ => bail "caught a panic: received a mangled buffer"
  end.

(** ** Serialization *)

Definition serialize_packet (packet : NetworkPacket) : fb.NetworkPacket :=
  let destination :=
    match destination packet with
    | Direct target_id => fb.MkDestination fb.Direction_Direct (as_u64 (remote_peer_id target_id))
    | Broadcast _ => fb.MkDestination fb.Direction_Broadcast 0
    end in
  fb.MkNetworkPacket (Some destination) (net_id (network_id packet)) (Some (message packet)).

Definition serialize_handshake (handshake : Handshake) : fb.Handshake :=
  let nets := fb.pushed (net_id <$> set_iter (networks handshake)) in
  let node_version := fb.pushed (reverse (version_to_string (node_version handshake))) in
  let wire_versions := fb.pushed (reverse (wire_versions handshake)) in
  let genesis_blocks :=
    (λ x, fb.MkBlockHash (Some (fb.pushed (reverse (hash_bytes x))))) <$>
      genesis_blocks handshake in
  fb.MkHandshake 0 (as_raw (remote_id handshake)) (remote_port handshake) (Some nets)
    (Some (fb.MkVersion (Some node_version))) (Some wire_versions)
    (Some (fb.pushed (reverse genesis_blocks))) None.

Definition serialize_request (request : NetworkRequest) : fb.NetworkRequest :=
  match request with
  | Ping => fb.MkNetworkRequest fb.RequestVariant_Ping fb.RP_NONE
  | GetPeers nets =>
    fb.MkNetworkRequest fb.RequestVariant_GetPeers
      (fb.RP_NetworkIds (fb.MkNetworkIds (Some (fb.pushed (net_id <$> set_iter nets)))))
  | HandshakeReq handshake =>
    fb.MkNetworkRequest fb.RequestVariant_Handshake
      (fb.RP_Handshake (serialize_handshake handshake))
  | JoinNetwork id =>
    fb.MkNetworkRequest fb.RequestVariant_JoinNetwork (fb.RP_NetworkId (fb.MkNetworkId (net_id id)))
  | LeaveNetwork id =>
    fb.MkNetworkRequest fb.RequestVariant_LeaveNetwork (fb.RP_NetworkId (fb.MkNetworkId (net_id id)))
  end.

Definition serialize_peer (peer : P2PPeer) : fb.P2PPeer :=
  let variant := match P2PPeer_ip peer with V4 _ => fb.IpVariant_V4 | V6 _ => fb.IpVariant_V6 end in
  let octets := fb.pushed (reverse (octets (P2PPeer_ip peer))) in
  let peer_type := match p2p_peer_type peer with
                   | Node => fb.PeerVariant_Node | Bootstrapper => fb.PeerVariant_Bootstrapper end in
  fb.MkP2PPeer (as_raw (p2p_id peer)) (Some (fb.MkIpAddr variant (Some octets)))
    (P2PPeer_port peer) peer_type.

Definition serialize_response (response : NetworkResponse) : fb.NetworkResponse :=
  match response with
  | Pong => fb.MkNetworkResponse fb.ResponseVariant_Pong fb.RS_NONE
  | PeerList peerlist =>
    fb.MkNetworkResponse fb.ResponseVariant_PeerList
      (fb.RS_PeerList (fb.MkPeerList (Some (serialize_peer <$> peerlist))))
  end.

(** The root table of [NetworkMessage::serialize] at time [now]: the timestamp
    written is the time of serialization. *)
Definition serialize_root (now : u64) (msg : NetworkMessage) : fb.NetworkMessage :=
  let payload :=
    match msg_payload msg with
    | PPacket packet => fb.NP_NetworkPacket (serialize_packet packet)
    | PRequest request => fb.NP_NetworkRequest (serialize_request request)
    | PResponse response => fb.NP_NetworkResponse (serialize_response response)
    end in
  fb.MkNetworkMessage now payload.

(** [NetworkMessage::serialize] *)
Definition serialize (now : u64) (msg : NetworkMessage) : bytes :=
  fb_finish (serialize_root now msg).
End fbs.

(** ** The round trip *)

Section round_trip.
Context `{!ExtTypes, !FlatBuffers, !SetIter NetworkId}.

(** Messages whose integers have their Rust width. *)
Definition peer_fits (p : P2PPeer) : Prop :=
  fits 64 (as_raw (p2p_id p)) ∧ ip_wf (P2PPeer_ip p) ∧ fits 16 (P2PPeer_port p).
Definition networks_fit (nets : Networks) : Prop := set_Forall (λ n, fits 16 (net_id n)) nets.

Definition payload_fits (p : NetworkPayload) : Prop :=
  match p with
  | PPacket p =>
    match destination p with Direct t => fits 64 (remote_peer_id t) | Broadcast _ => True end ∧
    fits 16 (net_id (network_id p)) ∧ is_bytes (message p)
  | PRequest Ping => True
  | PRequest (GetPeers nets) => networks_fit nets
  | PRequest (HandshakeReq h) =>
    fits 64 (as_raw (remote_id h)) ∧ fits 16 (remote_port h) ∧ networks_fit (networks h) ∧
    is_bytes (wire_versions h)
  | PRequest (JoinNetwork id) | PRequest (LeaveNetwork id) => fits 16 (net_id id)
  | PResponse Pong => True
  | PResponse (PeerList ps) => Forall peer_fits ps
  end.

(** What of a payload travels: the list of peers a broadcast is not relayed
    to and the proof of a handshake stay behind. *)
Definition wire_payload (p : NetworkPayload) : NetworkPayload :=
  match p with
  | PPacket (MkNetworkPacket (Broadcast _) id m) => PPacket (MkNetworkPacket (Broadcast []) id m)
  | PRequest (HandshakeReq (MkHandshake i p n v w g _)) =>
    PRequest (HandshakeReq (MkHandshake i p n v w g []))
  | p => p
  end.

Context `{!ExtTypesLaws, !FlatBuffersLaws}.

Lemma pushed_networks (nets : Networks) :
  list_to_set (MkNetworkId <$> fb.pushed (net_id <$> set_iter nets)) = nets.
Proof.
  apply set_eq. intros [n]. rewrite elem_of_list_to_set, fb.pushed_reverse.
  rewrite list_elem_of_fmap. setoid_rewrite elem_of_reverse.
  setoid_rewrite list_elem_of_fmap. setoid_rewrite set_iter_perm.
  setoid_rewrite elem_of_elements. split.
  - intros (i & ? & [m] & -> & ?). naive_solver.
  - intros ?. exists n. split; [done|]. by exists (MkNetworkId n).
Qed.

Lemma pushed_networks_fit (nets : Networks) :
  networks_fit nets → Forall (fits 16) (fb.pushed (net_id <$> set_iter nets)).
Proof.
  intros Hn. apply Forall_forall. intros i. rewrite fb.pushed_reverse, elem_of_reverse.
  rewrite list_elem_of_fmap. intros ([m] & -> & Hin). apply (Hn (MkNetworkId m)).
  by rewrite set_iter_perm, elem_of_elements in Hin.
Qed.

Lemma deserialize_blocks_serialized hs :
  deserialize_blocks ((λ x, fb.MkBlockHash (Some (fb.pushed (reverse (hash_bytes x))))) <$> hs)
  = Ok hs.
Proof.
  induction hs as [|h hs IH]; [done|]. csimpl.
  rewrite fb.pushed_rev, BlockHash_try_from_bytes, bind_Ok, IH. done.
Qed.

Lemma deserialize_handshake_serialized h :
  deserialize_handshake (serialize_handshake h)
  = Ok (MkHandshake (remote_id h) (remote_port h) (networks h) (node_version h)
          (wire_versions h) (genesis_blocks h) []).
Proof.
  unfold deserialize_handshake, serialize_handshake. simpl.
  rewrite pushed_networks, !fb.pushed_rev, deserialize_blocks_serialized.
  rewrite version_utf8, bind_Ok, version_parse_to_string, !bind_Ok.
  by destruct h as [[] ??????].
Qed.

Lemma read_exact_octets n x : read_exact n (to_be_bytes n x) = Ok (to_be_bytes n x).
Proof.
  unfold read_exact. rewrite length_to_be_bytes, decide_True by done.
  by rewrite take_ge by (by rewrite length_to_be_bytes).
Qed.

Lemma deserialize_peer_serialized p : peer_fits p → deserialize_peer (serialize_peer p) = Ok p.
Proof.
  destruct p as [[id] [ip port] ty]. intros (_ & Hip & _).
  unfold deserialize_peer, serialize_peer, P2PPeer_ip, P2PPeer_port in *.
  cbn -[to_be_bytes] in *. rewrite fb.pushed_rev.
  destruct ip as [ip|ip]; cbn -[to_be_bytes] in *;
    rewrite read_exact_octets, bind_Ok, from_to_be_bytes_small by done;
    by destruct ty.
Qed.

Lemma deserialize_peers_serialized ps :
  Forall peer_fits ps → deserialize_peers (serialize_peer <$> ps) = Ok ps.
Proof.
  induction 1 as [|p ps Hp _ IH]; [done|]. csimpl.
  by rewrite deserialize_peer_serialized, bind_Ok, IH.
Qed.

Lemma serialize_handshake_wf h :
  payload_fits (PRequest (HandshakeReq h)) → fb.Handshake_wf (serialize_handshake h).
Proof.
  intros (? & ? & ? & ?). unfold serialize_handshake, fb.Handshake_wf.
  conjs; simpl; try done.
  - by apply pushed_networks_fit.
  - rewrite fb.pushed_rev. apply version_is_bytes.
  - by rewrite fb.pushed_rev.
  - rewrite fb.pushed_rev. apply Forall_fmap, Forall_true. intros h'. simpl.
    rewrite fb.pushed_rev. apply hash_is_bytes.
Qed.

Lemma serialize_peer_wf p : peer_fits p → fb.P2PPeer_wf (serialize_peer p).
Proof.
  intros (? & ? & ?). unfold serialize_peer, fb.P2PPeer_wf. simpl. conjs; try done.
  all: try by destruct (P2PPeer_ip p), (p2p_peer_type p).
  rewrite fb.pushed_rev. destruct (P2PPeer_ip p); apply to_be_bytes_is_bytes.
Qed.

Lemma serialize_root_wf now msg :
  fits 64 now → payload_fits (msg_payload msg) →
  fb.NetworkMessage_wf (serialize_root now msg).
Proof.
  intros Hnow. split; [done|]. unfold serialize_root.
  destruct (msg_payload msg) as [[]|[]|[[] ??]]; simpl in *; intros;
    unfold fb.NetworkRequest_wf, fb.NetworkResponse_wf, fb.NetworkPacket_wf, fb.Destination_wf;
    simpl; unfold fb.Destination_wf; unpack; conjs; try done.
  all: eauto using pushed_networks_fit.
  - by apply serialize_handshake_wf.
  - apply Forall_fmap. eapply Forall_impl; eauto using serialize_peer_wf.
  - by apply wrap_fits.
Qed.

Lemma deserialize_root_serialized now msg :
  payload_fits (msg_payload msg) →
  match fb.m_payload (serialize_root now msg) with
  | fb.NP_NetworkPacket _ => deserialize_packet (serialize_root now msg)
  | fb.NP_NetworkRequest _ => deserialize_request (serialize_root now msg)
  | fb.NP_NetworkResponse _ => deserialize_response (serialize_root now msg)
  | _ => bail "invalid network message payload type"
  end = Ok (wire_payload (msg_payload msg)).
Proof.
  unfold serialize_root. destruct msg as [c r [[]|[]|[dst [nid] m]]]; intros Hp; try done.
  - cbn in *. by rewrite pushed_networks.
  - unfold deserialize_request. simpl. rewrite deserialize_handshake_serialized.
    by destruct h.
  - by destruct id.
  - by destruct id.
  - unfold deserialize_response. simpl. by rewrite deserialize_peers_serialized.
  - unfold deserialize_packet. destruct dst as [[t]|]; [|done]. simpl in *.
    unfold as_u64. by rewrite wrap_small by naive_solver.
Qed.

(** C3: A message serialized at time [now] and read at time [now'] comes back
    as the same payload, stamped with the two times: every request, response
    and packet survives the wire, in particular the networks of a handshake
    whatever the order the hash set is walked in, its version and block
    hashes, and the addresses of a peer list.  What does not travel is the
    list of peers a broadcast was not to be relayed to and the handshake's
    (unused) proof. *)
Theorem serialize_deserialize now now' msg :
  fits 64 now →
  payload_fits (msg_payload msg) →
  fb_verifiable (serialize_root now msg) →
  deserialize now' (serialize now msg)
  = Ok (MkNetworkMessage now (Some now') (wire_payload (msg_payload msg))).
Proof.
  intros Hnow Hfit Hver. unfold deserialize, _deserialize, serialize.
  pose proof (fb_finish_length (serialize_root now msg)).
  rewrite bool_decide_true, fb_finish_identifier by done. simpl ensure. rewrite !bind_Ok.
  rewrite fb_root_finish, bind_Ok by auto using serialize_root_wf.
  by rewrite deserialize_root_serialized.
Qed.

(** *** The types of what is read *)

Lemma networks_of_fit ids :
  Forall (fits 16) ids → networks_fit (list_to_set (MkNetworkId <$> ids)).
Proof.
  intros Hids n. rewrite elem_of_list_to_set, list_elem_of_fmap. intros (i & -> & Hi).
  rewrite Forall_forall in Hids. by apply Hids.
Qed.

Lemma deserialize_packet_fits root p :
  fb.NetworkMessage_wf root → deserialize_packet root = Ok p → payload_fits p.
Proof.
  intros [_ Hwf]. unfold deserialize_packet, fb.payload_as_network_packet.
  destruct (fb.m_payload root) as [|t| | |]; try done. destruct Hwf as (Hd & Hi & Hp). simpl.
  intros (dst & Hdst & (bs & Hbs & [= <-])%outcome_bind_ok)%outcome_bind_ok. simpl.
  destruct (fb.pk_payload t); [|done]. injection Hbs as <-. split; [|done].
  destruct (fb.pk_destination t); [|done]. repeat case_decide; simplify_eq/=; [apply Hd|done].
Qed.

Lemma deserialize_handshake_fits t h :
  fb.Handshake_wf t → deserialize_handshake t = Ok h → payload_fits (PRequest (HandshakeReq h)).
Proof.
  intros (_ & Hid & Hport & Hnets & _ & Hwire & _ & _).
  intros (nets & Hn & (v & _ & (wv & Hw & (gb & _ & [= <-])%outcome_bind_ok)%outcome_bind_ok)
    %outcome_bind_ok)%outcome_bind_ok. simpl.
  destruct (fb.h_network_ids t) as [ids|]; [|done]. injection Hn as <-.
  destruct (fb.h_wire_versions t) as [ws|]; [|done]. injection Hw as <-.
  split_and!; auto using networks_of_fit.
Qed.

Lemma deserialize_request_fits root p :
  fb.NetworkMessage_wf root → deserialize_request root = Ok p → payload_fits p.
Proof.
  intros [_ Hwf]. unfold deserialize_request, fb.payload_as_network_request.
  destruct (fb.m_payload root) as [| |t| |]; try done. destruct Hwf as [_ Hp]. simpl.
  unfold fb.payload_as_network_ids, fb.payload_as_handshake, fb.payload_as_network_id.
  case_decide; [by intros [= <-]|]. case_decide.
  { destruct (fb.rq_payload t) as [|ids| | |]; try done. simpl in *.
    destruct (fb.ni_ids ids); [|done]. intros [= <-]. by apply networks_of_fit. }
  case_decide.
  { destruct (fb.rq_payload t) as [| |h| |]; try done.
    intros (h' & Hh & [= <-])%outcome_bind_ok. by eapply deserialize_handshake_fits. }
  case_decide; [|done]. destruct (fb.rq_payload t) as [| | |id|]; try done.
  intros [= <-]. by case_decide.
Qed.

Lemma deserialize_peer_fits t p : fb.P2PPeer_wf t → deserialize_peer t = Ok p → peer_fits p.
Proof.
  intros (Hid & Ha & Hport & _).
  intros (addr & Haddr & (ty & _ & [= <-])%outcome_bind_ok)%outcome_bind_ok.
  split; [done|]. destruct (fb.p_addr t) as [a|]; [|done]. destruct Ha as [_ Ho].
  destruct (fb.ip_octets a) as [os|]; [|done]. simpl in Ho. unfold read_exact in Haddr.
  assert (∀ n, n ≤ length os → fits (8 * Z.of_nat n) (from_be_bytes (take n os))) as Hf.
  { intros n Hn. rewrite <-(length_take_le os n) at 1 by done.
    apply from_be_bytes_fits. by apply Forall_take. }
  repeat case_decide; simplify_eq/=; (split; [by apply Hf|done]).
Qed.

Lemma deserialize_peers_fit ts ps :
  Forall fb.P2PPeer_wf ts → deserialize_peers ts = Ok ps → Forall peer_fits ps.
Proof.
  intros Hts. revert ps. induction Hts as [|t ts Ht _ IH]; intros ps; [by intros [= <-]|].
  cbn [deserialize_peers].
  intros (q & Hq & (rs & Hrs & [= <-])%outcome_bind_ok)%outcome_bind_ok.
  constructor; [by eapply deserialize_peer_fits|by apply IH].
Qed.

Lemma deserialize_response_fits root p :
  fb.NetworkMessage_wf root → deserialize_response root = Ok p → payload_fits p.
Proof.
  intros [_ Hwf]. unfold deserialize_response, fb.payload_as_network_response.
  destruct (fb.m_payload root) as [| | |t|]; try done. destruct Hwf as [_ Hp]. simpl.
  unfold fb.payload_as_peer_list. case_decide; [by intros [= <-]|]. case_decide; [|done].
  destruct (fb.rs_payload t) as [|l|]; try done. simpl in *. destruct (fb.pl_peers l) as [ps|]; [|done].
  destruct (deserialize_peers ps) as [qs| |] eqn:Hqs; [|done..]. intros [= <-].
  by eapply deserialize_peers_fit.
Qed.

(** Whatever octets arrive, a message that is read from them is well typed:
    every identifier, port, network number and octet in it has the width of its
    Rust type, and so has the timestamp, given that the accessors the schema
    compiler generates return values of the types in the schema. *)
Theorem deserialize_well_typed now bs msg :
  (∀ root, fb_root bs = Ok root → fb.NetworkMessage_wf root) →
  deserialize now bs = Ok msg →
  payload_fits (msg_payload msg) ∧ fits 64 (msg_created msg) ∧ msg_received msg = Some now.
Proof.
  intros Hroot. unfold deserialize. destruct (_deserialize now bs) as [m| |] eqn:Hm; [|done..].
  intros [= ->]. apply outcome_bind_ok in Hm as ([] & _ & Hm).
  apply outcome_bind_ok in Hm as (b & _ & Hm). apply outcome_bind_ok in Hm as ([] & _ & Hm).
  apply outcome_bind_ok in Hm as (root & Hr & Hm). apply Hroot in Hr as Hwf.
  apply outcome_bind_ok in Hm as (p & Hp & [= <-]). simpl. split; [|by destruct Hwf].
  destruct (fb.m_payload root) eqn:Hpl; try done;
    eauto using deserialize_packet_fits, deserialize_request_fits, deserialize_response_fits.
Qed.
End round_trip.

(** ** A concrete codec

    Every table has a number, written in binary after twelve zero octets. *)

Module CodecExample.
Definition packet_tuple (p : fb.NetworkPacket) :=
  ((λ d, (fb.d_variant d, fb.d_target d)) <$> fb.pk_destination p,
   fb.pk_network_id p, fb.pk_payload p).
Definition handshake_tuple (h : fb.Handshake) :=
  (fb.h_version h, fb.h_node_id h, fb.h_port h, fb.h_network_ids h,
   fb.v_version <$> fb.h_node_version h, fb.h_wire_versions h,
   option_map (map fb.b_genesis_block) (fb.h_genesis_blocks h), fb.h_zk h).
Definition peer_tuple (p : fb.P2PPeer) :=
  (fb.p_id p, (λ a, (fb.ip_variant a, fb.ip_octets a)) <$> fb.p_addr p, fb.p_port p,
   fb.p_variant p).

#[local] Ltac tuple f g := apply (inj_countable' f g).

#[local] Instance Destination_countable_eq : EqDecision fb.Destination.
Proof. solve_decision. Defined.
#[local] Instance packet_eq : EqDecision fb.NetworkPacket.
Proof. solve_decision. Defined.
#[local] Instance packet_countable : Countable fb.NetworkPacket.
Proof.
  tuple packet_tuple (λ '(d, i, p),
    fb.MkNetworkPacket ((λ '(v, t), fb.MkDestination v t) <$> d) i p).
  by intros [[[]|] ??].
Defined.

#[local] Instance version_eq : EqDecision fb.Version.
Proof. solve_decision. Defined.
#[local] Instance hash_eq : EqDecision fb.BlockHash.
Proof. solve_decision. Defined.
#[local] Instance handshake_eq : EqDecision fb.Handshake.
Proof. solve_decision. Defined.
#[local] Instance handshake_countable : Countable fb.Handshake.
Proof.
  tuple handshake_tuple (λ '(a, b, c, d, e, f, g, h),
    fb.MkHandshake a b c d (fb.MkVersion <$> e) f (option_map (map fb.MkBlockHash) g) h).
  intros [???? ver ? blocks ?]. unfold handshake_tuple. simpl. f_equal.
  - by destruct ver as [[]|].
  - destruct blocks as [l|]; [simpl; f_equal|done]. induction l as [|[] l IH]; csimpl; congruence.
Defined.

#[local] Instance ids_eq : EqDecision fb.NetworkIds.
Proof. solve_decision. Defined.
#[local] Instance id_eq : EqDecision fb.NetworkId.
Proof. solve_decision. Defined.
#[local] Instance request_payload_eq : EqDecision fb.RequestPayload.
Proof. solve_decision. Defined.
#[local] Instance request_payload_countable : Countable fb.RequestPayload.
Proof.
  tuple (λ p, match p with
              | fb.RP_NONE => inl (inl ())
              | fb.RP_NetworkIds t => inl (inr (fb.ni_ids t))
              | fb.RP_Handshake t => inr (inl (inl t))
              | fb.RP_NetworkId t => inr (inl (inr (fb.ni_id t)))
              | fb.RP_other tag => inr (inr tag)
              end)
    (λ s, match s with
          | inl (inl ()) => fb.RP_NONE
          | inl (inr t) => fb.RP_NetworkIds (fb.MkNetworkIds t)
          | inr (inl (inl t)) => fb.RP_Handshake t
          | inr (inl (inr t)) => fb.RP_NetworkId (fb.MkNetworkId t)
          | inr (inr tag) => fb.RP_other tag
          end).
  by intros [|[]|?|[]|?].
Defined.

#[local] Instance address_eq : EqDecision fb.IpAddr.
Proof. solve_decision. Defined.
#[local] Instance peer_eq : EqDecision fb.P2PPeer.
Proof. solve_decision. Defined.
#[local] Instance peer_countable : Countable fb.P2PPeer.
Proof.
  tuple peer_tuple (λ '(i, a, p, v),
    fb.MkP2PPeer i ((λ '(w, o), fb.MkIpAddr w o) <$> a) p v).
  by intros [? [[]|] ? ?].
Defined.

#[local] Instance peer_list_eq : EqDecision fb.PeerList.
Proof. solve_decision. Defined.
#[local] Instance response_payload_eq : EqDecision fb.ResponsePayload.
Proof. solve_decision. Defined.
#[local] Instance response_payload_countable : Countable fb.ResponsePayload.
Proof.
  tuple (λ p, match p with
              | fb.RS_NONE => inl ()
              | fb.RS_PeerList t => inr (inl (fb.pl_peers t))
              | fb.RS_other tag => inr (inr tag)
              end)
    (λ s, match s with
          | inl () => fb.RS_NONE
          | inr (inl t) => fb.RS_PeerList (fb.MkPeerList t)
          | inr (inr tag) => fb.RS_other tag
          end).
  by intros [|[]|].
Defined.

#[local] Instance request_eq : EqDecision fb.NetworkRequest.
Proof. solve_decision. Defined.
#[local] Instance response_eq : EqDecision fb.NetworkResponse.
Proof. solve_decision. Defined.
#[local] Instance payload_eq : EqDecision fb.NetworkPayload.
Proof. solve_decision. Defined.
#[local] Instance message_eq : EqDecision fb.NetworkMessage.
Proof. solve_decision. Defined.
#[local] Instance message_countable : Countable fb.NetworkMessage.
Proof.
  tuple (λ m, (fb.m_timestamp m,
               match fb.m_payload m with
               | fb.NP_NONE => inl ()
               | fb.NP_NetworkPacket t => inr (inl (inl t))
               | fb.NP_NetworkRequest t => inr (inl (inr (fb.rq_variant t, fb.rq_payload t)))
               | fb.NP_NetworkResponse t => inr (inr (inl (fb.rs_variant t, fb.rs_payload t)))
               | fb.NP_other tag => inr (inr (inr tag))
               end))
    (λ '(time, s), fb.MkNetworkMessage time
       match s with
       | inl () => fb.NP_NONE
       | inr (inl (inl t)) => fb.NP_NetworkPacket t
       | inr (inl (inr (v, p))) => fb.NP_NetworkRequest (fb.MkNetworkRequest v p)
       | inr (inr (inl (v, p))) => fb.NP_NetworkResponse (fb.MkNetworkResponse v p)
       | inr (inr (inr tag)) => fb.NP_other tag
       end).
  by intros [? [|?|[]|[]|?]].
Defined.

Fixpoint bits (p : positive) : bytes :=
  match p with
  | xH => []
  | xO p => 0%Z :: bits p
  | xI p => 1%Z :: bits p
  end.
Fixpoint of_bits (bs : bytes) : positive :=
  match bs with
  | [] => xH
  | b :: bs => if decide (b = 0%Z) then xO (of_bits bs) else xI (of_bits bs)
  end.

Lemma of_bits_bits p : of_bits (bits p) = p.
Proof. induction p; simpl; by rewrite ?IHp. Qed.

Definition codec : FlatBuffers := {|
  fb_finish m := replicate 12 0%Z ++ bits (encode m);
  fb_has_identifier bs := Ok (bool_decide (take 12 bs = replicate 12 0%Z));
  fb_root bs := context "invalid flatbuffer" (decode (of_bits (drop 12 bs)));
  fb_verifiable _ := True;
|}.

Lemma codec_laws : @FlatBuffersLaws codec.
Proof.
  split.
  - intros m. simpl. lia.
  - done.
  - intros m _ _. simpl. by rewrite drop_0, of_bits_bits, decode_encode.
Qed.

(** A handshake on two networks, announcing two genesis blocks. *)
Definition handshake : @NetworkMessage toy_ext :=
  @MkNetworkMessage toy_ext 5 None
    (PRequest (HandshakeReq (@MkHandshake toy_ext (MkP2PNodeId 77) 8888
      {[ MkNetworkId 1; MkNetworkId 100 ]} 3 [1%Z] [true; false] [9%Z]))).

Lemma handshake_fits : @payload_fits toy_ext (msg_payload handshake).
Proof.
  unfold payload_fits, handshake. simpl. conjs.
  - by vm_compute.
  - by vm_compute.
  - intros n Hn. assert (n = MkNetworkId 1 ∨ n = MkNetworkId 100) as [-> | ->] by set_solver;
      by vm_compute.
  - by repeat constructor.
Qed.

Lemma serialize_deserialize_witness :
  @deserialize toy_ext codec 21
    (@serialize toy_ext codec (canonical_set_iter NetworkId) 20 handshake)
  = Ok (@MkNetworkMessage toy_ext 20 (Some 21%Z)
      (PRequest (HandshakeReq (@MkHandshake toy_ext (MkP2PNodeId 77) 8888
        {[ MkNetworkId 1; MkNetworkId 100 ]} 3 [1%Z] [true; false] [])))).
Proof.
  refine (@serialize_deserialize toy_ext codec (canonical_set_iter NetworkId)
    toy_ext_laws codec_laws 20 21 handshake _ _ I); [by vm_compute|apply handshake_fits].
Defined.

Lemma deserialize_well_typed_witness :
  ∃ msg, @deserialize toy_ext codec 21
      (@serialize toy_ext codec (canonical_set_iter NetworkId) 20 handshake) = Ok msg
    ∧ payload_fits (msg_payload msg) ∧ fits 64 (msg_created msg).
Proof.
  destruct (@deserialize toy_ext codec 21
    (@serialize toy_ext codec (canonical_set_iter NetworkId) 20 handshake)) as [msg| |] eqn:Hd;
    [|vm_compute in Hd; discriminate..].
  exists msg. split; [reflexivity|].
  destruct (@deserialize_well_typed toy_ext codec 21
    (@serialize toy_ext codec (canonical_set_iter NetworkId) 20 handshake) msg) as (H1 & H2 & _).
  - intros root Hroot. unfold serialize in Hroot.
    assert (@fb.NetworkMessage_wf (@serialize_root toy_ext (canonical_set_iter NetworkId) 20 handshake))
      as Hwf by (apply (@serialize_root_wf toy_ext (canonical_set_iter NetworkId) toy_ext_laws);
        [by vm_compute|apply handshake_fits]).
    rewrite (@fb_root_finish codec codec_laws _ Hwf I) in Hroot. injection Hroot as <-. exact Hwf.
  - exact Hd.
  - split; [exact H1|exact H2].
Defined.
End CodecExample.
