(* ===== verification/Noise.v ===== *)
(** * The Noise session

    The node runs the Noise XX handshake and the transport encryption through
    the [noiseexplorer_xx] crate.  The session is a parameter of the model: an
    abstract state with the operations the connection calls.  Messages are
    transformed in place, so a buffer keeps its length. *)
From S2P Require Import Prelude.

Definition DHLEN : nat := 32.
Definition MAC_LENGTH : nat := 16.
Definition NOISE_MAX_MESSAGE_LEN : nat := Z.to_nat 65535.
Definition NOISE_AUTH_TAG_LEN : nat := 16.
Definition NOISE_MAX_PAYLOAD_LEN : nat := NOISE_MAX_MESSAGE_LEN - NOISE_AUTH_TAG_LEN.

(** What the chunking arithmetic needs of the constants (as inequalities, so
    that no tactic compares the numerals). *)
Lemma noise_lengths :
  (NOISE_MAX_MESSAGE_LEN ≤ NOISE_MAX_PAYLOAD_LEN + MAC_LENGTH ≤ NOISE_MAX_MESSAGE_LEN) ∧
  0 < NOISE_MAX_PAYLOAD_LEN ∧
  (65535 ≤ Z.of_nat NOISE_MAX_MESSAGE_LEN ≤ 65535)%Z ∧ 16 ≤ MAC_LENGTH ≤ 16.
Proof.
  unfold NOISE_MAX_PAYLOAD_LEN, NOISE_MAX_MESSAGE_LEN, NOISE_AUTH_TAG_LEN, MAC_LENGTH. lia.
Qed.

#[global] Opaque NOISE_MAX_MESSAGE_LEN NOISE_MAX_PAYLOAD_LEN.

Class Noise (sess : Type) := {
  init_session : bool → bytes → sess;
  is_initiator : sess → bool;
  get_message_count : sess → nat;
  send_message : bytes → ST sess bytes;
  recv_message : bytes → ST sess bytes;
  (** The next [n] transport messages sent by one session are read, in order,
      by the other; the bound stands for the nonces that are left. *)
  noise_synced : nat → sess → sess → Prop;
  (** The initiator and the responder after [k] handshake messages. *)
  noise_handshake : nat → sess → sess → Prop;
}.

(** The part of a message that carries the payload: [prefix] octets before it
    and [suffix] octets after it are written by the session. *)
Definition payload_of (prefix suffix : nat) (msg : bytes) : bytes :=
  take (length msg - prefix - suffix) (drop prefix msg).

(** [send_message] on [msg] by one session and [recv_message] on its result by
    another carry the payload across and bring the sessions to [Q]. *)
Definition carries `{!Noise sess} (prefix suffix : nat) (msg : bytes) (s r : sess)
    (Q : sess → sess → Prop) : Prop :=
  ∃ c s' d r',
    send_message msg s = (Ok c, s') ∧ length c = length msg ∧
    recv_message c r = (Ok d, r') ∧ length d = length msg ∧
    payload_of prefix suffix d = payload_of prefix suffix msg ∧ Q s' r'.

Class NoiseLaws (sess : Type) `{!Noise sess} := {
  send_ok_state msg c s s' :
    send_message msg s = (Ok c, s') →
    length c = length msg ∧ is_initiator s' = is_initiator s ∧
    get_message_count s' = S (get_message_count s);
  recv_ok_state msg d r r' :
    recv_message msg r = (Ok d, r') →
    length d = length msg ∧ is_initiator r' = is_initiator r ∧
    get_message_count r' = S (get_message_count r);
  (** Every message ends with an authentication tag. *)
  recv_has_tag msg d r r' :
    recv_message msg r = (Ok d, r') → MAC_LENGTH ≤ length msg;
  (** The session is the crate's: its operations do not panic. *)
  send_no_panic msg s : is_panic (send_message msg s).1 = false;
  recv_no_panic msg r : is_panic (recv_message msg r).1 = false;
  (** Transport messages. *)
  synced_post n s r :
    noise_synced n s r → 2 < get_message_count s ∧ 2 < get_message_count r;
  synced_carries n s r msg :
    noise_synced (S n) s r →
    MAC_LENGTH ≤ length msg ≤ NOISE_MAX_MESSAGE_LEN →
    carries 0 MAC_LENGTH msg s r (noise_synced n);
  (** The XX pattern: the initiator sends its ephemeral key; the responder sends
      its ephemeral key and its encrypted static key; the initiator sends its
      encrypted static key.  Each message carries a payload. *)
  handshake_init prologue :
    noise_handshake 0 (init_session true prologue) (init_session false prologue);
  handshake_state k i r :
    noise_handshake k i r →
    is_initiator i = true ∧ is_initiator r = false ∧
    get_message_count i = k ∧ get_message_count r = k;
  handshake_a i r msg :
    noise_handshake 0 i r → DHLEN + 16 ≤ length msg ≤ NOISE_MAX_MESSAGE_LEN →
    carries DHLEN 16 msg i r (noise_handshake 1);
  handshake_b i r msg :
    noise_handshake 1 i r →
    DHLEN * 2 + MAC_LENGTH * 2 ≤ length msg ≤ NOISE_MAX_MESSAGE_LEN →
    carries (DHLEN * 2 + MAC_LENGTH) MAC_LENGTH msg r i (λ r' i', noise_handshake 2 i' r');
  handshake_c i r msg :
    noise_handshake 2 i r →
    DHLEN + MAC_LENGTH * 2 ≤ length msg ≤ NOISE_MAX_MESSAGE_LEN →
    carries (DHLEN + MAC_LENGTH) MAC_LENGTH msg i r
      (λ i' r', noise_handshake 3 i' r' ∧ ∀ n, (Z.of_nat n < 2 ^ 64 - 1)%Z →
                noise_synced n i' r' ∧ noise_synced n r' i');
}.

(** ** A concrete session

    A transport without secrecy that still numbers its messages: the tag is the
    number of the message in its direction. *)

Record toy_noise := MkToyNoise {
  toy_initiator : bool;
  toy_tx : nat;
  toy_rx : nat;
}.

Definition toy_tag (n : nat) : bytes := replicate MAC_LENGTH (Z.of_nat n).

Definition toy_send (msg : bytes) : ST toy_noise bytes := λ s,
  if decide (MAC_LENGTH ≤ length msg ≤ NOISE_MAX_MESSAGE_LEN) then
    (Ok (take (length msg - MAC_LENGTH) msg ++ toy_tag (toy_tx s)),
     MkToyNoise (toy_initiator s) (S (toy_tx s)) (toy_rx s))
  else (Err (Other "unsupported message length"), s).

Definition toy_recv (msg : bytes) : ST toy_noise bytes := λ r,
  if decide (MAC_LENGTH ≤ length msg ≤ NOISE_MAX_MESSAGE_LEN) then
    if decide (drop (length msg - MAC_LENGTH) msg = toy_tag (toy_rx r)) then
      (Ok msg, MkToyNoise (toy_initiator r) (toy_tx r) (S (toy_rx r)))
    else (Err (Other "decryption failed"), r)
  else (Err (Other "unsupported message length"), r).

#[global] Instance toy_noise_ops : Noise toy_noise := {|
  init_session i _ := MkToyNoise i 0 0;
  is_initiator := toy_initiator;
  get_message_count s := toy_tx s + toy_rx s;
  send_message := toy_send;
  recv_message := toy_recv;
  noise_synced _ s r := toy_tx s = toy_rx r ∧ 2 < toy_tx s + toy_rx s ∧ 2 < toy_tx r + toy_rx r;
  noise_handshake k i r :=
    toy_initiator i = true ∧ toy_initiator r = false ∧ toy_tx i + toy_rx i = k ∧
    toy_tx i = toy_rx r ∧ toy_rx i = toy_tx r;
|}.

Lemma toy_carries prefix suffix msg s r (Q : toy_noise → toy_noise → Prop) :
  MAC_LENGTH ≤ suffix → prefix + suffix ≤ length msg ≤ NOISE_MAX_MESSAGE_LEN →
  toy_tx s = toy_rx r →
  Q (MkToyNoise (toy_initiator s) (S (toy_tx s)) (toy_rx s))
    (MkToyNoise (toy_initiator r) (toy_tx r) (S (toy_rx r))) →
  carries prefix suffix msg s r Q.
Proof.
  intros Hs Hlen Htx HQ. set (c := take (length msg - MAC_LENGTH) msg ++ toy_tag (toy_tx s)).
  assert (length c = length msg) as Hc.
  { unfold c, toy_tag. autorewrite with node. lia. }
  exists c. eexists _, c, _. split_and!; [|done| |done| |exact HQ].
  - simpl. unfold toy_send. by rewrite decide_True by lia.
  - simpl. unfold toy_recv. rewrite Hc, decide_True by lia.
    rewrite decide_True; [done|]. unfold c.
    rewrite drop_app_length' by (autorewrite with node; lia). by rewrite Htx.
  - unfold payload_of. rewrite Hc. unfold c.
    rewrite drop_app_le by (autorewrite with node; lia).
    rewrite take_app_le by (autorewrite with node; lia).
    rewrite !take_drop_commute, take_take. do 2 f_equal. lia.
Qed.

#[global] Instance toy_noise_laws : NoiseLaws toy_noise.
Proof.
  split.
  - intros msg c s s'. simpl. unfold toy_send. case_decide; intros; simplify_eq.
    split_and!; [|done|done]. unfold toy_tag. autorewrite with node. lia.
  - intros msg d r r'. simpl. unfold toy_recv. repeat case_decide; intros; simplify_eq.
    split_and!; [done..|simpl; lia].
  - intros msg d r r'. simpl. unfold toy_recv. repeat case_decide; intros; simplify_eq. lia.
  - intros msg s. simpl. unfold toy_send. by case_decide.
  - intros msg r. simpl. unfold toy_recv. by repeat case_decide.
  - simpl. lia.
  - intros n s r msg (? & ? & ?) ?. apply toy_carries; simpl; lia.
  - done.
  - simpl. intros. lia || (unpack; split_and!; [done..|lia]).
  - intros i r msg ??. simpl in *. apply toy_carries; simpl; unpack; split_and?; unfold MAC_LENGTH; lia || done.
  - intros i r msg ??. simpl in *. apply toy_carries; simpl; unpack; split_and?; lia || done.
  - intros i r msg ??. simpl in *. apply toy_carries; simpl; unpack; split_and?; try (lia || done).
Qed.
