(* ===== verification/LowLevel.v ===== *)
(** * The low-level connection

    Models [concordium-node/src/connection/low_level.rs]: the socket buffer, the
    framing and chunking of encrypted messages, the XX handshake messages and
    the output queue.  The socket is a script of the results its reads and
    writes will have, with the octets written so far; the Noise session and the
    layout of a [VecDeque] are parameters. *)
From S2P Require Import Prelude.
From S2P Require Import Noise.

(** ** The socket *)

Inductive read_event :=
  | RData (bs : bytes)
  | RWouldBlock
  | REof
  | RError (msg : string).

Inductive write_event :=
  | WAccept (n : nat)
  | WWouldBlock
  | WError (msg : string).

Record TcpStream := MkTcpStream {
  rx : list read_event;
  tx : bytes;
  tx_script : list write_event;
  nodelay : bool;
  nodelay_settable : bool;
  linger : option u16;
}.

Inductive io_result (A : Type) :=
  | IoOk (a : A)
  | IoWouldBlock
  | IoErr (msg : string).
Arguments IoOk {_} _.
Arguments IoWouldBlock {_}.
Arguments IoErr {_} _.

Definition with_rx (ev : list read_event) (s : TcpStream) : TcpStream :=
  MkTcpStream ev (tx s) (tx_script s) (nodelay s) (nodelay_settable s) (linger s).

(** [read] into a slice of [len] octets. *)
Definition socket_read (len : nat) (s : TcpStream) : io_result bytes * TcpStream :=
  match rx s with
  | [] => (IoWouldBlock, s)
  | RWouldBlock :: ev => (IoWouldBlock, with_rx ev s)
  | REof :: _ => (IoOk [], s)
  | RError m :: ev => (IoErr m, with_rx ev s)
  | RData bs :: ev =>
    (IoOk (take len bs),
     with_rx (if decide (length bs ≤ len) then ev else RData (drop len bs) :: ev) s)
  end.

(** [write] of a slice. *)
Definition socket_write (bs : bytes) (s : TcpStream) : io_result nat * TcpStream :=
  let set out ev := MkTcpStream (rx s) out ev (nodelay s) (nodelay_settable s) (linger s) in
  match tx_script s with
  | [] => (IoWouldBlock, s)
  | WWouldBlock :: ev => (IoWouldBlock, set (tx s) ev)
  | WError m :: ev => (IoErr m, set (tx s) ev)
  | WAccept n :: ev => (IoOk (n `min` length bs), set (tx s ++ take n bs) ev)
  end.

Definition set_nodelay (b : bool) (s : TcpStream) : outcome unit * TcpStream :=
  if nodelay_settable s
  then (Ok tt, MkTcpStream (rx s) (tx s) (tx_script s) b (nodelay_settable s) (linger s))
  else (Err (IoError "set_nodelay"), s).

Definition set_linger (linger_time : u16) (s : TcpStream) : TcpStream :=
  MkTcpStream (rx s) (tx s) (tx_script s) (nodelay s) (nodelay_settable s) (Some linger_time).

(** [VecDeque::as_slices]: where the ring buffer wraps is not specified. *)
Class Deque := {
  as_slices : bytes → bytes * bytes;
  as_slices_app q : (as_slices q).1 ++ (as_slices q).2 = q;
}.

Definition contiguous_deque : Deque := {|
  as_slices q := (q, []);
  as_slices_app q := app_nil_r q;
|}.

(** [dst[off..][..src.len()].copy_from_slice(src)] *)
Definition copy_into (off : nat) (src dst : bytes) : outcome bytes :=
  if decide (off + length src ≤ length dst)
  then Ok (take off dst ++ src ++ drop (off + length src) dst)
  else Panic "range end index out of range".

(** [write_all] of a [Cursor<Vec<u8>>] at position [pos]. *)
Definition cursor_write (pos : nat) (bs msg : bytes) : bytes :=
  take pos (msg ++ replicate (pos - length msg) 0%Z) ++ bs ++ drop (pos + length bs) msg.

Definition bytes_of_string (s : string) : bytes :=
  (λ a, Z.of_N (Ascii.N_of_ascii a)) <$> String.list_ascii_of_string s.

(** ** Constants *)

Definition PAYLOAD_SIZE : nat := 4.
Definition PROLOGUE : bytes := bytes_of_string "CP2P".
Definition HANDSHAKE_SIZE_LIMIT : nat := 1024.
Definition PSK : bytes :=
  bytes_of_string "b6461bd246843f70ac1328401405b2b4e725994d7d144a75bff1a04a247d64b7".
Definition PROTOCOL_MAX_MESSAGE_SIZE : u32 := 20971520.

(** ** State *)

Record IncomingMessage := MkIncomingMessage {
  size_bytes : bytes;
  pending_bytes : nat;
  in_message : bytes;
}.

Definition IncomingMessage_default : IncomingMessage := MkIncomingMessage [] 0 [].

Record SocketBuffer := MkSocketBuffer {
  buf : bytes;
  offset : nat;
  remaining : nat;
}.

Definition SocketBuffer_new (socket_read_size : nat) : SocketBuffer :=
  MkSocketBuffer (replicate socket_read_size 0%Z) 0 0.

Definition is_exhausted (b : SocketBuffer) : bool := bool_decide (offset b = length (buf b)).

(** [slice] and [slice_mut] *)
Definition slice (len : nat) (b : SocketBuffer) : outcome bytes :=
  s ← slice_from (offset b) (buf b); slice_to len s.

Definition shift (n : nat) (b : SocketBuffer) : outcome SocketBuffer :=
  remaining' ← usize_sub (remaining b) n;
  Ok (MkSocketBuffer (buf b) (if decide (remaining' = 0) then 0 else offset b + n) remaining').

Definition reset (b : SocketBuffer) : SocketBuffer := MkSocketBuffer (buf b) 0 0.

Inductive ReadResult :=
  | Complete (msg : bytes)
  | Incomplete
  | WouldBlock
  | Closed.

Record ConnectionLowLevel (sess : Type) := MkLowLevel {
  socket : TcpStream;
  noise_session : sess;
  noise_buffer : bytes;
  socket_buffer : SocketBuffer;
  incoming_msg : IncomingMessage;
  output_queue : bytes;
  write_size : nat;
  is_writable : bool;
  is_initialized : bool;
  so_linger : option u16;
}.
Arguments MkLowLevel {_}.
Arguments socket {_}.
Arguments noise_session {_}.
Arguments noise_buffer {_}.
Arguments socket_buffer {_}.
Arguments incoming_msg {_}.
Arguments output_queue {_}.
Arguments write_size {_}.
Arguments is_writable {_}.
Arguments is_initialized {_}.
Arguments so_linger {_}.

Section fields.
Context {sess : Type}.
Implicit Types c : ConnectionLowLevel sess.

Definition with_socket (s : TcpStream) c :=
  MkLowLevel s (noise_session c) (noise_buffer c) (socket_buffer c) (incoming_msg c)
    (output_queue c) (write_size c) (is_writable c) (is_initialized c) (so_linger c).
Definition with_session (n : sess) c :=
  MkLowLevel (socket c) n (noise_buffer c) (socket_buffer c) (incoming_msg c)
    (output_queue c) (write_size c) (is_writable c) (is_initialized c) (so_linger c).
Definition with_noise_buffer (b : bytes) c :=
  MkLowLevel (socket c) (noise_session c) b (socket_buffer c) (incoming_msg c)
    (output_queue c) (write_size c) (is_writable c) (is_initialized c) (so_linger c).
Definition with_socket_buffer (b : SocketBuffer) c :=
  MkLowLevel (socket c) (noise_session c) (noise_buffer c) b (incoming_msg c)
    (output_queue c) (write_size c) (is_writable c) (is_initialized c) (so_linger c).
Definition with_incoming (m : IncomingMessage) c :=
  MkLowLevel (socket c) (noise_session c) (noise_buffer c) (socket_buffer c) m
    (output_queue c) (write_size c) (is_writable c) (is_initialized c) (so_linger c).
Definition with_output (q : bytes) c :=
  MkLowLevel (socket c) (noise_session c) (noise_buffer c) (socket_buffer c) (incoming_msg c)
    q (write_size c) (is_writable c) (is_initialized c) (so_linger c).
Definition with_flags (writable initialized : bool) c :=
  MkLowLevel (socket c) (noise_session c) (noise_buffer c) (socket_buffer c) (incoming_msg c)
    (output_queue c) (write_size c) writable initialized (so_linger c).
End fields.

Section low_level.
Context `{!Noise sess, !Deque}.

Abbreviation LL := (ST (ConnectionLowLevel sess)) (only parsing).

(** [ConnectionLowLevel::new]; [linger_time] is the configured linger value. *)
Definition ConnectionLowLevel_new (sock : TcpStream) (initiator : bool)
    (read_size write_size : nat) (linger_time : option u16) : ConnectionLowLevel sess :=
  let so_linger := if initiator then linger_time else None in
  MkLowLevel sock (init_session initiator PROLOGUE) (replicate NOISE_MAX_MESSAGE_LEN 0%Z)
    (SocketBuffer_new read_size) IncomingMessage_default [] write_size false false so_linger.

(** [initialize]: a failure to set [TCP_NODELAY] is only logged. *)
Definition initialize : LL unit := st_modify (λ c,
  let sock := match so_linger c with Some l => set_linger l (socket c) | None => socket c end in
  let '(_, sock) := set_nodelay true sock in
  with_flags (is_writable c) true (with_socket sock c)).

Definition notify_writable : LL unit :=
  c ← st_get;
  (if is_initialized c then mret tt else initialize) ;;
  st_modify (λ c, with_flags true (is_initialized c) c).

(** Calls of the session on a buffer. *)
Definition noise_send (msg : bytes) : LL bytes := λ c,
  let '(r, s) := send_message msg (noise_session c) in (r, with_session s c).
Definition noise_recv (msg : bytes) : LL bytes := λ c,
  let '(r, s) := recv_message msg (noise_session c) in (r, with_session s c).

Definition is_post_handshake (c : ConnectionLowLevel sess) : bool :=
  if is_initiator (noise_session c)
  then bool_decide (1 < get_message_count (noise_session c))
  else bool_decide (2 < get_message_count (noise_session c)).

(** *** Output *)

(** [flush_socket_once] *)
Definition flush_socket_once : LL nat :=
  c ← st_get;
  let write_size := if is_post_handshake c then write_size c `min` length (output_queue c)
                    else Z.to_nat 4096 `min` length (output_queue c) in
  let '(front, back) := as_slices (output_queue c) in
  let front_len := length front `min` write_size in
  buf1 ← st_lift (copy_into 0 (take front_len front) (buf (socket_buffer c)));
  let set_buf b := with_socket_buffer
    (MkSocketBuffer b (offset (socket_buffer c)) (remaining (socket_buffer c))) in
  st_modify (set_buf buf1) ;;
  back_len ← st_lift (usize_sub write_size front_len);
  buf2 ← (if decide (0 < back_len)
          then st_lift (s ← slice_to back_len back; copy_into front_len s buf1)
          else mret buf1);
  st_modify (set_buf buf2) ;;
  out ← st_lift (slice_to write_size buf2);
  c ← st_get;
  let '(res, sock) := socket_write out (socket c) in
  st_modify (with_socket sock) ;;
  match res with
  | IoOk written =>
    st_modify (λ c, with_output (drop written (output_queue c)) c) ;; mret written
  | IoWouldBlock => st_modify (λ c, with_flags false (is_initialized c) c) ;; mret 0
  | IoErr m => st_lift (Err (IoError m))
  end.

(** The loop of [flush_socket]. *)
Fixpoint flush_loop (fuel : nat) : LL unit :=
  match fuel with
  | O => st_lift (Panic "out of fuel")
  | S fuel =>
    c ← st_get;
    if decide (output_queue c = []) then mret tt
    else
      n ← flush_socket_once;
      if decide (n = 0) then mret tt else flush_loop fuel
  end.

(** [flush_socket]; a productive round shortens the queue. *)
Definition flush_socket : LL unit :=
  c ← st_get;
  if is_writable c then flush_loop (S (length (output_queue c))) else mret tt.

(** [encrypt_chunk]: the cursor is at [pos]; the new position is returned. *)
Definition encrypt_chunk (input : bytes) (pos : nat) : LL nat :=
  remaining_len ← st_lift (usize_sub (length input) pos);
  let chunk_size := NOISE_MAX_PAYLOAD_LEN `min` remaining_len in
  c ← st_get;
  nb ← st_lift (copy_into 0 (take chunk_size (drop pos input)) (noise_buffer c));
  st_modify (with_noise_buffer nb) ;;
  let encrypted_len := chunk_size + MAC_LENGTH in
  plain ← st_lift (slice_to encrypted_len nb);
  cipher ← noise_send plain;
  nb ← st_lift (copy_into 0 cipher nb);
  st_modify (with_noise_buffer nb) ;;
  st_modify (λ c, with_output (output_queue c ++ take encrypted_len nb) c) ;;
  mret (pos + chunk_size).

(** The loop of [encrypt_and_enqueue]. *)
Fixpoint encrypt_loop (fuel : nat) (input : bytes) (pos : nat) : LL unit :=
  match fuel with
  | O => st_lift (Panic "out of fuel")
  | S fuel =>
    if decide (pos = length input) then mret tt
    else
      pos ← encrypt_chunk input pos;
      c ← st_get;
      (if decide (write_size c ≤ length (output_queue c))
       then flush_socket_once ;; mret tt else mret tt) ;;
      encrypt_loop fuel input pos
  end.

(** The length of the frame for an input of [n] octets. *)
Definition full_msg_len (n : nat) : nat :=
  let num_full_chunks := n `div` NOISE_MAX_PAYLOAD_LEN in
  let rem := n `mod` NOISE_MAX_PAYLOAD_LEN in
  let last_chunk_len := if decide (rem = 0) then 0 else rem + MAC_LENGTH in
  num_full_chunks * NOISE_MAX_MESSAGE_LEN + last_chunk_len.

Definition encrypt_and_enqueue (input : bytes) : LL unit :=
  let header := to_be_bytes 4 (as_u32 (Z.of_nat (full_msg_len (length input)))) in
  st_modify (λ c, with_output (output_queue c ++ header) c) ;;
  encrypt_loop (S (length input)) input 0.

Definition write_to_socket (input : bytes) : LL unit := encrypt_and_enqueue input.

(** *** The XX handshake *)

(** [send_xx_msg!] *)
Definition send_xx_msg (prefix_len : nat) (payload : bytes) (suffix_len : nat) : LL unit :=
  let header := to_be_bytes 4 (as_u32 (Z.of_nat (prefix_len + length payload + suffix_len))) in
  let msg := replicate prefix_len 0%Z ++ payload ++ replicate suffix_len 0%Z in
  cipher ← noise_send msg;
  st_modify (λ c, with_output (output_queue c ++ header ++ cipher) c) ;;
  flush_socket.

(** [recv_xx_msg!]: the message is decrypted in the socket buffer. *)
Definition recv_xx_msg (len : nat) : LL unit :=
  c ← st_get;
  msg ← st_lift (slice len (socket_buffer c));
  plain ← noise_recv msg;
  c ← st_get;
  let sb := socket_buffer c in
  b ← st_lift (copy_into (offset sb) plain (buf sb));
  st_modify (with_socket_buffer (MkSocketBuffer b (offset sb) (remaining sb))).

Definition send_handshake_message_a : LL unit := send_xx_msg DHLEN PSK 16.

(** [self.socket_buffer.slice(len)[from..][..n]] *)
Definition handshake_payload (len from : nat) (n : outcome nat) : LL bytes :=
  c ← st_get;
  st_lift (msg ← slice len (socket_buffer c); msg ← slice_from from msg; n ← n; slice_to n msg).

Definition socket_set_nodelay (b : bool) : LL unit := λ c,
  let '(r, sock) := set_nodelay b (socket c) in (r, with_socket sock c).

(** [produce] is the node's [produce_handshake_request]. *)
Definition process_msg_a (produce : outcome bytes) (len : nat) : LL bytes :=
  recv_xx_msg len ;;
  payload_in ← handshake_payload len DHLEN (n ← usize_sub len DHLEN; usize_sub n 16);
  payload_out ← st_lift produce;
  send_xx_msg (DHLEN * 2 + MAC_LENGTH) payload_out MAC_LENGTH ;;
  mret payload_in.

Definition process_msg_b (produce : outcome bytes) (len : nat) : LL bytes :=
  recv_xx_msg len ;;
  payload_in ← handshake_payload len (DHLEN * 2 + MAC_LENGTH)
    (n ← usize_sub len (DHLEN * 2); usize_sub n (MAC_LENGTH * 2));
  payload_out ← st_lift produce;
  send_xx_msg (DHLEN + MAC_LENGTH) payload_out MAC_LENGTH ;;
  socket_set_nodelay false ;;
  mret payload_in.

Definition process_msg_c (len : nat) : LL bytes :=
  recv_xx_msg len ;;
  payload ← handshake_payload len (DHLEN + MAC_LENGTH)
    (n ← usize_sub len DHLEN; usize_sub n (MAC_LENGTH * 2));
  socket_set_nodelay false ;;
  mret payload.

(** *** Input *)

(** [decrypt_chunk] on the message held by the cursor. *)
Definition decrypt_chunk (msg : bytes) (offset_mul : nat) : LL bytes :=
  let pos := offset_mul * NOISE_MAX_MESSAGE_LEN in
  avail ← st_lift (usize_sub (length msg) pos);
  let read_size := NOISE_MAX_MESSAGE_LEN `min` avail in
  c ← st_get;
  nb ← st_lift (copy_into 0 (take read_size (drop pos msg)) (noise_buffer c));
  st_modify (with_noise_buffer nb) ;;
  cipher ← st_lift (slice_to read_size nb);
  plain ← noise_recv cipher;
  nb ← st_lift (copy_into 0 plain nb);
  st_modify (with_noise_buffer nb) ;;
  n ← st_lift (usize_sub read_size MAC_LENGTH);
  out ← st_lift (slice_to n nb);
  mret (cursor_write (offset_mul * NOISE_MAX_PAYLOAD_LEN) out msg).

(** The loop of [decrypt] over the chunks [idx]. *)
Fixpoint decrypt_loop (idx : list nat) (msg : bytes) : LL bytes :=
  match idx with
  | [] => mret msg
  | i :: idx => msg ← decrypt_chunk msg i; decrypt_loop idx msg
  end.

Definition decrypt : LL bytes :=
  c ← st_get;
  let msg := in_message (incoming_msg c) in
  st_modify (λ c, with_incoming
    (MkIncomingMessage (size_bytes (incoming_msg c)) (pending_bytes (incoming_msg c)) []) c) ;;
  let len := length msg in
  let num_full_chunks := len `div` NOISE_MAX_MESSAGE_LEN in
  let last_chunk_size := len `mod` NOISE_MAX_MESSAGE_LEN in
  let num_all_chunks := num_full_chunks + (if decide (0 < last_chunk_size) then 1 else 0) in
  msg ← decrypt_loop (seq 0 num_all_chunks) msg;
  n ← st_lift (usize_sub len (num_all_chunks * MAC_LENGTH));
  mret (take n msg).

(** [attempt_to_read_length] *)
Definition attempt_to_read_length : LL unit :=
  c ← st_get;
  let sb := socket_buffer c in
  let im := incoming_msg c in
  missing ← st_lift (usize_sub PAYLOAD_SIZE (length (size_bytes im)));
  let read_size := remaining sb `min` missing in
  bs ← st_lift (slice read_size sb);
  let size_bytes := size_bytes im ++ bs in
  st_modify (with_incoming (MkIncomingMessage size_bytes (pending_bytes im) (in_message im))) ;;
  sb ← st_lift (shift read_size sb);
  st_modify (with_socket_buffer sb) ;;
  if decide (length size_bytes = PAYLOAD_SIZE) then
    let expected_size := from_be_bytes size_bytes in
    st_modify (with_incoming (MkIncomingMessage [] (pending_bytes im) (in_message im))) ;;
    st_lift (ensure (bool_decide (expected_size ≠ 0%Z)) "I got a zero-sized message") ;;
    c ← st_get;
    st_lift (ensure (is_post_handshake c
                     || bool_decide (expected_size < Z.of_nat HANDSHAKE_SIZE_LIMIT)%Z)
               "expected message size exceeds the handshake size limit") ;;
    st_lift (ensure (bool_decide (expected_size ≤ PROTOCOL_MAX_MESSAGE_SIZE)%Z)
               "expected message size exceeds the maximum protocol size") ;;
    st_modify (with_incoming (MkIncomingMessage [] (Z.to_nat expected_size) []))
  else mret tt.

(** The handshake message with the current number. *)
Definition process_handshake_msg (produce : outcome bytes) (len : nat) : LL bytes :=
  c ← st_get;
  match get_message_count (noise_session c), is_initiator (noise_session c) with
  | 0, false => process_msg_a produce len
  | 1, true => process_msg_b produce len
  | 2, false => process_msg_c len
  | _, _ => st_lift (bail "invalid XX handshake")
  end.

Definition reset_socket_buffer : LL unit :=
  st_modify (λ c, with_socket_buffer (reset (socket_buffer c)) c).

(** The branch of [process_incoming_msg] for a complete handshake message. *)
Definition finish_handshake_msg (produce : outcome bytes) (to_read : nat) : LL ReadResult :=
  payload ← process_handshake_msg produce to_read;
  c ← st_get;
  let count := get_message_count (noise_session c) in
  if is_initiator (noise_session c) then reset_socket_buffer ;; mret (Complete payload)
  else if decide (count = 1 ∧ payload ≠ PSK) then st_lift (bail "Invalid PSK")
  else if decide (count = 2) then reset_socket_buffer ;; mret Incomplete
  else reset_socket_buffer ;; mret (Complete payload).

(** [process_incoming_msg] *)
Definition process_incoming_msg (produce : outcome bytes) : LL ReadResult :=
  c ← st_get;
  let sb := socket_buffer c in
  let im := incoming_msg c in
  let to_read := pending_bytes im `min` remaining sb in
  bs ← st_lift (slice to_read sb);
  pending ← st_lift (usize_sub (pending_bytes im) to_read);
  st_modify (with_incoming (MkIncomingMessage (size_bytes im) pending (in_message im ++ bs))) ;;
  (if is_post_handshake c
   then sb ← st_lift (shift to_read sb); st_modify (with_socket_buffer sb)
   else mret tt) ;;
  if decide (pending = 0) then
    if is_post_handshake c then msg ← decrypt; mret (Complete msg)
    else finish_handshake_msg produce to_read
  else mret Incomplete.

(** Fill the socket buffer; [None] when there are octets to process. *)
Definition fill_socket_buffer : LL (option ReadResult) :=
  c ← st_get;
  let sb := if is_exhausted (socket_buffer c) then reset (socket_buffer c) else socket_buffer c in
  st_modify (with_socket_buffer sb) ;;
  if decide (remaining sb = 0) then
    len ← st_lift (usize_sub (length (buf sb)) (offset sb));
    _ ← st_lift (slice len sb);
    let '(res, sock) := socket_read len (socket c) in
    st_modify (with_socket sock) ;;
    match res with
    | IoOk bs =>
      if decide (bs = []) then mret (Some Closed)
      else
        b ← st_lift (copy_into (offset sb) bs (buf sb));
        st_modify (with_socket_buffer (MkSocketBuffer b (offset sb) (length bs))) ;;
        mret None
    | IoWouldBlock => mret (Some WouldBlock)
    | IoErr m => st_lift (Err (IoError m))
    end
  else mret None.

(** [read_from_socket] *)
Definition read_from_socket (produce : outcome bytes) : LL ReadResult :=
  r ← fill_socket_buffer;
  match r with
  | Some r => mret r
  | None =>
    c ← st_get;
    (if decide (pending_bytes (incoming_msg c) = 0) then attempt_to_read_length else mret tt) ;;
    c ← st_get;
    if decide (pending_bytes (incoming_msg c) ≠ 0) then process_incoming_msg produce
    else mret Incomplete
  end.
End low_level.
