(* ===== verification/Framing.v ===== *)
(** * Framing of encrypted messages

    What [low_level.rs] promises once the Noise handshake is over: messages are
    cut into chunks, encrypted, framed with their length and queued; the octets
    reach the socket in order, whatever the socket accepts at a time; the
    receiver reassembles exactly the messages sent, whatever way the stream is
    cut into reads. *)
From S2P Require Import Prelude.
From S2P Require Import Noise.
From S2P Require Import LowLevel.

(** ** Lists and lengths *)

Lemma copy_into_ok off src dst :
  off + length src ≤ length dst →
  copy_into off src dst = Ok (take off dst ++ src ++ drop (off + length src) dst).
Proof. intros. unfold copy_into. by rewrite decide_True. Qed.

Lemma length_copied off (src dst : bytes) :
  off + length src ≤ length dst →
  length (take off dst ++ src ++ drop (off + length src) dst) = length dst.
Proof. intros. autorewrite with node. lia. Qed.

(** Copying a prefix of a deque out of its two slices. *)
Lemma copy_slices (front back dst : bytes) (n : nat) :
  let fl := length front `min` n in
  let b1 := take fl front ++ drop fl dst in
  n ≤ length front + length back → n ≤ length dst →
  (if decide (0 < n - fl) then s ← slice_to (n - fl) back; copy_into fl s b1 else Ok b1)
  = Ok (take n (front ++ back) ++ drop n dst).
Proof.
  intros fl b1 Hn Hd. assert (length (take fl front) = fl) as Hfl by (autorewrite with node; lia).
  assert (length b1 = length dst) as Hb1 by (unfold b1; autorewrite with node; lia).
  case_decide as Hb.
  - rewrite slice_to_ok, bind_Ok by lia.
    rewrite copy_into_ok by (rewrite Hb1, length_take_le by lia; lia).
    f_equal. unfold b1. rewrite take_app_length' by done. rewrite length_take_le by lia.
    rewrite drop_app_ge, Hfl, drop_drop, take_app_ge by lia.
    assert (fl = length front) as -> by lia. rewrite firstn_all, (assoc_L (++)).
    do 2 f_equal; lia.
  - f_equal. unfold b1. assert (fl = n ∧ n ≤ length front) as [-> ?] by lia.
    by rewrite take_app_le by lia.
Qed.

(** The chunks of a message. *)
Definition num_chunks (n : nat) : nat :=
  n `div` NOISE_MAX_PAYLOAD_LEN + (if decide (n `mod` NOISE_MAX_PAYLOAD_LEN = 0) then 0 else 1).

Lemma div_mod_step (n k : nat) :
  0 < k → k ≤ n → n `div` k = S ((n - k) `div` k) ∧ n `mod` k = (n - k) `mod` k.
Proof.
  intros Hk Hn. replace n with ((n - k) + 1 * k) at 1 3 by lia.
  rewrite Nat.div_add, Nat.Div0.mod_add by lia. split; lia.
Qed.

Lemma num_chunks_step n :
  0 < n → num_chunks n = S (num_chunks (n - NOISE_MAX_PAYLOAD_LEN `min` n)).
Proof.
  intros Hn. pose proof noise_lengths as (_ & Hp & _). unfold num_chunks.
  destruct (decide (NOISE_MAX_PAYLOAD_LEN ≤ n)) as [Hle|Hlt].
  - rewrite Nat.min_l by lia. destruct (div_mod_step n _ Hp Hle) as [-> ->]. lia.
  - rewrite Nat.min_r, Nat.sub_diag by lia. rewrite Nat.div_small, Nat.mod_small by lia.
    rewrite Nat.Div0.div_0_l, Nat.Div0.mod_0_l. rewrite decide_False, decide_True by lia. lia.
Qed.

Lemma full_msg_len_step n :
  0 < n →
  full_msg_len n = NOISE_MAX_PAYLOAD_LEN `min` n + MAC_LENGTH
                   + full_msg_len (n - NOISE_MAX_PAYLOAD_LEN `min` n).
Proof.
  intros Hn. pose proof noise_lengths as (Hm & Hp & _). unfold full_msg_len.
  destruct (decide (NOISE_MAX_PAYLOAD_LEN ≤ n)) as [Hle|Hlt].
  - rewrite Nat.min_l by lia. destruct (div_mod_step n _ Hp Hle) as [-> ->].
    nia.
  - rewrite Nat.min_r, Nat.sub_diag by lia. rewrite Nat.div_small, Nat.mod_small by lia.
    rewrite Nat.Div0.div_0_l, Nat.Div0.mod_0_l. rewrite decide_False, decide_True by lia. lia.
Qed.

Lemma full_msg_len_0 : full_msg_len 0 = 0.
Proof. unfold full_msg_len. rewrite Nat.Div0.div_0_l, Nat.Div0.mod_0_l. by rewrite decide_True. Qed.

Lemma num_chunks_0 : num_chunks 0 = 0.
Proof. unfold num_chunks. rewrite Nat.Div0.div_0_l, Nat.Div0.mod_0_l. by rewrite decide_True. Qed.

(** ** The encrypted body of a frame *)

Section framing.
Context `{!Noise sess, !NoiseLaws sess, !Deque}.
Implicit Types c : ConnectionLowLevel sess.

(** [opens r body plain r']: the session [r] reads [body] chunk by chunk as
    [plain]. *)
Inductive opens : sess → bytes → bytes → sess → Prop :=
  | opens_nil r : opens r [] [] r
  | opens_chunk r r1 r' cipher d body plain :
      MAC_LENGTH < length cipher ≤ NOISE_MAX_MESSAGE_LEN →
      (length cipher = NOISE_MAX_MESSAGE_LEN ∨ body = []) →
      recv_message cipher r = (Ok d, r1) →
      opens r1 body plain r' →
      opens r (cipher ++ body) (take (length cipher - MAC_LENGTH) d ++ plain) r'.

Lemma opens_nil_inv r plain r' : opens r [] plain r' → plain = [] ∧ r' = r.
Proof.
  inversion 1; [done|].
  match goal with E : _ ++ _ = [] |- _ => apply app_eq_nil in E as [-> _] end.
  simpl in *. lia.
Qed.

Lemma opens_length r body plain r' :
  opens r body plain r' → length body = full_msg_len (length plain).
Proof.
  induction 1 as [|r r1 r' cipher d body plain Hlen Hlast Hrecv Hop IH]; simpl.
  { by rewrite full_msg_len_0. }
  pose proof noise_lengths as (Hm & Hp & _).
  apply recv_ok_state in Hrecv as (Hd & _ & _). autorewrite with node. rewrite Hd.
  rewrite Nat.min_l by lia. rewrite IH.
  rewrite (full_msg_len_step (_ + _)) by lia.
  destruct Hlast as [Hfull| ->].
  - rewrite Hfull, Nat.min_l by lia. replace (_ - _ + length plain - _) with (length plain) by lia.
    lia.
  - apply opens_nil_inv in Hop as [-> _]. simpl. rewrite Nat.add_0_r, Nat.min_r, Nat.sub_diag by lia.
    rewrite full_msg_len_0. lia.
Qed.

(** ** Output *)

(** The octets that have been handed over for sending, in order. *)
Definition wire c : bytes := tx (socket c) ++ output_queue c.

(** The size of the next write. *)
Definition next_write c : nat :=
  (if is_post_handshake c then write_size c else Z.to_nat 4096) `min` length (output_queue c).

(** Sending leaves the input side alone: [c'] differs from [c] in the session,
    the queue, what the socket accepted, flags and scratch buffers. *)
Record input_kept c c' : Prop := {
  kept_incoming : incoming_msg c' = incoming_msg c;
  kept_offset : offset (socket_buffer c') = offset (socket_buffer c);
  kept_remaining : remaining (socket_buffer c') = remaining (socket_buffer c);
  kept_buf : length (buf (socket_buffer c')) = length (buf (socket_buffer c));
  kept_noise_buffer : length (noise_buffer c') = length (noise_buffer c);
  kept_rx : rx (socket c') = rx (socket c);
  kept_nodelay : nodelay_settable (socket c') = nodelay_settable (socket c);
  kept_write_size : write_size c' = write_size c;
  kept_script : tx_script (socket c') `suffix_of` tx_script (socket c);
}.

#[global] Instance input_kept_preorder : PreOrder input_kept.
Proof.
  split; [by split|]. intros c1 c2 c3 [] []. split; etrans; eauto.
Qed.

Lemma flush_socket_once_spec c :
  next_write c ≤ length (buf (socket_buffer c)) →
  let w := take (next_write c) (output_queue c) in
  let b := w ++ drop (next_write c) (buf (socket_buffer c)) in
  let c1 := with_socket_buffer
    (MkSocketBuffer b (offset (socket_buffer c)) (remaining (socket_buffer c))) c in
  flush_socket_once c =
    match socket_write w (socket c) with
    | (IoOk n, sock) => (Ok n, with_output (drop n (output_queue c)) (with_socket sock c1))
    | (IoWouldBlock, sock) => (Ok 0, with_flags false (is_initialized c) (with_socket sock c1))
    | (IoErr m, sock) => (Err (IoError m), with_socket sock c1)
    end.
Proof.
  intros Hlen w b c1.
  assert (length w = next_write c) as Hw by (apply length_take_le; unfold next_write; lia).
  unfold flush_socket_once. rewrite bind_get. cbv zeta.
  replace (if is_post_handshake c then _ else _) with (next_write c)
    by (unfold next_write; by destruct (is_post_handshake c)).
  destruct (as_slices (output_queue c)) as [front back] eqn:Hs.
  pose proof (as_slices_app (output_queue c)) as Happ. rewrite Hs in Happ. simpl in Happ.
  assert (next_write c ≤ length front + length back) as Hn.
  { rewrite <-length_app, Happ. unfold next_write. lia. }
  pose proof (copy_slices front back (buf (socket_buffer c)) _ Hn Hlen) as Hcopy.
  set (fl := length front `min` next_write c) in *.
  rewrite Happ in Hcopy. fold w b in Hcopy.
  assert (fl ≤ length front ∧ fl ≤ next_write c) as [Hfl Hfn] by lia. clearbody fl.
  erewrite bind_lift by (apply copy_into_ok; rewrite length_take_le; lia).
  st_run. erewrite bind_lift by (apply usize_sub_ok; lia). cbv beta.
  rewrite take_0, Nat.add_0_l, length_take_le, app_nil_l by lia.
  assert (∀ (o : outcome bytes) (b1 : bytes), (if decide (0 < next_write c - fl)
    then st_lift o else mret b1) = st_lift (if decide (0 < next_write c - fl) then o else Ok b1)
    :> ST (ConnectionLowLevel sess) bytes) as Hlift by (intros; by case_decide).
  rewrite Hlift, Hcopy.
  rewrite bind_lift with (a := b) by done. st_run.
  erewrite bind_lift.
  2:{ apply slice_to_ok. unfold b. rewrite length_app, Hw. lia. }
  st_run. unfold b at 1. rewrite take_app_length' by done.
  cbn [socket with_socket_buffer]. destruct (socket_write w (socket c)) as [[n| |m] sock]; st_run; reflexivity.
Qed.

(** The socket reported an error on a write. *)
Definition write_failed c (e : error) : Prop :=
  ∃ m, e = IoError m ∧ WError m ∈ tx_script (socket c).

(** [c'] is reached from [c] by handing octets to the socket. *)
Record flushed c c' : Prop := {
  flushed_wire : wire c' = wire c;
  flushed_session : noise_session c' = noise_session c;
  flushed_kept : input_kept c c';
}.

#[global] Instance flushed_preorder : PreOrder flushed.
Proof.
  split; [by split|]. intros c1 c2 c3 [] []. split; etrans; eauto.
Qed.

Lemma write_failed_mono c c' e : input_kept c c' → write_failed c' e → write_failed c e.
Proof.
  intros [_ _ _ _ _ _ _ _ [k Hk]] (m & -> & Hm). exists m. split; [done|]. rewrite Hk. set_solver.
Qed.

Lemma flush_socket_once_flushed c :
  next_write c ≤ length (buf (socket_buffer c)) →
  wp flush_socket_once
    (λ n c', flushed c c' ∧ length (output_queue c) = n + length (output_queue c') ∧
             (n = 0 → 0 < next_write c → WAccept 0 ∉ tx_script (socket c) →
              is_writable c' = false))
    (λ e _, write_failed c e) c.
Proof.
  intros Hlen. unfold wp. rewrite flush_socket_once_spec by done. cbv zeta.
  set (w := take (next_write c) (output_queue c)).
  assert (length w = next_write c) as Hw by (apply length_take_le; unfold next_write; lia).
  assert (length (w ++ drop (next_write c) (buf (socket_buffer c)))
          = length (buf (socket_buffer c))) as Hb by (rewrite length_app, length_drop; lia).
  unfold socket_write. destruct (tx_script (socket c)) as [|[n| |m] ev] eqn:Hscript.
  - split_and!; [|done|done]. split; [done..|]. split; simpl; rewrite ?Hscript; done.
  - split_and!.
    + split; [|done|split; simpl; rewrite ?Hscript; try done; by apply suffix_cons_r].
      unfold wire. simpl. rewrite <-(assoc_L (++)), Hw. f_equal. unfold w.
      by rewrite take_take, take_drop.
    + simpl. rewrite length_drop, Hw. unfold next_write. lia.
    + simpl. rewrite Hw. intros ???. assert (n = 0) as -> by lia. set_solver.
  - split_and!; [|done|done]. split; [done..|].
    split; simpl; rewrite ?Hscript; try done. by apply suffix_cons_r.
  - exists m. rewrite Hscript. set_solver.
Qed.
(** The sizes established by the configuration and by
    [ConnectionLowLevel::new]. *)
Record buffers_ok c : Prop := {
  write_size_fits : write_size c ≤ length (buf (socket_buffer c));
  handshake_fits : (4096 ≤ Z.of_nat (length (buf (socket_buffer c))))%Z;
  noise_buffer_len : length (noise_buffer c) = NOISE_MAX_MESSAGE_LEN;
}.

Lemma buffers_ok_kept c c' : input_kept c c' → buffers_ok c → buffers_ok c'.
Proof. intros [] []. split; congruence. Qed.

Lemma buffers_ok_next_write c : buffers_ok c → next_write c ≤ length (buf (socket_buffer c)).
Proof. intros []. unfold next_write. destruct (is_post_handshake c); lia. Qed.

Lemma next_write_pos c :
  0 < write_size c → output_queue c ≠ [] → 0 < next_write c.
Proof.
  intros ? Hq. unfold next_write. destruct (output_queue c); [done|]. simpl.
  destruct (is_post_handshake c); lia.
Qed.

Lemma flush_loop_spec fuel c :
  buffers_ok c → length (output_queue c) < fuel →
  wp (flush_loop fuel)
    (λ _ c', flushed c c' ∧
       (0 < write_size c → WAccept 0 ∉ tx_script (socket c) →
        output_queue c' = [] ∨ is_writable c' = false))
    (λ e _, write_failed c e) c.
Proof.
  revert c. induction fuel as [|fuel IH]; intros c Hok Hfuel; [lia|]. simpl.
  wp_run. case_decide as Hq; [wp_run; split; [done|by left]|].
  wp_run. eapply wp_mono; [by apply flush_socket_once_flushed, buffers_ok_next_write| |done].
  intros n c1 (Hf & Hlen & Hzero). cbv beta. case_decide as Hn.
  { wp_run. split; [done|right]. by apply Hzero; [|apply next_write_pos|]. }
  pose proof (flushed_kept _ _ Hf) as Hk.
  eapply wp_mono; [apply IH; [by eapply buffers_ok_kept|lia]| |].
  - intros _ c2 (Hf2 & Hend). split; [by etrans|]. intros Hws Hscript.
    apply Hend; [by rewrite (kept_write_size _ _ Hk)|].
    destruct (kept_script _ _ Hk) as [k Hkk]. rewrite Hkk in Hscript. set_solver.
  - intros e c2 He. by eapply write_failed_mono.
Qed.

Lemma flush_socket_flushed c :
  buffers_ok c →
  wp flush_socket
    (λ _ c', flushed c c' ∧
       (0 < write_size c → WAccept 0 ∉ tx_script (socket c) →
        output_queue c' = [] ∨ is_writable c' = false))
    (λ e _, write_failed c e) c.
Proof.
  intros. unfold flush_socket. wp_run. destruct (is_writable c) eqn:Hw.
  - apply flush_loop_spec; auto.
  - wp_run. split; [done|by right].
Qed.

(** [flush_socket] neither panics nor loops forever, for any sequence of
    partial writes: the octets written and the octets still queued are, in
    order, what they were before.  When it returns without an error either the
    queue is empty or the connection has been marked non-writable, to be retried
    when the socket is writable again; the only errors are those of the
    socket. *)
Theorem flush_socket_delivers c :
  buffers_ok c → 0 < write_size c → WAccept 0 ∉ tx_script (socket c) →
  wp flush_socket
    (λ _ c', flushed c c' ∧ (output_queue c' = [] ∨ is_writable c' = false))
    (λ e _, write_failed c e) c.
Proof.
  intros Hok Hws Hscript. eapply wp_mono; [by apply flush_socket_flushed| |done].
  intros _ c' [Hf Hend]. auto.
Qed.

(** *** Encryption *)

Lemma payload_of_transport msg :
  payload_of 0 MAC_LENGTH msg = take (length msg - MAC_LENGTH) msg.
Proof. unfold payload_of. by rewrite Nat.sub_0_r, drop_0. Qed.

(** One chunk: it is appended to the queue, the peer's session reads it back. *)
Lemma encrypt_chunk_spec c r n input pos :
  buffers_ok c → noise_synced (S n) (noise_session c) r → pos < length input →
  let k := NOISE_MAX_PAYLOAD_LEN `min` (length input - pos) in
  wp (encrypt_chunk input pos)
    (λ pos' c', ∃ cipher d r',
       pos' = pos + k ∧ input_kept c c' ∧
       wire c' = wire c ++ cipher ∧ length cipher = k + MAC_LENGTH ∧
       recv_message cipher r = (Ok d, r') ∧ take k d = take k (drop pos input) ∧
       noise_synced n (noise_session c') r')
    (λ _ _, False) c.
Proof.
  intros Hok Hsync Hpos k. pose proof noise_lengths as (Hm & Hp & _).
  destruct Hok as [_ _ Hnb]. unfold encrypt_chunk. wp_run.
  eapply wp_lift; [by apply usize_sub_ok; lia|]. fold k. wp_run.
  assert (length (take k (drop pos input)) = k) as Hk by (rewrite length_take, length_drop; lia).
  eapply wp_lift; [apply copy_into_ok; lia|]. rewrite take_0, Nat.add_0_l, Hk, app_nil_l.
  set (nb := take k (drop pos input) ++ drop k (noise_buffer c)).
  assert (length nb = NOISE_MAX_MESSAGE_LEN) as Hnb'
    by (unfold nb; rewrite length_app, length_drop; lia).
  wp_run. eapply wp_lift; [apply slice_to_ok; lia|]. wp_run.
  set (plain := take (k + MAC_LENGTH) nb).
  assert (length plain = k + MAC_LENGTH) as Hplain by (apply length_take_le; lia).
  destruct (synced_carries n _ r plain Hsync ltac:(lia))
    as (cipher & s' & d & r' & Hsend & Hcl & Hrecv & Hdl & Hpay & Hsync').
  unfold wp at 1, noise_send. cbn [noise_session with_noise_buffer]. rewrite Hsend.
  wp_run. eapply wp_lift; [apply copy_into_ok; lia|]. wp_run.
  exists cipher, d, r'. rewrite take_0, Nat.add_0_l, app_nil_l.
  rewrite !payload_of_transport, Hdl, Hplain, Nat.add_sub in Hpay.
  split_and!; [done| | |lia|done| |done].
  - split; simpl; [done|done|done|done| |done..]. rewrite length_app, length_drop. lia.
  - unfold wire. simpl. rewrite <-(assoc_L (++)). do 2 f_equal.
    by rewrite take_app_length' by lia.
  - rewrite Hpay. unfold plain, nb. rewrite take_take, Nat.min_l by lia.
    by rewrite take_app_length' by done.
Qed.

(** [body] was queued after [c], the session [r] of the peer reads it as [plain]
    and the two sessions are ready for [n] more chunks. *)
Definition queued c (r : sess) (n : nat) (plain : bytes) c' : Prop :=
  ∃ body r', input_kept c c' ∧ wire c' = wire c ++ body ∧ opens r body plain r' ∧
    noise_synced n (noise_session c') r'.

Lemma queued_chunk c c1 c2 r r1 n cipher d plain k :
  input_kept c c1 → wire c1 = wire c ++ cipher →
  0 < k ≤ NOISE_MAX_PAYLOAD_LEN → length cipher = k + MAC_LENGTH →
  (k = NOISE_MAX_PAYLOAD_LEN ∨ drop k plain = []) →
  recv_message cipher r = (Ok d, r1) → take k d = take k plain →
  queued c1 r1 n (drop k plain) c2 → queued c r n plain c2.
Proof.
  intros Hk Hw Hkpos Hcl Hlast Hrecv Hd (body & r2 & Hk2 & Hw2 & Hop & Hsync).
  pose proof noise_lengths as (Hm & _).
  exists (cipher ++ body), r2. split_and!; [by etrans| |  |done].
  - by rewrite Hw2, Hw, (assoc_L (++)).
  - rewrite <-(take_drop k plain), <-Hd. replace k with (length cipher - MAC_LENGTH) at 1 by lia.
    eapply opens_chunk; [lia| |done|done].
    destruct Hlast as [->|Hnil]; [left; lia|right]. rewrite Hnil in Hop.
    apply opens_length in Hop. simpl in Hop. rewrite full_msg_len_0 in Hop. by apply nil_length_inv.
Qed.

Lemma encrypt_loop_spec fuel input pos c r n :
  buffers_ok c → pos ≤ length input → length input - pos < fuel →
  noise_synced (num_chunks (length input - pos) + n) (noise_session c) r →
  wp (encrypt_loop fuel input pos) (λ _, queued c r n (drop pos input))
    (λ e _, write_failed c e) c.
Proof.
  revert pos c r. induction fuel as [|fuel IH]; intros pos c r Hok Hpos Hfuel Hsync; [lia|].
  simpl. pose proof noise_lengths as (_ & Hp & _). case_decide as Hend.
  { wp_run. exists [], r. rewrite drop_ge by lia. rewrite Hend, Nat.sub_diag, num_chunks_0 in Hsync.
    split_and!; [done|by rewrite app_nil_r|constructor|done]. }
  rewrite num_chunks_step in Hsync by lia.
  wp_run. eapply wp_mono; [by apply encrypt_chunk_spec; [| |lia]| |done].
  set (k := NOISE_MAX_PAYLOAD_LEN `min` (length input - pos)).
  intros pos' c1 (cipher & d & r1 & -> & Hk1 & Hw1 & Hcl & Hrecv & Hd & Hsync1).
  assert (buffers_ok c1) as Hok1 by (by eapply buffers_ok_kept).
  wp_run. eapply (wp_mono _ (λ _, flushed c1) _ (λ e _, write_failed c1 e)).
  { case_decide; [|by wp_run]. wp_run.
    eapply wp_mono; [by apply flush_socket_once_flushed, buffers_ok_next_write| |done].
    intros ?? (? & _). by wp_run. }
  2:{ intros e ? He. by eapply write_failed_mono. }
  intros _ c2 Hf. pose proof (flushed_kept _ _ Hf) as Hk2.
  eapply wp_mono; [apply (IH (pos + k) c2 r1); [by eapply buffers_ok_kept|lia|lia|]| |].
  - rewrite (flushed_session _ _ Hf). replace (length input - (pos + k)) with
      (length input - pos - k) by lia. done.
  - intros _ c3 (body & r3 & Hk3 & Hw3 & Hop & Hs3).
    eapply (queued_chunk c c1 c3 r r1 n cipher d (drop pos input) k);
      [done|done|lia|done| |done|done|].
    + destruct (decide (k = NOISE_MAX_PAYLOAD_LEN)); [by left|right].
      rewrite drop_drop. apply drop_ge. lia.
    + rewrite drop_drop. exists body, r3. split_and!; [by etrans| |done|done].
      by rewrite Hw3, (flushed_wire _ _ Hf).
  - intros e ? He. by eapply write_failed_mono, write_failed_mono, He.
Qed.

(** A frame: the length of the body, then the body. *)
Definition frame (body : bytes) : bytes := to_be_bytes 4 (Z.of_nat (length body)) ++ body.

(** The frames [stream] read as the messages [ms]; each message is not empty and
    within the size limit of the protocol. *)
Inductive opens_all : sess → bytes → list bytes → sess → Prop :=
  | opens_all_nil r : opens_all r [] [] r
  | opens_all_cons r r1 r' body m stream ms :
      opens r body m r1 →
      0 < length body → (Z.of_nat (length body) ≤ PROTOCOL_MAX_MESSAGE_SIZE)%Z →
      opens_all r1 stream ms r' →
      opens_all r (frame body ++ stream) (m :: ms) r'.

(** A message that can be sent: its frame is within the limit. *)
Definition sendable (m : bytes) : Prop :=
  m ≠ [] ∧ (Z.of_nat (full_msg_len (length m)) ≤ PROTOCOL_MAX_MESSAGE_SIZE)%Z.

Lemma full_msg_len_pos n : 0 < n → 0 < full_msg_len n.
Proof.
  intros. pose proof noise_lengths as (_ & ? & _). rewrite full_msg_len_step by done. lia.
Qed.

Lemma encrypt_and_enqueue_spec c r n m :
  buffers_ok c → sendable m →
  noise_synced (num_chunks (length m) + n) (noise_session c) r →
  wp (write_to_socket m)
    (λ _ c', ∃ body r', input_kept c c' ∧ wire c' = wire c ++ frame body ∧
       opens r body m r' ∧ 0 < length body ∧
       (Z.of_nat (length body) ≤ PROTOCOL_MAX_MESSAGE_SIZE)%Z ∧
       noise_synced n (noise_session c') r')
    (λ e _, write_failed c e) c.
Proof.
  intros Hok [Hm Hsize] Hsync. unfold write_to_socket, encrypt_and_enqueue.
  set (header := to_be_bytes 4 _). wp_run. set (c1 := with_output _ c).
  assert (input_kept c c1) as Hk1 by (by split).
  eapply wp_mono; [apply (encrypt_loop_spec _ m 0 c1 r n)| |].
  - by eapply buffers_ok_kept.
  - lia.
  - lia.
  - by rewrite Nat.sub_0_r.
  - intros _ c2 (body & r' & Hk2 & Hw & Hop & Hs). rewrite drop_0 in Hop.
    pose proof (opens_length _ _ _ _ Hop) as Hlen.
    exists body, r'. split_and!; [by etrans| |done| |by rewrite Hlen|done].
    + rewrite Hw. unfold c1, wire, frame. cbn [tx socket output_queue with_output].
      rewrite <-!(assoc_L (++)), Hlen. unfold header, as_u32. rewrite wrap_small; [done|].
      unfold PROTOCOL_MAX_MESSAGE_SIZE in Hsize. split; lia.
    + rewrite Hlen. by apply full_msg_len_pos, length_pos.
  - intros e ? He. by eapply write_failed_mono.
Qed.

(** ** Decryption *)

(** The chunks of a body. *)
Definition num_parts (n : nat) : nat :=
  n `div` NOISE_MAX_MESSAGE_LEN + (if decide (0 < n `mod` NOISE_MAX_MESSAGE_LEN) then 1 else 0).

Lemma num_parts_step n :
  0 < n → num_parts n = S (num_parts (n - NOISE_MAX_MESSAGE_LEN `min` n)).
Proof.
  intros Hn. pose proof noise_lengths as (? & ? & _). unfold num_parts.
  destruct (decide (NOISE_MAX_MESSAGE_LEN ≤ n)) as [Hle|Hlt].
  - rewrite Nat.min_l by lia.
    destruct (div_mod_step n NOISE_MAX_MESSAGE_LEN ltac:(lia) Hle) as [-> ->]. lia.
  - rewrite Nat.min_r, Nat.sub_diag by lia. rewrite Nat.div_small, Nat.mod_small by lia.
    rewrite Nat.Div0.div_0_l, Nat.Div0.mod_0_l. rewrite decide_True, decide_False by lia. lia.
Qed.

(** Only the session and the scratch buffer change. *)
Definition decrypted c (r : sess) c' : Prop :=
  ∃ nb, length nb = NOISE_MAX_MESSAGE_LEN ∧ c' = with_session r (with_noise_buffer nb c).

Lemma decrypted_trans c c1 c2 r1 r2 : decrypted c r1 c1 → decrypted c1 r2 c2 → decrypted c r2 c2.
Proof. intros (nb1 & _ & ->) (nb2 & ? & ->). by exists nb2. Qed.

(** A chunk in the middle of the message: [done] plaintext octets precede it. *)
Lemma decrypt_chunk_spec c r msg i cipher rest d :
  length (noise_buffer c) = NOISE_MAX_MESSAGE_LEN →
  drop (i * NOISE_MAX_MESSAGE_LEN) msg = cipher ++ rest →
  MAC_LENGTH < length cipher ≤ NOISE_MAX_MESSAGE_LEN →
  (length cipher = NOISE_MAX_MESSAGE_LEN ∨ rest = []) →
  recv_message cipher (noise_session c) = (Ok d, r) →
  wp (decrypt_chunk msg i)
    (λ msg' c', decrypted c r c' ∧
       msg' = cursor_write (i * NOISE_MAX_PAYLOAD_LEN) (take (length cipher - MAC_LENGTH) d) msg)
    (λ _ _, False) c.
Proof.
  intros Hnb Hmsg Hlen Hlast Hrecv. unfold decrypt_chunk.
  pose proof (recv_ok_state _ _ _ _ Hrecv) as (Hd & _).
  assert (length msg = i * NOISE_MAX_MESSAGE_LEN + length (cipher ++ rest)) as Hml.
  { rewrite <-Hmsg, length_drop. destruct (decide (i * NOISE_MAX_MESSAGE_LEN ≤ length msg)); [lia|].
    rewrite drop_ge in Hmsg by lia. apply (f_equal length) in Hmsg.
    rewrite length_app in Hmsg. simpl in Hmsg. lia. }
  rewrite length_app in Hml.
  assert (NOISE_MAX_MESSAGE_LEN `min` (length msg - i * NOISE_MAX_MESSAGE_LEN) = length cipher)
    as Hrs by (destruct Hlast as [?| ->]; simpl in *; lia).
  wp_run. eapply wp_lift; [apply usize_sub_ok; lia|]. rewrite Hrs, Hmsg, take_app_length. wp_run.
  eapply wp_lift; [apply copy_into_ok; lia|]. rewrite take_0, Nat.add_0_l, app_nil_l. wp_run.
  eapply wp_lift; [apply slice_to_ok; rewrite length_app; lia|]. rewrite take_app_length.
  wp_run. unfold wp at 1, noise_recv. cbn [noise_session with_noise_buffer]. rewrite Hrecv. wp_run.
  eapply wp_lift; [apply copy_into_ok; rewrite length_app, length_drop; lia|].
  rewrite take_0, Nat.add_0_l, app_nil_l, Hd. rewrite drop_app_length. wp_run.
  eapply wp_lift; [apply usize_sub_ok; lia|]. wp_run.
  eapply wp_lift; [apply slice_to_ok; rewrite length_app; lia|]. wp_run. split.
  - eexists. split; [|reflexivity]. rewrite length_app, length_drop. lia.
  - by rewrite take_app_le by lia.
Qed.

Lemma cursor_write_in pos bs msg :
  pos + length bs ≤ length msg →
  let msg' := cursor_write pos bs msg in
  take (pos + length bs) msg' = take pos msg ++ bs ∧
  ∀ n, pos + length bs ≤ n → drop n msg' = drop n msg.
Proof.
  intros Hlen msg'.
  assert (msg' = (take pos msg ++ bs) ++ drop (pos + length bs) msg) as ->.
  { unfold msg', cursor_write. rewrite (assoc_L (++)). do 2 f_equal.
    rewrite take_app_le by lia. done. }
  assert (length (take pos msg ++ bs) = pos + length bs) as Hl
    by (rewrite length_app, length_take_le; lia).
  split; [by rewrite take_app_length'|]. intros n Hn.
  rewrite drop_app_ge by lia. rewrite Hl, drop_drop. f_equal. lia.
Qed.

Lemma num_parts_0 : num_parts 0 = 0.
Proof.
  unfold num_parts. rewrite Nat.Div0.div_0_l, Nat.Div0.mod_0_l. by rewrite decide_False by lia.
Qed.

Lemma num_parts_app (cipher body : bytes) :
  0 < length cipher ≤ NOISE_MAX_MESSAGE_LEN →
  (length cipher = NOISE_MAX_MESSAGE_LEN ∨ body = []) →
  num_parts (length (cipher ++ body)) = S (num_parts (length body)).
Proof.
  intros Hc Hlast. rewrite length_app, num_parts_step by lia. do 2 f_equal.
  destruct Hlast as [?| ->]; simpl; lia.
Qed.

Lemma decrypt_loop_spec r body plain r' :
  opens r body plain r' →
  ∀ i msg c,
    length (noise_buffer c) = NOISE_MAX_MESSAGE_LEN → noise_session c = r →
    drop (i * NOISE_MAX_MESSAGE_LEN) msg = body →
    wp (decrypt_loop (seq i (num_parts (length body))) msg)
      (λ msg' c', decrypted c r' c' ∧
         take (i * NOISE_MAX_PAYLOAD_LEN + length plain) msg'
         = take (i * NOISE_MAX_PAYLOAD_LEN) msg ++ plain)
      (λ _ _, False) c.
Proof.
  induction 1 as [r|r r1 r' cipher d body plain Hlen Hlast Hrecv Hop IH]; intros i msg c Hnb Hc Hmsg.
  { cbn [length]. rewrite num_parts_0. cbn [seq decrypt_loop]. wp_run. rewrite Nat.add_0_r, app_nil_r. split; [|done].
    exists (noise_buffer c). split; [done|]. by destruct c; simplify_eq/=. }
  pose proof noise_lengths as (Hm & Hp & _).
  pose proof (recv_ok_state _ _ _ _ Hrecv) as (Hdl & _).
  assert (length cipher + length body ≤ length msg - i * NOISE_MAX_MESSAGE_LEN) as Hml.
  { rewrite <-length_drop, Hmsg, length_app. lia. }
  rewrite num_parts_app by (lia || done). simpl seq. cbn [decrypt_loop].
  wp_run. eapply wp_mono; [eapply decrypt_chunk_spec; [done|done|done|done|by rewrite Hc]| |done].
  intros msg1 c1 ((nb & Hnb1 & ->) & ->). set (p := take (length cipher - MAC_LENGTH) d).
  assert (length p = length cipher - MAC_LENGTH) as Hpl by (apply length_take_le; lia).
  destruct (cursor_write_in (i * NOISE_MAX_PAYLOAD_LEN) p msg) as [Htake Hdrop]; [nia|].
  set (msg1 := cursor_write _ p msg) in *. set (c1 := with_session r1 _).
  assert (decrypted c r1 c1) as Hd1 by (by exists nb).
  rewrite length_app, Hpl. destruct Hlast as [Hfull| ->].
  - eapply wp_mono; [apply (IH (S i) msg1 c1); [done|done|]| |done].
    { rewrite Hdrop by nia. rewrite Nat.mul_succ_l, <-drop_drop, Hmsg, <-Hfull.
      by rewrite drop_app_length. }
    intros msg2 c2 (Hdec & Hres). split; [exact (decrypted_trans _ _ _ _ _ Hd1 Hdec)|].
    replace (i * NOISE_MAX_PAYLOAD_LEN + (length cipher - MAC_LENGTH + length plain))
      with (S i * NOISE_MAX_PAYLOAD_LEN + length plain) by lia.
    rewrite Hres, (assoc_L (++)), <-Htake, Hpl. do 2 f_equal. lia.
  - apply opens_nil_inv in Hop as [-> ->]. cbn [length]. rewrite num_parts_0.
    cbn [seq decrypt_loop]. wp_run.
    split; [done|]. by rewrite Nat.add_0_r, app_nil_r, <-Htake, Hpl.
Qed.

Lemma opens_overhead r body plain r' :
  opens r body plain r' → length body = length plain + num_parts (length body) * MAC_LENGTH.
Proof.
  induction 1 as [|r r1 r' cipher d body plain Hlen Hlast Hrecv _ IH].
  { cbn [length]. by rewrite num_parts_0. }
  apply recv_ok_state in Hrecv as (Hd & _).
  rewrite num_parts_app by (lia || exact Hlast). autorewrite with node. lia.
Qed.

(** A complete body is decrypted to the message it was made from. *)
Lemma decrypt_spec c r plain :
  length (noise_buffer c) = NOISE_MAX_MESSAGE_LEN →
  opens (noise_session c) (in_message (incoming_msg c)) plain r →
  wp decrypt
    (λ m c', m = plain ∧ ∃ c1, decrypted c r c1 ∧
       c' = with_incoming (MkIncomingMessage (size_bytes (incoming_msg c))
              (pending_bytes (incoming_msg c)) []) c1)
    (λ _ _, False) c.
Proof.
  intros Hnb Hop. unfold decrypt. wp_run. set (c1 := with_incoming _ c).
  fold (num_parts (length (in_message (incoming_msg c)))).
  eapply wp_mono; [apply (decrypt_loop_spec _ _ _ _ Hop 0 _ c1); [done|done|by rewrite drop_0]| |done].
  intros msg c2 ((nb & Hnb2 & ->) & Hres). wp_run.
  pose proof (opens_overhead _ _ _ _ Hop) as Hover.
  eapply wp_lift; [apply usize_sub_ok; lia|]. wp_run. split.
  - replace (length (in_message _) - _) with (length plain) by lia.
    by rewrite Nat.mul_0_l, Nat.add_0_l, take_0, app_nil_l in Hres.
  - by exists (with_session r (with_noise_buffer nb c)); split; [exists nb|].
Qed.

(** ** Input *)

(** The octets read from the socket and not processed yet. *)
Definition buffered (b : SocketBuffer) : bytes := take (remaining b) (drop (offset b) (buf b)).

Definition sb_ok (b : SocketBuffer) : Prop :=
  offset b + remaining b ≤ length (buf b) ∧ 0 < length (buf b).

Lemma length_buffered b : sb_ok b → length (buffered b) = remaining b.
Proof. intros []. unfold buffered. rewrite length_take, length_drop. lia. Qed.

Lemma slice_buffered k b :
  sb_ok b → k ≤ remaining b → slice k b = Ok (take k (buffered b)).
Proof.
  intros [] ?. unfold slice. rewrite slice_from_ok by lia. rewrite bind_Ok.
  rewrite slice_to_ok by (rewrite length_drop; lia).
  unfold buffered. rewrite take_take. do 2 f_equal. lia.
Qed.

Lemma shift_buffered k b :
  sb_ok b → k ≤ remaining b →
  ∃ b', shift k b = Ok b' ∧ sb_ok b' ∧ buffered b' = drop k (buffered b) ∧
    remaining b' = remaining b - k ∧ buf b' = buf b.
Proof.
  intros [? ?] ?. unfold shift. rewrite usize_sub_ok, bind_Ok by lia.
  eexists. split; [done|]. unfold sb_ok, buffered. simpl.
  split_and!; try done; case_decide; simpl; try lia.
  - rewrite skipn_firstn_comm. by replace (remaining b - k) with 0 by lia.
  - by rewrite skipn_firstn_comm, drop_drop.
Qed.

(** What the socket will deliver. *)
Definition event_bytes (ev : read_event) : bytes := match ev with RData bs => bs | _ => [] end.
Definition deliverable (evs : list read_event) : bytes := evs ≫= event_bytes.
Definition delivers (ev : read_event) : bool :=
  match ev with RData bs => bool_decide (bs ≠ []) | RWouldBlock => true | _ => false end.

Definition unread c : bytes := buffered (socket_buffer c) ++ deliverable (rx (socket c)).

(** A measure that every call of [read_from_socket] decreases. *)
Definition unread_measure c : nat :=
  remaining (socket_buffer c)
  + sum_list_with (λ ev, S (length (event_bytes ev))) (rx (socket c)).

(** The part of the current frame that has been processed. *)
Definition consumed c : bytes :=
  let im := incoming_msg c in
  if decide (pending_bytes im = 0) then size_bytes im
  else to_be_bytes 4 (Z.of_nat (length (in_message im) + pending_bytes im)) ++ in_message im.

(** A receiver in the middle of a stream that reads as [ms]. *)
Record reading (ms : list bytes) c : Prop := {
  reading_post : is_post_handshake c = true;
  reading_sb : sb_ok (socket_buffer c);
  reading_noise_buffer : length (noise_buffer c) = NOISE_MAX_MESSAGE_LEN;
  reading_events : Forall delivers (rx (socket c));
  reading_size : if decide (pending_bytes (incoming_msg c) = 0)
                 then length (size_bytes (incoming_msg c)) < 4
                 else size_bytes (incoming_msg c) = [] ∧
                   (Z.of_nat (length (in_message (incoming_msg c)) + pending_bytes (incoming_msg c))
                    ≤ PROTOCOL_MAX_MESSAGE_SIZE)%Z;
  reading_stream : ∃ r', opens_all (noise_session c) (consumed c ++ unread c) ms r';
}.

(** [c] with another socket script and another socket buffer. *)
Definition refilled (ev : list read_event) (b : SocketBuffer) c : ConnectionLowLevel sess :=
  with_socket (with_rx ev (socket c)) (with_socket_buffer b c).

Lemma with_rx_id s : with_rx (rx s) s = s.
Proof. by destruct s. Qed.

Lemma socket_read_spec len s :
  0 < len → Forall delivers (rx s) →
  match socket_read len s with
  | (IoOk bs, s') => ∃ ev, s' = with_rx ev s ∧ 0 < length bs ≤ len ∧ Forall delivers ev ∧
      bs ++ deliverable ev = deliverable (rx s) ∧
      length bs + sum_list_with (λ ev, S (length (event_bytes ev))) ev
      ≤ sum_list_with (λ ev, S (length (event_bytes ev))) (rx s)
  | (IoWouldBlock, s') => ∃ ev, s' = with_rx ev s ∧ Forall delivers ev ∧
      deliverable ev = deliverable (rx s) ∧ (rx s = [] ∧ ev = [] ∨ rx s = RWouldBlock :: ev)
  | (IoErr _, _) => False
  end.
Proof.
  intros Hlen Hev. unfold socket_read. destruct (rx s) as [|[bs| | |m] ev] eqn:Hrx.
  - exists []. split_and!; [by rewrite <-Hrx, with_rx_id|done|done|by left].
  - inversion Hev as [|? ? Hbs Hev']; subst. simpl in Hbs. apply bool_decide_unpack in Hbs.
    apply length_pos in Hbs. eexists. split; [reflexivity|].
    rewrite length_take. case_decide; split_and!; try lia; try done.
    + by rewrite take_ge by lia.
    + simpl. lia.
    + constructor; [|done]. simpl. rewrite bool_decide_true; [done|].
      intros Hnil. apply (f_equal length) in Hnil. rewrite length_drop in Hnil. simpl in Hnil. lia.
    + simpl. by rewrite (assoc_L (++)), take_drop.
    + simpl. rewrite length_drop. lia.
  - inversion Hev; subst. exists ev. auto.
  - inversion Hev; subst. done.
  - inversion Hev; subst. done.
Qed.

Lemma fill_socket_buffer_spec c :
  sb_ok (socket_buffer c) → Forall delivers (rx (socket c)) →
  wp fill_socket_buffer
    (λ o c', ∃ ev b, c' = refilled ev b c ∧ sb_ok b ∧ Forall delivers ev ∧
       unread c' = unread c ∧ unread_measure c' ≤ unread_measure c ∧
       match o with
       | None => 0 < remaining b
       | Some WouldBlock => remaining b = 0 ∧ (ev = [] ∨ unread_measure c' < unread_measure c)
       | _ => False
       end)
    (λ _ _, False) c.
Proof.
  intros Hsb Hev. unfold fill_socket_buffer. wp_run.
  set (sb := if is_exhausted _ then _ else _).
  assert (sb_ok sb ∧ buffered sb = buffered (socket_buffer c) ∧
          remaining sb = remaining (socket_buffer c) ∧ offset sb < length (buf sb))
    as (Hsb' & Hbuf & Hrem & Hoff).
  { destruct Hsb as [? ?]. unfold sb, is_exhausted, sb_ok. case_bool_decide; simpl;
      [|by split_and!; [lia|lia|..|lia]].
    assert (remaining (socket_buffer c) = 0) as Hz by lia. unfold buffered. simpl.
    rewrite Hz. split_and!; done || lia. }
  clearbody sb. case_decide as Hz.
  2:{ wp_run. exists (rx (socket c)), sb. unfold refilled. rewrite with_rx_id.
      split_and!; [by destruct c|done|done| | |lia].
      - unfold unread. simpl. by rewrite Hbuf.
      - unfold unread_measure. simpl. lia. }
  wp_run. eapply wp_lift; [apply usize_sub_ok; lia|]. wp_run.
  eapply wp_lift; [by unfold slice; rewrite slice_from_ok, bind_Ok, slice_to_ok
    by (rewrite ?length_drop; lia)|].
  assert (buffered (socket_buffer c) = []) as Hnil.
  { apply nil_length_inv. rewrite length_buffered by done. lia. }
  pose proof (socket_read_spec (length (buf sb) - offset sb) (socket c) ltac:(lia) Hev) as Hread.
  destruct (socket_read _ (socket c)) as [[bs| |m] sock]; [| |done]; wp_run.
  - destruct Hread as (ev & -> & Hlen & Hev' & Hcat & Hms). case_decide as Hbs.
    { subst bs. simpl in Hlen. lia. }
    wp_run. eapply wp_lift; [apply copy_into_ok; lia|]. wp_run.
    eexists ev, _. split; [reflexivity|]. unfold refilled, unread, unread_measure. simpl.
    split_and!; [|done| |lia|lia].
    + split; simpl; rewrite !length_app, length_take, length_drop; lia.
    + rewrite Hnil, <-Hcat. simpl. f_equal. unfold buffered. simpl.
      rewrite drop_app_length' by (rewrite length_take; lia). by rewrite take_app_length.
  - destruct Hread as (ev & -> & Hev' & Hcat & Hcase).
    exists ev, sb. unfold refilled, unread, unread_measure. simpl.
    rewrite Hbuf, Hcat, Hrem. split_and!; [done..| |lia|].
    + destruct Hcase as [[-> ->]| ->]; simpl; lia.
    + destruct Hcase as [[-> ->]| ->]; simpl; auto with lia.
Qed.

Lemma opens_all_inv r stream ms r' :
  opens_all r stream ms r' → stream ≠ [] →
  ∃ body m rest ms' r1, stream = frame body ++ rest ∧ ms = m :: ms' ∧ opens r body m r1 ∧
    0 < length body ∧ (Z.of_nat (length body) ≤ PROTOCOL_MAX_MESSAGE_SIZE)%Z ∧
    opens_all r1 rest ms' r'.
Proof. inversion 1; [done|]. intros _. by repeat eexists. Qed.

Lemma protocol_max_fits n :
  (Z.of_nat n ≤ PROTOCOL_MAX_MESSAGE_SIZE)%Z → fits (8 * Z.of_nat 4) (Z.of_nat n).
Proof. unfold PROTOCOL_MAX_MESSAGE_SIZE, fits. lia. Qed.

(** A state that consumed more of the same stream. *)
Lemma reading_advance ms c c' :
  reading ms c →
  noise_session c' = noise_session c → noise_buffer c' = noise_buffer c →
  rx (socket c') = rx (socket c) → sb_ok (socket_buffer c') →
  consumed c' ++ unread c' = consumed c ++ unread c →
  (if decide (pending_bytes (incoming_msg c') = 0)
   then length (size_bytes (incoming_msg c')) < 4
   else size_bytes (incoming_msg c') = [] ∧
     (Z.of_nat (length (in_message (incoming_msg c')) + pending_bytes (incoming_msg c'))
      ≤ PROTOCOL_MAX_MESSAGE_SIZE)%Z) →
  reading ms c'.
Proof.
  intros [Hpost _ Hnb Hev _ [r' Hop]] Hs Hn Hrx Hsb Hstream Hsize. split; [..|done|].
  - revert Hpost. unfold is_post_handshake. by rewrite Hs.
  - done.
  - by rewrite Hn.
  - by rewrite Hrx.
  - exists r'. by rewrite Hs, Hstream.
Qed.

(** The length of a frame is read in one or more steps. *)
Lemma attempt_to_read_length_spec ms c :
  reading ms c → pending_bytes (incoming_msg c) = 0 → 0 < remaining (socket_buffer c) →
  wp attempt_to_read_length
    (λ _ c', reading ms c' ∧ unread_measure c' < unread_measure c) (λ _ _, False) c.
Proof.
  intros Hr Hpend Hrem. pose proof Hr as [Hpost Hsb Hnb Hev Hsize [r' Hop]].
  rewrite Hpend, decide_True in Hsize by done.
  unfold attempt_to_read_length. wp_run.
  eapply wp_lift; [apply usize_sub_ok; unfold PAYLOAD_SIZE; lia|]. unfold PAYLOAD_SIZE.
  set (k := remaining _ `min` _). assert (0 < k ≤ remaining (socket_buffer c)) as Hk by lia.
  wp_run. eapply wp_lift; [apply slice_buffered; [done|lia]|]. wp_run.
  destruct (shift_buffered k _ Hsb ltac:(lia)) as (sb & Hshift & Hsb' & Hbuf & Hrem' & _).
  eapply wp_lift; [exact Hshift|]. wp_run.
  pose proof (length_buffered _ Hsb) as Hbl.
  set (size := size_bytes (incoming_msg c) ++ take k (buffered (socket_buffer c))).
  assert (length size = length (size_bytes (incoming_msg c)) + k) as Hsl.
  { unfold size. rewrite length_app, length_take. lia. }
  assert (size ++ drop k (buffered (socket_buffer c)) ++ deliverable (rx (socket c))
          = consumed c ++ unread c) as Hstream.
  { unfold size, consumed, unread. rewrite decide_True by done.
    by rewrite <-!(assoc_L (++)), (assoc_L (++) (take _ _)), take_drop. }
  case_decide as Hfull.
  - rewrite <-Hstream in Hop.
    apply opens_all_inv in Hop as (body & m & rest & ms' & r1 & Heq & -> & _ & Hb0 & Hbm & _);
      [|by destruct size].
    unfold frame in Heq. rewrite <-(assoc_L (++)) in Heq.
    apply app_inj_1 in Heq as [Hhdr Hrest]; [|by rewrite length_to_be_bytes].
    wp_run. rewrite Hhdr, from_to_be_bytes_small by (by apply protocol_max_fits).
    apply wp_ensure; [apply bool_decide_true; lia|]. wp_run.
    change (is_post_handshake _) with (is_post_handshake c) at 1. rewrite Hpost.
    apply wp_ensure; [done|]. wp_run.
    apply wp_ensure; [by apply bool_decide_true|]. wp_run. rewrite Nat2Z.id. split.
    + apply (reading_advance _ c); try done; simpl.
      * unfold consumed at 1, unread at 1. simpl. rewrite decide_False by lia. simpl app.
        by rewrite Hbuf, <-Hstream, Hhdr.
      * rewrite decide_False by lia. simpl. done.
    + unfold unread_measure. simpl. lia.
  - wp_run. split.
    + apply (reading_advance _ c); try done; simpl.
      * unfold consumed at 1, unread at 1. simpl. rewrite decide_True by done.
        by rewrite Hbuf, <-Hstream.
      * rewrite decide_True by done. lia.
    + unfold unread_measure. simpl. lia.
Qed.

Lemma opens_session r body plain r' :
  opens r body plain r' →
  is_initiator r' = is_initiator r ∧ get_message_count r ≤ get_message_count r'.
Proof.
  induction 1 as [|r r1 r' cipher d body plain _ _ Hrecv _ [IHi IHc]]; [done|].
  apply recv_ok_state in Hrecv as (_ & Hi & Hc). split; [congruence|lia].
Qed.

Lemma is_post_handshake_later (c c' : ConnectionLowLevel sess) :
  is_initiator (noise_session c') = is_initiator (noise_session c) →
  get_message_count (noise_session c) ≤ get_message_count (noise_session c') →
  is_post_handshake c = true → is_post_handshake c' = true.
Proof.
  intros Hi Hc. unfold is_post_handshake. rewrite Hi.
  destruct (is_initiator (noise_session c)); intros Hp%bool_decide_eq_true;
    apply bool_decide_eq_true; lia.
Qed.

(** What is left to read of the current frame. *)
Lemma reading_frame ms c :
  reading ms c → pending_bytes (incoming_msg c) ≠ 0 →
  ∃ body m rest ms' r1 r', ms = m :: ms' ∧ opens (noise_session c) body m r1 ∧
    opens_all r1 rest ms' r' ∧
    length body = length (in_message (incoming_msg c)) + pending_bytes (incoming_msg c) ∧
    in_message (incoming_msg c) ++ unread c = body ++ rest.
Proof.
  intros [_ _ _ _ Hsize [r' Hop]] Hpend. rewrite decide_False in Hsize by done.
  destruct Hsize as [_ Hmax]. unfold consumed in Hop. rewrite decide_False in Hop by done.
  apply opens_all_inv in Hop as (body & m & rest & ms' & r1 & Heq & -> & Hm & _ & Hbm & Hall);
    [|done].
  unfold frame in Heq. rewrite <-!(assoc_L (++)) in Heq.
  apply app_inj_1 in Heq as [Hhdr Hrest]; [|by rewrite !length_to_be_bytes].
  exists body, m, rest, ms', r1, r'. split_and!; [done..| |done].
  apply (f_equal from_be_bytes) in Hhdr.
  rewrite !from_to_be_bytes_small in Hhdr by (by apply protocol_max_fits). lia.
Qed.

(** The body of a frame is read in one or more steps. *)
Lemma process_incoming_msg_spec produce ms c :
  reading ms c → pending_bytes (incoming_msg c) ≠ 0 →
  wp (process_incoming_msg produce)
    (λ res c',
       match res with
       | Complete m => ∃ ms', ms = m :: ms' ∧ reading ms' c'
       | Incomplete => reading ms c'
       | _ => False
       end ∧ unread_measure c' ≤ unread_measure c ∧
       (0 < remaining (socket_buffer c) → unread_measure c' < unread_measure c))
    (λ _ _, False) c.
Proof.
  intros Hr Hpend. pose proof Hr as [Hpost Hsb Hnb Hev Hsize _].
  rewrite decide_False in Hsize by done. destruct Hsize as [Hsz Hmax].
  destruct (reading_frame _ _ Hr Hpend) as (body & m & rest & ms' & r1 & r' & -> & Hm & Hall & Hbl & Heq).
  unfold process_incoming_msg. wp_run. set (k := _ `min` _).
  assert (k ≤ remaining (socket_buffer c) ∧ k ≤ pending_bytes (incoming_msg c)) as [Hk1 Hk2] by lia.
  eapply wp_lift; [by apply slice_buffered|]. wp_run.
  eapply wp_lift; [by apply usize_sub_ok|]. wp_run. rewrite Hpost.
  destruct (shift_buffered k _ Hsb Hk1) as (sb & Hshift & Hsb' & Hbuf & Hrem' & _).
  wp_run. eapply wp_lift; [exact Hshift|]. wp_run.
  pose proof (length_buffered _ Hsb) as Hbl'.
  set (msg := in_message (incoming_msg c) ++ take k (buffered (socket_buffer c))).
  assert (length msg = length (in_message (incoming_msg c)) + k) as Hml.
  { unfold msg. rewrite length_app, length_take. lia. }
  assert (msg ++ drop k (buffered (socket_buffer c)) ++ deliverable (rx (socket c)) = body ++ rest)
    as Hstream.
  { rewrite <-Heq. unfold msg, unread.
    by rewrite <-!(assoc_L (++)), (assoc_L (++) (take _ _)), take_drop. }
  case_decide as Hdone.
  - apply app_inj_1 in Hstream as [Hbody Hrest]; [|lia]. wp_run.
    eapply wp_mono; [eapply decrypt_spec; [exact Hnb|simpl; by rewrite Hbody]| |done].
    intros m' c' (-> & c1 & (nb & Hnb' & ->) & ->). wp_run.
    destruct (opens_session _ _ _ _ Hm) as [Hi Hc]. split_and!.
    + exists ms'. split; [done|]. split; simpl; [|done|done|done| |].
      * by eapply (is_post_handshake_later c).
      * rewrite decide_True by done. rewrite Hsz. simpl. lia.
      * exists r'. unfold consumed, unread. simpl. rewrite decide_True by done.
        rewrite Hsz, Hbuf. simpl. by rewrite Hrest.
    + unfold unread_measure. simpl. lia.
    + unfold unread_measure. simpl. lia.
  - wp_run. split_and!.
    + apply (reading_advance _ c); try done; simpl.
      * unfold consumed. cbn [incoming_msg with_incoming with_socket_buffer pending_bytes in_message].
        rewrite !decide_False by lia. rewrite <-!(assoc_L (++)), Heq, Hml.
        f_equal; [do 2 f_equal; lia|]. unfold unread. simpl. by rewrite Hbuf.
      * rewrite decide_False by lia. rewrite Hml. split; [done|lia].
    + unfold unread_measure. simpl. lia.
    + unfold unread_measure. simpl. lia.
Qed.

Lemma read_from_socket_spec produce ms c :
  reading ms c →
  wp (read_from_socket produce)
    (λ res c',
       match res with
       | Complete m => ∃ ms', ms = m :: ms' ∧ reading ms' c' ∧ unread_measure c' < unread_measure c
       | Incomplete => reading ms c' ∧ unread_measure c' < unread_measure c
       | WouldBlock => reading ms c' ∧ remaining (socket_buffer c') = 0 ∧
           (rx (socket c') = [] ∨ unread_measure c' < unread_measure c)
       | Closed => False
       end)
    (λ _ _, False) c.
Proof.
  intros Hr. pose proof Hr as [Hpost Hsb Hnb Hev Hsize [r' Hop]]. unfold read_from_socket. wp_run.
  eapply wp_mono; [by apply fill_socket_buffer_spec| |done].
  intros o c1 (ev & b & -> & Hsb1 & Hev1 & Hun & Hms & Ho).
  assert (reading ms (refilled ev b c)) as Hr1.
  { split; try done. exists r'. by rewrite Hun. }
  destruct o as [[m| | |]|]; try done. wp_run.
  set (c1 := refilled ev b c) in *.
  eapply (wp_mono _ (λ _ c2, reading ms c2 ∧
    (unread_measure c2 < unread_measure c1 ∨ c2 = c1 ∧ pending_bytes (incoming_msg c1) ≠ 0))
    _ (λ _ _, False)); [| |done].
  { destruct (decide (pending_bytes (incoming_msg c1) = 0)) as [Hp|Hp];
      [|wp_run; split; [done|by right]].
    eapply wp_mono; [by apply attempt_to_read_length_spec| |done]. naive_solver. }
  intros _ c2 (Hr2 & Hcase). wp_run.
  destruct (decide (pending_bytes (incoming_msg c2) ≠ 0)) as [Hp|Hp].
  - eapply wp_mono; [by apply process_incoming_msg_spec| |done].
    intros res c3 (Hres & Hle & Hlt).
    assert (unread_measure c3 < unread_measure c) as Hdec.
    { destruct Hcase as [?|[-> _]]; [lia|]. specialize (Hlt Ho). lia. }
    destruct res; try done. destruct Hres as (ms' & ? & ?). by exists ms'.
  - wp_run. split; [done|]. destruct Hcase as [?|[-> ?]]; [lia|done].
Qed.

(** The loop of [read_stream], run again at every readiness event until the
    script of the socket is over; the messages received. *)
Fixpoint read_all (produce : outcome bytes) (fuel : nat) :
    ST (ConnectionLowLevel sess) (list bytes) :=
  match fuel with
  | O => st_lift (Panic "out of fuel")
  | S fuel =>
    res ← read_from_socket produce;
    match res with
    | Complete m => ms ← read_all produce fuel; mret (m :: ms)
    | Incomplete => read_all produce fuel
    | WouldBlock =>
      c ← st_get;
      if decide (rx (socket c) = []) then mret [] else read_all produce fuel
    | Closed => mret []
    end
  end.

(** Nothing is left when the whole stream has been delivered. *)
Lemma reading_end ms c :
  reading ms c → remaining (socket_buffer c) = 0 → rx (socket c) = [] → ms = [].
Proof.
  intros Hr Hz Hrx. assert (unread c = []) as Hun.
  { unfold unread. rewrite Hrx. apply nil_length_inv.
    rewrite length_app, (length_buffered _ (reading_sb _ _ Hr)), Hz. done. }
  destruct (decide (pending_bytes (incoming_msg c) = 0)) as [Hp|Hp].
  - pose proof Hr as [_ _ _ _ Hsize [r' Hop]]. rewrite decide_True in Hsize by done.
    unfold consumed in Hop. rewrite decide_True, Hun, app_nil_r in Hop by done.
    destruct (size_bytes _) eqn:Hs; [by inversion Hop|].
    apply opens_all_inv in Hop as (body & m & rest & ms' & r1 & Heq & _); [|done].
    apply (f_equal length) in Heq. unfold frame in Heq.
    rewrite !length_app, length_to_be_bytes in Heq. simpl in *. lia.
  - destruct (reading_frame _ _ Hr Hp) as (body & m & rest & ms' & r1 & r' & _ & _ & _ & Hbl & Heq).
    apply (f_equal length) in Heq. rewrite Hun, app_nil_r, length_app in Heq. lia.
Qed.

Lemma read_all_spec produce fuel ms c :
  reading ms c → unread_measure c < fuel →
  wp (read_all produce fuel) (λ ms' _, ms' = ms) (λ _ _, False) c.
Proof.
  revert ms c. induction fuel as [|fuel IH]; intros ms c Hr Hfuel; [lia|]. simpl.
  wp_run. eapply wp_mono; [by apply read_from_socket_spec| |done].
  intros [m| | |] c1 Hres; [| | |done].
  - destruct Hres as (ms' & -> & Hr1 & Hlt). wp_run.
    eapply wp_mono; [apply (IH ms'); [done|lia]| |done]. intros ? c2 ->. by wp_run.
  - destruct Hres as [Hr1 Hlt]. apply IH; [done|lia].
  - destruct Hres as (Hr1 & Hz & Hcase). wp_run. case_decide as Hrx.
    + wp_run. symmetry. by eapply reading_end.
    + apply IH; [done|]. destruct Hcase; [done|lia].
Qed.

(** ** From sender to receiver *)

(** Send a sequence of messages, as [send_pending_messages] does. *)
Fixpoint send_all (ms : list bytes) : ST (ConnectionLowLevel sess) unit :=
  match ms with
  | [] => mret tt
  | m :: ms => write_to_socket m ;; send_all ms
  end.

Definition total_chunks (ms : list bytes) : nat := sum_list_with (λ m, num_chunks (length m)) ms.

Lemma send_all_spec ms c r n :
  buffers_ok c → Forall sendable ms →
  noise_synced (total_chunks ms + n) (noise_session c) r →
  wp (send_all ms)
    (λ _ c', ∃ stream r', input_kept c c' ∧ wire c' = wire c ++ stream ∧
       opens_all r stream ms r' ∧ noise_synced n (noise_session c') r')
    (λ e _, write_failed c e) c.
Proof.
  revert c r. induction ms as [|m ms IH]; intros c r Hok Hms Hsync; simpl.
  { wp_run. exists [], r. split_and!; [done|by rewrite app_nil_r|constructor|done]. }
  inversion Hms as [|? ? Hm Hms']; subst. unfold total_chunks in Hsync. simpl in Hsync.
  rewrite <-Nat.add_assoc in Hsync. wp_run.
  eapply wp_mono; [by apply encrypt_and_enqueue_spec| |done].
  intros _ c1 (body & r1 & Hk1 & Hw1 & Hop & Hb0 & Hbm & Hsync1).
  eapply wp_mono; [apply (IH c1 r1); [by eapply buffers_ok_kept|done|done]| |].
  - intros _ c2 (stream & r2 & Hk2 & Hw2 & Hop2 & Hsync2).
    exists (frame body ++ stream), r2. split_and!; [by etrans| |by econstructor|done].
    by rewrite Hw2, Hw1, (assoc_L (++)).
  - intros e c2 He. by eapply write_failed_mono.
Qed.

(** A receiver between two frames. *)
Record at_boundary c : Prop := {
  boundary_sb : sb_ok (socket_buffer c);
  boundary_remaining : remaining (socket_buffer c) = 0;
  boundary_noise_buffer : length (noise_buffer c) = NOISE_MAX_MESSAGE_LEN;
  boundary_pending : pending_bytes (incoming_msg c) = 0;
  boundary_size : size_bytes (incoming_msg c) = [];
}.

Lemma post_handshake_count c :
  2 < get_message_count (noise_session c) → is_post_handshake c = true.
Proof.
  intros. unfold is_post_handshake. destruct (is_initiator _); apply bool_decide_eq_true; lia.
Qed.

(** C1: any sequence of messages that are not empty and whose frames are within
    the size limit of the protocol can be sent, whatever the socket accepts at
    a time, and is received in order and unchanged, whatever way the octets are
    cut into reads and wherever a read would block: for every segmentation of
    the octets put on the wire the receiver's reads return exactly these
    messages.  The length prefixes, the chunking to Noise messages, the carry
    over of partial frames between reads and the in-place decryption are all
    between the two ends. *)
Theorem stream_round_trip produce ms cs cr n :
  buffers_ok cs → Forall sendable ms →
  (∀ m, WError m ∉ tx_script (socket cs)) →
  at_boundary cr →
  noise_synced (total_chunks ms + n) (noise_session cs) (noise_session cr) →
  ∃ cs' stream,
    send_all ms cs = (Ok tt, cs') ∧ wire cs' = wire cs ++ stream ∧
    ∀ evs, Forall delivers evs → deliverable evs = stream →
      let cr1 := with_socket (with_rx evs (socket cr)) cr in
      (read_all produce (S (unread_measure cr1)) cr1).1 = Ok ms.
Proof.
  intros Hok Hms Hscript [Hsb Hz Hnb Hp Hs] Hsync.
  pose proof (synced_post _ _ _ Hsync) as [_ Hcount].
  pose proof (send_all_spec ms cs _ n Hok Hms Hsync) as Hsend. unfold wp in Hsend.
  destruct (send_all ms cs) as [[[]|e|] cs']; [|by destruct Hsend as (m & _ & Hm); destruct (Hscript m)|done].
  destruct Hsend as (stream & r' & _ & Hw & Hop & _). exists cs', stream. split_and!; [done..|].
  intros evs Hev Hdel cr1. assert (reading ms cr1) as Hr.
  { split; try done.
    - by apply (post_handshake_count cr1).
    - simpl. rewrite Hp, decide_True, Hs by done. simpl. lia.
    - exists r'. unfold consumed, unread. simpl. rewrite Hp, decide_True, Hs, Hdel by done.
      unfold buffered. by rewrite Hz. }
  pose proof (read_all_spec produce (S (unread_measure cr1)) ms cr1 Hr ltac:(lia)) as Hread.
  unfold wp in Hread. destruct (read_all _ _ _) as [[]]; simpl; by subst.
Qed.
End framing.

(** *** Witnesses: two connections over the sessions of [toy_noise] *)

Module FramingExample.
Definition sock (script : list write_event) : TcpStream := MkTcpStream [] [] script false true None.

(** A connection with message number four of its direction to come. *)
Definition conn (initiator : bool) (script : list write_event) : ConnectionLowLevel toy_noise :=
  MkLowLevel (sock script) (MkToyNoise initiator 4 4) (replicate NOISE_MAX_MESSAGE_LEN 0%Z)
    (SocketBuffer_new (Z.to_nat 65535)) IncomingMessage_default [] 8 true true None.

#[local] Existing Instance contiguous_deque.

Lemma conn_buffers b script : buffers_ok (conn b script).
Proof.
  split; cbn [write_size socket_buffer buf noise_buffer conn SocketBuffer_new];
    rewrite length_replicate; lia || reflexivity.
Qed.

Lemma conn_boundary b script : at_boundary (conn b script).
Proof.
  split; cbn [socket_buffer noise_buffer conn]; [|reflexivity| |reflexivity|reflexivity].
  - split; cbn [buf offset remaining SocketBuffer_new]; rewrite length_replicate; lia.
  - apply length_replicate.
Qed.

(** A message of one chunk is sendable. *)
Lemma sendable_one_chunk (m : bytes) : 0 < length m → (Z.of_nat (length m) ≤ 65519)%Z → sendable m.
Proof.
  pose proof noise_lengths as (? & ? & ? & ?). intros Hm Hm2. split; [by intros ->; cbn in Hm; lia|].
  rewrite full_msg_len_step by lia. rewrite Nat.min_r, Nat.sub_diag, full_msg_len_0 by lia.
  unfold PROTOCOL_MAX_MESSAGE_SIZE. lia.
Qed.

Lemma stream_round_trip_witness :
  let cs := conn true [WAccept 5; WWouldBlock; WAccept 100] in
  let cr := conn false [] in
  ∃ cs' stream,
    send_all [[1; 2; 3]; [4]]%Z cs = (Ok tt, cs') ∧ wire cs' = wire cs ++ stream ∧
    ∀ evs, Forall delivers evs → deliverable evs = stream →
      let cr1 := with_socket (with_rx evs (socket cr)) cr in
      (read_all (Ok []) (S (unread_measure cr1)) cr1).1 = Ok [[1; 2; 3]; [4]]%Z.
Proof.
  intros cs cr. apply (stream_round_trip (Ok []) [[1; 2; 3]; [4]]%Z cs cr 5).
  - apply conn_buffers.
  - apply Forall_cons_2; [apply sendable_one_chunk; cbn [length]; lia|].
    apply Forall_cons_2; [apply sendable_one_chunk; cbn [length]; lia|apply Forall_nil_2].
  - intros m. cbn [socket conn sock tx_script cs]. set_solver.
  - apply conn_boundary.
  - split_and!; cbn [toy_tx toy_rx noise_session conn cs cr]; lia.
Defined.

Lemma flush_socket_delivers_witness :
  let c := with_output [7; 8; 9]%Z (conn true [WAccept 2; WAccept 1]) in
  wp flush_socket
    (λ _ c', flushed c c' ∧ (output_queue c' = [] ∨ is_writable c' = false))
    (λ e _, write_failed c e) c.
Proof.
  intros c. apply (flush_socket_delivers c); [|cbn [write_size with_output conn c]; lia
    |cbn [socket with_output conn sock tx_script c]; set_solver].
  destruct (conn_buffers true [WAccept 2; WAccept 1]). split; assumption.
Defined.
End FramingExample.
