(* ===== verification/ReadSafety.v ===== *)
(** * Robustness of the reader

    Whatever octets a peer sends after the handshake, and whatever the socket
    does, reading from a connection ([read_from_socket] of [low_level.rs]) does
    not panic, and the message being assembled never outgrows the limit of the
    protocol. *)
From S2P Require Import Prelude.
From S2P Require Import Noise.
From S2P Require Import LowLevel.
From S2P Require Import Framing.

Section safety.
Context `{!Noise sess, !NoiseLaws sess, !Deque}.
Implicit Types c : ConnectionLowLevel sess.

(** The invariant of a connection that is past the Noise handshake. *)
Record input_ok c : Prop := {
  input_post : is_post_handshake c = true;
  input_sb : sb_ok (socket_buffer c);
  input_noise_buffer : length (noise_buffer c) = NOISE_MAX_MESSAGE_LEN;
  input_size : if decide (pending_bytes (incoming_msg c) = 0)
               then length (size_bytes (incoming_msg c)) < 4
               else size_bytes (incoming_msg c) = [] ∧
                 (Z.of_nat (length (in_message (incoming_msg c)) + pending_bytes (incoming_msg c))
                  ≤ PROTOCOL_MAX_MESSAGE_SIZE)%Z;
}.

Lemma socket_read_length len s bs s' :
  socket_read len s = (IoOk bs, s') → length bs ≤ len.
Proof.
  unfold socket_read. destruct (rx s) as [|[]]; intros; simplify_eq; simpl; [|lia].
  rewrite length_take. lia.
Qed.

Lemma fill_socket_buffer_safe c :
  sb_ok (socket_buffer c) →
  wp fill_socket_buffer
    (λ o c', (∃ s b, c' = with_socket s (with_socket_buffer b c) ∧ sb_ok b ∧
                length (buf b) = length (buf (socket_buffer c))) ∧
             o ∈ [None; Some Closed; Some WouldBlock])
    (λ _ _, True) c.
Proof.
  intros Hsb. unfold fill_socket_buffer. wp_run.
  set (sb := if is_exhausted _ then _ else _).
  assert (sb_ok sb ∧ length (buf sb) = length (buf (socket_buffer c))) as Hsb'.
  { destruct Hsb as [? ?]. unfold sb, sb_ok. destruct (is_exhausted _); simpl; lia. }
  clearbody sb. destruct Hsb' as [[Ho Hl] Hlb]. case_decide as Hz.
  2:{ wp_run. split; [|set_solver]. exists (socket c), sb. split; [by destruct c|done]. }
  wp_run. eapply wp_lift; [apply usize_sub_ok; lia|]. wp_run.
  eapply wp_lift; [by unfold slice; rewrite slice_from_ok, bind_Ok, slice_to_ok
    by (rewrite ?length_drop; lia)|].
  destruct (socket_read _ (socket c)) as [[bs| |m] s] eqn:Hread; wp_run; [| |done].
  - apply socket_read_length in Hread. case_decide as Hbs.
    { wp_run. split; [|set_solver]. exists s, sb. split; [by destruct c|done]. }
    wp_run. eapply wp_lift; [apply copy_into_ok; lia|]. wp_run.
    split; [|set_solver]. eexists s, _. split; [by destruct c|]. split; [split|]; simpl; rewrite length_copied; lia.
  - split; [|set_solver]. exists s, sb. split; [by destruct c|done].
Qed.

Lemma attempt_to_read_length_safe c :
  input_ok c → pending_bytes (incoming_msg c) = 0 →
  wp attempt_to_read_length (λ _, input_ok) (λ _ _, True) c.
Proof.
  intros [Hpost Hsb Hnb Hsize] Hpend. rewrite Hpend, decide_True in Hsize by done.
  unfold attempt_to_read_length. wp_run.
  eapply wp_lift; [apply usize_sub_ok; unfold PAYLOAD_SIZE; lia|]. unfold PAYLOAD_SIZE.
  set (k := remaining _ `min` _). assert (k ≤ remaining (socket_buffer c)) as Hk by lia.
  wp_run. eapply wp_lift; [by apply slice_buffered|]. wp_run.
  destruct (shift_buffered k _ Hsb Hk) as (sb & Hshift & Hsb' & _).
  eapply wp_lift; [exact Hshift|]. wp_run.
  set (size := size_bytes _ ++ _).
  assert (length size ≤ 4) as Hsl.
  { unfold size. rewrite length_app, length_take, length_buffered by done. lia. }
  case_decide as Hfull.
  2:{ wp_run. split; simpl; [done..|]. rewrite Hpend, decide_True by done. lia. }
  wp_run. destruct (bool_decide (from_be_bytes size ≠ 0%Z)); [|done]. wp_run.
  apply wp_ensure; [done|]. wp_run.
  change (is_post_handshake _) with (is_post_handshake c) at 1. rewrite Hpost.
  apply wp_ensure; [done|]. wp_run.
  case_bool_decide as Hmax; [|done]. apply wp_ensure; [done|]. wp_run.
  split; simpl; [done..|]. case_decide; [lia|].
  split; [done|]. unfold PROTOCOL_MAX_MESSAGE_SIZE in *. lia.
Qed.

(** [c'] is [c] after some chunks were decrypted. *)
Definition chunks_read c c' : Prop :=
  ∃ nb r, length nb = NOISE_MAX_MESSAGE_LEN ∧ c' = with_session r (with_noise_buffer nb c) ∧
    is_initiator r = is_initiator (noise_session c) ∧
    get_message_count (noise_session c) ≤ get_message_count r.

Lemma noise_recv_safe msg c :
  wp (noise_recv msg)
    (λ d c', ∃ r, c' = with_session r c ∧ length d = length msg ∧ MAC_LENGTH ≤ length msg ∧
       is_initiator r = is_initiator (noise_session c) ∧
       get_message_count (noise_session c) ≤ get_message_count r)
    (λ _ _, True) c.
Proof.
  unfold wp, noise_recv. pose proof (recv_no_panic msg (noise_session c)) as Hp.
  destruct (recv_message msg (noise_session c)) as [[d| |] r] eqn:Hrecv; [|done|done].
  pose proof (recv_has_tag _ _ _ _ Hrecv). apply recv_ok_state in Hrecv as (? & ? & ?).
  exists r. split_and!; [done..|lia].
Qed.

Lemma decrypt_chunk_safe c msg i :
  length (noise_buffer c) = NOISE_MAX_MESSAGE_LEN →
  i * NOISE_MAX_MESSAGE_LEN < length msg →
  wp (decrypt_chunk msg i)
    (λ msg' c', chunks_read c c' ∧ length msg' = length msg ∧
       MAC_LENGTH ≤ length msg - i * NOISE_MAX_MESSAGE_LEN)
    (λ _ _, True) c.
Proof.
  intros Hnb Hi. unfold decrypt_chunk. wp_run. eapply wp_lift; [apply usize_sub_ok; lia|].
  set (n := _ `min` _). assert (n ≤ length msg - i * NOISE_MAX_MESSAGE_LEN ∧
    n ≤ NOISE_MAX_MESSAGE_LEN) as [Hn1 Hn2] by lia. clearbody n.
  set (part := take n (drop _ msg)).
  assert (length part = n) as Hpart by (unfold part; rewrite length_take, length_drop; lia).
  clearbody part. wp_run. eapply wp_lift; [apply copy_into_ok; lia|].
  set (nb := take 0 (noise_buffer c) ++ _).
  assert (length nb = NOISE_MAX_MESSAGE_LEN) as Hnb'
    by (unfold nb; rewrite length_copied; lia). clearbody nb.
  wp_run. eapply wp_lift; [apply slice_to_ok; lia|]. wp_run.
  eapply wp_mono; [apply noise_recv_safe| |done].
  intros d c1 (r & -> & Hd & Htag & Hini & Hcount). rewrite length_take_le in Hd, Htag by lia.
  wp_run. eapply wp_lift; [apply copy_into_ok; lia|].
  set (nb2 := take 0 nb ++ _). assert (length nb2 = NOISE_MAX_MESSAGE_LEN) as Hnb2
    by (unfold nb2; rewrite length_copied; lia). clearbody nb2.
  wp_run. eapply wp_lift; [by apply usize_sub_ok|]. wp_run.
  eapply wp_lift; [apply slice_to_ok; lia|]. wp_run. split_and!; [|  |lia].
  - by exists nb2, r.
  - unfold cursor_write. pose proof noise_lengths as (? & _).
    rewrite !length_app, length_drop, length_take, length_app, length_replicate, length_take. nia.
Qed.

Lemma chunks_read_trans c1 c2 c3 : chunks_read c1 c2 → chunks_read c2 c3 → chunks_read c1 c3.
Proof.
  intros (nb1 & r1 & _ & -> & Hi1 & Hc1) (nb2 & r2 & Hn & -> & Hi2 & Hc2).
  exists nb2, r2. simpl in *. split_and!; [done|done|congruence|lia].
Qed.

Lemma num_parts_bounds n :
  n ≤ num_parts n * NOISE_MAX_MESSAGE_LEN ∧
  ∀ i, i < num_parts n → i * NOISE_MAX_MESSAGE_LEN < n.
Proof.
  pose proof noise_lengths as (? & ? & _). unfold num_parts.
  pose proof (Nat.div_mod_eq n NOISE_MAX_MESSAGE_LEN).
  pose proof (Nat.mod_upper_bound n NOISE_MAX_MESSAGE_LEN ltac:(lia)).
  case_decide; split; [nia|intros; nia|nia|intros; nia].
Qed.

Lemma decrypt_loop_safe k i msg c :
  length (noise_buffer c) = NOISE_MAX_MESSAGE_LEN → i + k = num_parts (length msg) →
  wp (decrypt_loop (seq i k) msg)
    (λ msg' c', (c' = c ∨ chunks_read c c') ∧ length msg' = length msg ∧
       (0 < k → num_parts (length msg) * MAC_LENGTH ≤ length msg))
    (λ _ _, True) c.
Proof.
  revert i msg c. induction k as [|k IH]; intros i msg c Hnb Hk; cbn [seq decrypt_loop].
  { wp_run. split_and!; [by left|done|lia]. }
  pose proof (num_parts_bounds (length msg)) as [_ Hlt]. pose proof noise_lengths as (? & ? & ? & ?).
  wp_run. eapply wp_mono; [apply decrypt_chunk_safe; [done|apply Hlt; lia]| |done].
  intros msg1 c1 (Hc1 & Hl1 & Htag). pose proof Hc1 as (nb & r & Hnb1 & Hc1eq & _ & _).
  eapply wp_mono; [apply (IH (S i) msg1 c1); [by rewrite Hc1eq|rewrite Hl1; lia]| |done].
  intros msg2 c2 (Hc2 & Hl2 & Hrest). rewrite Hl1 in *. split_and!; [right| |].
  - destruct Hc2 as [->|Hc2]; [done|by eapply chunks_read_trans].
  - done.
  - intros _. destruct k as [|k]; [|apply Hrest; lia]. nia.
Qed.

Lemma decrypt_safe c :
  length (noise_buffer c) = NOISE_MAX_MESSAGE_LEN →
  wp decrypt
    (λ m c', length m ≤ length (in_message (incoming_msg c)) ∧ ∃ c1,
       (c1 = c ∨ chunks_read c c1) ∧
       c' = with_incoming (MkIncomingMessage (size_bytes (incoming_msg c))
              (pending_bytes (incoming_msg c)) []) c1)
    (λ _ _, True) c.
Proof.
  intros Hnb. unfold decrypt. wp_run. set (c1 := with_incoming _ c).
  fold (num_parts (length (in_message (incoming_msg c)))).
  eapply wp_mono; [by apply (decrypt_loop_safe _ 0 _ c1)| |done].
  intros msg c2 (Hc2 & Hl & Htags). wp_run. eapply wp_lift.
  { apply usize_sub_ok. destruct (num_parts _); [lia|apply Htags; lia]. }
  wp_run. split; [rewrite length_take; lia|]. destruct Hc2 as [->|(nb & r & ? & -> & ? & ?)].
  - exists c. split; [by left|done].
  - exists (with_session r (with_noise_buffer nb c)). split; [right; by exists nb, r|done].
Qed.

Lemma process_incoming_msg_safe produce c :
  input_ok c → pending_bytes (incoming_msg c) ≠ 0 →
  wp (process_incoming_msg produce)
    (λ res c', input_ok c' ∧
       match res with
       | Complete m => (Z.of_nat (length m) ≤ PROTOCOL_MAX_MESSAGE_SIZE)%Z
       | _ => True
       end)
    (λ _ _, True) c.
Proof.
  intros [Hpost Hsb Hnb Hsize] Hpend. rewrite decide_False in Hsize by done.
  destruct Hsize as [Hsz Hmax]. unfold process_incoming_msg. wp_run. set (k := _ `min` _).
  assert (k ≤ remaining (socket_buffer c) ∧ k ≤ pending_bytes (incoming_msg c)) as [Hk1 Hk2] by lia.
  eapply wp_lift; [by apply slice_buffered|]. wp_run.
  eapply wp_lift; [by apply usize_sub_ok|]. wp_run. rewrite Hpost.
  destruct (shift_buffered k _ Hsb Hk1) as (sb & Hshift & Hsb' & _).
  wp_run. eapply wp_lift; [exact Hshift|]. wp_run. set (msg := in_message _ ++ _).
  assert (length msg = length (in_message (incoming_msg c)) + k) as Hml.
  { unfold msg. rewrite length_app, length_take, length_buffered by done. lia. }
  clearbody msg. case_decide as Hdone.
  - wp_run. eapply wp_mono; [by apply decrypt_safe| |done].
    intros m c' (Hm & c1 & Hc1 & ->). wp_run. cbn [incoming_msg with_socket_buffer with_incoming in_message] in Hm.
    split; [|lia]. destruct Hc1 as [->|(nb & r & ? & -> & Hi & Hc)]; split; simpl; try done;
      try (rewrite Hdone, decide_True, Hsz by done; simpl; lia).
    by eapply (is_post_handshake_later c).
  - wp_run. split; [|done]. split; simpl; [done..|]. rewrite decide_False by done.
    split; [done|]. rewrite Hml. lia.
Qed.

(** C7: for any behaviour of the peer and of the socket, [read_from_socket] on a
    connection past the handshake does not panic (no index is out of range and
    no length underflows) and keeps the invariant: the octets in the socket
    buffer stay within it, and the message being assembled, hence also a
    completed one, is never larger than the maximum size of the protocol. *)
Theorem read_from_socket_safe produce c :
  input_ok c →
  wp (read_from_socket produce)
    (λ res c', input_ok c' ∧
       match res with
       | Complete m => (Z.of_nat (length m) ≤ PROTOCOL_MAX_MESSAGE_SIZE)%Z
       | _ => True
       end)
    (λ _ _, True) c.
Proof.
  intros Hok. pose proof Hok as [Hpost Hsb Hnb Hsize]. unfold read_from_socket. wp_run.
  eapply wp_mono; [by apply fill_socket_buffer_safe| |done].
  intros o c1 ((s & b & -> & Hb & _) & Ho). set (c1 := with_socket s _).
  assert (input_ok c1) as Hok1 by (by split).
  destruct o as [r|]; wp_run.
  { split; [done|]. destruct r; [set_solver|done..]. }
  eapply (wp_mono _ (λ _, input_ok) _ (λ _ _, True)); [| |done].
  { destruct (decide (pending_bytes (incoming_msg c1) = 0)); [|by wp_run].
    by apply attempt_to_read_length_safe. }
  intros _ c2 Hok2. wp_run. destruct (decide (pending_bytes (incoming_msg c2) ≠ 0)); [|by wp_run].
  by apply process_incoming_msg_safe.
Qed.
End safety.

(** *** Witness: the peer claims a frame of four octets and sends garbage *)

Lemma read_from_socket_safe_witness :
  let c := FramingExample.conn false [] in
  let garbage := [RData [0; 0; 0]; RError "reset"; RData [4; 9; 9; 9; 9]; REof]%Z in
  let c1 := with_socket (with_rx garbage (socket c)) c in
  wp (read_from_socket (sess := toy_noise) (H := contiguous_deque) (Ok []))
    (λ res c', input_ok c' ∧
       match res with
       | Complete m => (Z.of_nat (length m) ≤ PROTOCOL_MAX_MESSAGE_SIZE)%Z
       | _ => True
       end)
    (λ _ _, True) c1.
Proof.
  intros c garbage c1. apply (read_from_socket_safe (Ok []) c1).
  destruct (FramingExample.conn_boundary false []) as [Hsb _ Hnb _ _]. split.
  - reflexivity.
  - exact Hsb.
  - exact Hnb.
  - rewrite decide_True by reflexivity. cbn. lia.
Defined.
