(* ===== verification/HandshakeXX.v ===== *)
(** * The Noise XX handshake of a connection

    Two connections exchange the three handshake messages of [low_level.rs]
    ([send_handshake_message_a], [process_msg_a], [process_msg_b],
    [process_msg_c]).  When each handshake message arrives in a read of its own,
    both sides end up with the handshake request of the other and with sessions
    that understand each other. *)
From S2P Require Import Prelude.
From S2P Require Import Noise.
From S2P Require Import LowLevel.
From S2P Require Import Framing.

Section handshake.
Context `{!Noise sess, !NoiseLaws sess, !Deque}.
Implicit Types c : ConnectionLowLevel sess.

(** ** Sending a handshake message *)

Lemma payload_of_app pre payload suf (n m : nat) :
  length pre = n → length suf = m → payload_of n m (pre ++ payload ++ suf) = payload.
Proof.
  intros <- <-. unfold payload_of. rewrite drop_app_length, !length_app.
  replace (_ - _ - _) with (length payload) by lia. by rewrite take_app_length.
Qed.

(** The message [cipher] was put on the wire by [c], the session [r] of the peer
    reads it, finds [payload] in it and moves to [r']. *)
Record transmitted (prefix suffix : nat) (payload : bytes) c (r : sess)
    (Q : sess → sess → Prop) (cipher : bytes) c' : Prop := {
  transmitted_wire : wire c' = wire c ++ frame cipher;
  transmitted_length : length cipher = prefix + length payload + suffix;
  transmitted_read : ∃ d r', recv_message cipher r = (Ok d, r') ∧ length d = length cipher ∧
    payload_of prefix suffix d = payload ∧ Q (noise_session c') r';
  transmitted_kept : input_kept c c';
}.

Lemma send_xx_msg_spec prefix suffix payload c r Q :
  buffers_ok c → fits 32 (Z.of_nat (prefix + length payload + suffix)) →
  (∀ msg, length msg = prefix + length payload + suffix →
     carries prefix suffix msg (noise_session c) r Q) →
  wp (send_xx_msg prefix payload suffix)
    (λ _ c', ∃ cipher, transmitted prefix suffix payload c r Q cipher c')
    (λ e _, write_failed c e) c.
Proof.
  intros Hok Hfit Hcarry. unfold send_xx_msg, as_u32. rewrite wrap_small by done.
  set (msg := replicate prefix 0%Z ++ _).
  assert (length msg = prefix + length payload + suffix) as Hml
    by (unfold msg; autorewrite with node; lia).
  destruct (Hcarry msg Hml) as (cipher & s' & d & r' & Hsend & Hcl & Hrecv & Hdl & Hpay & HQ).
  wp_run. unfold wp at 1, noise_send. rewrite Hsend. wp_run.
  set (c1 := with_output _ _). assert (input_kept c c1) as Hk1 by (by split).
  eapply wp_mono; [apply flush_socket_flushed; by eapply buffers_ok_kept| |].
  - intros _ c2 [Hf _]. exists cipher. split.
    + rewrite (flushed_wire _ _ Hf). unfold wire, c1, frame.
      cbn [tx socket output_queue with_output with_session]. by rewrite <-(assoc_L (++)), Hcl, Hml.
    + lia.
    + exists d, r'. rewrite (flushed_session _ _ Hf). split_and!; [done|lia| |done].
      rewrite Hpay. unfold msg. by apply payload_of_app; rewrite length_replicate.
    + etrans; [done|]. apply (flushed_kept _ _ Hf).
  - intros e c2 He. by eapply write_failed_mono.
Qed.

(** ** Receiving a handshake message *)

(** The state in which a handshake message read at once is processed. *)
Definition at_message (cipher : bytes) c c' : Prop :=
  ∃ b, c' = with_socket_buffer b
              (with_incoming (MkIncomingMessage [] 0 cipher)
                (with_socket (with_rx [] (socket c)) c)) ∧
    sb_ok b ∧ length (buf b) = length (buf (socket_buffer c)) ∧
    slice (length cipher) b = Ok cipher.

(** The frame is read into the buffer [b1], from which its length is taken. *)
Definition received (cipher : bytes) c (b1 : SocketBuffer) : Prop :=
  sb_ok b1 ∧ buffered b1 = frame cipher ∧ remaining b1 = length cipher + 4
  ∧ length (buf b1) = length (buf (socket_buffer c)).

Lemma fill_with_frame c cipher :
  at_boundary c → rx (socket c) = [RData (frame cipher)] → offset (socket_buffer c) = 0 →
  length cipher + 4 ≤ length (buf (socket_buffer c)) →
  wp fill_socket_buffer
    (λ o c1, o = None ∧ ∃ b1, received cipher c b1
       ∧ c1 = with_socket_buffer b1 (with_socket (with_rx [] (socket c)) c))
    (λ _ _, False) c.
Proof.
  intros [Hsb Hz Hnb Hp Hs] Hrx Hoff Hfit. pose proof Hsb as [_ Hbuf].
  set (b := buf (socket_buffer c)) in *.
  assert (length (frame cipher) = length cipher + 4) as Hfl
    by (unfold frame; rewrite length_app, length_to_be_bytes; lia).
  unfold fill_socket_buffer. wp_run.
  assert (is_exhausted (socket_buffer c) = false) as -> by
    (unfold is_exhausted; apply bool_decide_eq_false; fold b; lia).
  rewrite decide_True by done. wp_run.
  eapply wp_lift; [apply usize_sub_ok; lia|]. wp_run. rewrite Hoff, Nat.sub_0_r.
  eapply wp_lift; [unfold slice; rewrite Hoff, slice_from_ok, bind_Ok by lia;
    apply slice_to_ok; by rewrite drop_0|].
  unfold socket_read. fold b. rewrite Hrx, (take_ge (frame cipher)) by lia.
  destruct (decide (length (frame cipher) ≤ length b)) as [_|Hn]; [|lia]. wp_run.
  rewrite decide_False by (intros Hn; rewrite Hn in Hfl; simpl in Hfl; lia). wp_run.
  eapply wp_lift; [apply copy_into_ok; fold b; lia|]. wp_run.
  fold b. rewrite take_0, Nat.add_0_l, app_nil_l, Hfl. split; [done|].
  eexists. split; [|reflexivity]. split_and!; [split| |done|]; cbn [buf offset remaining];
    rewrite ?length_app, ?length_drop; try lia.
  - unfold buffered. cbn [remaining offset buf]. rewrite drop_0. by rewrite take_app_length' by lia.
  - fold b. lia.
Qed.

Lemma length_of_frame c cipher b1 :
  is_post_handshake c = false → size_bytes (incoming_msg c) = [] →
  0 < length cipher < HANDSHAKE_SIZE_LIMIT → received cipher c b1 →
  wp attempt_to_read_length
    (λ _ c2, ∃ b2, c2 = with_socket_buffer b2
                          (with_incoming (MkIncomingMessage [] (length cipher) [])
                            (with_socket (with_rx [] (socket c)) c))
       ∧ sb_ok b2 ∧ length (buf b2) = length (buf (socket_buffer c))
       ∧ remaining b2 = length cipher ∧ slice (length cipher) b2 = Ok cipher)
    (λ _ _, False) (with_socket_buffer b1 (with_socket (with_rx [] (socket c)) c)).
Proof.
  intros Hpost Hs Hlen (Hb1 & Hbuf1 & Hrem1 & Hl1). unfold attempt_to_read_length. wp_run.
  cbn [incoming_msg with_socket_buffer with_socket socket_buffer]. rewrite Hs. cbn [length].
  eapply wp_lift; [apply usize_sub_ok; lia|]. unfold PAYLOAD_SIZE. rewrite Hrem1.
  replace ((length cipher + 4) `min` (4 - 0)) with 4 by lia. wp_run.
  eapply wp_lift; [apply slice_buffered; [done|lia]|]. wp_run.
  destruct (shift_buffered 4 b1 Hb1 ltac:(lia)) as (b2 & Hshift & Hb2 & Hbuf2 & Hrem2 & Hb2b).
  eapply wp_lift; [exact Hshift|]. wp_run.
  rewrite Hbuf1 in *. unfold frame in Hbuf2 |- *.
  rewrite take_app_length' by (by rewrite length_to_be_bytes).
  rewrite drop_app_length' in Hbuf2 by (by rewrite length_to_be_bytes).
  rewrite app_nil_l, decide_True by (by rewrite length_to_be_bytes). wp_run.
  unfold HANDSHAKE_SIZE_LIMIT in Hlen.
  rewrite from_to_be_bytes_small by (unfold fits; lia).
  apply wp_ensure; [apply bool_decide_true; lia|]. wp_run.
  apply wp_ensure; [apply orb_true_intro; right; apply bool_decide_true; unfold HANDSHAKE_SIZE_LIMIT; lia|].
  wp_run. apply wp_ensure; [apply bool_decide_true; unfold PROTOCOL_MAX_MESSAGE_SIZE; lia|]. wp_run.
  rewrite Nat2Z.id. exists b2. split_and!; [done|done|congruence|lia|].
  rewrite slice_buffered by (done || lia). by rewrite Hbuf2, take_ge.
Qed.

(** A handshake message that is read at once is processed at once. *)
Lemma read_handshake_msg produce c cipher :
  at_boundary c → is_post_handshake c = false →
  rx (socket c) = [RData (frame cipher)] → offset (socket_buffer c) = 0 →
  0 < length cipher < HANDSHAKE_SIZE_LIMIT →
  length cipher + 4 ≤ length (buf (socket_buffer c)) →
  ∃ c', at_message cipher c c'
    ∧ read_from_socket produce c = finish_handshake_msg produce (length cipher) c'.
Proof.
  intros Hb Hpost Hrx Hoff Hlen Hfit.
  destruct (wp_total _ _ _ (fill_with_frame c cipher Hb Hrx Hoff Hfit)) as (o & c1 & Hfill & -> & b1 & Hb1 & ->).
  destruct Hb as [_ _ _ Hp Hs].
  destruct (wp_total _ _ _ (length_of_frame c cipher b1 Hpost Hs Hlen Hb1))
    as ([] & c2 & Hread & b2 & -> & Hb2 & Hl2 & Hr2 & Hslice).
  exists (with_socket_buffer b2 (with_incoming (MkIncomingMessage [] 0 cipher)
            (with_socket (with_rx [] (socket c)) c))).
  split; [by exists b2|]. unfold read_from_socket.
  erewrite (ST_bind_ok fill_socket_buffer) by exact Hfill. cbv beta iota. rewrite bind_get.
  rewrite decide_True by exact Hp. erewrite (ST_bind_ok attempt_to_read_length) by exact Hread. rewrite bind_get.
  rewrite decide_True by (cbn [pending_bytes incoming_msg with_incoming with_socket_buffer]; lia).
  unfold process_incoming_msg. rewrite bind_get. cbv zeta.
  cbn [incoming_msg with_socket_buffer with_incoming pending_bytes socket_buffer]. rewrite Hr2, Nat.min_id.
  erewrite bind_lift by exact Hslice. erewrite bind_lift by (by apply usize_sub_ok). st_run.
  change (is_post_handshake _) with (is_post_handshake c). rewrite Hpost. st_run.
  rewrite Nat.sub_diag, decide_True by done. reflexivity.
Qed.

Lemma wp_read_handshake_msg produce c cipher Q E :
  at_boundary c → is_post_handshake c = false →
  rx (socket c) = [RData (frame cipher)] → offset (socket_buffer c) = 0 →
  0 < length cipher < HANDSHAKE_SIZE_LIMIT →
  length cipher + 4 ≤ length (buf (socket_buffer c)) →
  (∀ c', at_message cipher c c' → wp (finish_handshake_msg produce (length cipher)) Q E c') →
  wp (read_from_socket produce) Q E c.
Proof.
  intros Hb Hpost Hrx Hoff Hlen Hfit Hnext.
  destruct (read_handshake_msg produce c cipher Hb Hpost Hrx Hoff Hlen Hfit) as (c' & Hc' & Hr).
  unfold wp. rewrite Hr. by apply Hnext.
Qed.

Lemma slice_bound n b s : slice n b = Ok s → offset b + n ≤ length (buf b) ∧ length s = n.
Proof.
  unfold slice, slice_from, slice_to. case_decide; [|done]. rewrite bind_Ok.
  case_decide as Hn; [|done]. intros. simplify_eq. rewrite length_take.
  rewrite length_drop in *. lia.
Qed.

Lemma recv_xx_msg_spec cipher c d r' :
  sb_ok (socket_buffer c) → slice (length cipher) (socket_buffer c) = Ok cipher →
  recv_message cipher (noise_session c) = (Ok d, r') → length d = length cipher →
  wp (recv_xx_msg (length cipher))
    (λ _ c', ∃ b, c' = with_socket_buffer b (with_session r' c) ∧ sb_ok b ∧
       length (buf b) = length (buf (socket_buffer c)) ∧ slice (length cipher) b = Ok d)
    (λ _ _, False) c.
Proof.
  intros [Ho Hl] Hs Hrecv Hd. destruct (slice_bound _ _ _ Hs) as [Hb _].
  unfold recv_xx_msg. wp_run. eapply wp_lift; [exact Hs|]. wp_run.
  unfold wp at 1, noise_recv. rewrite Hrecv. wp_run. cbn [socket_buffer with_session].
  eapply wp_lift; [apply copy_into_ok; lia|]. wp_run. eexists. split; [reflexivity|].
  assert (∀ x, length (take (offset (socket_buffer c)) (buf (socket_buffer c)) ++ d ++ x)
    = offset (socket_buffer c) + length d + length x) as Hlen.
  { intros x. rewrite !length_app, length_take. lia. }
  split_and!; [split; cbn [buf offset remaining]|cbn [buf]|]; try (rewrite Hlen, length_drop; lia).
  unfold slice. cbn [buf offset]. rewrite slice_from_ok by (rewrite Hlen; lia).
  rewrite bind_Ok, drop_app_length' by (rewrite length_take; lia).
  rewrite slice_to_ok by (rewrite length_app; lia). by rewrite take_app_length'.
Qed.

Lemma handshake_payload_spec prefix suffix d n c :
  slice (length d) (socket_buffer c) = Ok d → prefix + suffix ≤ length d →
  n = Ok (length d - prefix - suffix) →
  wp (handshake_payload (length d) prefix n)
    (λ p c', p = payload_of prefix suffix d ∧ c' = c) (λ _ _, False) c.
Proof.
  intros Hs Hle ->. unfold handshake_payload. wp_run. rewrite Hs, bind_Ok.
  rewrite slice_from_ok, !bind_Ok by lia. rewrite slice_to_ok by (rewrite length_drop; lia).
  done.
Qed.

(** ** The three messages *)

(** A connection between handshake messages, with a socket that works. *)
Record ready c : Prop := {
  ready_boundary : at_boundary c;
  ready_buffers : buffers_ok c;
  ready_offset : offset (socket_buffer c) = 0;
  ready_script m : WError m ∉ tx_script (socket c);
  ready_nodelay : nodelay_settable (socket c) = true;
}.

(** The octets [bs] arrive at [c] in one read. *)
Definition arrive (bs : bytes) c : ConnectionLowLevel sess :=
  with_socket (with_rx [RData bs] (socket c)) c.

(** The session of [c] reads [cipher] and finds [payload]. *)
Definition readable (prefix suffix : nat) (payload : bytes) (Q : sess → Prop) (cipher : bytes) c :
    Prop :=
  length cipher = prefix + length payload + suffix ∧
  ∃ d r', recv_message cipher (noise_session c) = (Ok d, r') ∧ length d = length cipher ∧
    payload_of prefix suffix d = payload ∧ Q r'.

Lemma ready_kept c c' r bs :
  ready c → noise_session c' = r →
  incoming_msg c' = MkIncomingMessage [] 0 bs →
  offset (socket_buffer c') = 0 → remaining (socket_buffer c') = 0 →
  length (buf (socket_buffer c')) = length (buf (socket_buffer c)) →
  length (noise_buffer c') = length (noise_buffer c) →
  nodelay_settable (socket c') = nodelay_settable (socket c) →
  write_size c' = write_size c →
  tx_script (socket c') `suffix_of` tx_script (socket c) →
  ready c'.
Proof.
  intros [[[Hsb1 Hsb2] Hz Hnb Hp Hs] [Hw Hh Hn] Hoff Hscript Hnd] _ Hin Ho Hr Hb Hnb' Hnd' Hws [k Hk].
  split.
  - split; rewrite ?Hin, ?Hnb'; try done. split; lia.
  - split; rewrite ?Hws, ?Hb, ?Hnb'; done.
  - done.
  - intros m Hm. apply (Hscript m). rewrite Hk. set_solver.
  - congruence.
Qed.

Lemma write_failed_absurd c e (P : Prop) : (∀ m, WError m ∉ tx_script (socket c)) → write_failed c e → P.
Proof. intros Hs (m & _ & Hm). by destruct (Hs m). Qed.

(** Decryption of a handshake message and extraction of its payload. *)
Lemma open_handshake_msg {A} prefix suffix payload R cipher c n (k : bytes → ST _ A) Q E :
  sb_ok (socket_buffer c) → slice (length cipher) (socket_buffer c) = Ok cipher →
  readable prefix suffix payload R cipher c →
  n = Ok (length cipher - prefix - suffix) →
  (∀ b r', sb_ok b → length (buf b) = length (buf (socket_buffer c)) → R r' →
     wp (k payload) Q E (with_socket_buffer b (with_session r' c))) →
  wp (recv_xx_msg (length cipher) ;; (p ← handshake_payload (length cipher) prefix n; k p)) Q E c.
Proof.
  intros Hsb Hs (Hlen & d & r' & Hrecv & Hd & Hpay & HR) Hn Hk. wp_run.
  eapply wp_mono; [by eapply recv_xx_msg_spec| |done].
  intros _ c1 (b & -> & Hb & Hbl & Hsl). wp_run. rewrite <-Hd in Hsl, Hn |- *.
  eapply wp_mono; [apply (handshake_payload_spec prefix suffix); [done|lia|done]| |done].
  intros p c2 [-> ->]. rewrite Hpay. by apply Hk.
Qed.

(** [c2] is [c] after a handshake message was decrypted by its session. *)
Record opened (r : sess) c c2 : Prop := {
  opened_session : noise_session c2 = r;
  opened_incoming : ∃ bs, incoming_msg c2 = MkIncomingMessage [] 0 bs;
  opened_buf : length (buf (socket_buffer c2)) = length (buf (socket_buffer c));
  opened_noise_buffer : noise_buffer c2 = noise_buffer c;
  opened_tx : tx_script (socket c2) = tx_script (socket c);
  opened_nodelay : nodelay_settable (socket c2) = nodelay_settable (socket c);
  opened_write_size : write_size c2 = write_size c;
  opened_wire : wire c2 = wire c;
}.

(** The part of [finish_handshake_msg] after the message was processed. *)
Definition conclude (payload : bytes) : ST (ConnectionLowLevel sess) ReadResult :=
  c ← st_get;
  let count := get_message_count (noise_session c) in
  if is_initiator (noise_session c) then reset_socket_buffer ;; mret (Complete payload)
  else if decide (count = 1 ∧ payload ≠ PSK) then st_lift (bail "Invalid PSK")
  else if decide (count = 2) then reset_socket_buffer ;; mret Incomplete
  else reset_socket_buffer ;; mret (Complete payload).

(** A handshake message that arrives in one read: [k] is what its handler does
    with the payload. *)
Lemma receive_handshake_msg produce prefix suffix payload R cipher c n k Q E :
  ready c → is_post_handshake c = false → readable prefix suffix payload R cipher c →
  0 < suffix → length cipher < HANDSHAKE_SIZE_LIMIT →
  (∀ c', noise_session c' = noise_session c →
     process_handshake_msg produce (length cipher) c' =
     (recv_xx_msg (length cipher) ;; (p ← handshake_payload (length cipher) prefix n; k p)) c') →
  n = Ok (length cipher - prefix - suffix) →
  (∀ r c2, R r → opened r c c2 → wp (k payload) (λ p, wp (conclude p) Q E) E c2) →
  wp (read_from_socket produce) Q E (arrive (frame cipher) c).
Proof.
  intros Hready Hpost Hread Hsuf Hlen Hproc Hn Hk.
  pose proof Hready as [Hbnd [Hws Hhs Hnb] Hoff Hscript Hnd]. pose proof Hread as (Hcl & _).
  unfold HANDSHAKE_SIZE_LIMIT in *.
  eapply wp_read_handshake_msg;
    [by destruct Hbnd|exact Hpost|done|done|split; [lia|done]|cbn; lia|].
  intros c1 (b & -> & Hb & Hbl & Hslice). unfold finish_handshake_msg. apply wp_bind.
  unfold wp at 1. rewrite Hproc by done. fold (conclude).
  change (wp (recv_xx_msg (length cipher) ;; (p ← handshake_payload (length cipher) prefix n; k p))
    (λ p, wp (conclude p) Q E) E (with_socket_buffer b (with_incoming (MkIncomingMessage [] 0 cipher)
      (with_socket (with_rx [] (socket (arrive (frame cipher) c))) (arrive (frame cipher) c))))).
  eapply (open_handshake_msg prefix suffix payload R); [done|done|done|done|].
  intros b2 r Hb2 Hbl2 HR. apply (Hk r); [done|].
  split; [done|by eexists| |done..]. cbn. rewrite Hbl2. cbn. by rewrite Hbl.
Qed.

Lemma opened_buffers r c c2 : ready c → opened r c c2 → buffers_ok c2.
Proof.
  intros [_ [Hw Hh Hn] _ _ _] [_ _ Hb Hnb _ _ Hws _]. split; rewrite ?Hws, ?Hb, ?Hnb; done.
Qed.

(** The state at the end of a handshake message, after [reset]. *)
Lemma opened_ready r c c2 c3 (sock : TcpStream) :
  ready c → opened r c c2 → input_kept c2 c3 →
  tx_script sock = tx_script (socket c3) →
  nodelay_settable sock = nodelay_settable (socket c3) →
  ready (with_socket_buffer (reset (socket_buffer c3)) (with_socket sock c3)).
Proof.
  intros Hready [Hs [bs Hin] Hb Hnb Htx Hnd Hws _] [Hk1 Hk2 Hk3 Hk4 Hk5 Hk6 Hk7 Hk8 Hk9] Hsc Hn.
  eapply (ready_kept c _ _ bs); [done|reflexivity|simpl; congruence|done|done|simpl; congruence
    |simpl; congruence|simpl; congruence|simpl; congruence|].
  simpl. by rewrite Hsc, <-Htx.
Qed.

(** What the peer, whose session is [i], makes of the answer of [c']. *)
Definition answered (prefix : nat) (payload : bytes) (i : sess) (Q : sess → Prop) c c' : Prop :=
  ∃ answer, wire c' = wire c ++ frame answer ∧
    length answer = prefix + length payload + MAC_LENGTH ∧
    ∃ d i', recv_message answer i = (Ok d, i') ∧ length d = length answer ∧
      payload_of prefix MAC_LENGTH d = payload ∧ Q i'.

(** Sending the answer to a handshake message. *)
Lemma send_answer prefix payload r c c2 i Q :
  ready c → opened r c c2 → prefix + length payload < 2000 →
  (∀ msg, length msg = prefix + length payload + MAC_LENGTH →
     carries prefix MAC_LENGTH msg r i Q) →
  wp (send_xx_msg prefix payload MAC_LENGTH)
    (λ _ c3, input_kept c2 c3 ∧ answered prefix payload i (Q (noise_session c3)) c c3)
    (λ _ _, False) c2.
Proof.
  intros Hready Hop Hlen Hcarry.
  pose proof (opened_session _ _ _ Hop) as Hs. pose proof noise_lengths as (_ & _ & _ & ?).
  eapply wp_mono; [apply (send_xx_msg_spec prefix MAC_LENGTH payload c2 i Q)| |].
  - by eapply opened_buffers.
  - unfold fits. lia.
  - by rewrite Hs.
  - intros _ c3 (ans & [Hw Hl (d & i2 & Hrecv & Hd & Hpay & HQ) Hk]). split; [done|].
    exists ans. rewrite Hw, (opened_wire _ _ _ Hop). split_and!; [done..|]. by exists d, i2.
  - intros e c3. apply write_failed_absurd. rewrite (opened_tx _ _ _ Hop). by destruct Hready.
Qed.

(** Message A at the responder: whatever its payload, it is answered. *)
Lemma receive_a c i payload pr a :
  ready c → is_initiator (noise_session c) = false → get_message_count (noise_session c) = 0 →
  readable DHLEN 16 payload (noise_handshake 1 i) a c →
  length a < HANDSHAKE_SIZE_LIMIT → length pr < HANDSHAKE_SIZE_LIMIT →
  wp (read_from_socket (Ok pr))
    (λ res c', res = Incomplete ∧ ready c' ∧
       answered (DHLEN * 2 + MAC_LENGTH) pr i (λ i', noise_handshake 2 i' (noise_session c')) c c')
    (λ _ _, False) (arrive (frame a) c).
Proof.
  intros Hready Hini Hcount Ha Hal Hpl. pose proof noise_lengths as (? & ? & ? & ?).
  pose proof Ha as (Hlen & _). unfold HANDSHAKE_SIZE_LIMIT in *.
  eapply (receive_handshake_msg _ DHLEN 16 payload (noise_handshake 1 i) a c
    (n ← usize_sub (length a) DHLEN; usize_sub n 16)
    (λ p, out ← st_lift (Ok pr); send_xx_msg (DHLEN * 2 + MAC_LENGTH) out MAC_LENGTH ;; mret p));
    [done| |done|lia|done| | |].
  - unfold is_post_handshake. by rewrite Hini, Hcount.
  - intros c' Hs. unfold process_handshake_msg. rewrite bind_get, Hs, Hini, Hcount. done.
  - rewrite usize_sub_ok, bind_Ok by lia. apply usize_sub_ok. lia.
  - intros r c2 Hhs Hop. wp_run. eapply wp_lift; [done|]. wp_run.
    eapply wp_mono; [eapply (send_answer _ pr r c c2 i (λ r' i', noise_handshake 2 i' r')); try done| |done].
    { unfold DHLEN, MAC_LENGTH. lia. }
    { intros msg Hml. apply handshake_b; [done|]. unfold DHLEN, MAC_LENGTH in *. lia. }
    intros _ c3 (Hk & ans & Hw & Hl & d & i2 & Hrecv & Hd & Hpay & Hhs2). wp_run.
    unfold conclude. wp_run. destruct (handshake_state _ _ _ Hhs2) as (_ & Hi3 & _ & Hc3).
    rewrite Hi3, Hc3, decide_False, decide_True by lia. unfold reset_socket_buffer. wp_run.
    split_and!; [done| |].
    + pose proof (opened_ready _ _ _ _ (socket c3) Hready Hop Hk) as Hr. by destruct c3; apply Hr.
    + exists ans. split_and!; [done..|]. by exists d, i2.
Qed.

(** The sessions of both sides at the end of the handshake. *)
Definition established (i r : sess) : Prop :=
  noise_handshake 3 i r ∧ ∀ n, (Z.of_nat n < 2 ^ 64 - 1)%Z → noise_synced n i r ∧ noise_synced n r i.

Lemma socket_set_nodelay_spec b c :
  nodelay_settable (socket c) = true →
  wp (socket_set_nodelay b)
    (λ _ c', ∃ sock, c' = with_socket sock c ∧ tx_script sock = tx_script (socket c) ∧
       tx sock = tx (socket c) ∧ nodelay_settable sock = nodelay_settable (socket c))
    (λ _ _, False) c.
Proof.
  intros Hn. unfold wp, socket_set_nodelay, set_nodelay. rewrite Hn. by eexists.
Qed.

(** Message B at the initiator: it returns the responder's request and answers. *)
Lemma receive_b c r payload pi b :
  ready c → is_initiator (noise_session c) = true → get_message_count (noise_session c) = 1 →
  readable (DHLEN * 2 + MAC_LENGTH) MAC_LENGTH payload (λ i, noise_handshake 2 i r) b c →
  length b < HANDSHAKE_SIZE_LIMIT → length pi < HANDSHAKE_SIZE_LIMIT →
  wp (read_from_socket (Ok pi))
    (λ res c', res = Complete payload ∧ ready c' ∧
       answered (DHLEN + MAC_LENGTH) pi r (established (noise_session c')) c c')
    (λ _ _, False) (arrive (frame b) c).
Proof.
  intros Hready Hini Hcount Hb Hbl Hpl. pose proof noise_lengths as (? & ? & ? & ?).
  pose proof Hb as (Hlen & _). unfold HANDSHAKE_SIZE_LIMIT in *.
  eapply (receive_handshake_msg _ (DHLEN * 2 + MAC_LENGTH) MAC_LENGTH payload
    (λ i, noise_handshake 2 i r) b c
    (n ← usize_sub (length b) (DHLEN * 2); usize_sub n (MAC_LENGTH * 2))
    (λ p, out ← st_lift (Ok pi); send_xx_msg (DHLEN + MAC_LENGTH) out MAC_LENGTH ;;
          socket_set_nodelay false ;; mret p)); [done| |done|lia|done| | |].
  - unfold is_post_handshake. by rewrite Hini, Hcount.
  - intros c' Hs. unfold process_handshake_msg. rewrite bind_get, Hs, Hini, Hcount. done.
  - rewrite usize_sub_ok, bind_Ok by lia. rewrite usize_sub_ok by lia. f_equal. lia.
  - intros i c2 Hhs Hop. wp_run. eapply wp_lift; [done|]. wp_run.
    eapply wp_mono; [eapply (send_answer _ pi i c c2 r established); try done| |done].
    { unfold DHLEN, MAC_LENGTH. lia. }
    { intros msg Hml. apply handshake_c; [done|]. unfold DHLEN, MAC_LENGTH in *. lia. }
    intros _ c3 (Hk & ans & Hw & Hl & d & r2 & Hrecv & Hd & Hpay & Hest). wp_run.
    eapply wp_mono; [apply socket_set_nodelay_spec| |done].
    { rewrite (kept_nodelay _ _ Hk), (opened_nodelay _ _ _ Hop). by destruct Hready. }
    intros _ c4 (sock & -> & Hsc & Htx & Hnd). wp_run. unfold conclude. wp_run.
    destruct (handshake_state _ _ _ (proj1 Hest)) as (Hi3 & _). cbn [noise_session with_socket].
    rewrite Hi3. unfold reset_socket_buffer. wp_run. split_and!; [done| |].
    + by apply (opened_ready _ _ _ _ sock Hready Hop Hk).
    + exists ans. split_and!; [|done|by exists d, r2].
      rewrite <-Hw. unfold wire. simpl. by rewrite Htx.
Qed.

(** Message C at the responder: it returns the initiator's request. *)
Lemma receive_c c i payload pr m :
  ready c → is_initiator (noise_session c) = false → get_message_count (noise_session c) = 2 →
  readable (DHLEN + MAC_LENGTH) MAC_LENGTH payload (established i) m c →
  length m < HANDSHAKE_SIZE_LIMIT →
  wp (read_from_socket (Ok pr))
    (λ res c', res = Complete payload ∧ ready c' ∧ established i (noise_session c'))
    (λ _ _, False) (arrive (frame m) c).
Proof.
  intros Hready Hini Hcount Hm Hml. pose proof noise_lengths as (? & ? & ? & ?).
  pose proof Hm as (Hlen & _). unfold HANDSHAKE_SIZE_LIMIT in *.
  eapply (receive_handshake_msg _ (DHLEN + MAC_LENGTH) MAC_LENGTH payload (established i) m c
    (n ← usize_sub (length m) DHLEN; usize_sub n (MAC_LENGTH * 2))
    (λ p, socket_set_nodelay false ;; mret p)); [done| |done|lia|done| | |].
  - unfold is_post_handshake. by rewrite Hini, Hcount.
  - intros c' Hs. unfold process_handshake_msg. rewrite bind_get, Hs, Hini, Hcount. done.
  - rewrite usize_sub_ok, bind_Ok by lia. rewrite usize_sub_ok by lia. f_equal. lia.
  - intros r c2 Hest Hop. wp_run.
    eapply wp_mono; [apply socket_set_nodelay_spec| |done].
    { rewrite (opened_nodelay _ _ _ Hop). by destruct Hready. }
    intros _ c4 (sock & -> & Hsc & Htx & Hnd). wp_run. unfold conclude. wp_run.
    destruct (handshake_state _ _ _ (proj1 Hest)) as (_ & Hi3 & _ & Hc3).
    cbn [noise_session with_socket]. rewrite (opened_session _ _ _ Hop), Hi3, Hc3.
    rewrite !decide_False by lia. unfold reset_socket_buffer. wp_run. split_and!; [done| |].
    + by apply (opened_ready _ _ _ _ sock Hready Hop (reflexivity c2)).
    + simpl. by rewrite (opened_session _ _ _ Hop).
Qed.

(** A new connection over a socket that works. *)
Definition socket_works (sock : TcpStream) : Prop :=
  (∀ m, WError m ∉ tx_script sock) ∧ nodelay_settable sock = true.

Lemma new_ready sock initiator read_size write_size l :
  socket_works sock → (65535 ≤ Z.of_nat read_size)%Z → write_size ≤ read_size →
  ready (ConnectionLowLevel_new sock initiator read_size write_size l).
Proof.
  intros [Hs Hn] Hrs Hws. split.
  - split; [split| | | |]; simpl; rewrite ?length_replicate; done || lia.
  - split; simpl; rewrite ?length_replicate; done || lia.
  - done.
  - done.
  - done.
Qed.

(** Message A: [payload] is the PSK for a node that follows the protocol. *)
Lemma send_a c r payload :
  ready c → incoming_msg c = IncomingMessage_default → noise_handshake 0 (noise_session c) r →
  length payload < HANDSHAKE_SIZE_LIMIT →
  wp (send_xx_msg DHLEN payload 16)
    (λ _ c', ready c' ∧ ∃ a, transmitted DHLEN 16 payload c r (noise_handshake 1) a c')
    (λ _ _, False) c.
Proof.
  intros Hready Hin Hhs Hlen. pose proof noise_lengths as (? & ? & ? & ?).
  pose proof Hready as [[_ Hz _ _ _] Hok Ho Hscript Hnd]. unfold HANDSHAKE_SIZE_LIMIT in *.
  eapply wp_mono; [apply (send_xx_msg_spec _ _ payload c r (noise_handshake 1) Hok)| |].
  - unfold fits, DHLEN. lia.
  - intros msg Hml. apply handshake_a; [done|]. unfold DHLEN in *. lia.
  - intros _ c' (a & Ha). split; [|by exists a].
    destruct (transmitted_kept _ _ _ _ _ _ _ _ Ha) as [Hk1 Hk2 Hk3 Hk4 Hk5 Hk6 Hk7 Hk8 Hk9].
    eapply (ready_kept c); [done|reflexivity|by rewrite Hk1, Hin|congruence..|done].
  - intros e c'. by apply write_failed_absurd.
Qed.

(** C8: the XX handshake between two new connections, when no write to a socket
    fails, reads take at least 65535 octets, writes at most as many as reads,
    the payload of either side leaves 96 octets of the size limit for handshake
    messages, and each message arrives whole in a
    read of its own: the initiator sends A, the responder answers it with B
    without delivering anything, the initiator delivers the responder's
    handshake request and answers with C, the responder delivers the initiator's
    request.  Afterwards both connections are between frames with empty input
    and their sessions are synchronised in both directions, as the transport of
    framed messages requires. *)
Theorem xx_handshake_completes socki sockr rs ws l pi pr :
  socket_works socki → socket_works sockr →
  (65535 ≤ Z.of_nat rs)%Z → ws ≤ rs →
  length pi + 96 < HANDSHAKE_SIZE_LIMIT → length pr + 96 < HANDSHAKE_SIZE_LIMIT →
  let ci := ConnectionLowLevel_new socki true rs ws l in
  let cr := ConnectionLowLevel_new sockr false rs ws l in
  ∃ a b m ci1 cr1 ci2 cr2,
    send_handshake_message_a ci = (Ok tt, ci1) ∧ wire ci1 = wire ci ++ frame a ∧
    read_from_socket (Ok pr) (arrive (frame a) cr) = (Ok Incomplete, cr1) ∧
    wire cr1 = wire cr ++ frame b ∧
    read_from_socket (Ok pi) (arrive (frame b) ci1) = (Ok (Complete pr), ci2) ∧
    wire ci2 = wire ci1 ++ frame m ∧
    read_from_socket (Ok pr) (arrive (frame m) cr1) = (Ok (Complete pi), cr2) ∧
    ready ci2 ∧ ready cr2 ∧ established (noise_session ci2) (noise_session cr2).
Proof.
  intros Hsi Hsr Hrs Hws Hpi Hpr ci cr. pose proof noise_lengths as (_ & _ & _ & ?).
  assert (noise_handshake 0 (noise_session ci) (noise_session cr)) as Hhs0 by apply handshake_init.
  assert (ready ci ∧ ready cr) as [Hri Hrr] by (split; by apply new_ready).
  unfold HANDSHAKE_SIZE_LIMIT in *.
  destruct (wp_total _ _ _ (send_a ci (noise_session cr) PSK Hri eq_refl Hhs0 ltac:(vm_compute; lia)))
    as ([] & ci1 & Hsa & Hri1 & a & [Hwa Hla (d & r1 & Hra & Hda & Hpa & Hhs1) _]).
  destruct (handshake_state _ _ _ Hhs0) as (_ & Hr0 & _ & Hrc0).
  assert (length PSK = 64) as HPSK by reflexivity. unfold DHLEN in Hla.
  destruct (wp_total _ _ _ (receive_a cr (noise_session ci1) PSK pr a Hrr Hr0 Hrc0
      ltac:(split; [done|by exists d, r1]) ltac:(unfold HANDSHAKE_SIZE_LIMIT; lia)
      ltac:(unfold HANDSHAKE_SIZE_LIMIT; lia)))
    as (res1 & cr1 & Hread1 & -> & Hrr1 & b & Hwb & Hlb & db & i2 & Hrb & Hdb & Hpb & Hhs2).
  destruct (handshake_state _ _ _ Hhs1) as (Hi1 & _ & Hic1 & _).
  destruct (handshake_state _ _ _ Hhs2) as (_ & Hr2 & _ & Hrc2).
  destruct (wp_total _ _ _ (receive_b ci1 (noise_session cr1) pr pi b Hri1 Hi1 Hic1
      ltac:(split; [done|by exists db, i2]) ltac:(unfold HANDSHAKE_SIZE_LIMIT, DHLEN in *; lia)
      ltac:(unfold HANDSHAKE_SIZE_LIMIT; lia)))
    as (res2 & ci2 & Hread2 & -> & Hri2 & m & Hwm & Hlm & dm & r3 & Hrm & Hdm & Hpm & Hest).
  destruct (wp_total _ _ _ (receive_c cr1 (noise_session ci2) pi pr m Hrr1 Hr2 Hrc2
      ltac:(split; [done|by exists dm, r3]) ltac:(unfold HANDSHAKE_SIZE_LIMIT, DHLEN in *; lia)))
    as (res3 & cr2 & Hread3 & -> & Hrr2 & Hest2).
  exists a, b, m, ci1, cr1, ci2, cr2. by split_and!.
Qed.

(** The responder does not check the PSK: a first handshake message with any
    other payload is answered with message B exactly like one that carries the
    PSK.  (The check in [process_incoming_msg] asks for a message count of one,
    but the count is two once the answer has been sent.) *)
Theorem psk_not_enforced sockr rs ws l i payload a d r1 pr :
  let cr := ConnectionLowLevel_new sockr false rs ws l in
  socket_works sockr → (65535 ≤ Z.of_nat rs)%Z → ws ≤ rs →
  payload ≠ PSK → length a < HANDSHAKE_SIZE_LIMIT → length pr < HANDSHAKE_SIZE_LIMIT →
  length a = DHLEN + length payload + 16 →
  recv_message a (noise_session cr) = (Ok d, r1) → payload_of DHLEN 16 d = payload →
  noise_handshake 1 i r1 →
  ∃ cr1 b,
    read_from_socket (Ok pr) (arrive (frame a) cr) = (Ok Incomplete, cr1) ∧
    wire cr1 = wire cr ++ frame b ∧ get_message_count (noise_session cr1) = 2.
Proof.
  intros cr Hs Hrs Hws _ Hla Hlp Hal Hrecv Hpay Hhs.
  assert (noise_handshake 0 (init_session true PROLOGUE) (noise_session cr)) as Hhs0
    by apply handshake_init.
  destruct (handshake_state _ _ _ Hhs0) as (_ & Hr0 & _ & Hrc0).
  pose proof (recv_ok_state _ _ _ _ Hrecv) as (Hd & _).
  destruct (wp_total _ _ _ (receive_a cr i payload pr a
      ltac:(by apply new_ready) Hr0 Hrc0 ltac:(split; [done|by exists d, r1]) Hla Hlp))
    as (res & cr1 & Hread & -> & _ & b & Hw & _ & d2 & i2 & _ & _ & _ & Hhs2).
  exists cr1, b. split_and!; [done..|]. by destruct (handshake_state _ _ _ Hhs2) as (_ & _ & _ & ?).
Qed.
End handshake.

(** *** Witnesses *)

Module HandshakeExample.
#[local] Existing Instance contiguous_deque.

Definition sock : TcpStream := MkTcpStream [] [] [WAccept 30; WAccept 4096] false true None.

Lemma sock_works : socket_works sock.
Proof. split; [intros m; cbn [tx_script sock]; set_solver|reflexivity]. Qed.

Lemma xx_handshake_completes_witness :
  let ci := ConnectionLowLevel_new (sess := toy_noise) sock true (Z.to_nat 65535) 100 None in
  let cr := ConnectionLowLevel_new (sess := toy_noise) sock false (Z.to_nat 65535) 100 None in
  ∃ a b m ci1 cr1 ci2 cr2,
    send_handshake_message_a ci = (Ok tt, ci1) ∧ wire ci1 = wire ci ++ frame a ∧
    read_from_socket (Ok [7]%Z) (arrive (frame a) cr) = (Ok Incomplete, cr1) ∧
    wire cr1 = wire cr ++ frame b ∧
    read_from_socket (Ok [5; 6]%Z) (arrive (frame b) ci1) = (Ok (Complete [7]%Z), ci2) ∧
    wire ci2 = wire ci1 ++ frame m ∧
    read_from_socket (Ok [7]%Z) (arrive (frame m) cr1) = (Ok (Complete [5; 6]%Z), cr2) ∧
    ready ci2 ∧ ready cr2 ∧ established (noise_session ci2) (noise_session cr2).
Proof.
  apply (xx_handshake_completes sock sock (Z.to_nat 65535) 100 None [5; 6]%Z [7]%Z);
    [apply sock_works|apply sock_works|lia|lia|cbn [length]; unfold HANDSHAKE_SIZE_LIMIT; lia..].
Defined.

(** Message A with the payload 1 instead of the PSK. *)
Definition forged : bytes := replicate 32 0%Z ++ [1%Z] ++ replicate 16 0%Z.

Lemma psk_not_enforced_witness :
  let cr := ConnectionLowLevel_new (sess := toy_noise) sock false (Z.to_nat 65535) 100 None in
  ∃ cr1 b,
    read_from_socket (Ok [7]%Z) (arrive (frame forged) cr) = (Ok Incomplete, cr1) ∧
    wire cr1 = wire cr ++ frame b ∧ get_message_count (noise_session cr1) = 2.
Proof.
  pose proof noise_lengths as (_ & _ & ? & _).
  apply (psk_not_enforced sock (Z.to_nat 65535) 100 None (MkToyNoise true 1 0) [1%Z] forged forged
    (MkToyNoise false 0 1) [7]%Z).
  - apply sock_works.
  - lia.
  - lia.
  - discriminate.
  - unfold HANDSHAKE_SIZE_LIMIT. cbn [length forged app replicate]. lia.
  - unfold HANDSHAKE_SIZE_LIMIT. cbn [length]. lia.
  - reflexivity.
  - cbn [recv_message toy_noise_ops noise_session ConnectionLowLevel_new init_session].
    unfold toy_recv. rewrite decide_True; [reflexivity|].
    unfold MAC_LENGTH. cbn [length forged app replicate]. lia.
  - reflexivity.
  - cbn. auto.
Defined.
End HandshakeExample.
