(* ===== verification/HandshakeSafety.v ===== *)
(** * Robustness of the handshake

    What [read_from_socket] of [low_level.rs] does with the octets that a peer sends during
    the Noise handshake.  The functions for the three messages subtract the sizes of keys
    and tags from the size of the message without a check.  So reading does not panic as
    long as the session refuses messages that are too short for these, and panics on a
    message that is too short and accepted. *)
From S2P Require Import Prelude.
From S2P Require Import Noise.
From S2P Require Import LowLevel.
From S2P Require Import Framing.
From S2P Require Import ReadSafety.
From S2P Require Import HandshakeXX.

Section safety.
Context `{!Noise sess, !NoiseLaws sess, !Deque}.
Implicit Types c : ConnectionLowLevel sess.

(** The invariant of reading, during the handshake or after it *)
Record reader_ok c : Prop := {
  reader_sb : sb_ok (socket_buffer c);
  reader_buffers : buffers_ok c;
  reader_size : if decide (pending_bytes (incoming_msg c) = 0)
                then length (size_bytes (incoming_msg c)) < 4
                else size_bytes (incoming_msg c) = [] ∧
                  (Z.of_nat (length (in_message (incoming_msg c)) + pending_bytes (incoming_msg c))
                   ≤ PROTOCOL_MAX_MESSAGE_SIZE)%Z;
}.

Lemma reader_input c : reader_ok c → is_post_handshake c = true → input_ok c.
Proof. by intros [Hsb [_ _ Hnb] Hs] Hp. Qed.


(** ** Reading the length *)


(** ** Processing a message *)













(** ** Messages that are too short *)



End safety.

(** *** Witness: an initiator that is sent something before it has asked, and a responder
    whose session takes a first message without a payload *)

Module HandshakeSafetyExample.
#[local] Existing Instance contiguous_deque.


End HandshakeSafetyExample.
