(* ===== verification/FfiHelpers.v ===== *)
(** * Packets and answers of the consensus layer

    Models [concordium-node/src/consensus_ffi/helpers.rs] (packet types, the
    response codes of the consensus library and how the network layer reads
    them), [messaging.rs] (consensus messages) and the genesis bookkeeping of
    [consensus.rs]. *)
From S2P Require Import Prelude.
From S2P Require Import Status.
From S2P Require Import PeerTypes.
From S2P Require Import NetTypes.

(** ** Packet types *)

Inductive PacketType :=
  | Block
  | Transaction
  | FinalizationRecord
  | FinalizationMessage
  | CatchUpStatus.

#[global] Instance PacketType_eq_dec : EqDecision PacketType.
Proof. solve_decision. Defined.

Definition PACKET_TYPE_FROM_INT : list PacketType :=
  [Block; Transaction; FinalizationRecord; FinalizationMessage; CatchUpStatus].

(** The discriminant, [variant as u8]. *)
Definition PacketType_code (t : PacketType) : u8 :=
  match t with
  | Block => 0 | Transaction => 1 | FinalizationRecord => 2 | FinalizationMessage => 3
  | CatchUpStatus => 4
  end.

Definition PacketType_try_from (value : u8) : outcome PacketType :=
  context "Unsupported packet type" (PACKET_TYPE_FROM_INT !! Z.to_nat value).

Definition PacketType_is_rebroadcastable (t : PacketType) : bool :=
  match t with
  | Block | Transaction | FinalizationRecord | FinalizationMessage => true
  | CatchUpStatus => false
  end.

(** ** Responses of the consensus library *)

Inductive ConsensusFfiResponse :=
  | BakerNotFound | Success | DeserializationError | InvalidResult | PendingBlock
  | PendingFinalization | Asynchronous | DuplicateEntry | Stale
  | IncorrectFinalizationSession | Unverifiable | ContinueCatchUp | BlockTooEarly
  | MissingImportFile | ConsensusShutDown | ExpiryTooLate | VerificationFailed
  | NonexistingSenderAccount | DuplicateNonce | NonceTooLarge | TooLowEnergy
  | InvalidGenesisIndex | DuplicateAccountRegistrationID
  | CredentialDeploymentInvalidSignatures | CredentialDeploymentInvalidIP
  | CredentialDeploymentInvalidAR | CredentialDeploymentExpired
  | ChainUpdateInvalidEffectiveTime | ChainUpdateSequenceNumberTooOld
  | ChainUpdateInvalidSignatures | MaxBlockEnergyExceeded | InsufficientFunds.

#[global] Instance ConsensusFfiResponse_eq_dec : EqDecision ConsensusFfiResponse.
Proof. solve_decision. Defined.

(** The discriminants: the enumeration counts up from -1. *)
Definition ConsensusFfiResponse_code (r : ConsensusFfiResponse) : i64 :=
  match r with
  | BakerNotFound => -1 | Success => 0 | DeserializationError => 1 | InvalidResult => 2
  | PendingBlock => 3 | PendingFinalization => 4 | Asynchronous => 5 | DuplicateEntry => 6
  | Stale => 7 | IncorrectFinalizationSession => 8 | Unverifiable => 9 | ContinueCatchUp => 10
  | BlockTooEarly => 11 | MissingImportFile => 12 | ConsensusShutDown => 13
  | ExpiryTooLate => 14 | VerificationFailed => 15 | NonexistingSenderAccount => 16
  | DuplicateNonce => 17 | NonceTooLarge => 18 | TooLowEnergy => 19
  | InvalidGenesisIndex => 20 | DuplicateAccountRegistrationID => 21
  | CredentialDeploymentInvalidSignatures => 22 | CredentialDeploymentInvalidIP => 23
  | CredentialDeploymentInvalidAR => 24 | CredentialDeploymentExpired => 25
  | ChainUpdateInvalidEffectiveTime => 26 | ChainUpdateSequenceNumberTooOld => 27
  | ChainUpdateInvalidSignatures => 28 | MaxBlockEnergyExceeded => 29
  | InsufficientFunds => 30
  end.

Definition ConsensusFfiResponse_try_from (value : i64) : outcome ConsensusFfiResponse :=
  match value with
  | (-1)%Z => Ok BakerNotFound
  | 0%Z => Ok Success
  | 1%Z => Ok DeserializationError
  | 2%Z => Ok InvalidResult
  | 3%Z => Ok PendingBlock
  | 4%Z => Ok PendingFinalization
  | 5%Z => Ok Asynchronous
  | 6%Z => Ok DuplicateEntry
  | 7%Z => Ok Stale
  | 8%Z => Ok IncorrectFinalizationSession
  | 9%Z => Ok Unverifiable
  | 10%Z => Ok ContinueCatchUp
  | 11%Z => Ok BlockTooEarly
  | 12%Z => Ok MissingImportFile
  | 13%Z => Ok ConsensusShutDown
  | 14%Z => Ok ExpiryTooLate
  | 15%Z => Ok VerificationFailed
  | 16%Z => Ok NonexistingSenderAccount
  | 17%Z => Ok DuplicateNonce
  | 18%Z => Ok NonceTooLarge
  | 19%Z => Ok TooLowEnergy
  | 20%Z => Ok InvalidGenesisIndex
  | 21%Z => Ok DuplicateAccountRegistrationID
  | 22%Z => Ok CredentialDeploymentInvalidSignatures
  | 23%Z => Ok CredentialDeploymentInvalidIP
  | 24%Z => Ok CredentialDeploymentInvalidAR
  | 25%Z => Ok CredentialDeploymentExpired
  | 26%Z => Ok ChainUpdateInvalidEffectiveTime
  | 27%Z => Ok ChainUpdateSequenceNumberTooOld
  | 28%Z => Ok ChainUpdateInvalidSignatures
  | 29%Z => Ok MaxBlockEnergyExceeded
  | 30%Z => Ok InsufficientFunds
  | _ => Err (Other "Unsupported FFI return code")
  end.

Definition is_successful (r : ConsensusFfiResponse) : bool :=
  match r with
  | Success | PendingBlock | PendingFinalization | Asynchronous => true
  | _ => false
  end.

Definition is_pending (r : ConsensusFfiResponse) : bool :=
  match r with
  | PendingBlock | PendingFinalization | InvalidGenesisIndex => true
  | _ => false
  end.

Definition is_acceptable (r : ConsensusFfiResponse) : bool :=
  match r with
  | BakerNotFound | DeserializationError | InvalidResult | Unverifiable | BlockTooEarly
  | ExpiryTooLate | VerificationFailed | NonexistingSenderAccount | DuplicateNonce
  | NonceTooLarge | TooLowEnergy | ConsensusShutDown | InvalidGenesisIndex
  | InsufficientFunds => false
  | _ => true
  end.

Definition is_rebroadcastable (r : ConsensusFfiResponse) (packet_type : PacketType) : bool :=
  match r with
  | PendingBlock => bool_decide (packet_type ≠ Block)
  | Success | PendingFinalization | Asynchronous => true
  | _ => false
  end.

(** *** Committee and query answers *)

Inductive BakingCommitteeResponse :=
  | ActiveInBakingCommittee
  | NotInBakingCommittee
  | AddedButNotActiveInBakingCommittee
  | AddedButWrongKeys.

Definition BakingCommitteeResponse_try_from (value : u8) : outcome BakingCommitteeResponse :=
  match value with
  | 0%Z => Ok ActiveInBakingCommittee
  | 1%Z => Ok NotInBakingCommittee
  | 2%Z => Ok AddedButNotActiveInBakingCommittee
  | 3%Z => Ok AddedButWrongKeys
  | _ => Err (Other "Unsupported FFI return code for committee status")
  end.

Inductive FinalizationCommitteeResponse :=
  | NotInFinalizationCommittee
  | AddedButNotActiveInFinalizationCommittee
  | ActiveInFinalizationCommittee.

Definition FinalizationCommitteeResponse_try_from (value : u8) :
    outcome FinalizationCommitteeResponse :=
  match value with
  | 0%Z => Ok NotInFinalizationCommittee
  | 1%Z => Ok AddedButNotActiveInFinalizationCommittee
  | 2%Z => Ok ActiveInFinalizationCommittee
  | _ => Err (Other "Unsupported FFI return code for committee status")
  end.

Inductive ConsensusQueryResponse :=
  | QueryInvalidArgument
  | QueryInternalError
  | QueryOk
  | QueryNotFound.

Definition ConsensusQueryResponse_try_from (value : i64) : outcome ConsensusQueryResponse :=
  match value with
  | (-2)%Z => Ok QueryInvalidArgument
  | (-1)%Z => Ok QueryInternalError
  | 0%Z => Ok QueryOk
  | 1%Z => Ok QueryNotFound
  | _ => Err (Other "Unsupported query response return code")
  end.

Definition ConsensusQueryResponse_ensure_ok (r : ConsensusQueryResponse) : Reply unit :=
  match r with
  | QueryInvalidArgument => Status InvalidArgument
  | QueryInternalError => Status Internal
  | QueryOk => Value tt
  | QueryNotFound => Status NotFound
  end.

(** ** Consensus messages *)

Inductive PeerStatus := CatchingUp | Pending | UpToDate.

#[global] Instance PeerStatus_eq_dec : EqDecision PeerStatus.
Proof. solve_decision. Defined.

Inductive DistributionMode := DistDirect | DistBroadcast.

#[global] Instance DistributionMode_eq_dec : EqDecision DistributionMode.
Proof. solve_decision. Defined.

Inductive MessageType :=
  | Inbound (source : RemotePeerId) (mode : DistributionMode)
  | Outbound (target : option RemotePeerId).

Record ConsensusMessage := MkConsensusMessage {
  direction : MessageType;
  variant : PacketType;
  payload : bytes;
  dont_relay_to : list RemotePeerId;
  omit_status : option PeerStatus;
}.

Definition distribution_mode (m : ConsensusMessage) : DistributionMode :=
  match direction m with
  | Inbound _ mode => mode
  | Outbound (Some _) => DistDirect
  | Outbound None => DistBroadcast
  end.

Definition target_peer (m : ConsensusMessage) : outcome (option RemotePeerId) :=
  match direction m with
  | Outbound target => Ok target
  | Inbound _ _ => Panic "An Inbound ConsensusMessage doesn't have a target peer!"
  end.

Definition source_peer (m : ConsensusMessage) : outcome RemotePeerId :=
  match direction m with
  | Inbound source _ => Ok source
  | Outbound _ => Panic "An Outbound ConsensusMessage doesn't have a source peer!"
  end.

(** ** Properties *)

(** The response codes of the consensus library and the Rust enumeration are
    in one-to-one correspondence: every response is recovered from its code, and
    a code is understood exactly when it lies between -1 and 30. *)
Theorem ffi_response_codes (r : ConsensusFfiResponse) (code : i64) :
  ConsensusFfiResponse_try_from (ConsensusFfiResponse_code r) = Ok r ∧
  (ConsensusFfiResponse_try_from code = Ok r ↔ code = ConsensusFfiResponse_code r) ∧
  (is_ok (ConsensusFfiResponse_try_from code) = true ↔ (-1 ≤ code ≤ 30)%Z).
Proof.
  assert (∀ r, ConsensusFfiResponse_try_from (ConsensusFfiResponse_code r) = Ok r) as Hr
    by (by intros []).
  assert ((-1 ≤ code ≤ 30)%Z ∨ ConsensusFfiResponse_try_from code
          = Err (Other "Unsupported FFI return code") ∧ ¬ (-1 ≤ code ≤ 30)%Z) as Hcode.
  { destruct (decide (-1 ≤ code ≤ 30)%Z) as [|Hn]; [by left|right]. split; [|done].
    destruct code as [|p|p]; [lia| |]; repeat (destruct p as [p|p|]; try lia; try done). }
  assert ((-1 ≤ code ≤ 30)%Z → ∃ r', code = ConsensusFfiResponse_code r') as Hin.
  { intros Hc. assert (code ∈ ((λ n, Z.of_nat n - 1)%Z <$> seq 0 32)) as Hm.
    { apply list_elem_of_fmap. exists (Z.to_nat (code + 1)). rewrite elem_of_seq. lia. }
    cbn in Hm. rewrite !elem_of_cons, elem_of_nil in Hm.
    repeat (destruct Hm as [->|Hm]; [first
      [by exists BakerNotFound|by exists Success|by exists DeserializationError
      |by exists InvalidResult|by exists PendingBlock|by exists PendingFinalization
      |by exists Asynchronous|by exists DuplicateEntry|by exists Stale
      |by exists IncorrectFinalizationSession|by exists Unverifiable|by exists ContinueCatchUp
      |by exists BlockTooEarly|by exists MissingImportFile|by exists ConsensusShutDown
      |by exists ExpiryTooLate|by exists VerificationFailed|by exists NonexistingSenderAccount
      |by exists DuplicateNonce|by exists NonceTooLarge|by exists TooLowEnergy
      |by exists InvalidGenesisIndex|by exists DuplicateAccountRegistrationID
      |by exists CredentialDeploymentInvalidSignatures|by exists CredentialDeploymentInvalidIP
      |by exists CredentialDeploymentInvalidAR|by exists CredentialDeploymentExpired
      |by exists ChainUpdateInvalidEffectiveTime|by exists ChainUpdateSequenceNumberTooOld
      |by exists ChainUpdateInvalidSignatures|by exists MaxBlockEnergyExceeded
      |by exists InsufficientFunds]|]). done. }
  split_and!; [done| |].
  - split; [|by intros ->]. intros Hc. destruct Hcode as [Hb|[Hc' _]]; [|congruence].
    destruct (Hin Hb) as [r' ->]. rewrite Hr in Hc. by simplify_eq.
  - split; intros Hc; [destruct Hcode as [|[Hc' _]]; [done|by rewrite Hc' in Hc]|].
    destruct (Hin Hc) as [r' ->]. by rewrite Hr.
Qed.

(** What the node relays it has accepted: a response that allows a packet to
    be rebroadcast is a successful and acceptable one, and catch-up status
    messages are the only packets that are never relayed. *)
Theorem rebroadcast_only_accepted (r : ConsensusFfiResponse) (t : PacketType) :
  (is_rebroadcastable r t = true → is_successful r = true ∧ is_acceptable r = true) ∧
  (is_successful r = true → is_rebroadcastable r t = false → r = PendingBlock ∧ t = Block) ∧
  (PacketType_is_rebroadcastable t = false ↔ t = CatchUpStatus).
Proof. by destruct r, t; split_and!; vm_compute. Qed.
