(* ===== verification/CatchUp.v ===== *)
(** * Catch-up with peers

    Models [concordium-node/src/consensus_ffi/catch_up.rs] (the list of peers
    with their status and the queue of pending peers) and the changes the
    consensus plugin ([plugins/consensus.rs]) makes to it: [update_peer_list],
    [try_catch_up] and the status updates of [update_peer_states]. *)
From S2P Require Import Prelude.
From S2P Require Import PeerTypes.
From S2P Require Import FfiHelpers.

Record PeerList := MkPeerList {
  peer_states : gmap RemotePeerId PeerStatus;
  catch_up_stamp : u64;
  catch_up_peer : option RemotePeerId;
  pending_queue : list RemotePeerId;
}.

Definition PeerList_default : PeerList := MkPeerList ∅ 0 None [].

(** The loop of [next_pending] over the queue: the peer found, the states and
    the rest of the queue. *)
Fixpoint next_pending_loop (states : gmap RemotePeerId PeerStatus) (queue : list RemotePeerId) :
    option RemotePeerId * gmap RemotePeerId PeerStatus * list RemotePeerId :=
  match queue with
  | [] => (None, states, [])
  | peer :: queue =>
    if decide (states !! peer = Some Pending)
    then (Some peer, <[peer:=CatchingUp]> states, queue)
    else next_pending_loop states queue
  end.

(** [PeerList::next_pending] *)
Definition next_pending (l : PeerList) : option RemotePeerId * PeerList :=
  let '(next, states, queue) := next_pending_loop (peer_states l) (pending_queue l) in
  (next, MkPeerList states (catch_up_stamp l) next queue).

(** [PeerList::mark_all_pending] *)
Definition mark_all_pending `{!MapIter RemotePeerId PeerStatus} (l : PeerList) : PeerList :=
  foldl (λ l '(peer_id, status),
    if decide (status = UpToDate)
    then MkPeerList (<[peer_id:=Pending]> (peer_states l)) (catch_up_stamp l) (catch_up_peer l)
           (pending_queue l ++ [peer_id])
    else l) l (map_iter (peer_states l)).

(** [PeerList::clear] *)
Definition clear (l : PeerList) : PeerList := MkPeerList ∅ (catch_up_stamp l) None [].

(** The loop of [update_peer_list] that includes newly added peers. *)
Definition include_peers (peer_ids : list RemotePeerId) (l : PeerList) : PeerList :=
  foldl (λ l id,
    match peer_states l !! id with
    | None => MkPeerList (<[id:=Pending]> (peer_states l)) (catch_up_stamp l) (catch_up_peer l)
                (pending_queue l ++ [id])
    | Some _ => l
    end) l peer_ids.

(** [update_peer_list] on the tokens of the current node peers. *)
Definition update_peer_list (peer_ids : list RemotePeerId) (l : PeerList) : outcome PeerList :=
  let states := filter (λ '(id, _), id ∈ peer_ids) (peer_states l) in
  let queue := filter (λ id, id ∈ peer_ids) (pending_queue l) in
  let in_progress :=
    match catch_up_peer l with
    | Some p => if decide (is_Some (states !! p)) then Some p else None
    | None => None
    end in
  new_peers ← usize_sub (length peer_ids) (size states);
  Ok (include_peers peer_ids (MkPeerList states (catch_up_stamp l) in_progress queue)).

(** [try_catch_up] at time [now]; [send] gives the number of packets that went
    out when a catch-up status message is sent to a peer. *)
Definition try_catch_up (now : u64) (send : RemotePeerId → nat) (l : PeerList) :
    option RemotePeerId * PeerList :=
  match next_pending l with
  | (None, l) => (None, l)
  | (Some id, l) =>
    let l := MkPeerList (peer_states l) now (catch_up_peer l) (pending_queue l) in
    if decide (0 < send id) then (Some id, l)
    else (Some id, MkPeerList (delete id (peer_states l)) now None (pending_queue l))
  end.

(** Forget the peer we were catching up with, its connection being gone. *)
Definition drop_catch_up_peer (peer_id : RemotePeerId) (l : PeerList) : PeerList :=
  MkPeerList (delete peer_id (peer_states l)) (catch_up_stamp l) None (pending_queue l).

(** Make a peer that was up to date pending. *)
Definition mark_pending (peer : RemotePeerId) (l : PeerList) : PeerList :=
  if decide (peer_states l !! peer = Some UpToDate)
  then MkPeerList (<[peer:=Pending]> (peer_states l)) (catch_up_stamp l) (catch_up_peer l)
         (pending_queue l ++ [peer])
  else l.

Definition release (peer : RemotePeerId) (catch_up : option RemotePeerId) : option RemotePeerId :=
  if decide (catch_up = Some peer) then None else catch_up.

(** The effect of [update_peer_states] on the list of peers. *)
Definition update_status (source : RemotePeerId) (variant : PacketType) (mode : DistributionMode)
    (result : ConsensusFfiResponse) (l : PeerList) : PeerList :=
  match variant with
  | CatchUpStatus =>
    match result with
    | Success =>
      MkPeerList (<[source:=UpToDate]> (peer_states l)) (catch_up_stamp l)
        (release source (catch_up_peer l)) (pending_queue l)
    | PendingBlock | PendingFinalization =>
      MkPeerList (<[source:=Pending]> (peer_states l)) (catch_up_stamp l)
        (release source (catch_up_peer l))
        (if decide (peer_states l !! source = Some Pending) then pending_queue l
         else pending_queue l ++ [source])
    | ContinueCatchUp => mark_pending source l
    | _ => l
    end
  | Block | FinalizationRecord =>
    match mode with
    | DistBroadcast => if is_pending result then mark_pending source l else l
    | DistDirect => l
    end
  | _ => l
  end.

(** ** Histories of the list *)

Section catch_up.
Context `{!MapIter RemotePeerId PeerStatus}.
Implicit Types l : PeerList.

(** What happens to the list: the threads of the node take its lock for each of
    these steps, in any order.  Only the thread that runs [check_peer_states]
    looks for the next peer.  It does so when it saw no catch-up in progress, or
    when the connection of the peer [p] it saw in progress is gone; by the time
    it takes the write lock the answer of [p] may have been processed, so that
    [p] is no longer in progress. *)
Inductive peer_step : PeerList → PeerList → Prop :=
  | step_update l l' ids : update_peer_list ids l = Ok l' → peer_step l l'
  | step_regenesis l : peer_step l (mark_all_pending l)
  | step_catch_up l now send :
      catch_up_peer l = None → peer_step l (try_catch_up now send l).2
  | step_lost l p now send :
      catch_up_peer l = Some p ∨ catch_up_peer l = None →
      peer_step l (try_catch_up now send (drop_catch_up_peer p l)).2
  | step_status l source variant mode result :
      peer_step l (update_status source variant mode result l)
  | step_clear l : peer_step l (clear l).

(** Every pending peer waits in the queue, and the peer being caught up with is
    exactly the one whose status says so. *)
Record peers_ok l : Prop := {
  pending_queued p : peer_states l !! p = Some Pending → p ∈ pending_queue l;
  catching_up_iff p : peer_states l !! p = Some CatchingUp ↔ catch_up_peer l = Some p;
}.

Lemma peers_ok_default : peers_ok PeerList_default.
Proof. split; simpl; intros p; rewrite lookup_empty; naive_solver. Qed.

Lemma next_pending_loop_spec states queue :
  match next_pending_loop states queue with
  | (Some p, states', queue') =>
    states !! p = Some Pending ∧ states' = <[p:=CatchingUp]> states ∧
    ∃ skipped, queue = skipped ++ p :: queue' ∧ Forall (λ q, states !! q ≠ Some Pending) skipped
  | (None, states', queue') =>
    states' = states ∧ queue' = [] ∧ Forall (λ q, states !! q ≠ Some Pending) queue
  end.
Proof.
  induction queue as [|q queue IH]; simpl; [done|]. case_decide as Hq.
  - split_and!; [done..|]. by exists [].
  - destruct (next_pending_loop states queue) as [[[p|] states'] queue'].
    + destruct IH as (Hp & -> & skipped & -> & Hs). split_and!; [done..|].
      exists (q :: skipped). split; [done|by constructor].
    + destruct IH as (-> & -> & Hs). split_and!; [done..|by constructor].
Qed.

Lemma next_pending_ok l :
  peers_ok l → catch_up_peer l = None → peers_ok (next_pending l).2.
Proof.
  intros [Hpq Hcu] Hnone. unfold next_pending.
  pose proof (next_pending_loop_spec (peer_states l) (pending_queue l)) as Hl.
  assert (∀ q, peer_states l !! q ≠ Some CatchingUp) as Hno by (intros q Hq%Hcu; congruence).
  destruct (next_pending_loop _ _) as [[[p|] states] queue]; simpl.
  - destruct Hl as (Hp & -> & skipped & Hqueue & Hs). split; simpl.
    + intros q. rewrite lookup_insert_Some. intros [[_ ?]|[Hne Hq]]; [done|].
      pose proof (Hpq q Hq) as Hin. rewrite Hqueue, elem_of_app, elem_of_cons in Hin.
      destruct Hin as [Hin|[->|?]]; [|done|done].
      rewrite Forall_forall in Hs. by destruct (Hs q Hin).
    + intros q. rewrite lookup_insert_Some. naive_solver.
  - destruct Hl as (-> & -> & Hs). rewrite Forall_forall in Hs. split; simpl.
    + intros q Hq. by destruct (Hs q (Hpq q Hq)).
    + intros q. split; [by intros ?%Hno|done].
Qed.

Lemma delete_catching_up l p stamp queue :
  peers_ok l → catch_up_peer l = Some p ∨ catch_up_peer l = None →
  queue = pending_queue l →
  peers_ok (MkPeerList (delete p (peer_states l)) stamp None queue).
Proof.
  intros [Hpq Hcu] Hcase ->. split; simpl; intros q; rewrite lookup_delete_Some.
  - intros [_ ?]. auto.
  - split; [|done]. intros [Hne Hq%Hcu]. naive_solver.
Qed.

Lemma try_catch_up_ok now send l :
  peers_ok l → catch_up_peer l = None → peers_ok (try_catch_up now send l).2.
Proof.
  intros Hok Hnone. pose proof (next_pending_ok l Hok Hnone) as Hnext.
  assert (∀ id l', next_pending l = (Some id, l') → catch_up_peer l' = Some id) as Hcp.
  { unfold next_pending. destruct (next_pending_loop _ _) as [[]]. naive_solver. }
  unfold try_catch_up. destruct (next_pending l) as [[id|] l']; simpl in *; [|done].
  case_decide; simpl.
  - by destruct Hnext; split.
  - apply (delete_catching_up l'); naive_solver.
Qed.

Lemma mark_pending_ok p l : peers_ok l → peers_ok (mark_pending p l).
Proof.
  intros [Hpq Hcu]. unfold mark_pending. case_decide as Hp; [|by split]. split; simpl; intros q.
  - rewrite lookup_insert_Some, elem_of_app. set_solver.
  - rewrite lookup_insert_Some, <-Hcu. naive_solver.
Qed.

Lemma mark_all_pending_ok l : peers_ok l → peers_ok (mark_all_pending l).
Proof.
  unfold mark_all_pending. intros Hok.
  assert (∀ kvs acc, peers_ok acc →
    NoDup kvs.*1 → (∀ k v, (k, v) ∈ kvs → peer_states acc !! k = Some v) →
    peers_ok (foldl (λ l '(peer_id, status),
      if decide (status = UpToDate)
      then MkPeerList (<[peer_id:=Pending]> (peer_states l)) (catch_up_stamp l) (catch_up_peer l)
             (pending_queue l ++ [peer_id])
      else l) acc kvs)) as H.
  { induction kvs as [|[k v] kvs IH]; intros acc Hacc Hnd Hkvs; simpl; [done|].
    inversion Hnd as [|? ? Hk Hnd']; subst.
    assert (peer_states acc !! k = Some v) as Hkv by (apply Hkvs; set_solver).
    apply IH; [|done|].
    - case_decide as Hv; [|done]. subst v.
      pose proof (mark_pending_ok k acc Hacc) as Hm. unfold mark_pending in Hm.
      by rewrite decide_True in Hm.
    - intros k' v' Hin. assert (k' ≠ k).
      { intros ->. apply Hk. apply list_elem_of_fmap. by exists (k, v'). }
      case_decide; simpl; [rewrite lookup_insert_ne by done|]; apply Hkvs; set_solver. }
  apply H; [done|apply NoDup_map_keys|]. intros k v. apply elem_of_map_iter.
Qed.

Lemma include_peers_ok ids l : peers_ok l → peers_ok (include_peers ids l).
Proof.
  unfold include_peers. revert l. induction ids as [|id ids IH]; intros l Hok; simpl; [done|].
  apply IH. destruct (peer_states l !! id) eqn:Hid; [done|]. destruct Hok as [Hpq Hcu].
  split; simpl; intros q.
  - rewrite lookup_insert_Some, elem_of_app. set_solver.
  - rewrite lookup_insert_Some, <-Hcu. naive_solver.
Qed.

Lemma update_peer_list_ok ids l l' :
  peers_ok l → update_peer_list ids l = Ok l' → peers_ok l'.
Proof.
  intros [Hpq Hcu]. unfold update_peer_list. rewrite outcome_bind_ok. intros (n & _ & Hl').
  simplify_eq. apply include_peers_ok. split; simpl; intros q.
  - rewrite map_lookup_filter_Some, list_elem_of_filter. naive_solver.
  - rewrite map_lookup_filter_Some. split.
    + intros [Hq%Hcu Hin]. rewrite Hq, decide_True; [done|].
      rewrite map_lookup_filter. apply Hcu in Hq. rewrite Hq. simpl. by rewrite option_guard_True.
    + destruct (catch_up_peer l) as [p|] eqn:Hp; [|done]. case_decide as Hsome; [|done].
      intros [= ->]. destruct Hsome as [s [Hs Hin]%map_lookup_filter_Some].
      split; [by apply Hcu|done].
Qed.

Lemma update_status_ok source variant mode result l :
  peers_ok l → peers_ok (update_status source variant mode result l).
Proof.
  intros Hok. pose proof (mark_pending_ok source l Hok) as Hm. destruct Hok as [Hpq Hcu].
  unfold update_status. destruct variant, mode; try (by split); try (by destruct (is_pending result));
    destruct result; try (by split); try done; unfold release; split; simpl; intros q.
  all: rewrite lookup_insert_Some; repeat case_decide; rewrite ?elem_of_app, <-?Hcu; set_solver || naive_solver.
Qed.

Lemma peer_step_ok l l' : peer_step l l' → peers_ok l → peers_ok l'.
Proof.
  destruct 1 as [l l' ids Hu|l|l now send Hnone|l p now send Hp|l s v m r|l]; intros Hok.
  - by eapply update_peer_list_ok.
  - by apply mark_all_pending_ok.
  - by apply try_catch_up_ok.
  - apply try_catch_up_ok; [|done]. by apply (delete_catching_up l).
  - by apply update_status_ok.
  - split; simpl; intros q; rewrite lookup_empty; naive_solver.
Qed.

Lemma reachable_ok l : rtc peer_step PeerList_default l → peers_ok l.
Proof.
  assert (∀ l0, rtc peer_step l0 l → peers_ok l0 → peers_ok l) as H.
  { induction 1; eauto using peer_step_ok. }
  intros Hr. apply (H _ Hr), peers_ok_default.
Qed.

(** C20: in every state the list of peers can reach, through any interleaving of
    changes of the peers, messages, regenesis and catch-up attempts: every
    pending peer waits in the queue, at most one peer is being caught up with,
    and it is the one recorded as the catch-up peer.  No peer is stuck in the
    catching-up state when no catch-up is in progress. *)
Theorem catch_up_invariant l p :
  rtc peer_step PeerList_default l →
  (peer_states l !! p = Some Pending → p ∈ pending_queue l) ∧
  (peer_states l !! p = Some CatchingUp ↔ catch_up_peer l = Some p).
Proof. intros [Hpq Hcu]%reachable_ok. auto. Qed.

(** Catch-up makes progress: in a reachable state without a catch-up in
    progress, [next_pending] finds a peer exactly when some peer is pending; the
    peer it returns was pending and is the catch-up peer from then on, and the
    status of no other peer changes. *)
Theorem next_pending_finds l :
  rtc peer_step PeerList_default l →
  let '(next, l') := next_pending l in
  (next = None ↔ ∀ p, peer_states l !! p ≠ Some Pending) ∧
  ∀ p, next = Some p →
    peer_states l !! p = Some Pending ∧ catch_up_peer l' = Some p ∧
    peer_states l' = <[p:=CatchingUp]> (peer_states l) ∧
    length (pending_queue l') < length (pending_queue l).
Proof.
  intros [Hpq _]%reachable_ok. unfold next_pending.
  pose proof (next_pending_loop_spec (peer_states l) (pending_queue l)) as Hl.
  destruct (next_pending_loop _ _) as [[[p|] states] queue]; simpl.
  - destruct Hl as (Hp & -> & skipped & Hq & _). split; [naive_solver|].
    intros ? [= <-]. split_and!; [done..|]. rewrite Hq, length_app. simpl. lia.
  - destruct Hl as (-> & -> & Hs). rewrite Forall_forall in Hs. split; [|done].
    split; [|done]. intros _ p Hp. by apply (Hs p), Hp; apply Hpq.
Qed.

Lemma include_peers_lookup ids l p :
  peer_states (include_peers ids l) !! p
  = if decide (p ∈ ids) then Some (default Pending (peer_states l !! p)) else peer_states l !! p.
Proof.
  unfold include_peers. revert l. induction ids as [|id ids IH]; intros l; simpl.
  { done. }
  rewrite IH. destruct (decide (p = id)) as [->|Hne].
  - destruct (decide (id ∈ id :: ids)) as [_|Hn]; [|set_solver].
    destruct (peer_states l !! id) eqn:Hid; simpl; [|rewrite lookup_insert_eq]; rewrite ?Hid;
      by case_decide.
  - destruct (peer_states l !! id) eqn:Hid; simpl; rewrite ?lookup_insert_ne by done;
      repeat case_decide; set_solver.
Qed.

Lemma include_peers_catch_up ids l : catch_up_peer (include_peers ids l) = catch_up_peer l.
Proof.
  unfold include_peers. revert l. induction ids as [|id ids IH]; intros l; simpl; [done|].
  rewrite IH. by destruct (peer_states l !! id).
Qed.

(** [update_peer_list] makes the list follow the connections: it never
    underflows when it computes the number of new peers, afterwards exactly the
    given peers have a status, those that stay keep theirs and new ones are
    pending, and a catch-up with a peer that is gone is abandoned. *)
Theorem update_peer_list_follows ids l :
  ∃ l', update_peer_list ids l = Ok l' ∧
    dom (peer_states l') = list_to_set ids ∧
    (∀ p, p ∈ ids → peer_states l' !! p = Some (default Pending (peer_states l !! p))) ∧
    (∀ p, catch_up_peer l' = Some p → p ∈ ids).
Proof.
  unfold update_peer_list. set (states := filter _ (peer_states l)).
  assert (dom states ⊆ list_to_set ids) as Hdom.
  { intros p [s [_ Hp]%map_lookup_filter_Some]%elem_of_dom. set_solver. }
  rewrite usize_sub_ok.
  2:{ rewrite <-size_dom. etrans; [by apply subseteq_size|]. apply size_list_to_set_le. }
  assert (∀ p, p ∈ ids → states !! p = peer_states l !! p) as Hkeep.
  { intros p Hp. apply option_eq. intros s. unfold states. rewrite map_lookup_filter_Some. naive_solver. }
  assert (∀ p, p ∉ ids → states !! p = None) as Hgone.
  { intros p Hp. apply not_elem_of_dom. set_solver. }
  eexists. split; [done|]. split_and!.
  - apply set_eq. intros p. rewrite elem_of_list_to_set, elem_of_dom, include_peers_lookup. simpl.
    case_decide as Hp; [|rewrite Hgone by done]; split; try done.
  - intros p Hp. rewrite include_peers_lookup, decide_True by done. simpl. by rewrite Hkeep.
  - intros p. rewrite include_peers_catch_up. simpl. destruct (catch_up_peer l) as [q|]; [|done].
    case_decide as Hq; [|done]. intros [= ->]. destruct (decide (p ∈ ids)); [done|].
    rewrite Hgone in Hq by done. by destruct Hq.
Qed.
End catch_up.

(** *** Witnesses: two peers, one of them caught up with *)

Module CatchUpExample.
#[local] Instance iter : MapIter RemotePeerId PeerStatus := canonical_map_iter _ _.

Definition p1 : RemotePeerId := MkRemotePeerId 1.
Definition p2 : RemotePeerId := MkRemotePeerId 2.

Definition joined : PeerList :=
  match update_peer_list [p1; p2] PeerList_default with Ok l => l | _ => PeerList_default end.
Definition busy : PeerList := (try_catch_up 7 (λ _, 1) joined).2.

Lemma joined_reachable : rtc peer_step PeerList_default joined.
Proof. apply rtc_once. by apply (step_update _ _ [p1; p2]). Defined.

Lemma busy_reachable : rtc peer_step PeerList_default busy.
Proof. eapply rtc_r; [apply joined_reachable|]. by apply step_catch_up. Defined.

Lemma catch_up_invariant_witness :
  (peer_states busy !! p2 = Some Pending ∧ p2 ∈ pending_queue busy) ∧
  (peer_states busy !! p1 = Some CatchingUp ∧ catch_up_peer busy = Some p1).
Proof.
  destruct (catch_up_invariant busy p2 busy_reachable) as [H2 _].
  destruct (catch_up_invariant busy p1 busy_reachable) as [_ H1].
  split; split; [reflexivity|by apply H2|reflexivity|by apply H1].
Defined.

Lemma next_pending_finds_witness :
  let '(next, l') := next_pending joined in
  (next = None ↔ ∀ p, peer_states joined !! p ≠ Some Pending) ∧
  ∀ p, next = Some p →
    peer_states joined !! p = Some Pending ∧ catch_up_peer l' = Some p ∧
    peer_states l' = <[p:=CatchingUp]> (peer_states joined) ∧
    length (pending_queue l') < length (pending_queue joined).
Proof. apply (next_pending_finds joined joined_reachable). Defined.
End CatchUpExample.
