(* ===== verification/Buckets.v ===== *)
(** * Buckets of known nodes

    Models [concordium-node/src/network/buckets.rs].  A bootstrapper answers a
    new peer with a random selection of the nodes in its buckets.  A bucket is
    a [HashSet] of nodes whose equality and hash only look at the local id of
    the peer, so it is modelled as a map keyed by the local id. *)
From S2P Require Import Prelude.
From S2P Require Import PeerTypes.
From S2P Require Import NetTypes.

Definition BUCKET_COUNT : nat := 1.

(** The [Node] struct of the source. *)
Record BucketNode := MkBucketNode {
  bn_peer : RemotePeer;
  bn_networks : Networks;
  bn_last_seen : u64;
}.

Abbreviation Bucket := (gmap RemotePeerId BucketNode) (only parsing).

Record Buckets := MkBuckets { buckets : list Bucket }.

Definition Buckets_default : Buckets := MkBuckets (replicate BUCKET_COUNT ∅).

(** [HashSet::insert] keeps an element that is already there;
    [HashSet::replace] does not. *)
Definition set_insert (n : BucketNode) (b : Bucket) : Bucket :=
  match b !! local_id (bn_peer n) with
  | Some _ => b
  | None => <[local_id (bn_peer n) := n]> b
  end.
Definition set_replace (n : BucketNode) (b : Bucket) : Bucket := <[local_id (bn_peer n) := n]> b.

(** [&mut self.buckets[0]] followed by an update of the bucket. *)
Definition at_bucket_0 (f : Bucket → Bucket) : ST Buckets unit := λ bs,
  match buckets bs with
  | b :: rest => (Ok tt, MkBuckets (f b :: rest))
  | [] => (Panic "index out of bounds", bs)
  end.

Definition insert_into_bucket (now : u64) (peer : RemotePeer) (networks : Networks) :
    ST Buckets unit :=
  at_bucket_0 (set_insert (MkBucketNode peer networks now)).

Definition update_network_ids (now : u64) (peer : RemotePeer) (networks : Networks) :
    ST Buckets unit :=
  at_bucket_0 (set_replace (MkBucketNode peer networks now)).

(** [clean_buckets]: the subtraction wraps around in a release build. *)
Definition clean_buckets (now timeout_bucket_entry_period : u64) : ST Buckets unit :=
  let clean_before := u64_sub now timeout_bucket_entry_period in
  at_bucket_0 (filter (λ '(_, entry), (clean_before ≤ bn_last_seen entry)%Z)).

(** The filter of [get_all_nodes]. *)
Definition filter_criteria (sender : option RemotePeerId) (networks : Networks) (n : BucketNode) :
    bool :=
  bool_decide (peer_type (bn_peer n) = Node)
  && bool_decide (Some (local_id (bn_peer n)) ≠ sender)
  && (bool_decide (networks = ∅) || negb (bool_decide (bn_networks n ## networks))).

Section queries.
Context `{!MapIter RemotePeerId BucketNode}.

Definition get_all_nodes (sender : option RemotePeerId) (networks : Networks) (bs : Buckets) :
    list RemotePeer :=
  flat_map (λ b, bn_peer <$> filter (λ n, filter_criteria sender networks n) (map_values b))
    (buckets bs).

(** The number of networks over all nodes. *)
Definition buckets_len (bs : Buckets) : nat :=
  sum_list ((λ n, size (bn_networks n)) <$> flat_map map_values (buckets bs)).

Definition buckets_is_empty (bs : Buckets) : bool := bool_decide (buckets_len bs = 0).

Definition get_random_nodes `{!Rng} (sender : RemotePeerId) (number : nat) (networks : Networks)
    (bs : Buckets) : list RemotePeer :=
  choose_multiple (get_all_nodes (Some sender) networks bs) number.
End queries.

(** ** The invariant

    There is one bucket, and a node is stored under the local id of its peer. *)

Definition bucket_ok (b : Bucket) : Prop := map_Forall (λ id n, local_id (bn_peer n) = id) b.

Definition buckets_ok (bs : Buckets) : Prop := ∃ b, buckets bs = [b] ∧ bucket_ok b.

Lemma buckets_default_ok : buckets_ok Buckets_default.
Proof. exists ∅. split; [done|]. apply map_Forall_empty. Qed.

Lemma at_bucket_0_ok f bs :
  (∀ b, bucket_ok b → bucket_ok (f b)) → buckets_ok bs →
  wp (at_bucket_0 f) (λ _ bs', buckets_ok bs') (λ _ _, False) bs.
Proof.
  intros Hf (b & Hb & Hok). unfold wp, at_bucket_0. rewrite Hb. exists (f b). auto.
Qed.

Lemma set_insert_ok n b : bucket_ok b → bucket_ok (set_insert n b).
Proof. unfold set_insert. case_match; [done|]. by apply map_Forall_insert_2. Qed.

Lemma set_replace_ok n b : bucket_ok b → bucket_ok (set_replace n b).
Proof. by apply map_Forall_insert_2. Qed.

Lemma clean_ok t b :
  bucket_ok b → bucket_ok (filter (λ '(_, entry), (t ≤ bn_last_seen entry)%Z) b).
Proof. intros Hok id n [Hn _]%map_lookup_filter_Some. by apply Hok. Qed.

#[export] Hint Resolve buckets_default_ok at_bucket_0_ok set_insert_ok set_replace_ok clean_ok : node.

(** ** Selection of nodes *)

Section selection.
Context `{!MapIter RemotePeerId BucketNode, !Rng}.

(** What [get_all_nodes] lists, as a predicate on peers. *)
Definition eligible (sender : option RemotePeerId) (networks : Networks) (b : Bucket)
    (p : RemotePeer) : Prop :=
  ∃ n, b !! local_id p = Some n ∧ bn_peer n = p ∧ peer_type p = Node
    ∧ Some (local_id p) ≠ sender ∧ (networks = ∅ ∨ ¬ bn_networks n ## networks).

Lemma filter_criteria_spec sender networks n :
  filter_criteria sender networks n ↔
  peer_type (bn_peer n) = Node ∧ Some (local_id (bn_peer n)) ≠ sender
  ∧ (networks = ∅ ∨ ¬ bn_networks n ## networks).
Proof.
  unfold filter_criteria. rewrite !andb_True, orb_True, negb_True, !bool_decide_spec. tauto.
Qed.

Lemma elem_of_get_all_nodes sender networks bs b p :
  buckets bs = [b] → bucket_ok b →
  p ∈ get_all_nodes sender networks bs ↔ eligible sender networks b p.
Proof.
  intros Hb Hok. unfold get_all_nodes. rewrite Hb. simpl. rewrite app_nil_r, list_elem_of_fmap.
  setoid_rewrite list_elem_of_filter. setoid_rewrite elem_of_map_values.
  setoid_rewrite filter_criteria_spec. unfold eligible. split.
  - intros (n & -> & (? & ? & ?) & id & Hid). exists n.
    pose proof (Hok _ _ Hid) as Heq. simpl in Heq. rewrite Heq in *. auto.
  - intros (n & Hn & <- & ?). exists n. eauto.
Qed.

Lemma NoDup_get_all_nodes sender networks bs :
  buckets_ok bs → NoDup (local_id <$> get_all_nodes sender networks bs).
Proof.
  intros (b & Hb & Hok). unfold get_all_nodes. rewrite Hb. simpl. rewrite app_nil_r.
  rewrite <- list_fmap_compose.
  assert (Hkeys : (local_id ∘ bn_peer) <$> map_values b = map_keys b).
  { unfold map_values, map_keys. rewrite <- list_fmap_compose.
    apply list_fmap_ext. intros i [id n] Hi. apply (Hok id n), elem_of_map_iter.
    by eapply list_elem_of_lookup_2. }
  eapply sublist_NoDup; [apply (NoDup_map_keys b)|]. rewrite <- Hkeys.
  apply fmap_sublist, sublist_filter.
Qed.

(** A peer list from the buckets holds at most the requested number of
    peers, as many as there are when fewer than that are eligible, each of them
    once; every peer in it is a stored node, not the requester, that shares a
    network with the request, unless the request names no network. *)
Theorem get_random_nodes_spec sender number networks bs :
  buckets_ok bs →
  let ps := get_random_nodes sender number networks bs in
  length ps = number `min` length (get_all_nodes (Some sender) networks bs)
  ∧ NoDup (local_id <$> ps)
  ∧ ∃ b, buckets bs = [b] ∧ ∀ p, p ∈ ps → eligible (Some sender) networks b p.
Proof.
  intros Hok ps. split; [apply choose_multiple_length|].
  pose proof (choose_multiple_submseteq (get_all_nodes (Some sender) networks bs) number) as Hsub.
  split.
  - eapply NoDup_submseteq; [apply fmap_submseteq, Hsub|]. by apply NoDup_get_all_nodes.
  - destruct Hok as (b & Hb & Hok). exists b. split; [done|]. intros p Hp.
    rewrite <- (elem_of_get_all_nodes _ _ bs) by done. by eapply elem_of_submseteq.
Qed.

(** After a cleanup at time [now] the bucket holds exactly the nodes seen
    during the last [timeout] milliseconds, as long as the timeout is not
    longer than the time since the epoch. *)
Theorem clean_buckets_spec now timeout bs b :
  buckets bs = [b] → fits 64 now → (0 ≤ timeout ≤ now)%Z →
  ∃ b', clean_buckets now timeout bs = (Ok tt, MkBuckets [b'])
    ∧ ∀ id n, b' !! id = Some n ↔ b !! id = Some n ∧ (now - timeout ≤ bn_last_seen n)%Z.
Proof.
  intros Hb Hnow Htimeout. unfold clean_buckets, at_bucket_0. rewrite Hb, u64_sub_small by done.
  eexists. split; [done|]. intros id n. apply map_lookup_filter_Some.
Qed.
End selection.

(** ** Example: three nodes, one of them on another network *)

Module BucketsExample.
#[local] Instance iter : MapIter RemotePeerId BucketNode := canonical_map_iter _ _.
#[local] Instance rng : Rng := prefix_rng.

Definition peer (id : Z) : RemotePeer :=
  MkRemotePeer (Some (MkP2PNodeId (id + 10)))
    (MkSocketAddr (V4 16909060) 8888) (MkRemotePeerId id) 8888 Node.

Definition known : Buckets :=
  let fill := insert_into_bucket 100 (peer 1) {[MkNetworkId 100]} ;;
    insert_into_bucket 200 (peer 2) {[MkNetworkId 100]} ;;
    insert_into_bucket 300 (peer 3) {[MkNetworkId 200]} in
  (fill Buckets_default).2.

Lemma known_ok : buckets_ok known.
Proof.
  eexists. split; [reflexivity|]. repeat apply set_insert_ok. apply map_Forall_empty.
Qed.

Lemma get_random_nodes_spec_witness :
  get_random_nodes (MkRemotePeerId 1) 5 {[MkNetworkId 100]} known = [peer 2]
  ∧ NoDup (local_id <$> get_random_nodes (MkRemotePeerId 1) 5 {[MkNetworkId 100]} known).
Proof.
  split; [vm_compute; reflexivity|].
  apply (get_random_nodes_spec (MkRemotePeerId 1) 5 {[MkNetworkId 100]} known known_ok).
Defined.

Lemma clean_buckets_spec_witness :
  ∃ b b', buckets known = [b] ∧ clean_buckets 1000 800 known = (Ok tt, MkBuckets [b'])
    ∧ ∀ id n, b' !! id = Some n ↔ b !! id = Some n ∧ (200 ≤ bn_last_seen n)%Z.
Proof.
  eexists. destruct (clean_buckets_spec 1000 800 known _ eq_refl) as (b' & ? & ?);
    [by vm_compute|lia|]. exists b'. split; [reflexivity|]. auto.
Defined.
End BucketsExample.
