(* ===== verification/Float.v ===== *)
(** * Doubles

    The percentages and probabilities of the configuration are IEEE 754 doubles.
    They are modelled with the executable specification of the standard library
    ([SpecFloat]), which is rounding to nearest on integers, without axioms.  The
    lemmas bound rounded products and quotients from below by integers. *)
From Stdlib Require Import ZArith SpecFloat.
From S2P Require Import Prelude.

Module F64.
Abbreviation t := spec_float (only parsing).

Definition prec : Z := 53.
Definition emax : Z := 1024.

Definition of_int (z : Z) : t := binary_normalize prec emax z 0 false.
Definition mul : t → t → t := SFmul prec emax.
Definition div : t → t → t := SFdiv prec emax.

(** Comparisons are false when an argument is not a number. *)
Definition ltb : t → t → bool := SFltb.
Definition leb : t → t → bool := SFleb.

(** [f64::floor] followed by a cast to an integer type with the given upper
    bound.  Casts saturate and send a value that is not a number to 0. *)
Definition floor_as (hi : Z) (x : t) : Z :=
  match x with
  | S754_zero _ | S754_nan => 0
  | S754_infinity s => if s then 0 else hi
  | S754_finite s m e => Z.max 0 (Z.min hi (Z.shiftl (cond_Zopp s (Zpos m)) e))
  end.

(** [f64::ceil] followed by such a cast. *)
Definition ceil_as (hi : Z) (x : t) : Z :=
  match x with
  | S754_zero _ | S754_nan => 0
  | S754_infinity s => if s then 0 else hi
  | S754_finite s m e => Z.max 0 (Z.min hi (- Z.shiftl (- cond_Zopp s (Zpos m)) e))
  end.

Definition u16_max : Z := 65535.
Definition u32_max : Z := 4294967295.
Definition u64_max : Z := 18446744073709551615.

Definition zero : t := S754_zero false.
Definition one : t := of_int 1.
Definition hundred : t := of_int 100.
(** The double nearest to 0.9. *)
Definition nine_tenths : t := S754_finite false 8106479329266893 (-53).
End F64.


(** ** Rounding keeps integer lower bounds *)

(** The double is at least the integer [n]. *)
Definition at_least (n : Z) (x : F64.t) : Prop :=
  match x with
  | S754_finite false m e => (n ≤ Z.shiftl (Zpos m) e)%Z
  | S754_infinity false => True
  | _ => False
  end.

Lemma at_least_floor n hi x : (n ≤ hi)%Z → at_least n x → (n ≤ F64.floor_as hi x)%Z.
Proof. destruct x as [|[]| |[] m e]; simpl; intros; try done. lia. Qed.

Section rounding.
#[local] Open Scope Z_scope.

Lemma digits2_pos_bounds p :
  2 ^ (Zpos (digits2_pos p) - 1) ≤ Zpos p < 2 ^ Zpos (digits2_pos p).
Proof.
  assert (∀ q, Zpos (Pos.succ q) = Zpos q + 1) as Hs by lia.
  induction p as [p IH|p IH|]; simpl digits2_pos; [| |by vm_compute].
  - rewrite Hs, Z.add_simpl_r. rewrite Z.pow_add_r by lia.
    replace (Zpos (digits2_pos p)) with (Zpos (digits2_pos p) - 1 + 1) at 1 by lia.
    rewrite Z.pow_add_r by lia. lia.
  - rewrite Hs, Z.add_simpl_r. rewrite Z.pow_add_r by lia.
    replace (Zpos (digits2_pos p)) with (Zpos (digits2_pos p) - 1 + 1) at 1 by lia.
    rewrite Z.pow_add_r by lia. lia.
Qed.

Lemma iter_pos_spec {A} (f : A → A) p x : SpecFloat.iter_pos f p x = Pos.iter f x p.
Proof.
  revert x. induction p as [p IH|p IH|]; intros x; simpl; [| |done].
  - rewrite !IH. by rewrite <- !Pos.iter_swap.
  - by rewrite !IH.
Qed.

Lemma shr_1_m mrs : 0 ≤ shr_m mrs → shr_m (shr_1 mrs) = Z.shiftr (shr_m mrs) 1.
Proof. destruct mrs as [[|[]|] r s]; simpl; intros; try done; lia. Qed.

Lemma shr_m_iter p mrs : 0 ≤ shr_m mrs → shr_m (SpecFloat.iter_pos shr_1 p mrs) = Z.shiftr (shr_m mrs) (Zpos p).
Proof.
  intros Hm. rewrite iter_pos_spec. induction p as [|p IH] using Pos.peano_ind.
  - by apply shr_1_m.
  - rewrite Pos.iter_succ, shr_1_m; rewrite IH; [|apply Z.shiftr_nonneg; lia].
    rewrite Z.shiftr_shiftr by lia. f_equal. lia.
Qed.

(** The number of binary digits dropped by [shr_fexp]. *)
Definition dropped (m e : Z) : Z := Z.max 0 (fexp F64.prec F64.emax (Zdigits2 m + e) - e).

Lemma shr_fexp_spec m e l :
  0 ≤ m → ∃ mrs, shr_fexp F64.prec F64.emax m e l = (mrs, e + dropped m e)
    ∧ shr_m mrs = Z.shiftr m (dropped m e).
Proof.
  intros Hm. unfold shr_fexp, shr, dropped.
  assert (shr_m (shr_record_of_loc m l) = m) as Hl by (by destruct l as [|[]]).
  destruct (fexp _ _ _ - e) as [|p|p] eqn:Hk.
  - exists (shr_record_of_loc m l). rewrite Z.max_l by lia. rewrite Z.shiftr_0_r, Z.add_0_r. done.
  - exists (SpecFloat.iter_pos shr_1 p (shr_record_of_loc m l)). rewrite Z.max_r by lia.
    rewrite shr_m_iter; rewrite Hl; [done|lia].
  - exists (shr_record_of_loc m l). rewrite Z.max_l by lia. rewrite Z.shiftr_0_r, Z.add_0_r. done.
Qed.

(** Dropping digits does not go below a small integer. *)
Lemma dropped_bound n m e :
  0 < n ≤ 2 ^ 52 → 0 < m → n ≤ Z.shiftl m e →
  n ≤ Z.shiftl (Z.shiftr m (dropped m e)) (e + dropped m e).
Proof.
  intros Hn Hm Hle. set (k := dropped m e). assert (0 ≤ k) by (unfold k, dropped; lia).
  destruct (Z.le_gt_cases (e + k) 0) as [Hneg|Hpos].
  - rewrite <- (Z.opp_involutive (e + k)), Z.shiftl_opp_r, Z.shiftr_shiftr by lia.
    replace (k + - (e + k)) with (- e) by lia. rewrite Z.shiftr_opp_r. done.
  - destruct (Z.eq_dec k 0) as [->|Hk]; [by rewrite Z.shiftr_0_r, Z.add_0_r|].
    assert (k = Zdigits2 m - 53) as Hkd.
    { unfold k, dropped, fexp, emin, F64.prec, F64.emax in *. lia. }
    destruct m as [|p|p]; [lia| |lia]. simpl in Hkd. pose proof (digits2_pos_bounds p) as [Hd _].
    set (d := Zpos (digits2_pos p)) in *.
    assert (2 ^ 52 ≤ Z.shiftr (Zpos p) k) as H52.
    { rewrite Z.shiftr_div_pow2 by lia. apply Z.div_le_lower_bound; [lia|].
      rewrite <- Z.pow_add_r by lia. replace (k + 52) with (d - 1) by lia. done. }
    rewrite Z.shiftl_mul_pow2 by lia. nia.
Qed.

Lemma round_nearest_even_ge m l : m ≤ round_nearest_even m l.
Proof. destruct l as [|[]]; simpl; [lia|destruct (Z.even m); lia|lia|lia]. Qed.

Lemma shiftl_mono a b e : a ≤ b → Z.shiftl a e ≤ Z.shiftl b e.
Proof.
  intros Hab. destruct (Z.le_gt_cases 0 e).
  - rewrite !Z.shiftl_mul_pow2 by lia. nia.
  - rewrite <- (Z.opp_involutive e), !Z.shiftl_opp_r, !Z.shiftr_div_pow2 by lia.
    apply Z.div_le_mono; lia.
Qed.

Lemma shiftl_pos_inv n m e : 0 < n → 0 ≤ m → n ≤ Z.shiftl m e → 0 < m.
Proof. intros Hn Hm Hle. destruct (Z.eq_dec m 0) as [->|]; [rewrite Z.shiftl_0_l in Hle; lia|lia]. Qed.

(** Rounding to nearest of a value that is at least [n]. *)
Lemma binary_round_aux_at_least n m e l :
  0 < n ≤ 2 ^ 52 → 0 < m → n ≤ Z.shiftl m e →
  at_least n (binary_round_aux F64.prec F64.emax false m e l).
Proof.
  intros Hn Hm Hle. unfold binary_round_aux.
  destruct (shr_fexp_spec m e l) as (mrs & -> & Hmrs); [lia|].
  set (e' := e + dropped m e).
  assert (n ≤ Z.shiftl (shr_m mrs) e') as H1 by (rewrite Hmrs; by apply dropped_bound).
  set (m' := round_nearest_even (shr_m mrs) (loc_of_shr_record mrs)).
  assert (shr_m mrs ≤ m') as Hm' by apply round_nearest_even_ge.
  assert (0 ≤ shr_m mrs) as Hm0 by (rewrite Hmrs; apply Z.shiftr_nonneg; lia).
  assert (n ≤ Z.shiftl m' e') as H2 by (etrans; [exact H1|by apply shiftl_mono]).
  assert (0 < m') as Hpos by (eapply shiftl_pos_inv; [|lia|exact H2]; lia).
  destruct (shr_fexp_spec m' e' loc_Exact) as (mrs2 & -> & Hmrs2); [lia|].
  assert (n ≤ Z.shiftl (shr_m mrs2) (e' + dropped m' e')) as H3
    by (rewrite Hmrs2; by apply dropped_bound).
  assert (0 < shr_m mrs2) as Hpos2.
  { eapply shiftl_pos_inv; [|rewrite Hmrs2; apply Z.shiftr_nonneg; lia|exact H3]; lia. }
  destruct (shr_m mrs2) as [|q|q]; [lia| |lia].
  by destruct (_ <=? _).
Qed.

(** ** Integers and quotients *)

Lemma iter_xO p k :
  Zpos (Pos.iter xO p k) = Zpos p * 2 ^ Zpos k ∧
  Zpos (digits2_pos (Pos.iter xO p k)) = Zpos (digits2_pos p) + Zpos k.
Proof.
  induction k as [|k [IH1 IH2]] using Pos.peano_ind; [simpl; lia|].
  rewrite Pos.iter_succ. simpl digits2_pos.
  rewrite Pos2Z.inj_xO, IH1, !Pos2Z.inj_succ, IH2, Z.pow_succ_r by lia. lia.
Qed.

(** A value with 53 digits is not changed by rounding. *)
Lemma binary_round_aux_exact p e :
  Zpos (digits2_pos p) = 53 → - 1074 ≤ e ≤ 0 →
  binary_round_aux F64.prec F64.emax false (Zpos p) e loc_Exact = S754_finite false p e.
Proof.
  intros Hd He.
  assert (fexp F64.prec F64.emax (Zdigits2 (Zpos p) + e) - e = 0) as Hz.
  { unfold fexp, emin, F64.prec, F64.emax. simpl Zdigits2. rewrite Hd. lia. }
  assert (shr_fexp F64.prec F64.emax (Zpos p) e loc_Exact = (Build_shr_record (Zpos p) false false, e))
    as Hs by (unfold shr_fexp; by rewrite Hz).
  unfold binary_round_aux. rewrite Hs. cbn [loc_of_shr_record round_nearest_even shr_m].
  rewrite Hs. cbn [shr_m].
  destruct (Z.leb_spec e (F64.emax - F64.prec)) as [|Hlt]; [done|].
  unfold F64.emax, F64.prec in Hlt. lia.
Qed.

(** Integers up to [2 ^ 53] are doubles. *)
Lemma of_int_exact z :
  0 < z < 2 ^ 53 → ∃ m e, F64.of_int z = S754_finite false m e ∧ - 53 < e ≤ 0
    ∧ Zpos m = z * 2 ^ (- e) ∧ Zpos (digits2_pos m) = 53.
Proof.
  intros Hz. destruct z as [|p|p]; [lia| |lia].
  pose proof (digits2_pos_bounds p) as [Hd _].
  assert (Zpos (digits2_pos p) ≤ 53) as Hd53.
  { apply Z.lt_succ_r, Z.nle_gt. intros Hle.
    assert (2 ^ 53 ≤ 2 ^ (Zpos (digits2_pos p) - 1)) by (apply Z.pow_le_mono_r; lia). lia. }
  unfold F64.of_int, binary_normalize, binary_round, shl_align.
  assert (fexp F64.prec F64.emax (Zpos (digits2_pos p) + 0) - 0 = Zpos (digits2_pos p) - 53) as Hf.
  { unfold fexp, emin, F64.prec, F64.emax. lia. }
  replace (fexp F64.prec F64.emax (Zpos (digits2_pos p) + 0))
    with (Zpos (digits2_pos p) - 53) in * by lia.
  rewrite Hf. destruct (Zpos (digits2_pos p) - 53) as [|q|q] eqn:Hq; [|lia|].
  - exists p, 0. rewrite binary_round_aux_exact by lia. split_and!; [done|lia..].
  - destruct (iter_xO p q) as [Hv Hdig]. exists (Pos.iter xO p q), (Zneg q).
    rewrite binary_round_aux_exact by lia. split_and!; [done|lia|lia|exact Hv|lia].
Qed.

Lemma mul_at_least n q :
  0 < n ≤ 2 ^ 52 → at_least 1 q → at_least n (F64.mul (F64.of_int n) q).
Proof.
  intros Hn Hq. destruct (of_int_exact n) as (m & e & -> & He & Hm & _); [lia|].
  destruct q as [|[]| |[] my ey]; simpl in Hq; try done. unfold F64.mul, SFmul. simpl xorb.
  apply binary_round_aux_at_least; [lia|lia|]. rewrite Pos2Z.inj_mul, Hm.
  destruct (Z.le_gt_cases 0 ey) as [Hey|Hey].
  - destruct (Z.le_gt_cases 0 (e + ey)) as [Hs|Hs].
    + rewrite Z.shiftl_mul_pow2 by lia.
      replace (n * 2 ^ (- e) * Zpos my * 2 ^ (e + ey)) with (n * Zpos my * (2 ^ (- e) * 2 ^ (e + ey))) by ring.
      rewrite <- Z.pow_add_r by lia. assert (0 < 2 ^ (- e + (e + ey))) by (apply Z.pow_pos_nonneg; lia).
      rewrite <- Z.mul_assoc. apply Z.le_mul_diag_r; nia.
    + rewrite <- (Z.opp_involutive (e + ey)), Z.shiftl_opp_r, Z.shiftr_div_pow2 by lia.
      apply Z.div_le_lower_bound; [apply Z.pow_pos_nonneg; lia|].
      replace (- e) with (- (e + ey) + ey) by lia. rewrite Z.pow_add_r by lia.
      assert (0 < 2 ^ ey) by (apply Z.pow_pos_nonneg; lia).
      assert (0 < 2 ^ (- (e + ey))) by (apply Z.pow_pos_nonneg; lia).
      replace (n * (2 ^ (- (e + ey)) * 2 ^ ey) * Zpos my)
        with (2 ^ (- (e + ey)) * n * (2 ^ ey * Zpos my)) by ring.
      apply Z.le_mul_diag_r; nia.
  - assert (2 ^ (- ey) ≤ Zpos my) as Hmy.
    { rewrite <- (Z.opp_involutive ey), Z.shiftl_opp_r, Z.shiftr_div_pow2 in Hq by lia.
      pose proof (Z.mul_div_le (Zpos my) (2 ^ (- ey)) ltac:(apply Z.pow_pos_nonneg; lia)).
      assert (0 < 2 ^ (- ey)) by (apply Z.pow_pos_nonneg; lia). nia. }
    rewrite <- (Z.opp_involutive (e + ey)), Z.shiftl_opp_r, Z.shiftr_div_pow2 by lia.
    apply Z.div_le_lower_bound; [apply Z.pow_pos_nonneg; lia|].
    replace (- (e + ey)) with (- e + - ey) by lia. rewrite Z.pow_add_r by lia.
    replace (2 ^ (- e) * 2 ^ (- ey) * n) with (n * 2 ^ (- e) * 2 ^ (- ey)) by ring.
    apply Z.mul_le_mono_nonneg_l; [|done]. apply Z.mul_nonneg_nonneg; [lia|].
    apply Z.pow_nonneg. lia.
Qed.

(** The quotient of two integers, the larger by the smaller, is at least one. *)
Lemma div_at_least a b :
  0 < b ≤ a → a < 2 ^ 53 → at_least 1 (F64.div (F64.of_int a) (F64.of_int b)).
Proof.
  intros Hb Ha. destruct (of_int_exact a) as (m1 & e1 & -> & He1 & Hm1 & Hd1); [lia|].
  destruct (of_int_exact b) as (m2 & e2 & -> & He2 & Hm2 & Hd2); [lia|].
  unfold F64.div, SFdiv, SFdiv_core_binary. simpl Zdigits2. rewrite Hd1, Hd2.
  assert (fexp F64.prec F64.emax (53 + e1 - (53 + e2)) `min` (e1 - e2) = e1 - e2 - 53) as ->.
  { unfold fexp, emin, F64.prec, F64.emax. lia. }
  replace (e1 - e2 - (e1 - e2 - 53)) with 53 by lia.
  pose proof (Z.div_eucl_eq (Z.shiftl (Zpos m1) 53) (Zpos m2) ltac:(lia)) as Hdiv.
  pose proof (Z.mod_pos_bound (Z.shiftl (Zpos m1) 53) (Zpos m2) ltac:(lia)) as Hmod.
  unfold Z.modulo in Hmod. destruct (Z.div_eucl _ _) as [q r]. simpl xorb.
  rewrite Z.shiftl_mul_pow2 in Hdiv by lia.
  assert (Zpos m2 * 2 ^ (53 - (e1 - e2)) ≤ Zpos m1 * 2 ^ 53) as Hle.
  { rewrite Hm1, Hm2, <- !Z.mul_assoc, <- !Z.pow_add_r by lia.
    replace (- e2 + (53 - (e1 - e2))) with (- e1 + 53) by lia.
    apply Z.mul_le_mono_nonneg_r; [apply Z.pow_nonneg; lia|lia]. }
  assert (0 < 2 ^ (53 - (e1 - e2))) by (apply Z.pow_pos_nonneg; lia).
  assert (2 ^ (53 - (e1 - e2)) ≤ q) as Hq by nia.
  apply binary_round_aux_at_least; [lia|lia|].
  rewrite <- (Z.opp_involutive (e1 - e2 - 53)), Z.shiftl_opp_r, Z.shiftr_div_pow2 by lia.
  replace (- (e1 - e2 - 53)) with (53 - (e1 - e2)) by lia.
  apply Z.div_le_lower_bound; lia.
Qed.
End rounding.
