(* ===== verification/Config.v ===== *)
(** * Configuration

    Models the part of [concordium-node/src/configuration.rs] the network layer
    depends on: protocol constants, version compatibility, the options that
    are used there, their verification in [parse_config], and the derivation
    of a [NodeConfig] from them in [P2PNode::new] ([p2p/maintenance.rs]).
    Percentages and probabilities are doubles ([Float]). *)
From S2P Require Import Prelude.
From S2P Require Import Float.
From S2P Require Import PeerTypes.
From S2P Require Import Dedup.
From S2P Require Import NetTypes.
From S2P Require Import LowLevel.

(** ** Constants *)

Definition PROTOCOL_MAX_TRANSACTION_SIZE : Z := 600 * 1024.
Definition MAX_CATCH_UP_TIME : u64 := 300000.
Definition UNREACHABLE_EXPIRATION_SECS : u64 := 86400.
Definition MAX_BOOTSTRAPPER_KEEP_ALIVE : u64 := 20000.
Definition MAX_PREHANDSHAKE_KEEP_ALIVE : u64 := 10000.
Definition SOFT_BAN_DURATION_SECS : u64 := 300.
Definition MAX_PEER_NETWORKS : nat := 20.
Definition KEEP_ALIVE_FACTOR : u8 := 3.

(** ** Version compatibility *)

Definition is_compatible_version `{!ExtTypes} (other : Version) : bool :=
  bool_decide (2 ≤ major other ≤ 3)%Z
  || (bool_decide (major other = 4)%Z && bool_decide (1 ≤ minor other)%Z)
  || bool_decide (5 ≤ major other)%Z.

Definition is_compatible_wire_version (other : list u8) : option u8 :=
  snd <$> list_find (λ ours, existsb (Z.eqb ours) other) WIRE_PROTOCOL_VERSIONS.

(** ** Options of the network layer *)

Record ConnectionConfig := MkConnectionConfig {
  cc_desired_nodes : u16;
  cc_max_allowed_nodes : option u16;
  cc_max_allowed_nodes_percentage : u16;
  cc_no_bootstrap_dns : bool;
  cc_no_clear_bans : bool;
  cc_relay_broadcast_percentage : F64.t;
  cc_connect_to : list string;
  cc_disallow_multiple_peers_on_ip : bool;
  cc_dns_resolver : list string;
  cc_bootstrap_nodes : list string;
  cc_housekeeping_interval : u64;
  cc_bootstrapping_interval : u64;
  cc_max_latency : option u64;
  cc_hard_connection_limit : u16;
  cc_conn_requests_batch_limit : u16;
  cc_catch_up_batch_limit : i64;
  cc_thread_pool_size : nat;
  cc_dedup_size_long : nat;
  cc_dedup_size_short : nat;
  cc_socket_write_size : nat;
  cc_socket_read_size : nat;
  cc_socket_so_linger : option u16;
  cc_events_queue_size : nat;
  cc_deduplication_hashing_algorithm : DeduplicationHashAlgorithm;
  cc_max_normal_keep_alive : u64;
}.

(** Paths are strings. *)
Record CommonConfig := MkCommonConfig {
  common_external_port : option u16;
  common_id : option P2PNodeId;
  common_listen_port : u16;
  common_listen_address : option string;
  common_debug : bool;
  common_trace : bool;
  common_info : bool;
  common_no_consensus_logs : bool;
  common_network_ids : list u16;
  common_config_dir : string;
  common_data_dir : string;
  common_no_log_timestamp : bool;
  common_log_config : option string;
  common_min_peers_bucket : nat;
  common_print_config : bool;
  common_bucket_cleanup_interval : u64;
}.

(** Of the options of the baker only the block size matters here. *)
Record CliConfig := MkCliConfig {
  cli_no_network : bool;
  cli_poll_interval : u64;
  cli_maximum_block_size : u32;
  cli_timeout_bucket_entry_period : u64;
  cli_drop_rebroadcast_probability : option F64.t;
}.

Record BootstrapperConfig := MkBootstrapperConfig {
  bs_max_nodes : u16;
  bs_wait_until_minimum_nodes : u16;
  bs_bootstrapper_timeout_bucket_entry_period : u64;
  bs_peer_list_size : nat;
  bs_regenesis_block_hashes : option string;
}.

Record Config := MkConfig {
  conf_common : CommonConfig;
  conf_connection : ConnectionConfig;
  conf_cli : CliConfig;
  conf_bootstrapper : BootstrapperConfig;
}.

(** The options when none is given; the two directories have no default. *)
Definition ConnectionConfig_default : ConnectionConfig := {|
  cc_desired_nodes := 7;
  cc_max_allowed_nodes := None;
  cc_max_allowed_nodes_percentage := 150;
  cc_no_bootstrap_dns := false;
  cc_no_clear_bans := false;
  cc_relay_broadcast_percentage := F64.one;
  cc_connect_to := [];
  cc_disallow_multiple_peers_on_ip := false;
  cc_dns_resolver := [];
  cc_bootstrap_nodes := [];
  cc_housekeeping_interval := 30;
  cc_bootstrapping_interval := 7200;
  cc_max_latency := None;
  cc_hard_connection_limit := 50;
  cc_conn_requests_batch_limit := 9;
  cc_catch_up_batch_limit := 50;
  cc_thread_pool_size := 4;
  cc_dedup_size_long := Z.to_nat 65536;
  cc_dedup_size_short := Z.to_nat 4096;
  cc_socket_write_size := Z.to_nat 16384;
  cc_socket_read_size := Z.to_nat 131072;
  cc_socket_so_linger := None;
  cc_events_queue_size := 10;
  cc_deduplication_hashing_algorithm := XxHash64;
  cc_max_normal_keep_alive := 120;
|}.

Definition CommonConfig_default (config_dir data_dir : string) : CommonConfig := {|
  common_external_port := None;
  common_id := None;
  common_listen_port := 8888;
  common_listen_address := None;
  common_debug := false;
  common_trace := false;
  common_info := false;
  common_no_consensus_logs := false;
  common_network_ids := [1000%Z];
  common_config_dir := config_dir;
  common_data_dir := data_dir;
  common_no_log_timestamp := false;
  common_log_config := None;
  common_min_peers_bucket := 100;
  common_print_config := false;
  common_bucket_cleanup_interval := 600000;
|}.

Definition CliConfig_default : CliConfig := {|
  cli_no_network := false;
  cli_poll_interval := 100;
  cli_maximum_block_size := 4194304;
  cli_timeout_bucket_entry_period := 0;
  cli_drop_rebroadcast_probability := None;
|}.

Definition BootstrapperConfig_default : BootstrapperConfig := {|
  bs_max_nodes := 10000;
  bs_wait_until_minimum_nodes := 0;
  bs_bootstrapper_timeout_bucket_entry_period := 7200000;
  bs_peer_list_size := 10;
  bs_regenesis_block_hashes := None;
|}.

Definition Config_default (config_dir data_dir : string) : Config :=
  MkConfig (CommonConfig_default config_dir data_dir) ConnectionConfig_default CliConfig_default
    BootstrapperConfig_default.

(** The checks of [parse_config] on the options read from the command line. *)
Definition parse_config (conf : Config) : outcome Config :=
  let c := conf_connection conf in
  ensure (bool_decide (100 ≤ cc_max_allowed_nodes_percentage c)%Z)
    "Can't provide a lower percentage than 100" ;;
  (match cc_max_allowed_nodes c with
   | Some max => ensure (bool_decide (cc_desired_nodes c ≤ max)%Z)
       "Max allowed nodes must be greater or equal to desired amount of nodes"
   | None => Ok tt
   end) ;;
  ensure (bool_decide (cc_desired_nodes c ≤ cc_hard_connection_limit c)%Z)
    "Hard connection limit can't be less than what desired nodes is set to" ;;
  ensure (F64.leb F64.zero (cc_relay_broadcast_percentage c)
          && F64.leb (cc_relay_broadcast_percentage c) F64.one)
    "Percentage of peers to relay broadcasted packets to, must be between 0.0 and 1.0" ;;
  (let size := cli_maximum_block_size (conf_cli conf) in
   ensure (bool_decide (size ≤ 4000000000)%Z
           && bool_decide (F64.ceil_as F64.u32_max (F64.mul (F64.of_int size) F64.nine_tenths)
                           ≤ PROTOCOL_MAX_MESSAGE_SIZE)%Z)
     "Maximum block size set higher than 90% of network protocol max size") ;;
  ensure (bool_decide (65535 ≤ Z.of_nat (cc_socket_read_size c))%Z)
    "Socket read size must be set to at least 65535" ;;
  ensure (bool_decide (cc_socket_write_size c ≤ cc_socket_read_size c))
    "Socket read size must be greater or equal to the write size" ;;
  ensure (bool_decide (bs_wait_until_minimum_nodes (conf_bootstrapper conf)
                       ≤ Z.of_nat (bs_peer_list_size (conf_bootstrapper conf)))%Z)
    "wait-until-minimum-nodes must be lower than or equal to peer-list-size" ;;
  ensure (bool_decide (u64_mul (cc_housekeeping_interval c) KEEP_ALIVE_FACTOR
                       ≤ cc_max_normal_keep_alive c)%Z)
    "max-normal-keep-alive should be at least 3 times the housekeeping-interval" ;;
  Ok conf.

(** ** The configuration of a node

    The fields [given_addresses] and [regenesis_arc] of the source change; they
    are part of the state of the node.  The path of the data directory is left
    out. *)
Record NodeConfig := MkNodeConfig {
  no_net : bool;
  desired_nodes_count : u16;
  no_bootstrap_dns : bool;
  no_clear_bans : bool;
  disallow_multiple_peers_on_ip : bool;
  bootstrap_nodes : list string;
  max_allowed_nodes : u16;
  relay_broadcast_percentage : F64.t;
  poll_interval : u64;
  housekeeping_interval : u64;
  bootstrapping_interval : u64;
  print_peers : bool;
  bootstrapper_wait_minimum_peers : u16;
  max_latency : option u64;
  hard_connection_limit : u16;
  conn_requests_batch_limit : u16;
  catch_up_batch_limit : i64;
  timeout_bucket_entry_period : u64;
  bucket_cleanup_interval : u64;
  thread_pool_size : nat;
  dedup_size_long : nat;
  dedup_size_short : nat;
  socket_read_size : nat;
  socket_write_size : nat;
  drop_rebroadcast_probability : option F64.t;
  bootstrapper_peer_list_size : nat;
  default_network : NetworkId;
  socket_so_linger : option u16;
  events_queue_size : nat;
  deduplication_hashing_algorithm : DeduplicationHashAlgorithm;
  max_normal_keep_alive_ms : u64;
}.

(** The bound on the number of peers. *)
Definition max_allowed_nodes_of (c : ConnectionConfig) : u16 :=
  match cc_max_allowed_nodes c with
  | Some max => max
  | None => F64.floor_as F64.u16_max
      (F64.mul (F64.of_int (cc_desired_nodes c))
               (F64.div (F64.of_int (cc_max_allowed_nodes_percentage c)) F64.hundred))
  end.

(** The configuration built by [P2PNode::new]; [conf.common.network_ids[0]]
    panics when there is no network. *)
Definition NodeConfig_new (conf : Config) (peer_type : PeerType) : outcome NodeConfig :=
  let c := conf_connection conf in
  network ← (match common_network_ids (conf_common conf) with
             | id :: _ => Ok id
             | [] => Panic "index out of bounds"
             end);
  Ok {| no_net := cli_no_network (conf_cli conf);
        desired_nodes_count := cc_desired_nodes c;
        no_bootstrap_dns := cc_no_bootstrap_dns c;
        no_clear_bans := cc_no_clear_bans c;
        disallow_multiple_peers_on_ip := cc_disallow_multiple_peers_on_ip c;
        bootstrap_nodes := cc_bootstrap_nodes c;
        max_allowed_nodes := max_allowed_nodes_of c;
        relay_broadcast_percentage := cc_relay_broadcast_percentage c;
        poll_interval := cli_poll_interval (conf_cli conf);
        housekeeping_interval := cc_housekeeping_interval c;
        bootstrapping_interval := cc_bootstrapping_interval c;
        print_peers := true;
        bootstrapper_wait_minimum_peers :=
          match peer_type with
          | Bootstrapper => bs_wait_until_minimum_nodes (conf_bootstrapper conf)
          | Node => 0
          end;
        max_latency := cc_max_latency c;
        hard_connection_limit := cc_hard_connection_limit c;
        conn_requests_batch_limit := cc_conn_requests_batch_limit c;
        catch_up_batch_limit := cc_catch_up_batch_limit c;
        timeout_bucket_entry_period :=
          match peer_type with
          | Bootstrapper => bs_bootstrapper_timeout_bucket_entry_period (conf_bootstrapper conf)
          | Node => cli_timeout_bucket_entry_period (conf_cli conf)
          end;
        bucket_cleanup_interval := common_bucket_cleanup_interval (conf_common conf);
        thread_pool_size := cc_thread_pool_size c;
        dedup_size_long := cc_dedup_size_long c;
        dedup_size_short := cc_dedup_size_short c;
        socket_read_size := cc_socket_read_size c;
        socket_write_size := cc_socket_write_size c;
        drop_rebroadcast_probability :=
          match peer_type with
          | Node => cli_drop_rebroadcast_probability (conf_cli conf)
          | Bootstrapper => None
          end;
        bootstrapper_peer_list_size := bs_peer_list_size (conf_bootstrapper conf);
        default_network := MkNetworkId network;
        socket_so_linger := cc_socket_so_linger c;
        events_queue_size := cc_events_queue_size c;
        deduplication_hashing_algorithm := cc_deduplication_hashing_algorithm c;
        max_normal_keep_alive_ms := u64_mul (cc_max_normal_keep_alive c) 1000 |}.

(** ** What a verified configuration guarantees *)

Lemma max_allowed_nodes_bound c :
  fits 16 (cc_desired_nodes c) → fits 16 (cc_max_allowed_nodes_percentage c) →
  (100 ≤ cc_max_allowed_nodes_percentage c)%Z →
  (∀ max, cc_max_allowed_nodes c = Some max → cc_desired_nodes c ≤ max)%Z →
  (cc_desired_nodes c ≤ max_allowed_nodes_of c)%Z.
Proof.
  unfold fits. intros Hd Hp H100 Hmax. unfold max_allowed_nodes_of.
  destruct (cc_max_allowed_nodes c) as [max|]; [by apply Hmax|].
  destruct (Z.eq_dec (cc_desired_nodes c) 0%Z) as [->|].
  { by destruct (F64.div _ _) as [[]|[]| |[]]. }
  apply at_least_floor; [unfold F64.u16_max; lia|]. apply mul_at_least; [lia|].
  apply (div_at_least _ 100); lia.
Qed.

(** The options that pass [parse_config] give a node configuration in which
    the desired number of peers is within both the soft and the hard limit, the
    relay percentage is between 0 and 1, a socket read can hold a Noise message
    and a socket write, the bootstrapper can fill a peer list of the size it
    waits for, and a connection is kept for at least three housekeeping rounds. *)
Theorem parse_config_sound conf conf' t nc :
  fits 16 (cc_desired_nodes (conf_connection conf)) →
  fits 16 (cc_max_allowed_nodes_percentage (conf_connection conf)) →
  (0 ≤ cc_housekeeping_interval (conf_connection conf) < 2 ^ 54)%Z →
  (0 ≤ cc_max_normal_keep_alive (conf_connection conf) < 2 ^ 54)%Z →
  parse_config conf = Ok conf' → NodeConfig_new conf' t = Ok nc →
  (desired_nodes_count nc ≤ max_allowed_nodes nc)%Z
  ∧ (desired_nodes_count nc ≤ hard_connection_limit nc)%Z
  ∧ F64.leb F64.zero (relay_broadcast_percentage nc) = true
  ∧ F64.leb (relay_broadcast_percentage nc) F64.one = true
  ∧ (65535 ≤ Z.of_nat (socket_read_size nc))%Z ∧ socket_write_size nc ≤ socket_read_size nc
  ∧ (t = Bootstrapper →
     bootstrapper_wait_minimum_peers nc ≤ Z.of_nat (bootstrapper_peer_list_size nc))%Z
  ∧ (3 * (housekeeping_interval nc * 1000) ≤ max_normal_keep_alive_ms nc)%Z.
Proof.
  intros Hd Hp Hh Hk. unfold parse_config.
  intros ([] & H1 & ([] & H2 & ([] & H3 & ([] & H4 & ([] & _ & ([] & H6 & ([] & H7 &
    ([] & H8 & ([] & H9 & H10)%outcome_bind_ok)%outcome_bind_ok)%outcome_bind_ok)
    %outcome_bind_ok)%outcome_bind_ok)%outcome_bind_ok)%outcome_bind_ok)%outcome_bind_ok)
    %outcome_bind_ok.
  injection H10 as <-. unfold NodeConfig_new.
  intros (net & _ & Hnc)%outcome_bind_ok. injection Hnc as <-. simpl.
  apply ensure_ok in H1, H3, H4, H6, H7, H8, H9.
  apply bool_decide_eq_true in H1, H3, H6, H7, H8, H9. apply andb_prop in H4 as [H4 H4'].
  unfold KEEP_ALIVE_FACTOR in H9. rewrite u64_mul_small in H9 by (unfold fits; lia).
  rewrite u64_mul_small by (unfold fits; lia).
  split_and!; try done.
  - apply max_allowed_nodes_bound; try done. intros max Hmax. rewrite Hmax in H2.
    by apply ensure_ok, bool_decide_eq_true in H2.
  - by intros ->.
  - lia.
Qed.

(** The checks, as a conjunction. *)
Lemma parse_config_accepts conf :
  let c := conf_connection conf in
  (100 ≤ cc_max_allowed_nodes_percentage c)%Z → cc_max_allowed_nodes c = None →
  (cc_desired_nodes c ≤ cc_hard_connection_limit c)%Z →
  F64.leb F64.zero (cc_relay_broadcast_percentage c)
    && F64.leb (cc_relay_broadcast_percentage c) F64.one = true →
  (cli_maximum_block_size (conf_cli conf) ≤ 4000000000)%Z →
  (F64.ceil_as F64.u32_max (F64.mul (F64.of_int (cli_maximum_block_size (conf_cli conf)))
     F64.nine_tenths) ≤ PROTOCOL_MAX_MESSAGE_SIZE)%Z →
  (65535 ≤ Z.of_nat (cc_socket_read_size c))%Z → cc_socket_write_size c ≤ cc_socket_read_size c →
  (bs_wait_until_minimum_nodes (conf_bootstrapper conf)
   ≤ Z.of_nat (bs_peer_list_size (conf_bootstrapper conf)))%Z →
  (u64_mul (cc_housekeeping_interval c) KEEP_ALIVE_FACTOR ≤ cc_max_normal_keep_alive c)%Z →
  parse_config conf = Ok conf.
Proof.
  intros c H1 H2 H3 H4 H5 H6 H7 H8 H9 H10. unfold parse_config. fold c.
  by rewrite H2, H4, !bool_decide_true by done.
Qed.

Lemma default_parses config_dir data_dir :
  parse_config (Config_default config_dir data_dir) = Ok (Config_default config_dir data_dir).
Proof. apply parse_config_accepts; simpl; first [lia|reflexivity|by vm_compute]. Qed.

(** Without options the configuration is accepted, and a node allows ten
    peers, seven being desired. *)
Theorem default_config_accepted config_dir data_dir :
  parse_config (Config_default config_dir data_dir) = Ok (Config_default config_dir data_dir)
  ∧ max_allowed_nodes <$> (match NodeConfig_new (Config_default config_dir data_dir) Node with
                           | Ok nc => Some nc | _ => None end) = Some 10%Z.
Proof. split; [apply default_parses|reflexivity]. Qed.

(** Options that only change the maximum block size. *)
Definition with_block_size (size : u32) (conf : Config) : Config :=
  let c := conf_cli conf in
  MkConfig (conf_common conf) (conf_connection conf)
    (MkCliConfig (cli_no_network c) (cli_poll_interval c) size
       (cli_timeout_bucket_entry_period c) (cli_drop_rebroadcast_probability c))
    (conf_bootstrapper conf).

(** The check of the maximum block size compares nine tenths of the block
    size with the limit of the protocol, not the block size with nine tenths of
    the limit: a maximum block size above the largest message the network layer
    accepts is allowed. *)
Theorem block_size_check_too_weak config_dir data_dir :
  let conf := with_block_size 23301688 (Config_default config_dir data_dir) in
  parse_config conf = Ok conf
  ∧ (PROTOCOL_MAX_MESSAGE_SIZE < cli_maximum_block_size (conf_cli conf))%Z.
Proof.
  split; [|done]. apply parse_config_accepts; simpl; first [lia|reflexivity|by vm_compute].
Qed.

Lemma parse_config_sound_witness :
  ∃ nc, NodeConfig_new (Config_default "." ".") Node = Ok nc
    ∧ (desired_nodes_count nc ≤ max_allowed_nodes nc)%Z.
Proof.
  eexists. split; [reflexivity|].
  apply (parse_config_sound (Config_default "." ".") (Config_default "." ".") Node);
    [by vm_compute..|apply default_parses|reflexivity].
Defined.
