(* ===== verification/NodeState.v ===== *)
(** * The state of a node

    Models the data of [concordium-node/src/p2p/maintenance.rs] ([P2PNode],
    [ConnectionHandler], [BadEvents]), [connection/mod.rs] ([Connection],
    [ConnChange]), [p2p/bans.rs] ([BanId]), [stats_export_service.rs] (the
    counters) and [consensus_ffi/consensus.rs] (the queues to and from consensus
    and [Regenesis]), with the elementary operations on them.

    The state of a node is one record; locks and atomics of the source become
    plain fields, since an operation runs to its end before the next one starts
    (the steps of the model are the critical sections of the source). *)
From S2P Require Import Prelude.
From S2P Require Import PeerTypes.
From S2P Require Import Dedup.
From S2P Require Import ConnParts.
From S2P Require Import NetTypes.
From S2P Require Import Fbs.
From S2P Require Import Noise.
From S2P Require Import LowLevel.
From S2P Require Import FfiHelpers.
From S2P Require Import CatchUp.
From S2P Require Import Buckets.
From S2P Require Import Config.

(** ** Connections *)

Record Connection (sess : Type) := MkConnection {
  remote_peer : RemotePeer;
  low_level : ConnectionLowLevel sess;
  remote_end_networks : Networks;
  conn_stats : ConnectionStats;
  pending_messages : MessageQueues;
  wire_version : u8;
}.
Arguments MkConnection {_}.
Arguments remote_peer {_}.
Arguments low_level {_}.
Arguments remote_end_networks {_}.
Arguments conn_stats {_}.
Arguments pending_messages {_}.
Arguments wire_version {_}.

Section connection_fields.
Context {sess : Type}.
Implicit Types c : Connection sess.

Definition with_remote_peer (x : RemotePeer) (c : Connection sess) : Connection sess :=
  MkConnection x (low_level c) (remote_end_networks c) (conn_stats c) (pending_messages c)
    (wire_version c).
Definition with_low_level (x : ConnectionLowLevel sess) (c : Connection sess) : Connection sess :=
  MkConnection (remote_peer c) x (remote_end_networks c) (conn_stats c) (pending_messages c)
    (wire_version c).
Definition with_remote_end_networks (x : Networks) (c : Connection sess) : Connection sess :=
  MkConnection (remote_peer c) (low_level c) x (conn_stats c) (pending_messages c)
    (wire_version c).
Definition with_conn_stats (x : ConnectionStats) (c : Connection sess) : Connection sess :=
  MkConnection (remote_peer c) (low_level c) (remote_end_networks c) x (pending_messages c)
    (wire_version c).
Definition with_pending_messages (x : MessageQueues) (c : Connection sess) : Connection sess :=
  MkConnection (remote_peer c) (low_level c) (remote_end_networks c) (conn_stats c) x
    (wire_version c).
Definition with_wire_version (x : u8) (c : Connection sess) : Connection sess :=
  MkConnection (remote_peer c) (low_level c) (remote_end_networks c) (conn_stats c)
    (pending_messages c) x.

Definition conn_token c : Token := to_token (local_id (remote_peer c)).
Definition conn_remote_id c : option P2PNodeId := self_id (remote_peer c).
Definition remote_peer_type c : PeerType := peer_type (remote_peer c).
Definition remote_addr c : SocketAddr := rp_addr (remote_peer c).
Definition remote_peer_external_port c : u16 := external_port (remote_peer c).
Definition conn_last_seen c : u64 := last_seen (conn_stats c).
Definition conn_latency c : u64 := get_latency (conn_stats c).

(** [Connection::is_post_handshake] ([message_handlers.rs]). *)
Definition conn_is_post_handshake c : bool := bool_decide (is_Some (self_id (remote_peer c))).

(** [async_send] *)
Definition async_send (message : bytes) (priority : MessageSendingPriority) c : Connection sess :=
  with_pending_messages (enqueue priority message (pending_messages c)) c.
End connection_fields.

(** ** Changes to the set of connections *)

Inductive ConnChange :=
  | ExpulsionByToken (t : Token)
  | NewConn (addr : SocketAddr) (peer_type : PeerType) (given : bool)
  | NewPeers (peers : list P2PPeer)
  | Promotion (t : Token)
  | RemovalByToken (t : Token)
  | RemoveAllByTokens (ts : list Token).

(** ** Bans *)

Inductive BanId := BanIp (ip : IpAddr) | BanSocket (addr : SocketAddr).

#[global] Instance BanId_eq_dec : EqDecision BanId.
Proof. solve_decision. Defined.
#[global] Instance BanId_countable : Countable BanId.
Proof.
  refine (inj_countable' (λ b, match b with BanIp i => inl i | BanSocket a => inr a end)
    (λ s, match s with inl i => BanIp i | inr a => BanSocket a end) _). by intros [].
Defined.

Inductive PersistedBanId := PersistedIp (ip : IpAddr).

Definition BanId_from_persisted (p : PersistedBanId) : BanId :=
  match p with PersistedIp ip => BanIp ip end.

(** The key-value store holding the bans ([rkv]); each operation may fail. *)
Class KvStore := {
  kv : Type;
  kv_get : bytes → kv → outcome bool;
  kv_put : bytes → ST kv unit;
  kv_delete : bytes → ST kv unit;
  kv_clear : ST kv unit;
  (** The keys an iteration over the store returns. *)
  kv_iter : kv → outcome (list (outcome bytes));
}.

(** Reads see what was committed, and a write that fails changes nothing. *)
Class KvStoreLaws `{!KvStore} := {
  kv_keys : kv → gset bytes;
  kv_get_ok k s b : kv_get k s = Ok b → b = bool_decide (k ∈ kv_keys s);
  kv_put_keys k s r s' :
    kv_put k s = (r, s') → kv_keys s' = if is_ok r then {[k]} ∪ kv_keys s else kv_keys s;
  kv_delete_keys k s r s' :
    kv_delete k s = (r, s') → kv_keys s' = if is_ok r then kv_keys s ∖ {[k]} else kv_keys s;
  kv_clear_keys s r s' :
    kv_clear s = (r, s') → kv_keys s' = if is_ok r then ∅ else kv_keys s;
}.

(** A store that never fails, used to evaluate concrete examples. *)
Definition set_kv : KvStore := {|
  kv := gset bytes;
  kv_get k s := Ok (bool_decide (k ∈ s));
  kv_put k s := (Ok tt, {[k]} ∪ s);
  kv_delete k s := (Ok tt, s ∖ {[k]});
  kv_clear _ := (Ok tt, ∅);
  kv_iter s := Ok (Ok <$> elements s);
|}.

Lemma set_kv_laws : @KvStoreLaws set_kv.
Proof. exists (λ s, s); simpl; naive_solver. Qed.

(** ** Bounded channels of [crossbeam_channel] *)

Definition try_send {A} (cap : nat) (x : A) (q : list A) : bool * list A :=
  if decide (length q < cap) then (true, q ++ [x]) else (false, q).

(** ** Queues between the network layer and consensus *)

Inductive QueueMsg (A : Type) := Relay (a : A) | Stop.
Arguments Relay {_}.
Arguments Stop {_}.

Definition CONSENSUS_QUEUE_DEPTH_OUT_HI : Z := 8 * 1024.
Definition CONSENSUS_QUEUE_DEPTH_OUT_LO : Z := 16 * 1024.
Definition CONSENSUS_QUEUE_DEPTH_IN_HI : Z := 16 * 1024.
Definition CONSENSUS_QUEUE_DEPTH_IN_LO : Z := 32 * 1024.

Record ConsensusQueues := MkConsensusQueues {
  inbound_high : list (QueueMsg ConsensusMessage);
  inbound_low : list (QueueMsg ConsensusMessage);
  outbound_high : list (QueueMsg ConsensusMessage);
  outbound_low : list (QueueMsg ConsensusMessage);
}.

Definition ConsensusQueues_default : ConsensusQueues := MkConsensusQueues [] [] [] [].

(** Non-blocking sends; the result says whether there was room. *)
Definition send_in_high_priority_message (m : ConsensusMessage) (q : ConsensusQueues) :
    bool * ConsensusQueues :=
  let '(ok, hi) := try_send (Z.to_nat CONSENSUS_QUEUE_DEPTH_IN_HI) (Relay m) (inbound_high q) in
  (ok, MkConsensusQueues hi (inbound_low q) (outbound_high q) (outbound_low q)).
Definition send_in_low_priority_message (m : ConsensusMessage) (q : ConsensusQueues) :
    bool * ConsensusQueues :=
  let '(ok, lo) := try_send (Z.to_nat CONSENSUS_QUEUE_DEPTH_IN_LO) (Relay m) (inbound_low q) in
  (ok, MkConsensusQueues (inbound_high q) lo (outbound_high q) (outbound_low q)).
Definition send_out_message (m : ConsensusMessage) (q : ConsensusQueues) :
    bool * ConsensusQueues :=
  let '(ok, lo) := try_send (Z.to_nat CONSENSUS_QUEUE_DEPTH_OUT_LO) (Relay m) (outbound_low q) in
  (ok, MkConsensusQueues (inbound_high q) (inbound_low q) (outbound_high q) lo).

(** ** Counters *)

(** The counters and gauges of [StatsExportService]. *)
Record StatsExportService := MkStats {
  pkts_received_counter : u64;
  pkts_sent_counter : u64;
  peers_gauge : i64;
  connections_received : u64;
  inbound_high_priority_consensus_drops_counter : u64;
  inbound_low_priority_consensus_drops_counter : u64;
  inbound_high_priority_consensus_counter : u64;
  inbound_low_priority_consensus_counter : u64;
  inbound_high_priority_consensus_size : i64;
  inbound_low_priority_consensus_size : i64;
  outbound_high_priority_consensus_size : i64;
  outbound_low_priority_consensus_size : i64;
  last_throughput_measurement_timestamp : i64;
  st_bytes_received : u64;
  st_bytes_sent : u64;
  avg_bps_in : u64;
  avg_bps_out : u64;
}.

Definition StatsExportService_new : StatsExportService := MkStats 0 0 0 0 0 0 0 0 0 0 0 0 0 0 0 0 0.

Definition with_pkts_received_counter (x : u64) (s : StatsExportService) : StatsExportService :=
  MkStats x (pkts_sent_counter s) (peers_gauge s) (connections_received s)
    (inbound_high_priority_consensus_drops_counter s)
    (inbound_low_priority_consensus_drops_counter s) (inbound_high_priority_consensus_counter
    s) (inbound_low_priority_consensus_counter s) (inbound_high_priority_consensus_size s)
    (inbound_low_priority_consensus_size s) (outbound_high_priority_consensus_size s)
    (outbound_low_priority_consensus_size s) (last_throughput_measurement_timestamp s)
    (st_bytes_received s) (st_bytes_sent s) (avg_bps_in s) (avg_bps_out s).
Definition with_pkts_sent_counter (x : u64) (s : StatsExportService) : StatsExportService :=
  MkStats (pkts_received_counter s) x (peers_gauge s) (connections_received s)
    (inbound_high_priority_consensus_drops_counter s)
    (inbound_low_priority_consensus_drops_counter s) (inbound_high_priority_consensus_counter
    s) (inbound_low_priority_consensus_counter s) (inbound_high_priority_consensus_size s)
    (inbound_low_priority_consensus_size s) (outbound_high_priority_consensus_size s)
    (outbound_low_priority_consensus_size s) (last_throughput_measurement_timestamp s)
    (st_bytes_received s) (st_bytes_sent s) (avg_bps_in s) (avg_bps_out s).
Definition with_peers_gauge (x : i64) (s : StatsExportService) : StatsExportService :=
  MkStats (pkts_received_counter s) (pkts_sent_counter s) x (connections_received s)
    (inbound_high_priority_consensus_drops_counter s)
    (inbound_low_priority_consensus_drops_counter s) (inbound_high_priority_consensus_counter
    s) (inbound_low_priority_consensus_counter s) (inbound_high_priority_consensus_size s)
    (inbound_low_priority_consensus_size s) (outbound_high_priority_consensus_size s)
    (outbound_low_priority_consensus_size s) (last_throughput_measurement_timestamp s)
    (st_bytes_received s) (st_bytes_sent s) (avg_bps_in s) (avg_bps_out s).
Definition with_connections_received (x : u64) (s : StatsExportService) : StatsExportService :=
  MkStats (pkts_received_counter s) (pkts_sent_counter s) (peers_gauge s) x
    (inbound_high_priority_consensus_drops_counter s)
    (inbound_low_priority_consensus_drops_counter s) (inbound_high_priority_consensus_counter
    s) (inbound_low_priority_consensus_counter s) (inbound_high_priority_consensus_size s)
    (inbound_low_priority_consensus_size s) (outbound_high_priority_consensus_size s)
    (outbound_low_priority_consensus_size s) (last_throughput_measurement_timestamp s)
    (st_bytes_received s) (st_bytes_sent s) (avg_bps_in s) (avg_bps_out s).
Definition with_inbound_high_priority_consensus_drops_counter (x : u64) (s : StatsExportService) : StatsExportService :=
  MkStats (pkts_received_counter s) (pkts_sent_counter s) (peers_gauge s)
    (connections_received s) x (inbound_low_priority_consensus_drops_counter s)
    (inbound_high_priority_consensus_counter s) (inbound_low_priority_consensus_counter s)
    (inbound_high_priority_consensus_size s) (inbound_low_priority_consensus_size s)
    (outbound_high_priority_consensus_size s) (outbound_low_priority_consensus_size s)
    (last_throughput_measurement_timestamp s) (st_bytes_received s) (st_bytes_sent s)
    (avg_bps_in s) (avg_bps_out s).
Definition with_inbound_low_priority_consensus_drops_counter (x : u64) (s : StatsExportService) : StatsExportService :=
  MkStats (pkts_received_counter s) (pkts_sent_counter s) (peers_gauge s)
    (connections_received s) (inbound_high_priority_consensus_drops_counter s) x
    (inbound_high_priority_consensus_counter s) (inbound_low_priority_consensus_counter s)
    (inbound_high_priority_consensus_size s) (inbound_low_priority_consensus_size s)
    (outbound_high_priority_consensus_size s) (outbound_low_priority_consensus_size s)
    (last_throughput_measurement_timestamp s) (st_bytes_received s) (st_bytes_sent s)
    (avg_bps_in s) (avg_bps_out s).
Definition with_inbound_high_priority_consensus_counter (x : u64) (s : StatsExportService) : StatsExportService :=
  MkStats (pkts_received_counter s) (pkts_sent_counter s) (peers_gauge s)
    (connections_received s) (inbound_high_priority_consensus_drops_counter s)
    (inbound_low_priority_consensus_drops_counter s) x (inbound_low_priority_consensus_counter
    s) (inbound_high_priority_consensus_size s) (inbound_low_priority_consensus_size s)
    (outbound_high_priority_consensus_size s) (outbound_low_priority_consensus_size s)
    (last_throughput_measurement_timestamp s) (st_bytes_received s) (st_bytes_sent s)
    (avg_bps_in s) (avg_bps_out s).
Definition with_inbound_low_priority_consensus_counter (x : u64) (s : StatsExportService) : StatsExportService :=
  MkStats (pkts_received_counter s) (pkts_sent_counter s) (peers_gauge s)
    (connections_received s) (inbound_high_priority_consensus_drops_counter s)
    (inbound_low_priority_consensus_drops_counter s) (inbound_high_priority_consensus_counter
    s) x (inbound_high_priority_consensus_size s) (inbound_low_priority_consensus_size s)
    (outbound_high_priority_consensus_size s) (outbound_low_priority_consensus_size s)
    (last_throughput_measurement_timestamp s) (st_bytes_received s) (st_bytes_sent s)
    (avg_bps_in s) (avg_bps_out s).
Definition with_inbound_high_priority_consensus_size (x : i64) (s : StatsExportService) : StatsExportService :=
  MkStats (pkts_received_counter s) (pkts_sent_counter s) (peers_gauge s)
    (connections_received s) (inbound_high_priority_consensus_drops_counter s)
    (inbound_low_priority_consensus_drops_counter s) (inbound_high_priority_consensus_counter
    s) (inbound_low_priority_consensus_counter s) x (inbound_low_priority_consensus_size s)
    (outbound_high_priority_consensus_size s) (outbound_low_priority_consensus_size s)
    (last_throughput_measurement_timestamp s) (st_bytes_received s) (st_bytes_sent s)
    (avg_bps_in s) (avg_bps_out s).
Definition with_inbound_low_priority_consensus_size (x : i64) (s : StatsExportService) : StatsExportService :=
  MkStats (pkts_received_counter s) (pkts_sent_counter s) (peers_gauge s)
    (connections_received s) (inbound_high_priority_consensus_drops_counter s)
    (inbound_low_priority_consensus_drops_counter s) (inbound_high_priority_consensus_counter
    s) (inbound_low_priority_consensus_counter s) (inbound_high_priority_consensus_size s) x
    (outbound_high_priority_consensus_size s) (outbound_low_priority_consensus_size s)
    (last_throughput_measurement_timestamp s) (st_bytes_received s) (st_bytes_sent s)
    (avg_bps_in s) (avg_bps_out s).
Definition with_outbound_high_priority_consensus_size (x : i64) (s : StatsExportService) : StatsExportService :=
  MkStats (pkts_received_counter s) (pkts_sent_counter s) (peers_gauge s)
    (connections_received s) (inbound_high_priority_consensus_drops_counter s)
    (inbound_low_priority_consensus_drops_counter s) (inbound_high_priority_consensus_counter
    s) (inbound_low_priority_consensus_counter s) (inbound_high_priority_consensus_size s)
    (inbound_low_priority_consensus_size s) x (outbound_low_priority_consensus_size s)
    (last_throughput_measurement_timestamp s) (st_bytes_received s) (st_bytes_sent s)
    (avg_bps_in s) (avg_bps_out s).
Definition with_outbound_low_priority_consensus_size (x : i64) (s : StatsExportService) : StatsExportService :=
  MkStats (pkts_received_counter s) (pkts_sent_counter s) (peers_gauge s)
    (connections_received s) (inbound_high_priority_consensus_drops_counter s)
    (inbound_low_priority_consensus_drops_counter s) (inbound_high_priority_consensus_counter
    s) (inbound_low_priority_consensus_counter s) (inbound_high_priority_consensus_size s)
    (inbound_low_priority_consensus_size s) (outbound_high_priority_consensus_size s) x
    (last_throughput_measurement_timestamp s) (st_bytes_received s) (st_bytes_sent s)
    (avg_bps_in s) (avg_bps_out s).
Definition with_last_throughput_measurement_timestamp (x : i64) (s : StatsExportService) : StatsExportService :=
  MkStats (pkts_received_counter s) (pkts_sent_counter s) (peers_gauge s)
    (connections_received s) (inbound_high_priority_consensus_drops_counter s)
    (inbound_low_priority_consensus_drops_counter s) (inbound_high_priority_consensus_counter
    s) (inbound_low_priority_consensus_counter s) (inbound_high_priority_consensus_size s)
    (inbound_low_priority_consensus_size s) (outbound_high_priority_consensus_size s)
    (outbound_low_priority_consensus_size s) x (st_bytes_received s) (st_bytes_sent s)
    (avg_bps_in s) (avg_bps_out s).
Definition with_st_bytes_received (x : u64) (s : StatsExportService) : StatsExportService :=
  MkStats (pkts_received_counter s) (pkts_sent_counter s) (peers_gauge s)
    (connections_received s) (inbound_high_priority_consensus_drops_counter s)
    (inbound_low_priority_consensus_drops_counter s) (inbound_high_priority_consensus_counter
    s) (inbound_low_priority_consensus_counter s) (inbound_high_priority_consensus_size s)
    (inbound_low_priority_consensus_size s) (outbound_high_priority_consensus_size s)
    (outbound_low_priority_consensus_size s) (last_throughput_measurement_timestamp s) x
    (st_bytes_sent s) (avg_bps_in s) (avg_bps_out s).
Definition with_st_bytes_sent (x : u64) (s : StatsExportService) : StatsExportService :=
  MkStats (pkts_received_counter s) (pkts_sent_counter s) (peers_gauge s)
    (connections_received s) (inbound_high_priority_consensus_drops_counter s)
    (inbound_low_priority_consensus_drops_counter s) (inbound_high_priority_consensus_counter
    s) (inbound_low_priority_consensus_counter s) (inbound_high_priority_consensus_size s)
    (inbound_low_priority_consensus_size s) (outbound_high_priority_consensus_size s)
    (outbound_low_priority_consensus_size s) (last_throughput_measurement_timestamp s)
    (st_bytes_received s) x (avg_bps_in s) (avg_bps_out s).
Definition with_avg_bps_in (x : u64) (s : StatsExportService) : StatsExportService :=
  MkStats (pkts_received_counter s) (pkts_sent_counter s) (peers_gauge s)
    (connections_received s) (inbound_high_priority_consensus_drops_counter s)
    (inbound_low_priority_consensus_drops_counter s) (inbound_high_priority_consensus_counter
    s) (inbound_low_priority_consensus_counter s) (inbound_high_priority_consensus_size s)
    (inbound_low_priority_consensus_size s) (outbound_high_priority_consensus_size s)
    (outbound_low_priority_consensus_size s) (last_throughput_measurement_timestamp s)
    (st_bytes_received s) (st_bytes_sent s) x (avg_bps_out s).
Definition with_avg_bps_out (x : u64) (s : StatsExportService) : StatsExportService :=
  MkStats (pkts_received_counter s) (pkts_sent_counter s) (peers_gauge s)
    (connections_received s) (inbound_high_priority_consensus_drops_counter s)
    (inbound_low_priority_consensus_drops_counter s) (inbound_high_priority_consensus_counter
    s) (inbound_low_priority_consensus_counter s) (inbound_high_priority_consensus_size s)
    (inbound_low_priority_consensus_size s) (outbound_high_priority_consensus_size s)
    (outbound_low_priority_consensus_size s) (last_throughput_measurement_timestamp s)
    (st_bytes_received s) (st_bytes_sent s) (avg_bps_in s) x.

Definition peers_inc (s : StatsExportService) : StatsExportService :=
  with_peers_gauge (as_i64 (peers_gauge s + 1)) s.
Definition peers_dec (s : StatsExportService) : StatsExportService :=
  with_peers_gauge (as_i64 (peers_gauge s - 1)) s.
Definition pkt_received_inc (s : StatsExportService) : StatsExportService :=
  with_pkts_received_counter (u64_add (pkts_received_counter s) 1) s.
Definition pkt_sent_inc (s : StatsExportService) : StatsExportService :=
  with_pkts_sent_counter (u64_add (pkts_sent_counter s) 1) s.
Definition conn_received_inc (s : StatsExportService) : StatsExportService :=
  with_connections_received (u64_add (connections_received s) 1) s.
Definition inbound_high_priority_consensus_drops_inc (s : StatsExportService) : StatsExportService :=
  with_inbound_high_priority_consensus_drops_counter (u64_add (inbound_high_priority_consensus_drops_counter s) 1) s.
Definition inbound_low_priority_consensus_drops_inc (s : StatsExportService) : StatsExportService :=
  with_inbound_low_priority_consensus_drops_counter (u64_add (inbound_low_priority_consensus_drops_counter s) 1) s.
Definition inbound_high_priority_consensus_inc (s : StatsExportService) : StatsExportService :=
  with_inbound_high_priority_consensus_counter (u64_add (inbound_high_priority_consensus_counter s) 1) s.
Definition inbound_low_priority_consensus_inc (s : StatsExportService) : StatsExportService :=
  with_inbound_low_priority_consensus_counter (u64_add (inbound_low_priority_consensus_counter s) 1) s.

(** ** Bad events per peer *)

Record BadEvents := MkBadEvents {
  dropped_high_queue : gmap RemotePeerId u64;
  dropped_low_queue : gmap RemotePeerId u64;
  invalid_messages : gmap RemotePeerId u64;
}.

Definition BadEvents_default : BadEvents := MkBadEvents ∅ ∅ ∅.

(** [entry(peer_id).and_modify(|x| *x += 1).or_insert(1)] *)
Definition inc_entry (id : RemotePeerId) (m : gmap RemotePeerId u64) : gmap RemotePeerId u64 :=
  <[id := match m !! id with Some x => u64_add x 1 | None => 1%Z end]> m.

Definition inc_dropped_high_queue (id : RemotePeerId) (b : BadEvents) : BadEvents :=
  MkBadEvents (inc_entry id (dropped_high_queue b)) (dropped_low_queue b) (invalid_messages b).
Definition inc_dropped_low_queue (id : RemotePeerId) (b : BadEvents) : BadEvents :=
  MkBadEvents (dropped_high_queue b) (inc_entry id (dropped_low_queue b)) (invalid_messages b).
Definition inc_invalid_messages (id : RemotePeerId) (b : BadEvents) : BadEvents :=
  MkBadEvents (dropped_high_queue b) (dropped_low_queue b) (inc_entry id (invalid_messages b)).

(** ** The parts of a node that come from elsewhere

    The crates and operating system services the node is built on: the Noise
    session, the circular queues and hash functions of deduplication, versions
    and block hashes, the flatbuffers layout, serialization of addresses, the
    key-value store, iteration orders of hash tables and the random number
    generator. *)

Class NodeExt := {
  session : Type;
  ne_noise :: Noise session;
  ne_deque :: Deque;
  circular : Type → Type;
  ne_circular :: CircularQueue circular;
  ne_hashes :: DedupHashes;
  ne_ext :: ExtTypes;
  ne_flatbuffers :: FlatBuffers;
  ne_ip_serial :: Serial IpAddr;
  deserial_u32 : bytes → outcome (u32 * bytes);
  ne_kv :: KvStore;
  ne_rng :: Rng;
  ne_networks :: SetIter NetworkId;
  ne_addresses :: SetIter SocketAddr;
  ne_bucket :: MapIter RemotePeerId BucketNode;
  ne_connections :: MapIter Token (Connection session);
  ne_peers :: MapIter RemotePeerId PeerStatus;
}.

(** [Regenesis]: the genesis blocks of the chain and two flags. *)
Record Regenesis `{!NodeExt} := MkRegenesis {
  genesis_blocks_known : list BlockHash;
  trigger_catchup : bool;
  stop_network : bool;
}.

Definition Regenesis_from_blocks `{!NodeExt} (bs : list BlockHash) : Regenesis :=
  MkRegenesis _ bs false false.

(** ** The node *)

Section node.
Context `{!NodeExt}.

Abbreviation Conn := (Connection session) (only parsing).
Abbreviation Connections := (gmap Token Conn) (only parsing).

(** [ConnectionHandler]; a soft ban is kept with the instant it expires. *)
Record ConnectionHandler := MkHandler {
  next_token : u64;
  handler_buckets : Buckets;
  conn_candidates : Connections;
  connections : Connections;
  conn_changes : list ConnChange;
  soft_bans : gmap BanId Z;
  handler_networks : Networks;
  deduplication_queues : DeduplicationQueues circular;
  last_bootstrap : u64;
  last_peer_update : u64;
  total_received : u64;
  total_sent : u64;
}.

(** [P2PNode], with the locked parts of its configuration and the global
    queue of messages from and to consensus. *)
Record P2PNode := MkNode {
  self_peer : P2PPeer;
  handler : ConnectionHandler;
  stats : StatsExportService;
  config : NodeConfig;
  given_addresses : gset SocketAddr;
  kvs : kv;
  peers : CatchUp.PeerList;
  bad_events : BadEvents;
  regenesis : Regenesis;
  callback_queue : ConsensusQueues;
}.

Definition with_handler (x : ConnectionHandler) (n : P2PNode) : P2PNode :=
  MkNode (self_peer n) x (stats n) (config n) (given_addresses n) (kvs n) (peers n)
    (bad_events n) (regenesis n) (callback_queue n).
Definition with_stats (x : StatsExportService) (n : P2PNode) : P2PNode :=
  MkNode (self_peer n) (handler n) x (config n) (given_addresses n) (kvs n) (peers n)
    (bad_events n) (regenesis n) (callback_queue n).
Definition with_given_addresses (x : gset SocketAddr) (n : P2PNode) : P2PNode :=
  MkNode (self_peer n) (handler n) (stats n) (config n) x (kvs n) (peers n) (bad_events n)
    (regenesis n) (callback_queue n).
Definition with_kvs (x : kv) (n : P2PNode) : P2PNode :=
  MkNode (self_peer n) (handler n) (stats n) (config n) (given_addresses n) x (peers n)
    (bad_events n) (regenesis n) (callback_queue n).
Definition with_peers (x : CatchUp.PeerList) (n : P2PNode) : P2PNode :=
  MkNode (self_peer n) (handler n) (stats n) (config n) (given_addresses n) (kvs n) x
    (bad_events n) (regenesis n) (callback_queue n).
Definition with_bad_events (x : BadEvents) (n : P2PNode) : P2PNode :=
  MkNode (self_peer n) (handler n) (stats n) (config n) (given_addresses n) (kvs n) (peers n)
    x (regenesis n) (callback_queue n).
Definition with_regenesis (x : Regenesis) (n : P2PNode) : P2PNode :=
  MkNode (self_peer n) (handler n) (stats n) (config n) (given_addresses n) (kvs n) (peers n)
    (bad_events n) x (callback_queue n).
Definition with_callback_queue (x : ConsensusQueues) (n : P2PNode) : P2PNode :=
  MkNode (self_peer n) (handler n) (stats n) (config n) (given_addresses n) (kvs n) (peers n)
    (bad_events n) (regenesis n) x.

Definition with_next_token (x : u64) (n : P2PNode) : P2PNode :=
  let h := handler n in
  with_handler (MkHandler x (handler_buckets h) (conn_candidates h) (connections h)
    (conn_changes h) (soft_bans h) (handler_networks h) (deduplication_queues h)
    (last_bootstrap h) (last_peer_update h) (total_received h) (total_sent h)) n.
Definition with_handler_buckets (x : Buckets) (n : P2PNode) : P2PNode :=
  let h := handler n in
  with_handler (MkHandler (next_token h) x (conn_candidates h) (connections h) (conn_changes
    h) (soft_bans h) (handler_networks h) (deduplication_queues h) (last_bootstrap h)
    (last_peer_update h) (total_received h) (total_sent h)) n.
Definition with_conn_candidates (x : Connections) (n : P2PNode) : P2PNode :=
  let h := handler n in
  with_handler (MkHandler (next_token h) (handler_buckets h) x (connections h) (conn_changes
    h) (soft_bans h) (handler_networks h) (deduplication_queues h) (last_bootstrap h)
    (last_peer_update h) (total_received h) (total_sent h)) n.
Definition with_connections (x : Connections) (n : P2PNode) : P2PNode :=
  let h := handler n in
  with_handler (MkHandler (next_token h) (handler_buckets h) (conn_candidates h) x
    (conn_changes h) (soft_bans h) (handler_networks h) (deduplication_queues h)
    (last_bootstrap h) (last_peer_update h) (total_received h) (total_sent h)) n.
Definition with_conn_changes (x : list ConnChange) (n : P2PNode) : P2PNode :=
  let h := handler n in
  with_handler (MkHandler (next_token h) (handler_buckets h) (conn_candidates h) (connections
    h) x (soft_bans h) (handler_networks h) (deduplication_queues h) (last_bootstrap h)
    (last_peer_update h) (total_received h) (total_sent h)) n.
Definition with_soft_bans (x : gmap BanId Z) (n : P2PNode) : P2PNode :=
  let h := handler n in
  with_handler (MkHandler (next_token h) (handler_buckets h) (conn_candidates h) (connections
    h) (conn_changes h) x (handler_networks h) (deduplication_queues h) (last_bootstrap h)
    (last_peer_update h) (total_received h) (total_sent h)) n.
Definition with_handler_networks (x : Networks) (n : P2PNode) : P2PNode :=
  let h := handler n in
  with_handler (MkHandler (next_token h) (handler_buckets h) (conn_candidates h) (connections
    h) (conn_changes h) (soft_bans h) x (deduplication_queues h) (last_bootstrap h)
    (last_peer_update h) (total_received h) (total_sent h)) n.
Definition with_deduplication_queues (x : DeduplicationQueues circular) (n : P2PNode) : P2PNode :=
  let h := handler n in
  with_handler (MkHandler (next_token h) (handler_buckets h) (conn_candidates h) (connections
    h) (conn_changes h) (soft_bans h) (handler_networks h) x (last_bootstrap h)
    (last_peer_update h) (total_received h) (total_sent h)) n.
Definition with_last_bootstrap (x : u64) (n : P2PNode) : P2PNode :=
  let h := handler n in
  with_handler (MkHandler (next_token h) (handler_buckets h) (conn_candidates h) (connections
    h) (conn_changes h) (soft_bans h) (handler_networks h) (deduplication_queues h) x
    (last_peer_update h) (total_received h) (total_sent h)) n.
Definition with_last_peer_update (x : u64) (n : P2PNode) : P2PNode :=
  let h := handler n in
  with_handler (MkHandler (next_token h) (handler_buckets h) (conn_candidates h) (connections
    h) (conn_changes h) (soft_bans h) (handler_networks h) (deduplication_queues h)
    (last_bootstrap h) x (total_received h) (total_sent h)) n.
Definition with_total_received (x : u64) (n : P2PNode) : P2PNode :=
  let h := handler n in
  with_handler (MkHandler (next_token h) (handler_buckets h) (conn_candidates h) (connections
    h) (conn_changes h) (soft_bans h) (handler_networks h) (deduplication_queues h)
    (last_bootstrap h) (last_peer_update h) x (total_sent h)) n.
Definition with_total_sent (x : u64) (n : P2PNode) : P2PNode :=
  let h := handler n in
  with_handler (MkHandler (next_token h) (handler_buckets h) (conn_candidates h) (connections
    h) (conn_changes h) (soft_bans h) (handler_networks h) (deduplication_queues h)
    (last_bootstrap h) (last_peer_update h) (total_received h) x) n.

Definition node_peer_type (n : P2PNode) : PeerType := p2p_peer_type (self_peer n).
Definition node_connections (n : P2PNode) : Connections := connections (handler n).
Definition node_candidates (n : P2PNode) : Connections := conn_candidates (handler n).

(** [ConnectionHandler::is_soft_banned] *)
Definition is_soft_banned (addr : SocketAddr) (h : ConnectionHandler) : bool :=
  bool_decide (is_Some (soft_bans h !! BanIp (addr_ip addr)))
  || bool_decide (is_Some (soft_bans h !! BanSocket addr)).

(** [register_conn_change]: a change that does not fit the queue is dropped. *)
Definition register_conn_change (change : ConnChange) (n : P2PNode) : P2PNode :=
  with_conn_changes
    (try_send (Z.to_nat (hard_connection_limit (config n))) change (conn_changes (handler n))).2 n.

Definition bump_last_peer_update (now : u64) (n : P2PNode) : P2PNode := with_last_peer_update now n.

(** [Drop for Connection]: a connection that is dropped leaves the peer count. *)
Definition drop_connection (c : Conn) (n : P2PNode) : P2PNode :=
  match conn_remote_id c with
  | Some _ => with_stats (peers_dec (stats n)) n
  | None => n
  end.

(** The connections a map loses by [retain]. *)
Definition drop_connections (cs : list Conn) (n : P2PNode) : P2PNode :=
  foldr drop_connection n cs.
End node.

(** What the operating system answers during one operation: the clocks (in
    milliseconds), the result of opening a socket, of registering it with the
    poll registry and of resolving a host name. *)
Record Env := MkEnv {
  now_stamp : u64;
  now_instant : Z;
  resolve : string → outcome (list SocketAddr);
  tcp_connect : SocketAddr → outcome TcpStream;
  poll_register : Token → outcome unit;
}.
