(* ===== verification/Bans.v ===== *)
(** * Persisted bans

    Models the ban database of [concordium-node/src/p2p/bans.rs]: banned IP
    addresses are kept, serialized, as keys of a key-value store.  The
    operations that also close connections are in [Connectivity]. *)
From S2P Require Import Prelude.
From S2P Require Import PeerTypes.
From S2P Require Import NodeState.

Section bans.
Context `{!NodeExt}.

Abbreviation N := (ST P2PNode) (only parsing).

(** [Serial] and [Deserial] for [PersistedBanId]. *)
Definition PersistedBanId_serial (p : PersistedBanId) : bytes :=
  match p with PersistedIp ip => 0%Z :: serial ip end.

Definition PersistedBanId_deserial (source : bytes) : outcome (PersistedBanId * bytes) :=
  match source with
  | [] => Err (IoError "failed to fill whole buffer")
  | tag :: rest =>
    if decide (tag = 0%Z) then '(ip, rest) ← deserial rest; Ok (PersistedIp ip, rest)
    else bail "Unsupported type of `BanNode`"
  end.

(** Run an operation of the store of the node. *)
Definition lift_kv {A} (m : ST kv A) : N A := λ n,
  let '(r, s) := m (kvs n) in (r, with_kvs s n).

(** The first half of [drop_by_ip_and_ban]: the ban is written. *)
Definition ban_ip (ip : IpAddr) : N unit := lift_kv (kv_put (PersistedBanId_serial (PersistedIp ip))).

Definition unban_node (peer : PersistedBanId) : N unit :=
  lift_kv (kv_delete (PersistedBanId_serial peer)).

Definition is_banned (peer : PersistedBanId) (n : P2PNode) : outcome bool :=
  kv_get (PersistedBanId_serial peer) (kvs n).

(** The loop of [get_banlist] over the entries of the store. *)
Fixpoint read_banlist (entries : list (outcome bytes)) : outcome (list PersistedBanId) :=
  match entries with
  | [] => Ok []
  | entry :: entries =>
    id_bytes ← entry;
    '(node, _) ← PersistedBanId_deserial id_bytes;
    banlist ← read_banlist entries;
    Ok (node :: banlist)
  end.

Definition get_banlist (n : P2PNode) : outcome (list PersistedBanId) :=
  entries ← kv_iter (kvs n);
  read_banlist entries.

Definition clear_bans : N unit := lift_kv kv_clear.

(** [is_banned(..).unwrap_or(false)]: an unreadable database bans nobody. *)
Definition refuses_ip (ip : IpAddr) (n : P2PNode) : bool :=
  match is_banned (PersistedIp ip) n with
  | Ok b => b
  | _ => false
  end.
End bans.
