(* ===== verification/ConnMethods.v ===== *)
(** * Connection methods and message handlers

    Models the methods of [Connection] in [concordium-node/src/connection/mod.rs]
    and [connection/message_handlers.rs], and [handle_pkt_out] of
    [plugins/consensus.rs], which puts a received packet into the queues of
    consensus.  A method runs on the connection and the node it belongs to. *)
From S2P Require Import Prelude.
From S2P Require Import PeerTypes.
From S2P Require Import Dedup.
From S2P Require Import ConnParts.
From S2P Require Import NetTypes.
From S2P Require Import Fbs.
From S2P Require Import Noise.
From S2P Require Import LowLevel.
From S2P Require Import FfiHelpers.
From S2P Require Import Buckets.
From S2P Require Import Config.
From S2P Require Import NodeState.

Section methods.
Context `{!NodeExt}.

Abbreviation Conn := (Connection session) (only parsing).
(** Computations of a connection method. *)
Abbreviation CM := (ST (Conn * P2PNode)) (only parsing).

Definition get_conn : CM Conn := λ s, (Ok s.1, s).
Definition get_node : CM P2PNode := λ s, (Ok s.2, s).
Definition modify_conn (f : Conn → Conn) : CM unit := λ s, (Ok tt, (f s.1, s.2)).
Definition modify_node (f : P2PNode → P2PNode) : CM unit := λ s, (Ok tt, (s.1, f s.2)).

(** Run a computation of the node, of the low-level connection, of the ping
    statistics or of the buckets. *)
Definition lift_node {A} (m : ST P2PNode A) : CM A := λ s,
  let '(r, n) := m s.2 in (r, (s.1, n)).
Definition lift_low {A} (m : ST (ConnectionLowLevel session) A) : CM A := λ s,
  let '(r, ll) := m (low_level s.1) in (r, (with_low_level ll s.1, s.2)).
Definition lift_stats {A} (m : ST ConnectionStats A) : CM A := λ s,
  let '(r, st) := m (conn_stats s.1) in (r, (with_conn_stats st s.1, s.2)).
Definition lift_buckets {A} (m : ST Buckets A) : CM A := λ s,
  let '(r, b) := m (handler_buckets (handler s.2)) in (r, (s.1, with_handler_buckets b s.2)).

(** ** Packets for consensus *)

(** [handle_pkt_out]: the queues of consensus live as long as the process, so
    a send only fails when a queue is full. *)
Definition handle_pkt_out (exclude : list RemotePeerId) (peer_id : RemotePeerId) (msg : bytes)
    (is_broadcast : bool) : ST P2PNode unit :=
  tag ← st_lift (match msg with
                 | [] => bail "Packet payload can't be empty"
                 | t :: _ => Ok t
                 end);
  packet_type ← st_lift (PacketType_try_from tag);
  let mode := if is_broadcast then DistBroadcast else DistDirect in
  let payload_len := length (tail msg) in
  let request := MkConsensusMessage (Inbound peer_id mode) packet_type msg exclude None in
  match packet_type with
  | Transaction =>
    st_lift (ensure (bool_decide (Z.of_nat payload_len ≤ PROTOCOL_MAX_TRANSACTION_SIZE)%Z)
               "Transaction size exceeds the limit") ;;
    st_modify (λ n,
      let '(sent, q) := send_in_low_priority_message request (callback_queue n) in
      let n := with_callback_queue q n in
      if sent then with_stats (inbound_low_priority_consensus_inc (stats n)) n
      else with_bad_events (inc_dropped_low_queue peer_id (bad_events n))
             (with_stats (inbound_low_priority_consensus_drops_inc (stats n)) n))
  | _ =>
    st_modify (λ n,
      let '(sent, q) := send_in_high_priority_message request (callback_queue n) in
      let n := with_callback_queue q n in
      if sent then with_stats (inbound_high_priority_consensus_inc (stats n)) n
      else with_bad_events (inc_dropped_high_queue peer_id (bad_events n))
             (with_stats (inbound_high_priority_consensus_drops_inc (stats n)) n))
  end.

(** ** Sending *)

Definition send_ping (now : u64) : CM unit :=
  let serialized := serialize now (netmsg now (PRequest Ping)) in
  modify_conn (λ c, with_conn_stats (notify_ping now (conn_stats c)) c) ;;
  modify_conn (async_send serialized High).

Definition send_pong (now : u64) : CM unit :=
  let serialized := serialize now (netmsg now (PResponse Pong)) in
  modify_conn (async_send serialized High).

(** The peers a request for peers is answered with, if any. *)
Definition peer_list_resp (nets : Networks) (conn_stats : list PeerStats) (c : Conn) (n : P2PNode) :
    option (list P2PPeer) :=
  let requestor := local_id (remote_peer c) in
  match node_peer_type n with
  | Bootstrapper =>
    let random_nodes := omap RemotePeer_peer
      (get_random_nodes requestor (bootstrapper_peer_list_size (config n)) nets
         (handler_buckets (handler n))) in
    if decide (random_nodes ≠ [] ∧
               (bootstrapper_wait_minimum_peers (config n) ≤ Z.of_nat (length random_nodes))%Z)
    then Some random_nodes else None
  | Node =>
    let nodes :=
      (λ stat, MkP2PPeer (ps_self_id stat) (PeerStats_external_address stat) (ps_peer_type stat))
      <$> filter (λ stat, ps_local_id stat ≠ requestor) conn_stats in
    if decide (nodes ≠ []) then Some nodes else None
  end.

Definition send_peer_list_resp (now : u64) (nets : Networks) (conn_stats : list PeerStats) :
    CM unit :=
  c ← get_conn;
  n ← get_node;
  match peer_list_resp nets conn_stats c n with
  | Some nodes =>
    modify_conn (async_send (serialize now (netmsg now (PResponse (PeerList nodes)))) Normal)
  | None => mret tt
  end.

(** The loop of [send_pending_messages], one round for each queued message. *)
Fixpoint send_pending_loop (rounds : nat) : CM unit :=
  c ← get_conn;
  match dequeue (pending_messages c) with
  | (None, _) => mret tt
  | (Some msg, q) =>
    match rounds with
    | O => mret tt
    | S rounds =>
      modify_conn (with_pending_messages q) ;;
      lift_low (write_to_socket msg) ;;
      modify_node (λ n, with_stats (pkt_sent_inc (stats n))
                          (with_total_sent (u64_add (total_sent (handler n)) 1) n)) ;;
      modify_conn (λ c, with_conn_stats (note_sent (length msg) (conn_stats c)) c) ;;
      send_pending_loop rounds
    end
  end.

(** [send_pending_messages]: each round takes one message from the queues. *)
Definition send_pending_messages : CM unit :=
  c ← get_conn;
  send_pending_loop (pending (pending_messages c)).

(** ** Networks of the remote end *)

Definition populate_remote_end_networks (now : u64) (peer : RemotePeer) (networks : Networks) :
    CM unit :=
  modify_conn (λ c, with_remote_end_networks (remote_end_networks c ∪ networks) c) ;;
  c ← get_conn;
  match peer_type (remote_peer c) with
  | Bootstrapper => mret tt
  | Node => lift_buckets (insert_into_bucket now peer networks)
  end.

Definition add_remote_end_network (now : u64) (network : NetworkId) : CM unit :=
  c ← get_conn;
  st_lift (ensure (bool_decide (size (remote_end_networks c) < MAX_PEER_NETWORKS))
             "refusing to add any more networks") ;;
  modify_conn (λ c, with_remote_end_networks ({[network]} ∪ remote_end_networks c) c) ;;
  c ← get_conn;
  st_lift (ensure (conn_is_post_handshake c) "missing handshake") ;;
  lift_buckets (update_network_ids now (remote_peer c) (remote_end_networks c)).

Definition remove_remote_end_network (now : u64) (network : NetworkId) : CM unit :=
  modify_conn (λ c, with_remote_end_networks (remote_end_networks c ∖ {[network]}) c) ;;
  c ← get_conn;
  st_lift (ensure (conn_is_post_handshake c) "missing handshake") ;;
  lift_buckets (update_network_ids now (remote_peer c) (remote_end_networks c)).

(** ** The handshake message *)

(** [promote_to_post_handshake] *)
Definition promote_to_post_handshake (now : u64) (id : P2PNodeId) (peer_port : u16)
    (nets : Networks) (version : u8) : CM unit :=
  modify_conn (λ c,
    let p := remote_peer c in
    with_remote_peer (MkRemotePeer (Some id) (rp_addr p) (local_id p) peer_port (peer_type p)) c) ;;
  modify_node (λ n, with_stats (peers_inc (stats n)) n) ;;
  c ← get_conn;
  (match peer_type (remote_peer c) with
   | Bootstrapper => modify_node (with_last_bootstrap now)
   | Node => mret tt
   end) ;;
  populate_remote_end_networks now (remote_peer c) nets ;;
  modify_conn (with_wire_version version) ;;
  modify_node (register_conn_change (Promotion (conn_token c))).

(** Do two lists of genesis blocks differ at a position both of them have? *)
Definition genesis_mismatch (ours theirs : list BlockHash) : bool :=
  existsb (λ '(a, b), bool_decide (a ≠ b)) (zip ours theirs).

(** [handle_handshake_req] *)
Definition handle_handshake_req (now : u64) (h : Handshake) (conn_stats : list PeerStats) :
    CM unit :=
  st_lift (ensure (is_compatible_version (node_version h))
             "Rejecting handshake: incompatible client") ;;
  st_lift (ensure (bool_decide (wire_versions h ≠ []))
             "Rejecting handshake: Handshake message lacked wire versions.") ;;
  version ← st_lift (match is_compatible_wire_version (wire_versions h) with
                     | Some v => Ok v
                     | None => bail "Rejecting handshake: incompatible wire protocol versions"
                     end);
  st_lift (ensure (bool_decide (size (NetTypes.networks h) ≤ MAX_PEER_NETWORKS))
             "Rejecting handshake: too many networks.") ;;
  n ← get_node;
  st_lift (ensure (negb (genesis_mismatch (genesis_blocks_known (regenesis n))
                           (genesis_blocks h)))
             "Rejecting handshake: Didn't find a common prefix on the genesis block hashes.") ;;
  promote_to_post_handshake now (remote_id h) (remote_port h) (NetTypes.networks h) version ;;
  match node_peer_type n with
  | Bootstrapper => send_peer_list_resp now (NetTypes.networks h) conn_stats
  | Node => mret tt
  end.

(** ** Incoming messages *)

(** [handle_incoming_packet]: the exclusion list of the packet is ignored. *)
Definition handle_incoming_packet (pac : NetworkPacket) (peer_id : RemotePeerId) : CM unit :=
  let is_broadcast := match destination pac with Broadcast _ => true | Direct _ => false end in
  lift_node (handle_pkt_out [peer_id] peer_id (message pac) is_broadcast).

(** [handle_incoming_message] *)
Definition handle_incoming_message (now : u64) (msg : NetworkMessage) (conn_stats : list PeerStats) :
    CM unit :=
  match msg_payload msg with
  | PRequest (HandshakeReq h) => handle_handshake_req now h conn_stats
  | payload =>
    c ← get_conn;
    st_lift (ensure (conn_is_post_handshake c)
               "Connection has not yet completed the handshake.") ;;
    let peer_id := local_id (remote_peer c) in
    match payload with
    | PRequest (HandshakeReq _) => mret tt
    | PRequest Ping => send_pong now
    | PResponse Pong => lift_stats (notify_pong now)
    | PRequest (GetPeers nets) => send_peer_list_resp now nets conn_stats
    | PResponse (PeerList peers) => modify_node (register_conn_change (NewPeers peers))
    | PRequest (JoinNetwork network) => add_remote_end_network now network
    | PRequest (LeaveNetwork network) => remove_remote_end_network now network
    | PPacket pac => handle_incoming_packet pac peer_id
    end
  end.

(** The deduplication queue a packet type has, with the way to replace it. *)
Definition dedup_queue (t : PacketType) :
    option ((DeduplicationQueues circular → DynQueue circular) *
            (DynQueue circular → DeduplicationQueues circular → DeduplicationQueues circular)) :=
  match t with
  | FinalizationMessage =>
    Some (finalizations, λ q d, MkDeduplicationQueues q (transactions d) (blocks d) (fin_records d))
  | Transaction =>
    Some (transactions, λ q d, MkDeduplicationQueues (finalizations d) q (blocks d) (fin_records d))
  | Block =>
    Some (blocks, λ q d, MkDeduplicationQueues (finalizations d) (transactions d) q (fin_records d))
  | FinalizationRecord =>
    Some (fin_records, λ q d, MkDeduplicationQueues (finalizations d) (transactions d) (blocks d) q)
  | CatchUpStatus => None
  end.

(** [is_packet_duplicate] *)
Definition is_packet_duplicate (packet : NetworkPacket) : CM bool :=
  packet_type ← st_lift (match message packet with
                         | tag :: _ => PacketType_try_from tag
                         | [] => bail "Invalid message type."
                         end);
  match destination packet with
  | Direct _ => mret false
  | Broadcast _ =>
    match dedup_queue packet_type with
    | None => mret false
    | Some (get, set) =>
      n ← get_node;
      let queues := deduplication_queues (handler n) in
      let '(r, q) := dedup_with (message packet) (get queues) in
      modify_node (with_deduplication_queues (set q queues)) ;;
      st_lift r
    end
  end.

(** [process_message] *)
Definition process_message (now : u64) (bs : bytes) (conn_stats : list PeerStats) : CM unit :=
  n ← get_node;
  let seen := match node_peer_type n with Bootstrapper => None | Node => Some now end in
  modify_conn (λ c, with_conn_stats (note_received seen (length bs) (NodeState.conn_stats c)) c) ;;
  modify_node (λ n, with_stats (pkt_received_inc (stats n))
                      (with_total_received (u64_add (total_received (handler n)) 1) n)) ;;
  msg ← st_lift (deserialize now bs);
  match msg_payload msg, node_peer_type n with
  | PPacket _, Bootstrapper => mret tt
  | PPacket packet, Node =>
    dup ← is_packet_duplicate packet;
    if dup : bool then mret tt else handle_incoming_message now msg conn_stats
  | _, _ => handle_incoming_message now msg conn_stats
  end.

(** [produce_handshake_request]; [version] is the version of the package. *)
Definition produce_handshake_request (now : u64) (version : outcome Version) (n : P2PNode) :
    outcome bytes :=
  v ← version;
  Ok (serialize now (netmsg now (PRequest (HandshakeReq {|
    remote_id := p2p_id (self_peer n);
    remote_port := P2PPeer_port (self_peer n);
    NetTypes.networks := handler_networks (handler n);
    node_version := v;
    wire_versions := WIRE_PROTOCOL_VERSIONS;
    genesis_blocks := genesis_blocks_known (regenesis n);
    proof := [] |})))).

(** The loop of [read_stream]: [None] when the rounds are used up. *)
Fixpoint read_loop (rounds : nat) (now : u64) (version : outcome Version)
    (conn_stats : list PeerStats) : CM (option bool) :=
  match rounds with
  | O => mret None
  | S rounds =>
    n ← get_node;
    r ← lift_low (read_from_socket (produce_handshake_request now version n));
    match r with
    | Complete msg => process_message now msg conn_stats ;; read_loop rounds now version conn_stats
    | Incomplete => read_loop rounds now version conn_stats
    | WouldBlock => mret (Some true)
    | Closed => mret (Some false)
    end
  end.

(** The octets the socket and the socket buffer still hold. *)
Definition unread (ll : ConnectionLowLevel session) : nat :=
  remaining (socket_buffer ll)
  + sum_list ((λ ev, match ev with RData bs => length bs | _ => 0 end) <$> rx (socket ll)).

(** [read_stream].  A round takes an octet, except that a handshake message
    that is not complete is counted down in at most 1023 more rounds. *)
Definition read_rounds (ll : ConnectionLowLevel session) : nat :=
  S (HANDSHAKE_SIZE_LIMIT * unread ll + HANDSHAKE_SIZE_LIMIT).

Definition read_stream (now : u64) (version : outcome Version) (conn_stats : list PeerStats) :
    CM (option bool) :=
  c ← get_conn;
  read_loop (read_rounds (low_level c)) now version conn_stats.
End methods.
