(* ===== verification/Connectivity.v ===== *)
(** * Connectivity

    Models [concordium-node/src/p2p/connectivity.rs], [p2p/peers.rs] and the
    queries of [p2p/maintenance.rs] on connections: sending over connections,
    accepting and opening connections, removing them, and housekeeping. *)
From S2P Require Import Prelude.
From S2P Require Import PeerTypes.
From S2P Require Import ConnParts.
From S2P Require Import NetTypes.
From S2P Require Import Fbs.
From S2P Require Import Noise.
From S2P Require Import LowLevel.
From S2P Require Import Float.
From S2P Require Import Config.
From S2P Require Import NodeState.
From S2P Require Import Bans.
From S2P Require Import ConnMethods.

(** Ignore an error, as the source does where it only logs it. *)
Definition st_try {S} (m : ST S unit) : ST S unit := λ s,
  match m s with
  | (Err _, s') => (Ok tt, s')
  | rs => rs
  end.

(** Run a computation for each element. *)
Fixpoint st_for {S A} (l : list A) (f : A → ST S unit) : ST S unit :=
  match l with
  | [] => mret tt
  | a :: l => f a ;; st_for l f
  end.

Section connectivity.
Context `{!NodeExt}.

Abbreviation Conn := (Connection session) (only parsing).
Abbreviation N := (ST P2PNode) (only parsing).

(** ** Queries *)

(** [get_peer_stats]; the identifier of a peer is unwrapped. *)
Definition peer_stats_of (c : Conn) : outcome PeerStats :=
  match conn_remote_id c with
  | Some id => Ok (PeerStats_new (local_id (remote_peer c)) id (remote_addr c)
                     (remote_peer_external_port c) (remote_peer_type c) (conn_stats c))
  | None => Panic "called `Option::unwrap()` on a `None` value"
  end.

Definition get_peer_stats (t : option PeerType) (n : P2PNode) : outcome (list PeerStats) :=
  mapM peer_stats_of
    (filter (λ c, t = None ∨ t = Some (remote_peer_type c)) (map_values (node_connections n))).

Definition get_node_peer_tokens (n : P2PNode) : outcome (list RemotePeerId) :=
  get_peer_stats (Some Node) n ≫= λ stats : list PeerStats, Ok (ps_local_id <$> stats).

Definition find_conn_token_by_id (id : RemotePeerId) (n : P2PNode) : option Token :=
  (λ '(_, c), conn_token c)
    <$> list_find (λ c, local_id (remote_peer c) = id) (map_values (node_connections n)).

(** Candidates and connections, in the order they are searched. *)
Definition candidates_then_connections (n : P2PNode) : list Conn :=
  map_values (node_candidates n) ++ map_values (node_connections n).

Definition find_conn_to (addr : SocketAddr) (n : P2PNode) : option Token :=
  (λ '(_, c), conn_token c)
    <$> list_find (λ c, remote_addr c = addr) (candidates_then_connections n).

Definition find_conn_tokens_by_ip (ip : IpAddr) (n : P2PNode) : list Token :=
  conn_token <$> filter (λ c, addr_ip (rp_addr (remote_peer c)) = ip) (candidates_then_connections n).

(** [is_given_connection] *)
Definition is_given_connection (c : Conn) (n : P2PNode) : bool :=
  bool_decide (remote_addr c ∈ given_addresses n)
  || bool_decide (external_addr (remote_peer c) ∈ given_addresses n).

Definition unconnected_given_addresses (n : P2PNode) : gset SocketAddr :=
  foldl (λ ret c, ret ∖ {[remote_addr c]} ∖ {[external_addr (remote_peer c)]})
    (given_addresses n) (map_values (node_connections n)).

(** Is one of the connections to this address, or does its peer listen there? *)
Definition connected_to (addr : SocketAddr) (cs : list Conn) : bool :=
  existsb (λ c, bool_decide (remote_addr c = addr)
                || bool_decide (external_addr (remote_peer c) = addr)) cs.

Definition is_connected (addr : SocketAddr) (n : P2PNode) : bool :=
  connected_to addr (map_values (node_connections n)).

(** ** Sending over connections *)

(** [send_over_all_connections]: the number of messages that were queued. *)
Definition send_over_all_connections (data : bytes) (conn_filter : Conn → bool) : N nat := λ n,
  let send c := if conn_filter c then async_send data Normal c else c in
  (Ok (length (filter (λ c, conn_filter c) (map_values (node_connections n)))),
   with_connections (send <$> node_connections n) n).

Definition broadcast_network_request (now : u64) (request : NetworkRequest) : N unit :=
  send_over_all_connections (serialize now (netmsg now (PRequest request))) (λ _, true) ;; mret tt.
Definition send_join_network (now : u64) (id : NetworkId) : N unit :=
  broadcast_network_request now (JoinNetwork id).
Definition send_leave_network (now : u64) (id : NetworkId) : N unit :=
  broadcast_network_request now (LeaveNetwork id).

Definition send_get_peers (now : u64) : N unit :=
  n ← st_get; broadcast_network_request now (GetPeers (handler_networks (handler n))).

(** [measure_connection_latencies]: a ping to every connection. *)
Definition measure_connection_latencies (now : u64) : N unit :=
  st_modify (λ n, with_connections ((λ c, (send_ping now (c, n)).2.1) <$> node_connections n) n).

Definition add_network (id : NetworkId) (n : P2PNode) : P2PNode :=
  with_handler_networks ({[id]} ∪ handler_networks (handler n)) n.

(** [is_valid_broadcast_target] *)
Definition is_valid_broadcast_target (c : Conn) (peers_to_skip : list RemotePeerId)
    (network : NetworkId) : bool :=
  bool_decide (peer_type (remote_peer c) ≠ Bootstrapper)
  && bool_decide (local_id (remote_peer c) ∉ peers_to_skip)
  && bool_decide (network ∈ remote_end_networks c).

(** The peers a packet is not sent to. *)
Definition peers_to_skip (pkt : NetworkPacket) (n : P2PNode) : outcome (list RemotePeerId) :=
  match destination pkt with
  | Direct _ => Ok []
  | Broadcast dont_relay_to =>
    if F64.ltb (relay_broadcast_percentage (config n)) F64.one then
      peers ← get_node_peer_tokens n;
      let peers := filter (λ token, token ∉ dont_relay_to) peers in
      let peers_to_take := F64.floor_as F64.u64_max
        (F64.mul (F64.of_int (as_u32 (Z.of_nat (length peers))))
                 (relay_broadcast_percentage (config n))) in
      Ok (choose_multiple peers (Z.to_nat peers_to_take))
    else Ok dont_relay_to
  end.

(** [process_network_packet] *)
Definition process_network_packet (now : u64) (pkt : NetworkPacket) : N nat :=
  n ← st_get;
  skip ← st_lift (peers_to_skip pkt n);
  let serialized := serialize now (netmsg now (PPacket pkt)) in
  match destination pkt with
  | Direct target =>
    send_over_all_connections serialized (λ c, bool_decide (local_id (remote_peer c) = target))
  | Broadcast _ =>
    send_over_all_connections serialized (λ c, is_valid_broadcast_target c skip (network_id pkt))
  end.

(** [send_message_over_network]: an error counts as nothing sent. *)
Definition send_message_over_network (now : u64) (target_id : option RemotePeerId)
    (dont_relay_to : list RemotePeerId) (network : NetworkId) (msg : bytes) : N nat := λ n,
  let dest := match target_id with Some id => Direct id | None => Broadcast dont_relay_to end in
  match process_network_packet now (MkNetworkPacket dest network msg) n with
  | (Err _, n') => (Ok 0, n')
  | rn => rn
  end.

Definition send_direct_message (now : u64) (target_id : RemotePeerId) (network : NetworkId)
    (msg : bytes) : N nat :=
  send_message_over_network now (Some target_id) [] network msg.
Definition send_broadcast_message (now : u64) (dont_relay_to : list RemotePeerId)
    (network : NetworkId) (msg : bytes) : N nat :=
  send_message_over_network now None dont_relay_to network msg.

(** ** Removing connections *)

(** [remove_connection]: the remote peer of the connection that was closed. *)
Definition remove_connection (now : u64) (t : Token) : N (option RemotePeer) := λ n,
  match node_candidates n !! t with
  | Some c => (Ok (Some (remote_peer c)),
               drop_connection c (with_conn_candidates (delete t (node_candidates n)) n))
  | None =>
    match node_connections n !! t with
    | Some c => (Ok (Some (remote_peer c)),
                 drop_connection c (bump_last_peer_update now
                   (with_connections (delete t (node_connections n)) n)))
    | None => (Ok None, n)
    end
  end.

(** One round of the loop of [remove_connections]. *)
Definition remove_one (t : Token) : P2PNode * bool * bool → P2PNode * bool * bool :=
  λ '(n, removed_peers, removed_candidates),
  match node_candidates n !! t with
  | Some c => (drop_connection c (with_conn_candidates (delete t (node_candidates n)) n),
               removed_peers, true)
  | None =>
    match node_connections n !! t with
    | Some c => (drop_connection c (with_connections (delete t (node_connections n)) n),
                 true, removed_candidates)
    | None => (n, removed_peers, removed_candidates)
    end
  end.

Definition remove_connections (now : u64) (tokens : list Token) : N bool := λ n,
  let '(n, removed_peers, removed_candidates) :=
    foldl (λ s t, remove_one t s) (n, false, false) tokens in
  (Ok (removed_candidates || removed_peers),
   if removed_peers : bool then bump_last_peer_update now n else n).

(** [HashMap::retain] on candidates and on connections; the connections that
    do not pass are dropped. *)
Definition retain_candidates (keep : Conn → bool) (n : P2PNode) : P2PNode :=
  drop_connections (filter (λ c, negb (keep c)) (map_values (node_candidates n)))
    (with_conn_candidates (filter (λ '(_, c), keep c) (node_candidates n)) n).
Definition retain_connections (keep : Conn → bool) (n : P2PNode) : P2PNode :=
  drop_connections (filter (λ c, negb (keep c)) (map_values (node_connections n)))
    (with_connections (filter (λ '(_, c), keep c) (node_connections n)) n).

Definition remove_connection_to_addr (addr : SocketAddr) (n : P2PNode) : P2PNode :=
  let keep c := bool_decide (remote_addr c ≠ addr) in
  retain_connections keep (retain_candidates keep n).

(** ** Opening connections *)

(** [Connection::new] *)
Definition Connection_new (env : Env) (n : P2PNode) (sock : TcpStream) (token : Token)
    (peer : RemotePeer) (initiator : bool) : outcome Conn :=
  let ll := ConnectionLowLevel_new sock initiator (socket_read_size (config n))
              (socket_write_size (config n)) (socket_so_linger (config n)) in
  poll_register env token ;;
  Ok (MkConnection peer ll ∅ (ConnectionStats_new (now_stamp env)) (MessageQueues_new 1024 128)
        WIRE_PROTOCOL_CURRENT_VERSION).

(** [next_token.fetch_add(1)] *)
Definition fetch_token (n : P2PNode) : Token * P2PNode :=
  let t := next_token (handler n) in (MkToken t, with_next_token (u64_add t 1) n).

Definition new_remote_peer (addr : SocketAddr) (token : Token) (t : PeerType) : RemotePeer :=
  MkRemotePeer None addr (RemotePeerId_from_token token) (addr_port addr) t.

Inductive AcceptFailureReason :=
  | TooManyConnections (addr : SocketAddr)
  | AlreadyConnectedToIP (ip : IpAddr)
  | DuplicateConnection (addr : SocketAddr)
  | AcceptBanned
  | AcceptSoftBanned
  | AcceptOther (e : error).

(** The check of an incoming address against the open connections. *)
Definition accept_conflict (addr : SocketAddr) (disallow : bool) (c : Conn) :
    option AcceptFailureReason :=
  if decide (addr_ip (remote_addr c) = addr_ip addr) then
    if disallow then Some (AlreadyConnectedToIP (addr_ip addr))
    else if decide (addr_port (remote_addr c) = addr_port addr
                    ∨ external_port (remote_peer c) = addr_port addr)
    then Some (DuplicateConnection addr)
    else None
  else None.

Fixpoint first_some {A B} (f : A → option B) (l : list A) : option B :=
  match l with
  | [] => None
  | a :: l => match f a with Some b => Some b | None => first_some f l end
  end.

(** Why an incoming connection is refused, if it is. *)
Definition accept_refusal (addr : SocketAddr) (n : P2PNode) : option AcceptFailureReason :=
  if refuses_ip (addr_ip addr) n then Some AcceptBanned
  else if decide (node_peer_type n = Node ∧
                  (hard_connection_limit (config n)
                   ≤ Z.of_nat (size (node_candidates n) + size (node_connections n)))%Z)
  then Some (TooManyConnections addr)
  else match first_some (accept_conflict addr (disallow_multiple_peers_on_ip (config n)))
               (candidates_then_connections n) with
       | Some e => Some e
       | None => if is_soft_banned addr (handler n) then Some AcceptSoftBanned else None
       end.

(** [accept] *)
Definition accept (env : Env) (sock : TcpStream) (addr : SocketAddr) :
    N (AcceptFailureReason + Token) := λ n,
  let n := with_stats (conn_received_inc (stats n)) n in
  match accept_refusal addr n with
  | Some e => (Ok (inl e), n)
  | None =>
    let '(token, n) := fetch_token n in
    match Connection_new env n sock token (new_remote_peer addr token Node) false with
    | Ok c => (Ok (inr token), with_conn_candidates (<[conn_token c := c]> (node_candidates n)) n)
    | Err e => (Ok (inl (AcceptOther e)), n)
    | Panic m => (Panic m, n)
    end
  end.

(** The check of an address to connect to against the open connections. *)
Definition connect_conflict (addr : SocketAddr) (disallow : bool) (c : Conn) : bool :=
  if disallow then bool_decide (addr_ip (remote_addr c) = addr_ip addr)
  else bool_decide (remote_addr c = addr) || bool_decide (external_addr (remote_peer c) = addr).

(** The checks of [connect] before the socket is opened. *)
Definition connect_checks (t : PeerType) (addr : SocketAddr) (respect_max_peers : bool)
    (n : P2PNode) : outcome unit :=
  (if respect_max_peers && bool_decide (t = Node) then
     get_peer_stats (Some Node) n ≫= λ stats : list PeerStats,
     ensure (bool_decide (as_u16 (Z.of_nat (length stats)) < max_allowed_nodes (config n))%Z)
       "Maximum number of peers reached"
   else Ok tt) ;;
  ensure (negb (bool_decide (p2p_addr (self_peer n) = addr))) "Attempted to connect to myself" ;;
  ensure (negb (refuses_ip (addr_ip addr) n)) "Refusing to connect to a banned IP" ;;
  ensure (negb (is_soft_banned addr (handler n))) "Refusing to connect to a soft-banned IP" ;;
  ensure (negb (existsb (connect_conflict addr (disallow_multiple_peers_on_ip (config n)))
                  (map_values (node_connections n) ++ map_values (node_candidates n))))
    "Already connected".

(** The part of [connect] with an open socket. *)
Definition connect_socket (env : Env) (t : PeerType) (addr : SocketAddr) (sock : TcpStream) :
    N unit := λ n,
  let n := with_stats (conn_received_inc (stats n)) n in
  let '(token, n) := fetch_token n in
  match Connection_new env n sock token (new_remote_peer addr token t) true with
  | Ok c =>
    match send_handshake_message_a (low_level c) with
    | (Ok _, ll) =>
      let c := with_low_level ll c in
      (Ok tt, with_conn_candidates (<[conn_token c := c]> (node_candidates n)) n)
    | (Err e, _) => (Err e, drop_connection c n)
    | (Panic m, _) => (Panic m, n)
    end
  | Err e => (Err e, n)
  | Panic m => (Panic m, n)
  end.

(** [connect]; a node that cannot be reached is soft-banned. *)
Definition connect (env : Env) (t : PeerType) (addr : SocketAddr) (respect_max_peers : bool) :
    N unit :=
  n ← st_get;
  st_lift (connect_checks t addr respect_max_peers n) ;;
  match tcp_connect env addr with
  | Ok sock => connect_socket env t addr sock
  | Err e =>
    (match t with
     | Node => st_modify (λ n, with_soft_bans (<[BanSocket addr :=
         (now_instant env + UNREACHABLE_EXPIRATION_SECS * 1000)%Z]> (soft_bans (handler n))) n)
     | Bootstrapper => mret tt
     end) ;;
    st_lift (Err e)
  | Panic m => st_lift (Panic m)
  end.

(** ** Bans that close connections ([p2p/bans.rs]) *)

Definition drop_by_id (id : RemotePeerId) : N bool := λ n,
  match find_conn_token_by_id id n with
  | Some t => (Ok true, register_conn_change (RemovalByToken t) n)
  | None => (Ok false, n)
  end.

Definition drop_by_ip_and_ban (ip : IpAddr) : N bool :=
  ban_ip ip ;;
  st_modify (λ n, with_given_addresses
    (filter (λ addr, addr_ip addr ≠ ip) (given_addresses n)) n) ;;
  n ← st_get;
  let tokens := find_conn_tokens_by_ip ip n in
  st_modify (register_conn_change (RemoveAllByTokens tokens)) ;;
  mret (negb (bool_decide (tokens = []))).

Definition drop_addr (addr : SocketAddr) : N bool := λ n,
  let n := with_given_addresses (given_addresses n ∖ {[addr]}) n in
  match find_conn_to addr n with
  | Some t => (Ok true, register_conn_change (RemovalByToken t) n)
  | None => (Ok false, n)
  end.

(** ** Bootstrapping *)

(** [get_bootstrap_nodes] of [utils.rs]: names that do not resolve are left out. *)
Definition get_bootstrap_nodes (env : Env) (names : list string) : outcome (list SocketAddr) :=
  if decide (names = []) then bail "No bootstrap nodes specified."
  else Ok (flat_map (λ name, match resolve env name with Ok addrs => addrs | _ => [] end) names).

Definition attempt_bootstrap (env : Env) (n : P2PNode) : P2PNode :=
  if no_net (config n) then n
  else match get_bootstrap_nodes env (bootstrap_nodes (config n)) with
       | Ok nodes => foldl (λ n addr, register_conn_change (NewConn addr Bootstrapper false) n) n nodes
       | _ => n
       end.

(** ** Housekeeping *)

Definition is_conn_faulty (n : P2PNode) (c : Conn) : bool :=
  match max_latency (config n) with
  | Some max => bool_decide (max ≤ conn_latency c)%Z
  | None => false
  end.

Definition is_conn_inactive (curr_stamp : u64) (n : P2PNode) (c : Conn) : bool :=
  match node_peer_type n with
  | Node => bool_decide (u64_add (conn_last_seen c) (max_normal_keep_alive_ms (config n))
                         < curr_stamp)%Z
  | Bootstrapper =>
    bool_decide (u64_add (created (conn_stats c)) MAX_BOOTSTRAPPER_KEEP_ALIVE < curr_stamp)%Z
  end.

Definition is_conn_without_handshake (curr_stamp : u64) (c : Conn) : bool :=
  bool_decide (u64_add (created (conn_stats c)) MAX_PREHANDSHAKE_KEEP_ALIVE < curr_stamp)%Z.

(** Faulty and inactive connections are removed. *)
Definition remove_faulty (now : u64) (n : P2PNode) : P2PNode :=
  let bad c := is_conn_faulty n c || is_conn_inactive now n c in
  let n' := retain_connections (λ c, negb (bad c)) n in
  if existsb bad (map_values (node_connections n)) then bump_last_peer_update now n' else n'.

(** Connections above the limit are closed, those to given addresses excepted. *)
Definition drop_excess (now : u64) : N unit :=
  n ← st_get;
  match node_peer_type n with
  | Bootstrapper => mret tt
  | Node =>
    stats ← st_lift (get_peer_stats (Some Node) n);
    let peer_count := as_u16 (Z.of_nat (length stats)) in
    if decide (max_allowed_nodes (config n) < peer_count)%Z then
      let non_given := (map_iter (node_connections n)) ≫= λ '(t, c),
        if is_given_connection c n then [] else [t] in
      let to_drop := choose_multiple non_given
        (Z.to_nat (peer_count - max_allowed_nodes (config n))) in
      remove_connections now to_drop ;; mret tt
    else mret tt
  end.

Definition lift_soft_bans (env : Env) (n : P2PNode) : P2PNode :=
  with_soft_bans (filter (λ '(_, expiry), (now_instant env < expiry)%Z) (soft_bans (handler n))) n.

(** [connection_housekeeping]: was bootstrapping attempted? *)
Definition connection_housekeeping (env : Env) : N bool :=
  let now := now_stamp env in
  st_modify (retain_candidates (λ c, negb (is_conn_without_handshake now c))) ;;
  st_modify (remove_faulty now) ;;
  drop_excess now ;;
  st_modify (lift_soft_bans env) ;;
  n ← st_get;
  st_for (set_iter (unconnected_given_addresses n)) (λ given,
    st_try (connect env Node given false)) ;;
  st_modify (with_bad_events BadEvents_default) ;;
  n ← st_get;
  if negb (no_bootstrap_dns (config n)) && bool_decide (node_peer_type n = Node)
     && bool_decide (u64_add (last_bootstrap (handler n))
                       (u64_mul (bootstrapping_interval (config n)) 1000) ≤ now)%Z
  then st_modify (attempt_bootstrap env) ;; mret true
  else mret false.

(** ** Peer count and throughput ([p2p/peers.rs]) *)

(** [check_peers] *)
Definition check_peers (env : Env) (peer_stats : list PeerStats) (attempted_bootstrap : bool) :
    N unit :=
  n ← st_get;
  match node_peer_type n with
  | Bootstrapper => mret tt
  | Node =>
    let node_count := length (filter (λ p, ps_peer_type p = Node) peer_stats) in
    if negb (no_net (config n))
       && bool_decide (Z.of_nat node_count < desired_nodes_count (config n))%Z then
      if decide (peer_stats = []) then
        if attempted_bootstrap || no_bootstrap_dns (config n) then mret tt
        else st_modify (attempt_bootstrap env)
      else send_get_peers (now_stamp env)
    else mret tt
  end.
End connectivity.

(** [calculate_average_throughput] *)
Definition calculate_average_throughput (before_millis now_millis : i64)
    (prev_bytes_recv bytes_recv prev_bytes_sent bytes_sent : u64) : outcome (u64 * u64) :=
  ensure (bool_decide (before_millis < now_millis)%Z)
    "Time went backwards or did not change. Refusing to calculate average throughput." ;;
  let delta := as_u64 (as_i64 (now_millis - before_millis)) in
  ensure (bool_decide (prev_bytes_recv ≤ bytes_recv)%Z)
    "Received bytes were lost. Refusing to calculate average throughput." ;;
  avg_bps_in ← u64_div (u64_mul 1000 (u64_sub bytes_recv prev_bytes_recv)) delta;
  ensure (bool_decide (prev_bytes_sent ≤ bytes_sent)%Z)
    "Sent bytes were lost. Refusing to calculate average throughput." ;;
  avg_bps_out ← u64_div (u64_mul 1000 (u64_sub bytes_sent prev_bytes_sent)) delta;
  Ok (avg_bps_in, avg_bps_out).

(** [measure_throughput] at the wall-clock time [now]. *)
Definition measure_throughput `{!NodeExt} (now : i64) (peer_stats : list PeerStats) :
    ST P2PNode unit :=
  n ← st_get;
  let prev_bytes_received := st_bytes_received (stats n) in
  let prev_bytes_sent := st_bytes_sent (stats n) in
  let '(received, sent) := foldl (λ '(acc_i, acc_o) ps,
      (u64_add acc_i (ps_bytes_received ps), u64_add acc_o (ps_bytes_sent ps)))
    (0%Z, 0%Z) (filter (λ ps, ps_peer_type ps = Node) peer_stats) in
  let set f := st_modify (λ n, with_stats (f (stats n)) n) in
  set (with_st_bytes_received received) ;;
  set (with_st_bytes_sent sent) ;;
  '(avg_in, avg_out) ← st_lift (calculate_average_throughput
    (last_throughput_measurement_timestamp (stats n)) now
    prev_bytes_received received prev_bytes_sent sent);
  set (with_avg_bps_in avg_in) ;;
  set (with_avg_bps_out avg_out) ;;
  set (with_last_throughput_measurement_timestamp now).

(** ** Throughput *)

(** The average throughput is computed exactly when time has passed and no
    counter went backwards; it is then the number of octets in the interval
    per second, rounded down, and the division is never by zero (the interval
    and the counters being small enough not to overflow). *)
Theorem average_throughput_spec before now pr r ps s :
  (- 2 ^ 62 ≤ before < 2 ^ 62)%Z → (- 2 ^ 62 ≤ now < 2 ^ 62)%Z →
  (0 ≤ pr < 2 ^ 54)%Z → (0 ≤ r < 2 ^ 54)%Z → (0 ≤ ps < 2 ^ 54)%Z → (0 ≤ s < 2 ^ 54)%Z →
  ((before < now ∧ pr ≤ r ∧ ps ≤ s)%Z ∧
     calculate_average_throughput before now pr r ps s
     = Ok (1000 * (r - pr) / (now - before), 1000 * (s - ps) / (now - before))%Z)
  ∨ (¬ (before < now ∧ pr ≤ r ∧ ps ≤ s)%Z ∧
     ∃ m, calculate_average_throughput before now pr r ps s = Err (Other m)).
Proof.
  intros Hb Hn Hpr Hr Hps Hs. unfold calculate_average_throughput, ensure, bail.
  destruct (decide (before < now)%Z) as [H1|H1];
    [rewrite (bool_decide_true (before < now)%Z) by done|
     rewrite (bool_decide_false (before < now)%Z) by done; right; split;
       [lia|eexists; reflexivity]].
  assert (as_u64 (as_i64 (now - before)) = now - before)%Z as ->.
  { rewrite as_i64_small by lia. unfold as_u64. apply wrap_small. unfold fits. lia. }
  destruct (decide (pr ≤ r)%Z) as [H2|H2];
    [rewrite (bool_decide_true (pr ≤ r)%Z) by done|
     rewrite (bool_decide_false (pr ≤ r)%Z) by done; right; split;
       [lia|eexists; reflexivity]].
  rewrite (u64_sub_small r), (u64_mul_small 1000 (r - pr)) by (unfold fits; lia).
  rewrite !u64_div_ok by lia. rewrite !bind_Ok.
  destruct (decide (ps ≤ s)%Z) as [H3|H3];
    [rewrite (bool_decide_true (ps ≤ s)%Z) by done|
     rewrite (bool_decide_false (ps ≤ s)%Z) by done; right; split;
       [lia|eexists; reflexivity]].
  rewrite u64_sub_small, u64_mul_small by (unfold fits; lia).
  left. split; [lia|reflexivity].
Qed.

Lemma average_throughput_spec_witness :
  calculate_average_throughput 1 1001 1 1001 1 2001 = Ok (1000, 2000)%Z.
Proof.
  destruct (average_throughput_spec 1 1001 1 1001 1 2001) as [[_ H]|[H _]]; try lia; exact H.
Defined.
