(* ===== verification/ConsensusPlugin.v ===== *)
(** * The consensus plugin

    Models [concordium-node/src/plugins/consensus.rs]: messages between the
    network layer and consensus, their relay to other peers, and catch-up with
    peers on the state of the node.  Consensus itself is a parameter: what it
    answers to each call is a field of [Consensus]. *)
From S2P Require Import Prelude.
From S2P Require Import PeerTypes.
From S2P Require Import NetTypes.
From S2P Require Import FfiHelpers.
From S2P Require Import CatchUp.
From S2P Require Import Float.
From S2P Require Import Config.
From S2P Require Import NodeState.
From S2P Require Import Connectivity.

(** The answers of consensus; a received block may come with a callback that
    executes it. *)
Record Consensus := MkConsensus {
  receive_block : u32 → bytes → ConsensusFfiResponse * bool;
  send_finalization : u32 → bytes → ConsensusFfiResponse;
  send_finalization_record : u32 → bytes → ConsensusFfiResponse;
  receive_catch_up_status : u32 → bytes → RemotePeerId → i64 → ConsensusFfiResponse;
  send_transaction : bytes → ConsensusFfiResponse;
  get_catch_up_status : bytes;
}.

Section plugin.
Context `{!NodeExt}.

Abbreviation N := (ST P2PNode) (only parsing).

(** ** Messages to the network *)

Definition send_consensus_msg_to_net (now : u64) (exclude : list RemotePeerId)
    (target_id : option RemotePeerId) (msg : bytes) : N unit :=
  n ← st_get;
  (match target_id with
   | Some id => send_direct_message now id (default_network (config n)) msg
   | None => send_broadcast_message now exclude (default_network (config n)) msg
   end) ;;
  mret tt.

(** The peers of the catch-up list with a status the predicate accepts. *)
Definition peers_with (p : RemotePeerId → PeerStatus → bool) (l : CatchUp.PeerList) :
    list RemotePeerId :=
  (filter (λ '(id, state), p id state) (map_iter (peer_states l))).*1.

(** [handle_consensus_outbound_msg] *)
Definition handle_consensus_outbound_msg (now : u64) (m : ConsensusMessage) : N unit :=
  match omit_status m with
  | Some status =>
    n ← st_get;
    st_for (peers_with (λ _ state, bool_decide (state ≠ status)) (peers n)) (λ peer,
      send_consensus_msg_to_net now [] (Some peer) (payload m))
  | None =>
    target ← st_lift (target_peer m);
    send_consensus_msg_to_net now (dont_relay_to m) target (payload m)
  end.

(** ** Messages from the network *)

(** [u32::deserial] on the first four octets, with the rest of the payload. *)
Definition split_genesis_index (body : bytes) : outcome (u32 * bytes) :=
  head ← slice_to 4 body;
  '(genesis_index, _) ← deserial_u32 head;
  rest ← slice_from 4 body;
  Ok (genesis_index, rest).

(** [send_msg_to_consensus]: the response, and whether a callback came with it. *)
Definition send_msg_to_consensus (consensus : Consensus) (source_id : RemotePeerId)
    (m : ConsensusMessage) : N (ConsensusFfiResponse * bool) :=
  n ← st_get;
  body ← st_lift (slice_from 1 (payload m));
  response ← st_lift (
    match variant m with
    | Block => '(i, rest) ← split_genesis_index body; Ok (receive_block consensus i rest)
    | FinalizationMessage =>
      '(i, rest) ← split_genesis_index body; Ok (send_finalization consensus i rest, false)
    | FinalizationRecord =>
      '(i, rest) ← split_genesis_index body; Ok (send_finalization_record consensus i rest, false)
    | CatchUpStatus =>
      '(i, rest) ← split_genesis_index body;
      Ok (receive_catch_up_status consensus i rest source_id (catch_up_batch_limit (config n)),
          false)
    | Transaction => Ok (send_transaction consensus body, false)
    end);
  (if is_acceptable response.1 then mret tt
   else st_modify (λ n, with_bad_events (inc_invalid_messages source_id (bad_events n)) n)) ;;
  mret response.

(** [update_peer_states]: the list of peers changes by [update_status];
    incompatible peers are expelled, and successful direct messages are relayed
    to the peers that are not pending. *)
Definition update_peer_states (now : u64) (m : ConsensusMessage) (result : ConsensusFfiResponse) :
    N unit :=
  source ← st_lift (source_peer m);
  st_modify (λ n, with_peers (update_status source (variant m) (distribution_mode m) result (peers n)) n) ;;
  match variant m with
  | CatchUpStatus =>
    match result with
    | InvalidResult | DeserializationError =>
      st_modify (register_conn_change (ExpulsionByToken (to_token source)))
    | _ => mret tt
    end
  | Block | FinalizationRecord =>
    if decide (distribution_mode m = DistDirect ∧ is_successful result = true) then
      n ← st_get;
      st_for (peers_with (λ id state, bool_decide (id ≠ source ∧ state ≠ Pending)) (peers n))
        (λ peer, send_consensus_msg_to_net now [] (Some peer) (payload m))
    else mret tt
  | _ => mret tt
  end.

(** [handle_consensus_inbound_msg]; [sample] draws from the Bernoulli
    distribution with the given probability.  The result says whether the
    callback of a received block is run. *)
Definition handle_consensus_inbound_msg (now : u64) (sample : F64.t → outcome bool)
    (consensus : Consensus) (m : ConsensusMessage) : N bool :=
  n ← st_get;
  drop_message ← st_lift (match drop_rebroadcast_probability (config n) with
                          | Some probability => sample probability
                          | None => Ok false
                          end);
  source ← st_lift (source_peer m);
  '(result, callback) ← send_msg_to_consensus consensus source m;
  update_peer_states now m result ;;
  (if negb drop_message
      && bool_decide (distribution_mode m = DistBroadcast)
      && PacketType_is_rebroadcastable (variant m)
      && is_rebroadcastable result (variant m)
   then send_consensus_msg_to_net now (dont_relay_to m) None (payload m)
   else mret tt) ;;
  mret callback.

(** ** Catch-up *)

(** [update_peer_list] *)
Definition node_update_peer_list : N unit :=
  n ← st_get;
  peer_ids ← st_lift (get_node_peer_tokens n);
  l ← st_lift (update_peer_list peer_ids (peers n));
  st_modify (with_peers l).

(** [try_catch_up] *)
Definition node_try_catch_up (now : u64) (consensus : Consensus) : N unit :=
  n ← st_get;
  let message id :=
    send_direct_message now id (default_network (config n)) (get_catch_up_status consensus) in
  let sent id := match message id n with (Ok k, _) => k | _ => 0 end in
  match try_catch_up now sent (peers n) with
  | (Some id, l) => message id ;; st_modify (with_peers l)
  | (None, l) => st_modify (with_peers l)
  end.

(** [check_peer_states] *)
Definition check_peer_states (now : u64) (consensus : Consensus) : N unit :=
  n ← st_get;
  (if trigger_catchup (regenesis n) then
     st_modify (λ n, with_peers (mark_all_pending (peers n))
       (with_regenesis (MkRegenesis _ (genesis_blocks_known (regenesis n)) false
          (stop_network (regenesis n))) n))
   else mret tt) ;;
  n ← st_get;
  match catch_up_peer (peers n) with
  | Some peer_id =>
    if decide (is_Some (node_connections n !! to_token peer_id)) then
      if decide (u64_add (catch_up_stamp (peers n)) MAX_CATCH_UP_TIME < now)%Z
      then st_modify (register_conn_change (RemovalByToken (to_token peer_id)))
      else mret tt
    else
      st_modify (λ n, with_peers (drop_catch_up_peer peer_id (peers n)) n) ;;
      node_try_catch_up now consensus
  | None => node_try_catch_up now consensus
  end.
End plugin.
