(* ===== verification/Maintenance.v ===== *)
(** * Maintenance of the node

    Models [concordium-node/src/p2p/maintenance.rs] ([P2PNode::new], the poll
    loop of [spawn], [process_conn_change], [close]) and
    [process_network_events] of [p2p/connectivity.rs].  One iteration of the
    poll loop is a function of the state of the loop and of what the operating
    system delivers; connections that are processed in parallel are processed
    one after the other, in an order the theorems do not depend on. *)
From S2P Require Import Prelude.
From S2P Require Import PeerTypes.
From S2P Require Import Dedup.
From S2P Require Import ConnParts.
From S2P Require Import NetTypes.
From S2P Require Import Noise.
From S2P Require Import LowLevel.
From S2P Require Import CatchUp.
From S2P Require Import Buckets.
From S2P Require Import Config.
From S2P Require Import NodeState.
From S2P Require Import Bans.
From S2P Require Import ConnMethods.
From S2P Require Import Connectivity.
From S2P Require Import ConsensusPlugin.

Section maintenance.
Context `{!NodeExt}.

Abbreviation Conn := (Connection session) (only parsing).
Abbreviation N := (ST P2PNode) (only parsing).

(** ** A new node *)

Definition ConnectionHandler_new (conf : Config) (seeds : u64 * u64 * u64 * u64) :
    ConnectionHandler :=
  let c := conf_connection conf in {|
    next_token := 1;
    handler_buckets := Buckets_default;
    conn_candidates := ∅;
    connections := ∅;
    conn_changes := [];
    soft_bans := ∅;
    handler_networks := list_to_set (MkNetworkId <$> common_network_ids (conf_common conf));
    deduplication_queues := DeduplicationQueues_new (cc_deduplication_hashing_algorithm c) seeds
      (cc_dedup_size_long c) (cc_dedup_size_short c);
    last_bootstrap := 0;
    last_peer_update := 0;
    total_received := 0;
    total_sent := 0;
  |}.

(** [parse_config_nodes] *)
Fixpoint parse_config_nodes (env : Env) (connect_to : list string) : outcome (gset SocketAddr) :=
  match connect_to with
  | [] => Ok ∅
  | name :: rest =>
    new_addresses ← resolve env name;
    out ← parse_config_nodes env rest;
    Ok (list_to_set new_addresses ∪ out)
  end.

(** [get_ip_if_suitable] and [get_ip] over the addresses of the adapters. *)
Definition get_ip_if_suitable (addr : IpAddr) : option IpAddr :=
  match addr with
  | V4 x => if negb (is_loopback x) && negb (is_link_local x) && negb (is_multicast x)
               && negb (is_broadcast x) then Some (V4 x) else None
  | V6 _ => None
  end.

Definition LOCALHOST : IpAddr := V4 2130706433.

Definition get_ip (adapters : list IpAddr) : option IpAddr :=
  let ip := foldl (λ ip a, default ip (get_ip_if_suitable a)) LOCALHOST adapters in
  if decide (ip = LOCALHOST) then None else Some ip.

(** [P2PNode::new] with the address of the node ([ip]), its identifier, the
    persistent store and the random seeds already obtained. *)
Definition P2PNode_new (env : Env) (ip : IpAddr) (id : P2PNodeId) (conf : Config) (t : PeerType)
    (store : kv) (seeds : u64 * u64 * u64 * u64) (s : StatsExportService) (r : Regenesis) :
    outcome P2PNode :=
  let port := default (common_listen_port (conf_common conf)) (common_external_port (conf_common conf)) in
  given ← parse_config_nodes env (cc_connect_to (conf_connection conf));
  config ← NodeConfig_new conf t;
  let n := {|
    self_peer := MkP2PPeer id (MkSocketAddr ip port) t;
    handler := ConnectionHandler_new conf seeds;
    stats := s;
    config := config;
    given_addresses := given;
    kvs := store;
    peers := PeerList_default;
    bad_events := BadEvents_default;
    regenesis := r;
    callback_queue := ConsensusQueues_default |} in
  if no_clear_bans config then Ok n
  else match st_try clear_bans n with
       | (Ok _, n) => Ok n
       | (Err e, _) => Err e
       | (Panic m, _) => Panic m
       end.

(** ** Changes to the set of connections *)

(** [process_conn_change] for [NewPeers]: the loop over the shuffled peers with
    the number of connections opened so far. *)
Fixpoint connect_new_peers (env : Env) (curr_peer_count new_peers : nat) (ps : list P2PPeer) :
    N unit :=
  match ps with
  | [] => mret tt
  | peer :: ps =>
    n ← st_get;
    if decide (desired_nodes_count (config n) ≤ Z.of_nat (new_peers + curr_peer_count))%Z
    then mret tt
    else λ n,
      match connect env Node (p2p_addr peer) true n with
      | (Ok _, n) => connect_new_peers env curr_peer_count (S new_peers) ps n
      | (Err _, n) => connect_new_peers env curr_peer_count new_peers ps n
      | (Panic m, n) => (Panic m, n)
      end
  end.

(** [ConnChange::Promotion] *)
Definition promote (now : u64) (t : Token) (n : P2PNode) : P2PNode :=
  match node_candidates n !! t with
  | None => n
  | Some c =>
    let n := with_conn_candidates (delete t (node_candidates n)) n in
    if connected_to (external_addr (remote_peer c)) (map_values (node_connections n))
    then drop_connection c n
    else bump_last_peer_update now
           (with_connections (<[conn_token c := c]> (node_connections n)) n)
  end.

(** [process_conn_change] *)
Definition process_conn_change (env : Env) (change : ConnChange) : N unit :=
  let now := now_stamp env in
  match change with
  | NewConn addr t given => λ n,
    match connect env t addr (negb given) n with
    | (Ok _, n) => (Ok tt, if given then with_given_addresses ({[addr]} ∪ given_addresses n) n else n)
    | (Err _, n) => (Ok tt, n)
    | (Panic m, n) => (Panic m, n)
    end
  | Promotion t => st_modify (promote now t)
  | NewPeers ps =>
    n ← st_get;
    current_peers ← st_lift (get_peer_stats (Some Node) n);
    connect_new_peers env (length current_peers) 0 (shuffle ps)
  | ExpulsionByToken t =>
    r ← remove_connection now t;
    match r with
    | Some p => st_modify (λ n, with_soft_bans (<[BanIp (addr_ip (rp_addr p)) :=
        (now_instant env + SOFT_BAN_DURATION_SECS * 1000)%Z]> (soft_bans (handler n))) n)
    | None => mret tt
    end
  | RemovalByToken t => remove_connection now t ;; mret tt
  | RemoveAllByTokens ts => remove_connections now ts ;; mret tt
  end.

(** [for conn_change in changes.try_iter()]: the queue is emptied, including
    the changes registered while it is processed; [rounds] bounds them. *)
Fixpoint process_conn_changes (rounds : nat) (env : Env) : N unit :=
  n ← st_get;
  match conn_changes (handler n) with
  | [] => mret tt
  | change :: rest =>
    match rounds with
    | O => mret tt
    | S rounds =>
      st_modify (with_conn_changes rest) ;;
      process_conn_change env change ;;
      process_conn_changes rounds env
    end
  end.

(** ** Network events *)

(** An event of the poll; [ev_closed] stands for a closed half or an error. *)
Record Event := MkEvent {
  ev_token : Token;
  ev_readable : bool;
  ev_writable : bool;
  ev_closed : bool;
}.

Definition any_event (p : Event → bool) (t : Token) (events : list Event) : bool :=
  existsb (λ e, bool_decide (ev_token e = t) && p e) events.

(** A connection that failed is removed; it is expelled unless the error came
    from the socket. *)
Definition register_failure (e : error) : ST (Conn * P2PNode) unit :=
  c ← get_conn;
  modify_node (register_conn_change
    (if is_io_error e then RemovalByToken (conn_token c) else ExpulsionByToken (conn_token c))).

(** The check for closed connections that ends the processing of one. *)
Definition check_closed (events : list Event) : ST (Conn * P2PNode) unit :=
  c ← get_conn;
  if any_event ev_closed (conn_token c) events
  then modify_node (register_conn_change (RemovalByToken (conn_token c)))
  else mret tt.

(** Reading from a connection for which there is a readable event. *)
Definition process_readable (now : u64) (version : outcome Version) (events : list Event)
    (conn_stats : list PeerStats) : ST (Conn * P2PNode) unit := λ s,
  match read_stream now version conn_stats s with
  | (Err e, s) => register_failure e s
  | (Panic m, s) => (Panic m, s)
  | (Ok None, s) => (Panic "out of rounds", s)
  | (Ok (Some false), s) =>
    modify_node (register_conn_change (RemovalByToken (conn_token s.1))) s
  | (Ok (Some true), s) => check_closed events s
  end.

(** Queued messages are written and the socket is flushed before it is read. *)
Definition process_io (now : u64) (version : outcome Version) (events : list Event)
    (conn_stats : list PeerStats) : ST (Conn * P2PNode) unit := λ s,
  match (send_pending_messages ;; lift_low flush_socket) s with
  | (Err e, s) => register_failure e s
  | (Panic m, s) => (Panic m, s)
  | (Ok _, s) =>
    if any_event ev_readable (conn_token s.1) events
    then process_readable now version events conn_stats s
    else check_closed events s
  end.

(** The body of [process_network_events] for one connection. *)
Definition process_connection (now : u64) (version : outcome Version) (events : list Event)
    (conn_stats : list PeerStats) : ST (Conn * P2PNode) unit :=
  c ← get_conn;
  (if any_event ev_writable (conn_token c) events then lift_low notify_writable else mret tt) ;;
  process_io now version events conn_stats.

(** Run a computation on a candidate, or on a connection, of the node. *)
Definition on_candidate (t : Token) (m : ST (Conn * P2PNode) unit) : N unit := λ n,
  match node_candidates n !! t with
  | None => (Ok tt, n)
  | Some c =>
    let '(r, (c, n)) := m (c, n) in (r, with_conn_candidates (<[t := c]> (node_candidates n)) n)
  end.
Definition on_connection (t : Token) (m : ST (Conn * P2PNode) unit) : N unit := λ n,
  match node_connections n !! t with
  | None => (Ok tt, n)
  | Some c =>
    let '(r, (c, n)) := m (c, n) in (r, with_connections (<[t := c]> (node_connections n)) n)
  end.

(** [process_network_events] *)
Definition process_network_events (now : u64) (version : outcome Version) (events : list Event) :
    N unit :=
  n ← st_get;
  conn_stats ← st_lift (get_peer_stats (Some Node) n);
  let body := process_connection now version events conn_stats in
  st_for (map_keys (node_candidates n)) (λ t, on_candidate t body) ;;
  st_for (map_keys (node_connections n)) (λ t, on_connection t body).

(** ** The poll loop *)

(** What [TcpListener::accept] returns. *)
Inductive accept_event :=
  | Incoming (sock : TcpStream) (addr : SocketAddr)
  | AcceptError.

(** The loop that accepts connections, at most [attempts] of them: are there
    attempts left to process, and which?  An empty backlog blocks. *)
Fixpoint accept_loop (attempts : nat) (env : Env) (backlog : list accept_event) :
    N (bool * list accept_event) :=
  match attempts with
  | O => mret (true, backlog)
  | S attempts =>
    match backlog with
    | [] => mret (false, [])
    | AcceptError :: backlog => accept_loop attempts env backlog
    | Incoming sock addr :: backlog =>
      r ← accept env sock addr;
      match r with
      | inl (TooManyConnections _) => mret (true, backlog)
      | _ => accept_loop attempts env backlog
      end
    end
  end.

(** The variables of the poll thread, with the node and the pending incoming
    connections. *)
Record PollLoop := MkPollLoop {
  loop_node : P2PNode;
  backlog : list accept_event;
  unprocessed_attempts : bool;
  last_peer_list_update : u64;
  iterations_since_housekeeping : nat;
  log_time : Z;
  last_buckets_cleaned : Z;
}.

(** What happens before and during one iteration. *)
Record PollInput := MkPollInput {
  in_env : Env;
  in_poll_ok : bool;
  in_events : list Event;
  in_listening : bool;
  in_incoming : list accept_event;
  in_version : outcome Version;
  in_utc : i64;
}.

(** Run a computation of the node in the loop. *)
Definition lift_loop {A} (m : N A) : ST PollLoop A := λ s,
  let '(r, n) := m (loop_node s) in
  (r, MkPollLoop n (backlog s) (unprocessed_attempts s) (last_peer_list_update s)
        (iterations_since_housekeeping s) (log_time s) (last_buckets_cleaned s)).

(** New connections. *)
Definition poll_accept (i : PollInput) : ST PollLoop unit :=
  s ← st_get;
  if unprocessed_attempts s || in_listening i then
    '(unprocessed, rest) ← lift_loop (accept_loop
      (Z.to_nat (conn_requests_batch_limit (config (loop_node s)))) (in_env i) (backlog s));
    st_modify (λ s, MkPollLoop (loop_node s) rest unprocessed (last_peer_list_update s)
      (iterations_since_housekeeping s) (log_time s) (last_buckets_cleaned s))
  else mret tt.

(** The catch-up list, when the node takes part in consensus. *)
Definition poll_catch_up (i : PollInput) (consensus : option Consensus) : ST PollLoop unit :=
  match consensus with
  | None => mret tt
  | Some consensus =>
    s ← st_get;
    let update := last_peer_update (handler (loop_node s)) in
    (if decide (last_peer_list_update s < update)%Z then
       lift_loop node_update_peer_list ;;
       st_modify (λ s, MkPollLoop (loop_node s) (backlog s) (unprocessed_attempts s) update
         (iterations_since_housekeeping s) (log_time s) (last_buckets_cleaned s))
     else mret tt) ;;
    lift_loop (check_peer_states (now_stamp (in_env i)) consensus)
  end.

(** Housekeeping, every tenth iteration at most and at its interval. *)
Definition poll_housekeeping (i : PollInput) : ST PollLoop unit :=
  s ← st_get;
  let set n t := st_modify (λ s, MkPollLoop (loop_node s) (backlog s) (unprocessed_attempts s)
    (last_peer_list_update s) n t (last_buckets_cleaned s)) in
  let now := now_instant (in_env i) in
  if decide (10 ≤ iterations_since_housekeeping s) then
    if decide (housekeeping_interval (config (loop_node s)) * 1000 ≤ now - log_time s)%Z then
      attempted ← lift_loop (connection_housekeeping (in_env i));
      (match node_peer_type (loop_node s) with
       | Node => lift_loop (measure_connection_latencies (now_stamp (in_env i)))
       | Bootstrapper => mret tt
       end) ;;
      s ← st_get;
      peer_stats ← st_lift (get_peer_stats None (loop_node s));
      lift_loop (check_peers (in_env i) peer_stats attempted) ;;
      lift_loop (st_try (measure_throughput (in_utc i) peer_stats)) ;;
      set 0 now
    else mret tt
  else set (S (iterations_since_housekeeping s)) (log_time s).

Definition poll_clean_buckets (i : PollInput) : ST PollLoop unit :=
  s ← st_get;
  let conf := config (loop_node s) in
  let now := now_instant (in_env i) in
  if decide (0 < timeout_bucket_entry_period conf ∧
             bucket_cleanup_interval conf ≤ now - last_buckets_cleaned s)%Z then
    lift_loop (λ n, let '(r, b) := clean_buckets (now_stamp (in_env i))
                      (timeout_bucket_entry_period conf) (handler_buckets (handler n)) in
                    (r, with_handler_buckets b n)) ;;
    st_modify (λ s, MkPollLoop (loop_node s) (backlog s) (unprocessed_attempts s)
      (last_peer_list_update s) (iterations_since_housekeeping s) (log_time s) now)
  else mret tt.

(** One iteration of the loop of [spawn]. *)
Definition poll_iteration (consensus : option Consensus) (i : PollInput) : ST PollLoop unit :=
  st_modify (λ s, MkPollLoop (loop_node s) (backlog s ++ in_incoming i) (unprocessed_attempts s)
    (last_peer_list_update s) (iterations_since_housekeeping s) (log_time s)
    (last_buckets_cleaned s)) ;;
  if in_poll_ok i then
    poll_accept i ;;
    s ← st_get;
    lift_loop (process_conn_changes (length (conn_changes (handler (loop_node s)))) (in_env i)) ;;
    poll_catch_up i consensus ;;
    lift_loop (process_network_events (now_stamp (in_env i)) (in_version i) (in_events i)) ;;
    poll_housekeeping i ;;
    poll_clean_buckets i
  else mret tt.

(** The end of the poll thread: all connections are closed. *)
Definition poll_shutdown (n : P2PNode) : P2PNode :=
  let n := drop_connections (map_values (node_candidates n)) (with_conn_candidates ∅ n) in
  let n := drop_connections (map_values (node_connections n)) (with_connections ∅ n) in
  with_peers (clear (peers n)) n.

(** The poll thread on a list of inputs; it ends when the network is stopped. *)
Fixpoint poll_loop (consensus : option Consensus) (inputs : list PollInput) : ST PollLoop unit :=
  s ← st_get;
  if stop_network (regenesis (loop_node s)) then lift_loop (st_modify poll_shutdown)
  else match inputs with
       | [] => mret tt
       | i :: inputs => poll_iteration consensus i ;; poll_loop consensus inputs
       end.

(** ** Start-up *)

(** [connect_to_config_nodes] and [establish_connections] of the node binary. *)
Definition connect_to_config_nodes (env : Env) : N unit :=
  n ← st_get;
  st_for (set_iter (given_addresses n)) (λ given, st_try (connect env Node given false)).

Definition establish_connections (conf : Config) (env : Env) : N unit :=
  connect_to_config_nodes env ;;
  if cc_no_bootstrap_dns (conf_connection conf) then mret tt else st_modify (attempt_bootstrap env).
End maintenance.
