(* ===== verification/NodeExample.v ===== *)
(** * A concrete node

    Instances of everything the node takes from elsewhere, an environment, a
    node and connections, used by the witnesses of the theorems on nodes. *)
From S2P Require Import Prelude.
From S2P Require Import PeerTypes.
From S2P Require Import Dedup.
From S2P Require Import ConnParts.
From S2P Require Import NetTypes.
From S2P Require Import Fbs.
From S2P Require Import Noise.
From S2P Require Import LowLevel.
From S2P Require Import FfiHelpers.
From S2P Require Import CatchUp.
From S2P Require Import Buckets.
From S2P Require Import Float.
From S2P Require Import Config.
From S2P Require Import NodeState.
From S2P Require Import Connectivity.
From S2P Require Import ConsensusPlugin.
From S2P Require Import Maintenance.

Module NodeExample.

(** An address is written as its kind and its value. *)
#[local] Instance ip_serial : Serial IpAddr := {|
  serial ip := match ip with
               | V4 x => 4%Z :: to_be_bytes 4 x
               | V6 x => 6%Z :: to_be_bytes 16 x
               end;
  deserial bs := match bs with
                 | [] => Err (IoError "failed to fill whole buffer")
                 | tag :: bs =>
                   let '(n, f) := if decide (tag = 4%Z) then (4, V4) else (16, V6) in
                   '(x, rest) ← (be_serial n).(deserial) bs; Ok (f x, rest)
                 end;
|}.

Lemma ip_serial_laws :
  SerialLaws IpAddr (λ ip, match ip with V4 x => fits 32 x | V6 x => fits 128 x end).
Proof.
  intros [x|x] rest Hx.
  - change (deserial (serial (V4 x) ++ rest)) with
      ('(y, r) ← (be_serial 4).(deserial) ((be_serial 4).(serial) x ++ rest); Ok (V4 y, r)).
    by rewrite (be_serial_laws 4 x rest Hx).
  - change (deserial (serial (V6 x) ++ rest)) with
      ('(y, r) ← (be_serial 16).(deserial) ((be_serial 16).(serial) x ++ rest); Ok (V6 y, r)).
    by rewrite (be_serial_laws 16 x rest Hx).
Qed.

#[global] Instance ext : NodeExt := {|
  session := toy_noise;
  ne_noise := toy_noise_ops;
  ne_deque := contiguous_deque;
  circular := list_cq;
  ne_circular := list_cq_queue;
  ne_hashes := toy_hashes;
  ne_ext := toy_ext;
  ne_flatbuffers := CodecExample.codec;
  ne_ip_serial := ip_serial;
  deserial_u32 := (be_serial 4).(deserial);
  ne_kv := set_kv;
  ne_rng := prefix_rng;
  ne_networks := canonical_set_iter _;
  ne_addresses := canonical_set_iter _;
  ne_bucket := canonical_map_iter _ _;
  ne_connections := canonical_map_iter _ _;
  ne_peers := canonical_map_iter _ _;
|}.

Definition addr (x port : Z) : SocketAddr := MkSocketAddr (V4 x) port.

(** A socket that accepts three writes, and an environment in which every
    connection can be opened. *)
Definition sock : TcpStream :=
  MkTcpStream [] [] [WAccept 1000; WAccept 1000; WAccept 1000] false true None.
Definition env : Env := {|
  now_stamp := 1000000;
  now_instant := 1000000;
  resolve _ := Ok [];
  tcp_connect _ := Ok sock;
  poll_register _ := Ok tt;
|}.

Definition node_config (relay : F64.t) : NodeConfig := {|
  no_net := false;
  desired_nodes_count := 3;
  no_bootstrap_dns := true;
  no_clear_bans := true;
  disallow_multiple_peers_on_ip := false;
  bootstrap_nodes := [];
  max_allowed_nodes := 4;
  relay_broadcast_percentage := relay;
  poll_interval := 100;
  Config.housekeeping_interval := 30;
  bootstrapping_interval := 7200;
  print_peers := true;
  bootstrapper_wait_minimum_peers := 0;
  max_latency := None;
  hard_connection_limit := 5;
  conn_requests_batch_limit := 2;
  catch_up_batch_limit := 50;
  timeout_bucket_entry_period := 0;
  bucket_cleanup_interval := 600000;
  thread_pool_size := 4;
  dedup_size_long := 4;
  dedup_size_short := 4;
  socket_read_size := 64;
  socket_write_size := 32;
  drop_rebroadcast_probability := None;
  bootstrapper_peer_list_size := 10;
  default_network := MkNetworkId 100;
  socket_so_linger := None;
  events_queue_size := 10;
  deduplication_hashing_algorithm := XxHash64;
  max_normal_keep_alive_ms := 1200000;
|}.

Definition handler0 : ConnectionHandler := {|
  next_token := 1;
  handler_buckets := Buckets_default;
  conn_candidates := ∅;
  connections := ∅;
  conn_changes := [];
  soft_bans := ∅;
  handler_networks := {[ MkNetworkId 100 ]};
  deduplication_queues := DeduplicationQueues_new XxHash64 (1, 2, 3, 4)%Z 4 4;
  last_bootstrap := 0;
  last_peer_update := 0;
  total_received := 0;
  total_sent := 0;
|}.

(** A node without connections that relays to a percentage of its peers. *)
Definition node0_relaying (relay : F64.t) : P2PNode := {|
  self_peer := MkP2PPeer (MkP2PNodeId 7) (addr 10 8888) Node;
  handler := handler0;
  stats := StatsExportService_new;
  config := node_config relay;
  given_addresses := ∅;
  kvs := (∅ : gset bytes);
  peers := PeerList_default;
  bad_events := BadEvents_default;
  regenesis := Regenesis_from_blocks [true];
  callback_queue := ConsensusQueues_default;
|}.

(** A node constructed with the default options. *)
Definition new_node : outcome P2PNode :=
  P2PNode_new env (V4 10) (MkP2PNodeId 7) (Config_default "." ".") Node (∅ : gset bytes)
    (1, 2, 3, 4)%Z StatsExportService_new (Regenesis_from_blocks []).

(** Connection [t] to the peer at address [x], past the handshake when it has an
    identifier. *)
Definition conn (t x : Z) (id : option P2PNodeId) : Connection session := {|
  remote_peer := MkRemotePeer id (addr x 8888) (MkRemotePeerId t) 8888 Node;
  low_level := ConnectionLowLevel_new sock false 64 32 None;
  remote_end_networks := {[ MkNetworkId 100 ]};
  conn_stats := ConnectionStats_new 999000;
  pending_messages := MessageQueues_new 1024 128;
  wire_version := 1;
|}.

(** A node with two peers and a candidate. *)
Definition node3_relaying (relay : F64.t) : P2PNode :=
  with_next_token 4
    (with_conn_candidates {[ MkToken 3 := conn 3 13 None ]}
      (with_connections (<[MkToken 2 := conn 2 12 (Some (MkP2PNodeId 92))]>
         {[ MkToken 1 := conn 1 11 (Some (MkP2PNodeId 91)) ]}) (node0_relaying relay))).
Definition node0 : P2PNode := node0_relaying F64.one.
Definition node3 : P2PNode := node3_relaying F64.one.
End NodeExample.
