(* ===== verification/ConnFrame.v ===== *)
(** * What the methods of a connection may change

    The methods of a connection (modelled in [ConnMethods] and [Maintenance])
    run with access to the whole node.  This file shows that they stay within a
    frame: they change neither the maps of connections nor the token counter,
    keep the identity of the connection, never take a connection back from
    after to before the handshake, and ask for the promotion of no connection
    but their own, once it has completed the handshake. *)
From S2P Require Import Prelude.
From S2P Require Import PeerTypes.
From S2P Require Import Dedup.
From S2P Require Import ConnParts.
From S2P Require Import NetTypes.
From S2P Require Import Noise.
From S2P Require Import LowLevel.
From S2P Require Import FfiHelpers.
From S2P Require Import CatchUp.
From S2P Require Import Buckets.
From S2P Require Import Config.
From S2P Require Import NodeState.
From S2P Require Import Bans.
From S2P Require Import ConnMethods.
From S2P Require Import Connectivity.
From S2P Require Import ConsensusPlugin.
From S2P Require Import Maintenance.

Section connection_frame.
Context `{!NodeExt}.
Implicit Types c : Connection session.
Implicit Types n : P2PNode.

(** ** What a connection method may change

    The connection keeps its identity and stays past the handshake; the maps of
    connections and the token counter of the node do not change; a promotion
    is only registered for this connection, once it is past the handshake. *)

Definition promotions n : list Token :=
  omap (λ ch, match ch with Promotion t => Some t | _ => None end) (conn_changes (handler n)).

Record method_frame (s s' : Connection session * P2PNode) : Prop := {
  frame_id : local_id (remote_peer s'.1) = local_id (remote_peer s.1);
  frame_post : is_Some (self_id (remote_peer s.1)) → is_Some (self_id (remote_peer s'.1));
  frame_candidates : node_candidates s'.2 = node_candidates s.2;
  frame_connections : node_connections s'.2 = node_connections s.2;
  frame_next : next_token (handler s'.2) = next_token (handler s.2);
  frame_promotions t : t ∈ promotions s'.2 →
    t ∈ promotions s.2 ∨ t = conn_token s'.1 ∧ is_Some (self_id (remote_peer s'.1));
  frame_buckets : buckets_ok (handler_buckets (handler s.2)) →
                  buckets_ok (handler_buckets (handler s'.2));
}.

#[global] Instance method_frame_preorder : PreOrder method_frame.
Proof.
  split.
  - intros [c n]. split; simpl; auto.
  - intros s1 s2 s3 [Hi1 Hp1 Hc1 Hn1 Ht1 Hq1 Hb1] [Hi2 Hp2 Hc2 Hn2 Ht2 Hq2 Hb2].
    split; try congruence; auto.
    intros t [Ht|Ht]%Hq2; [|by right]. destruct (Hq1 _ Ht) as [?|[-> ?]]; [by left|right].
    split; [unfold conn_token; by rewrite Hi2|auto].
Qed.

Lemma try_send_elem {A} cap (x y : A) q : y ∈ (try_send cap x q).2 → y ∈ q ∨ y = x.
Proof. unfold try_send. case_decide; simpl; set_solver. Qed.

Lemma promotions_register ch n t :
  t ∈ promotions (register_conn_change ch n) → t ∈ promotions n ∨ ch = Promotion t.
Proof.
  unfold promotions, register_conn_change. simpl. rewrite !list_elem_of_omap.
  intros (ch' & Hin & Hch). apply try_send_elem in Hin as [Hin|<-].
  - left. by exists ch'.
  - right. by destruct ch'; simplify_eq.
Qed.

Lemma keeps_lift_low {A} (m : ST (ConnectionLowLevel session) A) : keeps method_frame (lift_low m).
Proof. intros [c n]. unfold lift_low. destruct (m _) as [r ll]. split; simpl; auto. Qed.

Lemma keeps_lift_stats {A} (m : ST ConnectionStats A) : keeps method_frame (lift_stats m).
Proof. intros [c n]. unfold lift_stats. destruct (m _) as [r st]. split; simpl; auto. Qed.

Lemma keeps_lift_buckets {A} (m : ST Buckets A) :
  (∀ b, buckets_ok b → buckets_ok (m b).2) → keeps method_frame (lift_buckets m).
Proof.
  intros Hm [c n]. unfold lift_buckets. specialize (Hm (handler_buckets (handler n))).
  simpl. destruct (m _) as [r b]. split; simpl; auto.
Qed.

Lemma keeps_get_conn : keeps method_frame get_conn.
Proof. by intros s. Qed.
Lemma keeps_get_node : keeps method_frame get_node.
Proof. by intros s. Qed.

Lemma keeps_modify_conn f :
  (∀ c, remote_peer (f c) = remote_peer c) → keeps method_frame (modify_conn f).
Proof. intros Hf [c n]. split; simpl; rewrite ?Hf; auto. Qed.

(** Nodes that agree on connections, tokens, promotions and buckets. *)
Definition same_core n n' : Prop :=
  node_candidates n' = node_candidates n ∧ node_connections n' = node_connections n ∧
  next_token (handler n') = next_token (handler n) ∧
  conn_changes (handler n') = conn_changes (handler n) ∧
  handler_buckets (handler n') = handler_buckets (handler n).

Lemma keeps_modify_node f : (∀ n, same_core n (f n)) → keeps method_frame (modify_node f).
Proof.
  intros Hf [c n]. destruct (Hf n) as (? & ? & ? & Hq & Hb).
  split; simpl; auto; unfold promotions; rewrite ?Hq, ?Hb; auto.
Qed.

Lemma keeps_register ch :
  (∀ t, ch ≠ Promotion t) → keeps method_frame (modify_node (register_conn_change ch)).
Proof.
  intros Hch [c n]. split; simpl; auto. intros t [?|Ht]%promotions_register; [by left|].
  by destruct (Hch t).
Qed.

Lemma keeps_lift_node {A} (m : ST P2PNode A) :
  (∀ n, same_core n (m n).2) → keeps method_frame (lift_node m).
Proof.
  intros Hm [c n]. unfold lift_node. specialize (Hm n). simpl. destruct (m n) as [r n'].
  simpl in *. destruct Hm as (? & ? & ? & Hq & Hb).
  split; simpl; auto; unfold promotions; rewrite ?Hq, ?Hb; auto.
Qed.

Lemma bucket_update_ok f b :
  (∀ x, bucket_ok x → bucket_ok (f x)) → buckets_ok b → buckets_ok (at_bucket_0 f b).2.
Proof. intros Hf (x & Hx & Hok). unfold at_bucket_0. rewrite Hx. exists (f x). auto. Qed.

Lemma keeps_async_send msg p : keeps method_frame (modify_conn (async_send msg p)).
Proof. by apply keeps_modify_conn. Qed.
End connection_frame.

(** The steps of a proof that a method stays within its frame. *)
Ltac method_step :=
  lazymatch goal with
  | |- keeps _ (_ ≫= _) => apply keeps_bind; [apply _| |intros ?]
  | |- keeps _ (st_lift _) => apply keeps_lift, _
  | |- keeps _ (mret _) => apply keeps_mret, _
  | |- keeps _ get_conn => apply keeps_get_conn
  | |- keeps _ get_node => apply keeps_get_node
  | |- keeps _ (lift_low _) => apply keeps_lift_low
  | |- keeps _ (lift_stats _) => apply keeps_lift_stats
  | |- keeps _ (modify_conn (async_send _ _)) => apply keeps_async_send
  | |- keeps _ (match ?x with _ => _ end) => destruct x eqn:?
  end.
Ltac method := repeat method_step; auto with keeps.

Section methods_frame.
Context `{!NodeExt}.
Implicit Types c : Connection session.
Implicit Types n : P2PNode.

Lemma same_core_refl n : same_core n n.
Proof. by repeat split. Qed.

Lemma handle_pkt_out_core ex id msg b n : same_core n (handle_pkt_out ex id msg b n).2.
Proof.
  unfold handle_pkt_out. destruct msg as [|tag msg]; [done|].
  unfold mbind, ST_bind, st_lift. destruct (PacketType_try_from tag) as [t| |]; [|done|done].
  destruct t; simpl;
    try (destruct (ensure _ _); [|done|done]); unfold st_modify;
    (destruct (send_in_high_priority_message _ _) as [[] q] ||
     destruct (send_in_low_priority_message _ _) as [[] q]); done.
Qed.

Lemma send_ping_frame now : keeps method_frame (send_ping now).
Proof. unfold send_ping. method. by apply keeps_modify_conn. Qed.

Lemma send_pong_frame now : keeps method_frame (send_pong now).
Proof. unfold send_pong. method. Qed.

Lemma send_peer_list_resp_frame now nets st : keeps method_frame (send_peer_list_resp now nets st).
Proof. unfold send_peer_list_resp. method. Qed.

Lemma send_pending_loop_frame k : keeps method_frame (send_pending_loop k).
Proof.
  induction k as [|k IH]; simpl; method.
  - by apply keeps_modify_conn.
  - by apply keeps_modify_node.
  - by apply keeps_modify_conn.
Qed.

Lemma send_pending_messages_frame : keeps method_frame send_pending_messages.
Proof. unfold send_pending_messages. method. apply send_pending_loop_frame. Qed.

Lemma populate_frame now p nets : keeps method_frame (populate_remote_end_networks now p nets).
Proof.
  unfold populate_remote_end_networks. method; [by apply keeps_modify_conn|].
  apply keeps_lift_buckets. intros b. apply bucket_update_ok, set_insert_ok.
Qed.

Lemma add_network_frame now net : keeps method_frame (add_remote_end_network now net).
Proof.
  unfold add_remote_end_network. method; [by apply keeps_modify_conn|].
  apply keeps_lift_buckets. intros b. apply bucket_update_ok, set_replace_ok.
Qed.

Lemma remove_network_frame now net : keeps method_frame (remove_remote_end_network now net).
Proof.
  unfold remove_remote_end_network. method; [by apply keeps_modify_conn|].
  apply keeps_lift_buckets. intros b. apply bucket_update_ok, set_replace_ok.
Qed.

(** The frame of a method run on connection [id] past the handshake. *)
Definition post_frame (id : RemotePeerId) (s s' : Connection session * P2PNode) : Prop :=
  local_id (remote_peer s.1) = id → is_Some (self_id (remote_peer s.1)) → method_frame s s'.

#[local] Instance post_frame_preorder id : PreOrder (post_frame id).
Proof.
  split; [by intros s ??|]. intros s1 s2 s3 H12 H23 Hid Hpost.
  pose proof (H12 Hid Hpost) as Hfr. etrans; [exact Hfr|]. apply H23.
  - by rewrite (frame_id _ _ Hfr).
  - by apply (frame_post _ _ Hfr).
Qed.

Lemma keeps_post {A} id (m : ST (Connection session * P2PNode) A) :
  keeps method_frame m → keeps (post_frame id) m.
Proof. intros Hm s ??. apply Hm. Qed.

Lemma register_promotion_frame id :
  keeps (post_frame id) (modify_node (register_conn_change (Promotion (to_token id)))).
Proof.
  intros [c n] Hid Hpost. split; simpl in *; auto.
  intros t [?|?]%promotions_register; [by left|]. simplify_eq. by right.
Qed.

Lemma promote_to_post_handshake_frame now id port nets v :
  keeps method_frame (promote_to_post_handshake now id port nets v).
Proof.
  intros [c n]. set (p := remote_peer c).
  set (c1 := with_remote_peer (MkRemotePeer (Some id) (rp_addr p) (local_id p) port (peer_type p)) c).
  set (n1 := with_stats (peers_inc (stats n)) n).
  assert (method_frame (c, n) (c1, n1)) as H1 by (split; simpl; auto).
  etrans; [exact H1|].
  set (rest :=
    (match peer_type p with Bootstrapper => modify_node (with_last_bootstrap now) | Node => mret tt end) ;;
    populate_remote_end_networks now (remote_peer c1) nets ;;
    modify_conn (with_wire_version v) ;;
    modify_node (register_conn_change (Promotion (to_token (local_id p))))).
  change (method_frame (c1, n1) (rest (c1, n1)).2).
  enough (keeps (post_frame (local_id p)) rest) as Hk by (by apply Hk).
  unfold rest.
  apply keeps_bind; [apply _| |intros _].
  { apply keeps_post. destruct (peer_type p); [apply keeps_mret, _|by apply keeps_modify_node]. }
  apply keeps_bind; [apply _|apply keeps_post, populate_frame|intros _].
  apply keeps_bind; [apply _|by apply keeps_post, keeps_modify_conn|intros _].
  apply register_promotion_frame.
Qed.

Lemma handle_handshake_req_frame now h st : keeps method_frame (handle_handshake_req now h st).
Proof.
  unfold handle_handshake_req. method.
  - apply promote_to_post_handshake_frame.
  - apply send_peer_list_resp_frame.
Qed.

Lemma handle_incoming_message_frame now m st :
  keeps method_frame (handle_incoming_message now m st).
Proof.
  unfold handle_incoming_message, handle_incoming_packet. method;
    auto using handle_handshake_req_frame, send_pong_frame, send_peer_list_resp_frame,
      add_network_frame, remove_network_frame, keeps_register, keeps_lift_node, handle_pkt_out_core.
  all: try (apply keeps_lift_node; intros; apply handle_pkt_out_core).
  all: by apply keeps_register.
Qed.

Lemma is_packet_duplicate_frame packet : keeps method_frame (is_packet_duplicate packet).
Proof. unfold is_packet_duplicate. method. by apply keeps_modify_node. Qed.

Lemma process_message_frame now bs st : keeps method_frame (process_message now bs st).
Proof.
  unfold process_message. method;
    auto using handle_incoming_message_frame, is_packet_duplicate_frame.
  - by apply keeps_modify_conn.
  - by apply keeps_modify_node.
Qed.

Lemma read_stream_frame now v st : keeps method_frame (read_stream now v st).
Proof.
  unfold read_stream. method. generalize (read_rounds (low_level a)). intros k.
  induction k as [|k IH]; simpl; method. apply process_message_frame.
Qed.

(** ** Processing the events of a connection *)

Lemma register_failure_frame e : keeps method_frame (register_failure e).
Proof. unfold register_failure. method. apply keeps_register. by destruct (is_io_error e). Qed.

Lemma check_closed_frame evs : keeps method_frame (check_closed evs).
Proof. unfold check_closed. method. by apply keeps_register. Qed.

Lemma process_readable_frame now v evs st : keeps method_frame (process_readable now v evs st).
Proof.
  intros s. unfold process_readable. pose proof (read_stream_frame now v st s) as Hs.
  destruct (read_stream now v st s) as [[[[]|]|e|m] s']; simpl in *; [..|done].
  - etrans; [exact Hs|apply check_closed_frame].
  - etrans; [exact Hs|]. apply (keeps_register (RemovalByToken _)). done.
  - done.
  - etrans; [exact Hs|apply register_failure_frame].
Qed.

Lemma process_connection_frame now v evs st : keeps method_frame (process_connection now v evs st).
Proof.
  unfold process_connection. method. intros s. unfold process_io.
  assert (keeps method_frame (send_pending_messages ;; lift_low flush_socket)) as Hk.
  { method. apply send_pending_messages_frame. }
  specialize (Hk s). destruct ((send_pending_messages ;; lift_low flush_socket) s) as [[|e|m] s'];
    simpl in *; [|etrans; [exact Hk|apply register_failure_frame]|done].
  destruct (any_event _ _ _); (etrans; [exact Hk|]).
  - apply process_readable_frame.
  - apply check_closed_frame.
Qed.
End methods_frame.
