(* ===== verification/ConnLoops.v ===== *)
(** * The loops of a connection

    [send_pending_messages] and [read_stream] of
    [concordium-node/src/connection/mod.rs]: the first writes all that is queued,
    in the order of the priority queues; the second ends, because every round
    takes octets from the input or counts a handshake message down. *)
From S2P Require Import Prelude.
From S2P Require Import PeerTypes.
From S2P Require Import Dedup.
From S2P Require Import ConnParts.
From S2P Require Import NetTypes.
From S2P Require Import Fbs.
From S2P Require Import Noise.
From S2P Require Import LowLevel.
From S2P Require Import Framing.
From S2P Require Import FfiHelpers.
From S2P Require Import Buckets.
From S2P Require Import Config.
From S2P Require Import NodeState.
From S2P Require Import ConnMethods.
From S2P Require Import NodeExample.
From S2P Require Import ConnFrame.

Section sending.
Context `{!NodeExt}.
Implicit Types c : Connection session.
Implicit Types n : P2PNode.

(** The queued messages in the order they are sent. *)
Definition in_order (q : MessageQueues) : list bytes := high q ++ low q.

Lemma dequeue_in_order q :
  match dequeue q with
  | (Some m, q') => in_order q = m :: in_order q'
  | (None, _) => in_order q = []
  end.
Proof. unfold in_order. by destruct q as [[|m l] [|m' h]]; simpl; rewrite ?app_nil_r. Qed.

Lemma length_in_order q : length (in_order q) = pending q.
Proof. unfold in_order, pending. by rewrite length_app. Qed.

(** A number added to a counter one by one. *)
Fixpoint counted (k : nat) (x : u64) : u64 :=
  match k with O => x | S k => counted k (u64_add x 1) end.

(** What the loop leaves when it wrote the messages [ms]. *)
Record sent (ms : list bytes) c n c' n' : Prop := {
  sent_queue : in_order (pending_messages c') = [];
  sent_messages : messages_sent (conn_stats c') = counted (length ms) (messages_sent (conn_stats c));
  sent_total : total_sent (handler n') = counted (length ms) (total_sent (handler n));
  sent_peer : remote_peer c' = remote_peer c;
}.

Lemma send_pending_loop_spec ms c n :
  in_order (pending_messages c) = ms →
  match send_all ms (low_level c) with
  | (Ok _, ll) => ∃ c' n', send_pending_loop (length ms) (c, n) = (Ok tt, (c', n'))
      ∧ low_level c' = ll ∧ sent ms c n c' n'
  | (Err e, ll) => ∃ c' n', send_pending_loop (length ms) (c, n) = (Err e, (c', n')) ∧ low_level c' = ll
  | (Panic m, ll) => ∃ c' n', send_pending_loop (length ms) (c, n) = (Panic m, (c', n')) ∧ low_level c' = ll
  end.
Proof.
  revert c n. induction ms as [|m ms IH]; intros c n Hms.
  - simpl. pose proof (dequeue_in_order (pending_messages c)) as Hd.
    unfold mbind, ST_bind, get_conn. cbn [fst snd].
    destruct (dequeue _) as [[m|] q]; [by rewrite Hms in Hd|]. eexists _, _. by split_and!.
  - pose proof (dequeue_in_order (pending_messages c)) as Hd. cbn [length send_pending_loop send_all].
    unfold mbind, ST_bind, get_conn, lift_low, modify_conn, modify_node. cbn [fst snd].
    destruct (dequeue _) as [[m'|] q]; rewrite Hms in Hd; [|done]. injection Hd as <- Hq.
    cbn [fst snd low_level with_pending_messages].
    destruct (write_to_socket m (low_level c)) as [[[]|e|w] ll]; [|by eexists _, _..].
    cbn [fst snd]. match goal with |- context [send_pending_loop _ (?c1, ?n1)] =>
      specialize (IH c1 n1 (eq_sym Hq)); set (c2 := c1) in *; set (n2 := n1) in * end.
    change (low_level c2) with ll in IH.
    destruct (send_all ms ll) as [[[]|e|w] ll'].
    + destruct IH as (c' & n' & Hr & Hl & [H1 H2 H3 H4]). exists c', n'. by split_and!.
    + exact IH.
    + exact IH.
Qed.

(** [send_pending_messages] is the same as writing all queued messages, those
    of high priority first and each queue in its order: it succeeds or fails
    exactly when that does, leaves the transport in the same state, and when
    it succeeds the queues are empty and every message has been counted. *)
Theorem send_pending_messages_all c n :
  let ms := in_order (pending_messages c) in
  match send_all ms (low_level c) with
  | (Ok _, ll) => ∃ c' n', send_pending_messages (c, n) = (Ok tt, (c', n'))
      ∧ low_level c' = ll ∧ sent ms c n c' n'
  | (Err e, ll) => ∃ c' n', send_pending_messages (c, n) = (Err e, (c', n')) ∧ low_level c' = ll
  | (Panic m, ll) => ∃ c' n', send_pending_messages (c, n) = (Panic m, (c', n')) ∧ low_level c' = ll
  end.
Proof.
  intros ms. unfold send_pending_messages, mbind, ST_bind, get_conn. cbn [fst snd].
  rewrite <-length_in_order. by apply send_pending_loop_spec.
Qed.
End sending.

(** ** Reading

    [wlp m Q s]: if [m] run from [s] returns a value, then [Q] holds of it and of
    the state; nothing is said about errors. *)

Definition wlp {S A} (m : ST S A) (Q : A → S → Prop) (s : S) : Prop :=
  ∀ a s', m s = (Ok a, s') → Q a s'.

Section wlp.
Context {S : Type}.
Implicit Types s : S.

Lemma wlp_bind {A B} (m : ST S A) (f : A → ST S B) Q s :
  wlp m (λ a, wlp (f a) Q) s → wlp (m ≫= f) Q s.
Proof. intros Hm b s'' (a & s' & Ha & Hf)%ST_bind_inv. by eapply Hm. Qed.
Lemma wlp_get (Q : S → S → Prop) s : Q s s → wlp st_get Q s.
Proof. intros HQ a s' [= <- <-]. done. Qed.
Lemma wlp_modify g (Q : unit → S → Prop) s : Q tt (g s) → wlp (st_modify g) Q s.
Proof. intros HQ a s' [= <- <-]. done. Qed.
Lemma wlp_mret {A} (a : A) (Q : A → S → Prop) s : Q a s → wlp (mret a) Q s.
Proof. intros HQ a' s' [= <- <-]. done. Qed.
Lemma wlp_lift {A} (o : outcome A) (Q : A → S → Prop) s :
  (∀ a, o = Ok a → Q a s) → wlp (st_lift o) Q s.
Proof. intros HQ a s' [= -> <-]. by apply HQ. Qed.
Lemma wlp_mono {A} (m : ST S A) (Q Q' : A → S → Prop) s :
  wlp m Q s → (∀ a s', Q a s' → Q' a s') → wlp m Q' s.
Proof. intros Hm HQ a s' Ha. by apply HQ, Hm. Qed.
End wlp.

Ltac wlp_step :=
  lazymatch goal with
  | |- wlp (_ ≫= _) _ _ => apply wlp_bind
  | |- wlp st_get _ _ => apply wlp_get
  | |- wlp (st_modify _) _ _ => apply wlp_modify
  | |- wlp (mret _) _ _ => apply wlp_mret
  | |- wlp (st_lift _) _ _ => apply wlp_lift; intros ? ?
  | |- wlp (if ?b then _ else _) _ _ => destruct b eqn:?
  | |- wlp (let '(_, _) := ?x in _) _ _ => destruct x eqn:?
  | |- wlp (match ?x with _ => _ end) _ _ => destruct x eqn:?
  end.
Ltac wlp_run := repeat wlp_step.

Section reading.
Context `{!Noise sess, !Deque}.
Implicit Types c : ConnectionLowLevel sess.

(** The octets a socket still delivers. *)
Definition rx_bytes (s : TcpStream) : nat :=
  sum_list ((λ ev, match ev with RData bs => length bs | _ => 0 end) <$> rx s).

(** The length prefix is not complete, and a handshake message is short. *)
Definition header_ok c : Prop :=
  length (size_bytes (incoming_msg c)) < PAYLOAD_SIZE
  ∧ (is_post_handshake c = false → pending_bytes (incoming_msg c) < HANDSHAKE_SIZE_LIMIT).

(** The work that is left: octets, and the rest of a handshake message. *)
Definition work c : nat :=
  HANDSHAKE_SIZE_LIMIT * (remaining (socket_buffer c) + rx_bytes (socket c))
  + (if is_post_handshake c then 0 else pending_bytes (incoming_msg c)).

(** Parts of the connection that sending does not change. *)
Definition rx_same c c' : Prop :=
  rx (socket c') = rx (socket c) ∧ incoming_msg c' = incoming_msg c
  ∧ remaining (socket_buffer c') = remaining (socket_buffer c).

#[local] Instance rx_same_preorder : PreOrder rx_same.
Proof. unfold rx_same. split; [done|]. intros ??? (? & ? & ?) (? & ? & ?). split_and!; congruence. Qed.

Lemma socket_write_rx out s : rx (socket_write out s).2 = rx s.
Proof. unfold socket_write. by destruct (tx_script s) as [|[]]. Qed.

Lemma keeps_wlp {S A} (R : relation S) (m : ST S A) s : keeps R m → wlp m (λ _, R s) s.
Proof. intros Hm a s' Ha. specialize (Hm s). by rewrite Ha in Hm. Qed.

Lemma rx_same_lift {A} (o : outcome A) : keeps rx_same (st_lift o).
Proof. apply keeps_lift, _. Qed.

Ltac same_step :=
  lazymatch goal with
  | |- keeps _ (_ ≫= _) => apply keeps_bind; [apply _| |intros ?]
  | |- keeps _ (st_lift _) => apply keeps_lift, _
  | |- keeps _ (mret _) => apply keeps_mret, _
  | |- keeps _ st_get => apply keeps_get, _
  | |- keeps _ (st_modify _) => apply keeps_modify; intros ?; try done
  | |- keeps _ (let '(_, _) := ?x in _) => destruct x eqn:?
  | |- keeps _ (match ?x with _ => _ end) => destruct x eqn:?
  end.

Lemma noise_send_same msg : keeps rx_same (noise_send msg).
Proof. intros c. unfold noise_send. by destruct (send_message _ _). Qed.
Lemma noise_recv_same msg : keeps rx_same (noise_recv msg).
Proof. intros c. unfold noise_recv. by destruct (recv_message _ _). Qed.

Lemma flush_socket_once_same : keeps rx_same flush_socket_once.
Proof.
  intros c. unfold flush_socket_once, mbind, ST_bind, mret, ST_ret, st_get, st_lift, st_modify.
  destruct (as_slices _) as [front back]. set (ws := if is_post_handshake c then _ else _).
  destruct (copy_into 0 _ _) as [buf1| |]; [|done..].
  destruct (usize_sub _ _) as [back_len| |]; [|done..].
  destruct (decide (0 < back_len)).
  - destruct (outcome_bind _ _ _ (slice_to back_len back)) as [buf2| |]; [|done..].
    destruct (slice_to ws buf2) as [out| |]; [|done..].
    pose proof (socket_write_rx out (socket c)) as Hrx. cbn [socket with_socket_buffer].
    destruct (socket_write out (socket c)) as [[] sock]; done.
  - destruct (slice_to ws buf1) as [out| |]; [|done..].
    pose proof (socket_write_rx out (socket c)) as Hrx. cbn [socket with_socket_buffer].
    destruct (socket_write out (socket c)) as [[] sock]; done.
Qed.

Lemma flush_socket_same : keeps rx_same flush_socket.
Proof.
  unfold flush_socket. apply keeps_bind; [apply _|apply keeps_get, _|intros c0].
  destruct (is_writable c0); [|apply keeps_mret, _].
  generalize (S (length (output_queue c0))) as fuel. intros fuel.
  induction fuel as [|fuel IH]; simpl; [apply keeps_lift, _|].
  repeat same_step; auto using flush_socket_once_same.
Qed.

Lemma send_xx_msg_same prefix payload suffix : keeps rx_same (send_xx_msg prefix payload suffix).
Proof.
  unfold send_xx_msg. repeat same_step; auto using noise_send_same, flush_socket_same.
Qed.

Lemma recv_xx_msg_same len : keeps rx_same (recv_xx_msg len).
Proof.
  intros c. unfold recv_xx_msg. rewrite bind_get. unfold mbind, ST_bind, st_lift, st_get, st_modify.
  destruct (slice len _) as [msg| |]; [|done..].
  pose proof (noise_recv_same msg c) as Hs. destruct (noise_recv msg c) as [[plain| |] c1]; [|done..].
  simpl in Hs. destruct (copy_into _ plain _) as [b| |]; [|done..]. done.
Qed.

Lemma set_nodelay_same b : keeps rx_same (socket_set_nodelay b).
Proof. intros c. unfold socket_set_nodelay, set_nodelay. by destruct (nodelay_settable _). Qed.

Lemma process_handshake_msg_same produce len : keeps rx_same (process_handshake_msg produce len).
Proof.
  unfold process_handshake_msg, process_msg_a, process_msg_b, process_msg_c, handshake_payload.
  repeat same_step; auto using recv_xx_msg_same, send_xx_msg_same, set_nodelay_same.
Qed.

Lemma decrypt_chunk_same msg i : keeps rx_same (decrypt_chunk msg i).
Proof.
  unfold decrypt_chunk. repeat same_step; auto using noise_recv_same.
Qed.

Lemma decrypt_loop_same l msg : keeps rx_same (decrypt_loop l msg).
Proof.
  revert msg. induction l as [|i l IH]; intros m; simpl; repeat same_step; auto using decrypt_chunk_same.
Qed.

(** [decrypt] empties the incoming message, but keeps the bytes that are pending. *)
Definition rx_kept c c' : Prop :=
  rx (socket c') = rx (socket c) ∧ size_bytes (incoming_msg c') = size_bytes (incoming_msg c)
  ∧ pending_bytes (incoming_msg c') = pending_bytes (incoming_msg c)
  ∧ remaining (socket_buffer c') = remaining (socket_buffer c).

#[local] Instance rx_kept_preorder : PreOrder rx_kept.
Proof.
  unfold rx_kept. split; [done|]. intros ??? (? & ? & ? & ?) (? & ? & ? & ?). split_and!; congruence.
Qed.

Lemma rx_same_kept {A} (m : ST (ConnectionLowLevel sess) A) : keeps rx_same m → keeps rx_kept m.
Proof. intros Hm c. destruct (Hm c) as (? & Hi & ?). unfold rx_kept. by rewrite Hi. Qed.

Lemma decrypt_kept : keeps rx_kept decrypt.
Proof.
  unfold decrypt. repeat same_step. apply rx_same_kept, decrypt_loop_same.
Qed.

(** *** One read *)

Lemma socket_read_rx len s bs s' :
  socket_read len s = (IoOk bs, s') → rx_bytes s = length bs + rx_bytes s'.
Proof.
  unfold socket_read, rx_bytes. destruct (rx s) as [|[data| | |] evs] eqn:Hrx; intros; simplify_eq.
  - case_decide as Hlen; csimpl; rewrite ?length_take, ?length_drop; lia.
  - simpl. by rewrite Hrx.
Qed.

(** Filling the buffer adds no work, and leaves octets in it. *)
Lemma fill_wlp c :
  wlp fill_socket_buffer (λ r c',
    incoming_msg c' = incoming_msg c ∧ noise_session c' = noise_session c ∧
    match r with
    | None => 0 < remaining (socket_buffer c')
        ∧ remaining (socket_buffer c') + rx_bytes (socket c')
          ≤ remaining (socket_buffer c) + rx_bytes (socket c)
    | Some r => r = WouldBlock ∨ r = Closed
    end) c.
Proof.
  unfold fill_socket_buffer. apply wlp_bind, wlp_get.
  set (sb := if is_exhausted (socket_buffer c) then reset (socket_buffer c) else socket_buffer c).
  assert (remaining sb ≤ remaining (socket_buffer c)) as Hsb.
  { unfold sb. destruct (is_exhausted _); simpl; lia. }
  clearbody sb. wlp_run; simpl; auto; try done.
  - subst. match goal with Hr : socket_read _ _ = _ |- _ => apply socket_read_rx in Hr end.
    split_and!; [done..|by apply length_pos|lia].
  - split_and!; [done..|lia|lia].
Qed.

Lemma slice_length k b bs : slice k b = Ok bs → length bs = k.
Proof.
  unfold slice. intros (t & _ & Hs)%outcome_bind_ok. revert Hs. unfold slice_to.
  case_decide; intros; simplify_eq. by rewrite length_take_le.
Qed.

Lemma usize_sub_inv a b r : usize_sub a b = Ok r → r = a - b ∧ b ≤ a.
Proof. unfold usize_sub. case_decide; intros; by simplify_eq. Qed.

Lemma shift_remaining k b b' :
  shift k b = Ok b' → remaining b' = remaining b - k ∧ k ≤ remaining b.
Proof.
  unfold shift. intros (r & [-> Hk]%usize_sub_inv & Hb)%outcome_bind_ok. by simplify_eq.
Qed.

(** Progress between messages: an octet is gone, and a new message is short. *)
Lemma progress_length c c' :
  noise_session c' = noise_session c → rx (socket c') = rx (socket c) →
  remaining (socket_buffer c') < remaining (socket_buffer c) →
  length (size_bytes (incoming_msg c')) < PAYLOAD_SIZE →
  (is_post_handshake c = false → pending_bytes (incoming_msg c') < HANDSHAKE_SIZE_LIMIT) →
  header_ok c' ∧ work c' < work c.
Proof.
  intros Hs Hrx Hrem Hsz Hp.
  assert (is_post_handshake c' = is_post_handshake c) as Hpost
    by (unfold is_post_handshake; by rewrite Hs).
  unfold header_ok, work, rx_bytes. rewrite Hpost, Hrx. split; [done|].
  destruct (is_post_handshake c); [unfold HANDSHAKE_SIZE_LIMIT; lia|]. specialize (Hp eq_refl).
  unfold HANDSHAKE_SIZE_LIMIT in *. lia.
Qed.

(** Reading the length prefix takes an octet at least. *)
Lemma read_length_wlp c :
  header_ok c → pending_bytes (incoming_msg c) = 0 → 0 < remaining (socket_buffer c) →
  wlp attempt_to_read_length (λ _ c', header_ok c' ∧ work c' < work c) c.
Proof.
  intros [Hsz Hpre] Hp Hrem. unfold attempt_to_read_length. wlp_run.
  all: repeat match goal with
    | Hs : usize_sub _ _ = Ok _ |- _ => apply usize_sub_inv in Hs as [-> ?]
    | Hs : slice _ _ = Ok _ |- _ => apply slice_length in Hs
    | Hs : shift _ _ = Ok _ |- _ => apply shift_remaining in Hs as [Hs ?]
    | He : ensure _ _ = Ok _ |- _ => apply ensure_ok in He
    end.
  all: apply progress_length; simpl; try done; unfold PAYLOAD_SIZE in *; try lia.
  - intros Hpost. match goal with He : is_post_handshake _ || _ = true |- _ =>
      change (is_post_handshake c || bool_decide (from_be_bytes (size_bytes (incoming_msg c) ++ a0)
        < Z.of_nat HANDSHAKE_SIZE_LIMIT)%Z = true) in He;
      rewrite Hpost in He; apply bool_decide_eq_true in He end.
    unfold HANDSHAKE_SIZE_LIMIT in *. lia.
  - match goal with Hn : length (_ ++ _) ≠ 4 |- _ => pose proof Hn as Hlen end.
    rewrite length_app in Hlen |- *. lia.
Qed.

(** A message is complete. *)
Lemma progress_complete c c' :
  length (size_bytes (incoming_msg c')) < PAYLOAD_SIZE → pending_bytes (incoming_msg c') = 0 →
  remaining (socket_buffer c') + rx_bytes (socket c')
    < remaining (socket_buffer c) + rx_bytes (socket c) →
  header_ok c' ∧ work c' < work c.
Proof.
  intros Hsz Hp Hrem. unfold header_ok, work. rewrite Hp.
  split; [split; [done|]; intros _; unfold HANDSHAKE_SIZE_LIMIT; lia|].
  unfold HANDSHAKE_SIZE_LIMIT.
  destruct (is_post_handshake c), (is_post_handshake c'); lia.
Qed.

(** Progress within a message. *)
Lemma process_incoming_wlp produce c :
  header_ok c → pending_bytes (incoming_msg c) ≠ 0 →
  wlp (process_incoming_msg produce) (λ _ c', header_ok c' ∧ work c' ≤ work c ∧
    (0 < remaining (socket_buffer c) → work c' < work c)) c.
Proof.
  intros [Hsz Hpre] Hp. unfold process_incoming_msg. apply wlp_bind, wlp_get.
  apply wlp_bind, wlp_lift. intros bs _.
  apply wlp_bind, wlp_lift. intros pend [-> Hle]%usize_sub_inv.
  set (to_read := _ `min` _) in *. apply wlp_bind, wlp_modify. set (c1 := with_incoming _ c).
  destruct (is_post_handshake c) eqn:Hpost.
  - apply wlp_bind. wlp_step. wlp_step. wlp_step.
    match goal with Hs : shift _ _ = Ok _ |- _ => apply shift_remaining in Hs as [Hs Hto] end.
    case_decide as Hz.
    + apply wlp_bind. eapply wlp_mono; [apply keeps_wlp, decrypt_kept|].
      intros msg c2 (Hrx & Hs2 & Hp2 & Hr2). apply wlp_mret. cbn in Hrx, Hs2, Hp2, Hr2.
      enough (header_ok c2 ∧ work c2 < work c) by (split_and!; [tauto|lia|tauto]).
      apply progress_complete; [by rewrite Hs2|by rewrite Hp2|].
      unfold rx_bytes. rewrite Hr2, Hrx. lia.
    + apply wlp_mret. unfold header_ok, work, rx_bytes. cbn -[Nat.mul].
      change (is_post_handshake (with_socket_buffer _ _)) with (is_post_handshake c).
      rewrite Hpost. unfold HANDSHAKE_SIZE_LIMIT. split_and!; [exact Hsz|discriminate|lia|lia].
  - apply wlp_bind, wlp_mret. case_decide as Hz.
    + unfold finish_handshake_msg. apply wlp_bind.
      eapply wlp_mono; [apply keeps_wlp, process_handshake_msg_same|].
      intros payload c2 (Hrx & Hi2 & Hr2). cbn in Hrx, Hi2, Hr2.
      assert (header_ok (with_socket_buffer (reset (socket_buffer c2)) c2)
        ∧ work (with_socket_buffer (reset (socket_buffer c2)) c2) < work c) as Hdone.
      { apply progress_complete; simpl; [by rewrite Hi2|by rewrite Hi2|].
        unfold rx_bytes. rewrite Hrx. lia. }
      unfold reset_socket_buffer. wlp_run; try done; split_and!; try tauto; lia.
    + apply wlp_mret. unfold header_ok, work, rx_bytes. cbn -[Nat.mul].
      change (is_post_handshake c1) with (is_post_handshake c).
      rewrite Hpost. specialize (Hpre eq_refl). split_and!; [exact Hsz|intros _; lia|lia|lia].
Qed.

(** Every read that does not end the loop makes progress. *)
Lemma read_progress produce c :
  header_ok c →
  wlp (read_from_socket produce) (λ r c', header_ok c' ∧
    match r with Complete _ | Incomplete => work c' < work c | _ => True end) c.
Proof.
  intros Hok. unfold read_from_socket. apply wlp_bind. eapply wlp_mono; [apply fill_wlp|].
  intros r c1 (Hi & Hs & Hr). assert (is_post_handshake c1 = is_post_handshake c) as Hpost
    by (unfold is_post_handshake; by rewrite Hs).
  assert (header_ok c1) as Hok1 by (unfold header_ok; by rewrite Hi, Hpost).
  destruct r as [r|]; [apply wlp_mret; split; [done|]; by destruct Hr as [-> | ->]|].
  destruct Hr as [Hrem Hle].
  assert (work c1 ≤ work c) as Hw.
  { unfold work. rewrite Hi, Hpost. unfold HANDSHAKE_SIZE_LIMIT. lia. }
  apply wlp_bind, wlp_get. apply wlp_bind. case_decide as Hp.
  - eapply wlp_mono; [by apply read_length_wlp|]. intros _ c2 [Hok2 Hw2].
    apply wlp_bind, wlp_get. case_decide as Hp2; [|apply wlp_mret; split; [done|lia]].
    eapply wlp_mono; [by apply process_incoming_wlp|]. intros r c3 (Hok3 & Hw3 & _).
    split; [done|]. destruct r; done || lia.
  - apply wlp_mret. apply wlp_bind, wlp_get. case_decide as Hp2; [|done].
    eapply wlp_mono; [by apply process_incoming_wlp|]. intros r c3 (Hok3 & _ & Hw3).
    specialize (Hw3 Hrem). split; [done|]. destruct r; done || lia.
Qed.
End reading.

Section read_stream.
Context `{!NodeExt}.
Implicit Types c : Connection session.
Implicit Types n : P2PNode.

(** Processing a message does not touch the transport. *)
Definition same_low (s s' : Connection session * P2PNode) : Prop := low_level s'.1 = low_level s.1.

#[local] Instance same_low_preorder : PreOrder same_low.
Proof. unfold same_low. split; [done|]. intros ??? H1 H2. congruence. Qed.

Lemma low_modify_conn f :
  (∀ c, low_level (f c) = low_level c) → keeps same_low (modify_conn f).
Proof. intros Hf [c n]. apply Hf. Qed.
Lemma low_modify_node f : keeps same_low (modify_node f).
Proof. by intros [c n]. Qed.
Lemma low_lift_node {A} (m : ST P2PNode A) : keeps same_low (lift_node m).
Proof. intros [c n]. unfold same_low, lift_node. simpl. by destruct (m n). Qed.
Lemma low_lift_stats {A} (m : ST ConnectionStats A) : keeps same_low (lift_stats m).
Proof. intros [c n]. unfold same_low, lift_stats. simpl. by destruct (m (conn_stats c)). Qed.
Lemma low_lift_buckets {A} (m : ST Buckets A) : keeps same_low (lift_buckets m).
Proof. intros [c n]. unfold same_low, lift_buckets. simpl. by destruct (m _). Qed.

Ltac low_step :=
  lazymatch goal with
  | |- keeps _ (_ ≫= _) => apply keeps_bind; [apply _| |intros ?]
  | |- keeps _ (st_lift _) => apply keeps_lift, _
  | |- keeps _ (mret _) => apply keeps_mret, _
  | |- keeps _ get_conn => by intros ?
  | |- keeps _ get_node => by intros ?
  | |- keeps _ (modify_conn _) => by apply low_modify_conn
  | |- keeps _ (modify_node _) => apply low_modify_node
  | |- keeps _ (lift_node _) => apply low_lift_node
  | |- keeps _ (lift_stats _) => apply low_lift_stats
  | |- keeps _ (lift_buckets _) => apply low_lift_buckets
  | |- keeps _ (let '(_, _) := ?x in _) => destruct x
  | |- keeps _ (match ?x with _ => _ end) => destruct x
  end.

Lemma send_peer_list_low now nets st : keeps same_low (send_peer_list_resp now nets st).
Proof. unfold send_peer_list_resp. repeat low_step. Qed.

Lemma promote_low now id port nets v :
  keeps same_low (promote_to_post_handshake now id port nets v).
Proof. unfold promote_to_post_handshake, populate_remote_end_networks. repeat low_step. Qed.

Lemma handle_incoming_low now msg st : keeps same_low (handle_incoming_message now msg st).
Proof.
  unfold handle_incoming_message, handle_handshake_req, handle_incoming_packet, send_pong,
    add_remote_end_network, remove_remote_end_network.
  repeat low_step; auto using send_peer_list_low, promote_low.
Qed.

Lemma process_message_low now bs st : keeps same_low (process_message now bs st).
Proof.
  unfold process_message, is_packet_duplicate. repeat low_step; auto using handle_incoming_low.
Qed.

Lemma read_loop_ends rounds now v st c n :
  header_ok (low_level c) → work (low_level c) < rounds →
  wlp (read_loop rounds now v st) (λ r s, r ≠ None ∧ header_ok (low_level s.1)) (c, n).
Proof.
  revert c n. induction rounds as [|rounds IH]; intros c n Hok Hw; [lia|]. cbn [read_loop].
  apply wlp_bind. intros n0 s [= <- <-]. apply wlp_bind. intros r [c1 n1] Hread.
  unfold lift_low in Hread. cbn [fst snd] in Hread.
  destruct (read_from_socket _ (low_level c)) as [r' ll] eqn:Hll. simplify_eq.
  apply (read_progress _ _ Hok) in Hll as [Hok1 Hprog].
  destruct r as [msg| | |]; [|apply IH; [done|simpl; lia]|by apply wlp_mret|by apply wlp_mret].
  apply wlp_bind. eapply wlp_mono; [apply keeps_wlp, process_message_low|].
  intros [] [c2 n2] Hlow. unfold same_low in Hlow. simpl in Hlow.
  apply IH; rewrite Hlow; simpl; [done|lia].
Qed.

(** C36: [read_stream] comes to an end on every input: within the rounds that the
    octets at hand allow for, it has read until the socket blocks or is closed,
    or has failed; it does not run out of rounds.  What it needs of the
    connection holds of a new one and is kept by every read. *)
Theorem read_stream_ends now v st c n :
  header_ok (low_level c) →
  (read_stream now v st (c, n)).1 ≠ Ok None
  ∧ ∀ r s, read_stream now v st (c, n) = (Ok r, s) → header_ok (low_level s.1).
Proof.
  intros Hok.
  assert (wlp (read_stream now v st) (λ r s, r ≠ None ∧ header_ok (low_level s.1)) (c, n)) as Hwlp.
  { unfold read_stream. apply wlp_bind. intros c0 s [= <- <-]. apply read_loop_ends; [done|].
    destruct Hok as [_ Hpre]. unfold work, read_rounds, ConnMethods.unread, rx_bytes.
    destruct (is_post_handshake _); [lia|]. specialize (Hpre eq_refl). lia. }
  unfold wlp in Hwlp. destruct (read_stream now v st (c, n)) as [o s] eqn:Hr. split.
  - simpl. intros ->. by destruct (Hwlp None s eq_refl).
  - intros r s' [= -> <-]. by apply (Hwlp r s).
Qed.

Lemma new_header_ok sock i rs ws l :
  header_ok (ConnectionLowLevel_new (sess:=session) sock i rs ws l).
Proof. split; simpl; [|intros _]; unfold PAYLOAD_SIZE, HANDSHAKE_SIZE_LIMIT; lia. Qed.
End read_stream.

(** *** Witness: a connection that receives the start of a handshake *)

Lemma read_stream_ends_witness :
  let c := NodeExample.conn 3 13 None in
  let arrived := with_low_level
    (with_socket (with_rx [RData [0; 0; 0; 96; 1; 2]%Z] NodeExample.sock) (low_level c)) c in
  (read_stream 5 (Ok 5) [] (arrived, NodeExample.node3)).1 ≠ Ok None.
Proof.
  intros c arrived. apply (@read_stream_ends NodeExample.ext 5 (Ok 5) [] arrived NodeExample.node3).
  apply (new_header_ok NodeExample.sock false 64 32 None).
Defined.
