(* ===== verification/NodeInvariant.v ===== *)
(** * The invariant of a node

    Every state a node can reach, whatever its peers, consensus and the
    operating system do, satisfies an invariant: a connection is stored under
    its own token, tokens are not reused, a connection is never a candidate
    and a peer at once, and a peer has completed the handshake.  The last part
    is what makes the [unwrap] in [get_peer_stats] of
    [concordium-node/src/p2p/peers.rs] safe. *)
From S2P Require Import Prelude.
From S2P Require Import PeerTypes.
From S2P Require Import Dedup.
From S2P Require Import ConnParts.
From S2P Require Import NetTypes.
From S2P Require Import Noise.
From S2P Require Import LowLevel.
From S2P Require Import FfiHelpers.
From S2P Require Import CatchUp.
From S2P Require Import Buckets.
From S2P Require Import Float.
From S2P Require Import Config.
From S2P Require Import NodeState.
From S2P Require Import Bans.
From S2P Require Import ConnMethods.
From S2P Require Import Connectivity.
From S2P Require Import ConsensusPlugin.
From S2P Require Import Maintenance.
From S2P Require Import ConnFrame.
From S2P Require Import NodeExample.

Section invariant.
Context `{!NodeExt}.
Implicit Types c : Connection session.
Implicit Types n : P2PNode.

(** The connection [c], stored under token [t], got one of the tokens handed
    out so far. *)
Definition token_ok n (t : Token) c : Prop :=
  conn_token c = t ∧ (1 ≤ token_id t < next_token (handler n))%Z.

Definition handshaken c : Prop := is_Some (self_id (remote_peer c)).

Record node_ok n : Prop := {
  ok_next : (1 ≤ next_token (handler n))%Z;
  ok_candidates t c : node_candidates n !! t = Some c → token_ok n t c;
  ok_connections t c : node_connections n !! t = Some c → token_ok n t c ∧ handshaken c;
  ok_disjoint t c c' : node_candidates n !! t = Some c → node_connections n !! t = Some c' → False;
  ok_promotions t : t ∈ promotions n →
    (token_id t < next_token (handler n))%Z ∧
    ∀ c, node_candidates n !! t = Some c → handshaken c;
  ok_buckets : buckets_ok (handler_buckets (handler n));
}.

(** ** Operations that open no connection

    They may close connections and change anything in them but the remote
    peer. *)

Record shrinks n n' : Prop := {
  sh_candidates t c' : node_candidates n' !! t = Some c' →
    ∃ c, node_candidates n !! t = Some c ∧ remote_peer c' = remote_peer c;
  sh_connections t c' : node_connections n' !! t = Some c' →
    ∃ c, node_connections n !! t = Some c ∧ remote_peer c' = remote_peer c;
  sh_next : next_token (handler n') = next_token (handler n);
  sh_promotions t : t ∈ promotions n' → t ∈ promotions n;
  sh_given : given_addresses n' ⊆ given_addresses n;
  sh_buckets : buckets_ok (handler_buckets (handler n)) → buckets_ok (handler_buckets (handler n'));
}.

#[global] Instance shrinks_preorder : PreOrder shrinks.
Proof.
  split.
  - intros n. split; eauto.
  - intros n1 n2 n3 [Hc1 Hn1 Ht1 Hp1 Hg1 Hb1] [Hc2 Hn2 Ht2 Hp2 Hg2 Hb2].
    split; [..|set_solver|auto]; [| |congruence|auto].
    + intros t c (c2 & (c1 & ? & ?)%Hc1 & ?)%Hc2. exists c1. split; [done|congruence].
    + intros t c (c2 & (c1 & ? & ?)%Hn1 & ?)%Hn2. exists c1. split; [done|congruence].
Qed.

Lemma shrinks_ok n n' : shrinks n n' → node_ok n → node_ok n'.
Proof.
  intros [Hc Hn Ht Hp _ Hb] [H1 H2 H3 H4 H5 H6]. unfold token_ok, handshaken, conn_token in *.
  split; rewrite ?Ht; auto.
  - intros t c' (c & [??]%H2 & Hr)%Hc. unfold token_ok, handshaken, conn_token. rewrite Ht, Hr. auto.
  - intros t c' (c & [[??]?]%H3 & Hr)%Hn. unfold token_ok, handshaken, conn_token. rewrite Ht, Hr. auto.
  - intros t c c' (? & ? & _)%Hc (? & ? & _)%Hn. eauto.
  - intros t [??]%Hp%H5. split; [done|]. intros c' (c & ? & Hr)%Hc. unfold handshaken. rewrite Hr. eauto.
Qed.

(** Only the connection handler and the given addresses matter. *)
Lemma shrinks_handler n n1 n2 :
  handler n2 = handler n1 → given_addresses n2 ⊆ given_addresses n1 → shrinks n n1 → shrinks n n2.
Proof.
  intros Hh Hg [Hc Hn Ht Hp Hgs Hb].
  unfold node_candidates, node_connections, promotions in *.
  split; unfold node_candidates, node_connections, promotions; rewrite ?Hh; auto. set_solver.
Qed.

Lemma shrinks_same n n' :
  handler n' = handler n → given_addresses n' ⊆ given_addresses n → shrinks n n'.
Proof. intros. by eapply shrinks_handler. Qed.

Lemma drop_connection_handler c n : handler (drop_connection c n) = handler n.
Proof. unfold drop_connection. by destruct (conn_remote_id c). Qed.
Lemma drop_connection_given c n : given_addresses (drop_connection c n) = given_addresses n.
Proof. unfold drop_connection. by destruct (conn_remote_id c). Qed.
Lemma drop_connections_handler cs n : handler (drop_connections cs n) = handler n.
Proof. induction cs; simpl; [done|]. by rewrite drop_connection_handler. Qed.
Lemma drop_connections_given cs n : given_addresses (drop_connections cs n) = given_addresses n.
Proof. induction cs; simpl; [done|]. by rewrite drop_connection_given. Qed.

Lemma shrinks_drop c n n' : shrinks n n' → shrinks n (drop_connection c n').
Proof. apply shrinks_handler; [apply drop_connection_handler|by rewrite drop_connection_given]. Qed.
Lemma shrinks_drops cs n n' : shrinks n n' → shrinks n (drop_connections cs n').
Proof. apply shrinks_handler; [apply drop_connections_handler|by rewrite drop_connections_given]. Qed.

Lemma shrinks_candidates m n : m ⊆ node_candidates n → shrinks n (with_conn_candidates m n).
Proof. intros Hm. split; simpl; eauto. intros t c Hc. exists c. by eauto using lookup_weaken. Qed.
Lemma shrinks_connections m n : m ⊆ node_connections n → shrinks n (with_connections m n).
Proof. intros Hm. split; simpl; eauto. intros t c Hc. exists c. by eauto using lookup_weaken. Qed.

Lemma shrinks_map_connections f n :
  (∀ c, remote_peer (f c) = remote_peer c) → shrinks n (with_connections (f <$> node_connections n) n).
Proof.
  intros Hf. split; simpl; eauto. unfold node_connections. simpl. intros t c'.
  rewrite lookup_fmap_Some. intros (c & <- & Hc). eauto.
Qed.

Lemma shrinks_register ch n : (∀ t, ch ≠ Promotion t) → shrinks n (register_conn_change ch n).
Proof.
  intros Hch. split; simpl; eauto. intros t [?|Ht]%promotions_register; [done|].
  by destruct (Hch t).
Qed.

Lemma shrinks_bump now n n' : shrinks n n' → shrinks n (bump_last_peer_update now n').
Proof. intros Hs. etrans; [exact Hs|]. split; simpl; eauto. Qed.
Lemma shrinks_soft_bans x n : shrinks n (with_soft_bans x n).
Proof. split; simpl; eauto. Qed.
End invariant.

Create HintDb shrinks.
#[export] Hint Resolve shrinks_drop shrinks_drops shrinks_bump shrinks_soft_bans
  shrinks_register shrinks_map_connections : shrinks.
#[export] Hint Extern 1 (shrinks _ _) => apply shrinks_same; [done|set_solver] : shrinks.

(** Repeated and tried computations. *)
Lemma keeps_for {S A} (R : relation S) `{!PreOrder R} (l : list A) (f : A → ST S unit) :
  (∀ a, keeps R (f a)) → keeps R (st_for l f).
Proof.
  intros Hf. induction l as [|a l IH]; simpl; [by apply keeps_mret|].
  apply keeps_bind; [done|apply Hf|by intros _].
Qed.
Lemma keeps_try {S} (R : relation S) (m : ST S unit) : keeps R m → keeps R (st_try m).
Proof. intros Hm s. specialize (Hm s). unfold st_try. by destruct (m s) as [[] ?]. Qed.

(** The steps of a proof that a computation only shrinks the node. *)
Ltac shrink_step :=
  lazymatch goal with
  | |- keeps _ (_ ≫= _) => apply keeps_bind; [apply _| |intros ?]
  | |- keeps _ (st_lift _) => apply keeps_lift, _
  | |- keeps _ (mret _) => apply keeps_mret, _
  | |- keeps _ st_get => apply keeps_get, _
  | |- keeps _ (st_modify _) => apply keeps_modify; intros ?
  | |- keeps _ (st_for _ _) => apply keeps_for; [apply _|intros ?]
  | |- keeps _ (st_try _) => apply keeps_try
  | |- keeps _ (let '(_, _) := ?x in _) => destruct x
  | |- keeps _ (match ?x with _ => _ end) => destruct x
  end.
Ltac shrink := repeat shrink_step; eauto with shrinks.

Section operations.
Context `{!NodeExt}.
Implicit Types c : Connection session.
Implicit Types n : P2PNode.

Lemma send_over_all_shrinks data f : keeps shrinks (send_over_all_connections data f).
Proof. intros n. simpl. apply shrinks_map_connections. intros c. by destruct (f c). Qed.

Lemma process_network_packet_shrinks now pkt : keeps shrinks (process_network_packet now pkt).
Proof. unfold process_network_packet. shrink; apply send_over_all_shrinks. Qed.

Lemma send_message_shrinks now target ex net msg :
  keeps shrinks (send_message_over_network now target ex net msg).
Proof.
  intros n. unfold send_message_over_network. set (pkt := MkNetworkPacket _ _ _).
  pose proof (process_network_packet_shrinks now pkt n) as Hs.
  by destruct (process_network_packet now pkt n) as [[] ?].
Qed.

Lemma send_consensus_shrinks now ex target msg :
  keeps shrinks (send_consensus_msg_to_net now ex target msg).
Proof. unfold send_consensus_msg_to_net. shrink; apply send_message_shrinks. Qed.

Lemma handle_consensus_outbound_shrinks now m : keeps shrinks (handle_consensus_outbound_msg now m).
Proof. unfold handle_consensus_outbound_msg. shrink; apply send_consensus_shrinks. Qed.

Lemma update_peer_states_shrinks now m r : keeps shrinks (update_peer_states now m r).
Proof. unfold update_peer_states. shrink; apply send_consensus_shrinks. Qed.

Lemma handle_consensus_inbound_shrinks now sample consensus m :
  keeps shrinks (handle_consensus_inbound_msg now sample consensus m).
Proof.
  unfold handle_consensus_inbound_msg, send_msg_to_consensus.
  shrink; auto using update_peer_states_shrinks, send_consensus_shrinks.
Qed.

Lemma node_update_peer_list_shrinks : keeps shrinks node_update_peer_list.
Proof. unfold node_update_peer_list. shrink. Qed.

Lemma node_try_catch_up_shrinks now consensus : keeps shrinks (node_try_catch_up now consensus).
Proof. unfold node_try_catch_up. shrink. apply send_message_shrinks. Qed.

Lemma check_peer_states_shrinks now consensus : keeps shrinks (check_peer_states now consensus).
Proof. unfold check_peer_states. shrink; apply node_try_catch_up_shrinks. Qed.

Lemma broadcast_request_shrinks now r : keeps shrinks (broadcast_network_request now r).
Proof. unfold broadcast_network_request. shrink. apply send_over_all_shrinks. Qed.

Lemma measure_latencies_shrinks now : keeps shrinks (measure_connection_latencies now).
Proof. unfold measure_connection_latencies. shrink. Qed.

(** Removal of connections. *)

Lemma remove_connection_shrinks now t : keeps shrinks (remove_connection now t).
Proof.
  intros n. unfold remove_connection. destruct (node_candidates n !! t).
  { by apply shrinks_drop, shrinks_candidates, delete_subseteq. }
  destruct (node_connections n !! t); [|done].
  by apply shrinks_drop, shrinks_bump, shrinks_connections, delete_subseteq.
Qed.

Lemma remove_one_shrinks t n p r : shrinks n (remove_one t (n, p, r)).1.1.
Proof.
  unfold remove_one. destruct (node_candidates n !! t).
  { by apply shrinks_drop, shrinks_candidates, delete_subseteq. }
  destruct (node_connections n !! t); [|done].
  by apply shrinks_drop, shrinks_connections, delete_subseteq.
Qed.

(** The loop of [remove_connections]. *)
Lemma remove_all_shrinks ts s : shrinks s.1.1 (foldl (λ s t, remove_one t s) s ts).1.1.
Proof.
  revert s. induction ts as [|t ts IH]; intros s; cbn [foldl]; [done|]. etrans; [|apply IH].
  destruct s as [[??]?]. apply remove_one_shrinks.
Qed.

Lemma remove_connections_shrinks now ts : keeps shrinks (remove_connections now ts).
Proof.
  intros n. unfold remove_connections. pose proof (remove_all_shrinks ts (n, false, false)) as Hl.
  destruct (foldl _ _ _) as [[n' [|]] ?]; simpl in *; eauto with shrinks.
Qed.

Lemma retain_candidates_shrinks keep n : shrinks n (retain_candidates keep n).
Proof. apply shrinks_drops, shrinks_candidates, map_filter_subseteq. Qed.
Lemma retain_connections_shrinks keep n : shrinks n (retain_connections keep n).
Proof. apply shrinks_drops, shrinks_connections, map_filter_subseteq. Qed.

Lemma remove_connection_to_addr_shrinks addr n : shrinks n (remove_connection_to_addr addr n).
Proof. etrans; [apply retain_candidates_shrinks|apply retain_connections_shrinks]. Qed.

Lemma remove_faulty_shrinks now n : shrinks n (remove_faulty now n).
Proof.
  unfold remove_faulty. destruct (existsb _ _); [apply shrinks_bump|];
    apply retain_connections_shrinks.
Qed.

Lemma drop_excess_shrinks now : keeps shrinks (drop_excess now).
Proof. unfold drop_excess. shrink. apply remove_connections_shrinks. Qed.

Lemma poll_shutdown_shrinks n : shrinks n (poll_shutdown n).
Proof.
  unfold poll_shutdown. set (n1 := drop_connections _ (with_conn_candidates ∅ n)).
  assert (shrinks n n1) as H1 by (apply shrinks_drops, shrinks_candidates, map_empty_subseteq).
  etrans; [exact H1|]. set (n2 := drop_connections _ (with_connections ∅ n1)).
  etrans; [|by apply (shrinks_same n2)].
  apply shrinks_drops, shrinks_connections, map_empty_subseteq.
Qed.

(** Requests to drop or ban peers, bootstrapping and the peer count. *)

Lemma drop_by_id_shrinks id : keeps shrinks (drop_by_id id).
Proof. intros n. unfold drop_by_id. destruct (find_conn_token_by_id id n); [|done]. eauto with shrinks. Qed.

Lemma lift_kv_shrinks {A} (m : ST kv A) : keeps shrinks (lift_kv m).
Proof. intros n. unfold lift_kv. destruct (m (kvs n)). eauto with shrinks. Qed.

Lemma drop_by_ip_and_ban_shrinks ip : keeps shrinks (drop_by_ip_and_ban ip).
Proof. unfold drop_by_ip_and_ban, ban_ip. shrink. apply lift_kv_shrinks. Qed.

Lemma drop_addr_shrinks addr : keeps shrinks (drop_addr addr).
Proof.
  intros n. unfold drop_addr. set (n' := with_given_addresses _ n).
  assert (shrinks n n') as Hs by eauto with shrinks.
  destruct (find_conn_to addr n'); [|done]. simpl. etrans; [exact Hs|]. eauto with shrinks.
Qed.

Lemma attempt_bootstrap_shrinks env n : shrinks n (attempt_bootstrap env n).
Proof.
  unfold attempt_bootstrap. destruct (no_net _); [done|].
  destruct (get_bootstrap_nodes _ _) as [nodes| |]; [|done|done].
  revert n. induction nodes as [|a l IH]; intros n; simpl; [done|].
  etrans; [|apply IH]. eauto with shrinks.
Qed.

Lemma check_peers_shrinks env ps b : keeps shrinks (check_peers env ps b).
Proof.
  unfold check_peers, send_get_peers. shrink;
    auto using attempt_bootstrap_shrinks, broadcast_request_shrinks.
Qed.

Lemma measure_throughput_shrinks now ps : keeps shrinks (measure_throughput now ps).
Proof. unfold measure_throughput. shrink. Qed.
End operations.

(** ** Operations that open connections

    Each of them takes at most a known number of tokens; the counter is 64 bits
    wide and assumed not to overflow within the operation. *)

Section opening.
Context `{!NodeExt}.
Implicit Types c : Connection session.
Implicit Types n : P2PNode.

Definition tokens_left (k : nat) n : Prop := (next_token (handler n) + Z.of_nat k < 2 ^ 64)%Z.

Definition took (k : nat) n n' : Prop :=
  (next_token (handler n) ≤ next_token (handler n') ≤ next_token (handler n) + Z.of_nat k)%Z.

Definition allocates {A} (k : nat) (m : ST P2PNode A) : Prop :=
  ∀ n, node_ok n → tokens_left k n → node_ok (m n).2 ∧ took k n (m n).2.

Lemma shrinks_allocates {A} (m : ST P2PNode A) : keeps shrinks m → allocates 0 m.
Proof.
  intros Hm n Hok _. split; [by apply (shrinks_ok n)|]. unfold took. rewrite (sh_next _ _ (Hm n)). lia.
Qed.

Lemma allocates_weaken {A} j k (m : ST P2PNode A) : j ≤ k → allocates j m → allocates k m.
Proof.
  intros Hjk Hm n Hok Hl. destruct (Hm n Hok) as [? Ht]; unfold tokens_left, took in *; [lia|].
  split; [done|lia].
Qed.

Lemma allocates_bind {A B} j k (m : ST P2PNode A) (f : A → ST P2PNode B) :
  allocates j m → (∀ a, allocates k (f a)) → allocates (j + k) (m ≫= f).
Proof.
  intros Hm Hf n Hok Hl. unfold tokens_left in Hl.
  destruct (Hm n Hok) as [Hok1 Ht1]; [unfold tokens_left; lia|]. unfold took in *.
  unfold mbind, ST_bind. destruct (m n) as [[a| |] n1]; simpl in *; [|split; [done|lia]..].
  destruct (Hf a n1 Hok1) as [Hok2 Ht2]; unfold tokens_left, took in *; [lia|].
  split; [done|lia].
Qed.

Lemma allocates_try k (m : ST P2PNode unit) : allocates k m → allocates k (st_try m).
Proof.
  intros Hm n Hok Hl. specialize (Hm n Hok Hl). unfold st_try. by destruct (m n) as [[] ?].
Qed.

Lemma allocates_for {A} (l : list A) (f : A → ST P2PNode unit) :
  (∀ a, allocates 1 (f a)) → allocates (length l) (st_for l f).
Proof.
  intros Hf. induction l as [|a l IH]; simpl; [apply shrinks_allocates, keeps_mret, _|].
  apply (allocates_bind 1); [apply Hf|done].
Qed.

(** The next token, taken but not used. *)
Lemma node_ok_next n x :
  node_ok n → (next_token (handler n) ≤ x)%Z → node_ok (with_next_token x n).
Proof.
  intros [H1 H2 H3 H4 H5 H6] Hx. split; simpl; auto; [lia|..].
  - intros t c [??]%H2. split; simpl; [done|lia].
  - intros t c [[??]?]%H3. split_and!; [split; simpl; [done|lia]|done].
  - intros t [??]%H5. split; [lia|done].
Qed.

(** A new candidate gets the next token. *)
Lemma node_ok_candidate n c :
  node_ok n → conn_token c = MkToken (next_token (handler n)) →
  node_ok (with_conn_candidates (<[conn_token c := c]> (node_candidates n))
             (with_next_token (next_token (handler n) + 1) n)).
Proof.
  intros Hok Ht. destruct (node_ok_next n (next_token (handler n) + 1) Hok) as [H1 H2 H3 H4 H5 H6];
    [lia|].
  assert (∀ t c', node_connections n !! t = Some c' → t ≠ MkToken (next_token (handler n))) as Hfresh.
  { intros t c' [[_ ?] _]%(ok_connections _ Hok) ->. simpl in *. lia. }
  unfold node_candidates, node_connections, promotions in *. split; simpl in *; auto.
  - intros t c'. unfold node_candidates. simpl. rewrite Ht, lookup_insert_Some.
    intros [[<- <-]|[_ Hc]]; [|by apply H2].
    split; simpl; [done|]. pose proof (ok_next _ Hok). lia.
  - intros t c1 c2. unfold node_candidates, node_connections. simpl.
    rewrite Ht, lookup_insert_Some. intros [[<- <-]|[_ Hc]]; [|by eapply H4].
    intros Hc. by apply Hfresh in Hc.
  - intros t Hp. destruct (H5 t Hp) as [? Hh]. split; [done|]. intros c'.
    unfold node_candidates. simpl. rewrite Ht, lookup_insert_Some.
    intros [[<- <-]|[_ Hc]]; [|by apply Hh].
    destruct (ok_promotions _ Hok _ Hp) as [Hlt _]. simpl in Hlt. lia.
Qed.

Lemma Connection_new_peer env n sock t p i c :
  Connection_new env n sock t p i = Ok c → remote_peer c = p.
Proof. unfold Connection_new. intros (? & _ & Hc)%outcome_bind_ok. by simplify_eq. Qed.

(** The node after a token is taken, in the notation of the lemmas above. *)
Lemma fetch_token_next n :
  node_ok n → tokens_left 1 n →
  fetch_token n = (MkToken (next_token (handler n)), with_next_token (next_token (handler n) + 1) n).
Proof.
  intros Hok Hl. unfold fetch_token. rewrite u64_add_small; [done|].
  pose proof (ok_next _ Hok). unfold tokens_left in Hl. unfold fits. lia.
Qed.

Lemma took_next n x : took 1 n (with_next_token (next_token (handler n) + 1) (with_stats x n)).
Proof. unfold took. simpl. lia. Qed.

Lemma node_ok_stats n x : node_ok n → node_ok (with_stats x n).
Proof. apply shrinks_ok, shrinks_same; done. Qed.

Lemma accept_allocates env sock addr : allocates 1 (accept env sock addr).
Proof.
  intros n Hok Hl. unfold accept. set (n1 := with_stats _ n).
  assert (node_ok n1) as Hok1 by by apply node_ok_stats.
  destruct (accept_refusal addr n1); [split; [done|unfold took; simpl; lia]|].
  rewrite fetch_token_next by done.
  set (n2 := with_next_token _ n1).
  assert (node_ok n2 ∧ took 1 n n2) as [Hok2 Ht2].
  { split; [apply node_ok_next; [done|lia]|apply (took_next n)]. }
  destruct (Connection_new _ _ _ _ _ _) as [c| |] eqn:Hc; [|done|done].
  apply Connection_new_peer in Hc. split; [|done]. apply (node_ok_candidate n1); [done|].
  unfold conn_token. by rewrite Hc.
Qed.

Lemma connect_socket_allocates env t addr sock : allocates 1 (connect_socket env t addr sock).
Proof.
  intros n Hok Hl. unfold connect_socket. set (n1 := with_stats _ n).
  assert (node_ok n1) as Hok1 by by apply node_ok_stats.
  rewrite fetch_token_next by done. set (n2 := with_next_token _ n1).
  assert (node_ok n2 ∧ took 1 n n2) as [Hok2 Ht2].
  { split; [apply node_ok_next; [done|lia]|apply (took_next n)]. }
  destruct (Connection_new _ _ _ _ _ _) as [c| |] eqn:Hc; [|done|done].
  apply Connection_new_peer in Hc.
  destruct (send_handshake_message_a (low_level c)) as [[|e|m] ll]; simpl; [|split|done].
  - split; [|done]. apply (node_ok_candidate n1); [done|]. unfold conn_token. simpl. by rewrite Hc.
  - eapply shrinks_ok; [|done]. by apply shrinks_drop.
  - unfold took. by rewrite drop_connection_handler.
Qed.

Lemma connect_allocates env t addr b : allocates 1 (connect env t addr b).
Proof.
  apply (allocates_bind 0 1); [apply shrinks_allocates, keeps_get, _|intros n].
  apply (allocates_bind 0 1); [apply shrinks_allocates, keeps_lift, _|intros _].
  destruct (tcp_connect env addr); [apply connect_socket_allocates|..];
    apply (allocates_weaken 0); try lia; apply shrinks_allocates; shrink.
Qed.

Lemma connect_new_peers_allocates env k j ps i :
  length ps ≤ i → allocates i (connect_new_peers env k j ps).
Proof.
  revert i j. induction ps as [|p ps IH]; intros i j Hi; cbn [length connect_new_peers] in *.
  { apply (allocates_weaken 0); [lia|]. apply shrinks_allocates, keeps_mret, _. }
  apply (allocates_bind 0); [apply shrinks_allocates, keeps_get, _|intros n0].
  case_decide.
  { apply (allocates_weaken 0); [lia|]. apply shrinks_allocates, keeps_mret, _. }
  intros n Hok Hl. destruct i as [|i]; [lia|]. unfold tokens_left in Hl.
  destruct (connect_allocates env Node (p2p_addr p) true n Hok) as [Hok1 Ht1];
    [unfold tokens_left; lia|].
  destruct (connect env Node (p2p_addr p) true n) as [[u|e|m] n1]; cbn [fst snd] in *;
    unfold took in *; [| |split; [done|lia]].
  - destruct (IH i (S j) ltac:(lia) n1 Hok1); unfold tokens_left, took in *; [lia|]. split; [done|lia].
  - destruct (IH i j ltac:(lia) n1 Hok1); unfold tokens_left, took in *; [lia|]. split; [done|lia].
Qed.

Lemma node_ok_given n x : node_ok n → node_ok (with_given_addresses x n).
Proof. intros [H1 H2 H3 H4 H5 H6]. by split. Qed.

Lemma unconnected_given_subseteq n : unconnected_given_addresses n ⊆ given_addresses n.
Proof.
  unfold unconnected_given_addresses. generalize (map_values (node_connections n)) as cs.
  intros cs. revert cs. generalize (given_addresses n) as g.
  intros g cs. revert g. induction cs as [|c cs IH]; intros g; simpl; [done|].
  etrans; [apply IH|set_solver].
Qed.

Lemma length_set_iter_given n : length (set_iter (unconnected_given_addresses n)) ≤ size (given_addresses n).
Proof.
  rewrite set_iter_perm. change (length (elements ?X)) with (size X).
  apply subseteq_size, unconnected_given_subseteq.
Qed.

Lemma connect_all_allocates {A} env l k (rest : unit → ST P2PNode A) :
  (∀ a, keeps shrinks (rest a)) → length l ≤ k →
  allocates k (st_for l (λ given, st_try (connect env Node given false)) ≫= rest).
Proof.
  intros Hrest Hl. apply (allocates_weaken (length l + 0)); [lia|]. apply allocates_bind.
  - apply allocates_for. intros a. apply allocates_try, connect_allocates.
  - intros a. apply shrinks_allocates, Hrest.
Qed.

(** Start-up and housekeeping open a connection to each given address at most. *)
Definition allocates_given {A} (m : ST P2PNode A) : Prop :=
  ∀ n, node_ok n → tokens_left (size (given_addresses n)) n →
    node_ok (m n).2 ∧ took (size (given_addresses n)) n (m n).2.

Lemma allocates_given_bind {A B} (m : ST P2PNode A) (f : A → ST P2PNode B) :
  keeps shrinks m → (∀ a, allocates_given (f a)) → allocates_given (m ≫= f).
Proof.
  intros Hm Hf n Hok Hl. destruct (shrinks_allocates m Hm n Hok) as [Hok1 Ht1];
    [unfold tokens_left in *; lia|].
  pose proof (Hm n) as Hs. unfold mbind, ST_bind.
  destruct (m n) as [[a| |] n1]; cbn [fst snd] in *; [|split; [done|unfold took in *; lia]..].
  pose proof (subseteq_size _ _ (sh_given _ _ Hs)).
  destruct (Hf a n1 Hok1); unfold tokens_left, took in *; [lia|]. split; [done|lia].
Qed.

Lemma housekeeping_allocates env : allocates_given (connection_housekeeping env).
Proof.
  unfold connection_housekeeping.
  apply allocates_given_bind; [shrink; apply retain_candidates_shrinks|intros _].
  apply allocates_given_bind; [shrink; apply remove_faulty_shrinks|intros _].
  apply allocates_given_bind; [apply drop_excess_shrinks|intros _].
  apply allocates_given_bind; [unfold lift_soft_bans; shrink|intros _].
  intros n Hok Hl. rewrite bind_get.
  refine (connect_all_allocates env _ _ _ _ (length_set_iter_given _) n Hok Hl).
  intros []. shrink. apply attempt_bootstrap_shrinks.
Qed.

Lemma establish_connections_allocates conf env : allocates_given (establish_connections conf env).
Proof.
  intros n Hok Hl. unfold establish_connections, connect_to_config_nodes.
  rewrite ST_bind_assoc, bind_get.
  refine (connect_all_allocates env _ _ _ _ _ n Hok Hl).
  - intros []. shrink. apply attempt_bootstrap_shrinks.
  - by rewrite set_iter_perm.
Qed.

(** ** Changes to the set of connections *)

(** The tokens a change may take. *)
Definition change_tokens (ch : ConnChange) : nat :=
  match ch with NewConn _ _ _ => 1 | NewPeers ps => length ps | _ => 0 end.

Lemma promote_ok now t n :
  node_ok n → (∀ c, node_candidates n !! t = Some c → handshaken c) →
  node_ok (promote now t n) ∧ took 0 n (promote now t n).
Proof.
  intros Hok Hh. unfold promote, took. destruct (node_candidates n !! t) as [c|] eqn:Hc; [|split; [done|lia]].
  set (n1 := with_conn_candidates (delete t (node_candidates n)) n).
  assert (shrinks n n1) as Hs by apply shrinks_candidates, delete_subseteq.
  destruct (connected_to _ _).
  { split; [|rewrite drop_connection_handler; simpl; lia].
    apply (shrinks_ok n); [by apply shrinks_drop|done]. }
  split; [|simpl; lia]. eapply shrinks_ok; [by apply shrinks_bump|].
  destruct (ok_candidates _ Hok _ _ Hc) as [Ht Hrange]. rewrite Ht.
  destruct (shrinks_ok _ _ Hs Hok) as [H1 H2 H3 H4 H5 H6]. split; simpl; auto.
  - intros t' c'. unfold node_connections. simpl. rewrite lookup_insert_Some.
    intros [[<- <-]|[_ ?]]; [|by apply H3]. split; [done|by apply Hh].
  - intros t' c1 c2 Hc1. unfold node_connections. simpl. rewrite lookup_insert_Some.
    intros [[<- <-]|[_ ?]]; [|by eapply H4].
    unfold node_candidates in Hc1. simpl in Hc1. by rewrite lookup_delete_eq in Hc1.
Qed.

(** A change taken from the queue. *)
Lemma process_conn_change_ok env ch rest n :
  node_ok n → conn_changes (handler n) = ch :: rest → tokens_left (change_tokens ch) n →
  let n' := (process_conn_change env ch (with_conn_changes rest n)).2 in
  node_ok n' ∧ took (change_tokens ch) n n'.
Proof.
  intros Hok Hq Hl. set (n1 := with_conn_changes rest n).
  assert (promotions n = omap (λ ch, match ch with Promotion t => Some t | _ => None end) (ch :: rest))
    as Hp by (unfold promotions; by rewrite Hq).
  assert (shrinks n n1) as Hs.
  { split; simpl; eauto. intros t Ht. rewrite Hp. simpl. destruct ch; set_solver. }
  pose proof (shrinks_ok _ _ Hs Hok) as Hok1.
  enough (node_ok (process_conn_change env ch n1).2
    ∧ took (change_tokens ch) n1 (process_conn_change env ch n1).2) as Hgoal by exact Hgoal.
  destruct ch as [t|addr pt given|ps|t|t|ts].
  - apply (shrinks_allocates (process_conn_change env (ExpulsionByToken t))); [|done..].
    cbn [process_conn_change]. shrink. apply remove_connection_shrinks.
  - destruct (connect_allocates env pt addr (negb given) n1 Hok1) as [Hok2 Ht2]; [done|]. simpl.
    destruct (connect _ _ _ _ n1) as [[] n2]; simpl in *; [|done|done].
    destruct given; [split; [by apply node_ok_given|done]|done].
  - apply (allocates_bind 0 (length ps)); [apply shrinks_allocates, keeps_get, _| |done..].
    intros ?. apply (allocates_bind 0); [apply shrinks_allocates, keeps_lift, _|intros cur].
    apply connect_new_peers_allocates. by rewrite shuffle_perm.
  - apply promote_ok; [done|]. apply (ok_promotions _ Hok). rewrite Hp. simpl. set_solver.
  - apply (shrinks_allocates (process_conn_change env (RemovalByToken t))); [|done..].
    cbn [process_conn_change]. shrink. apply remove_connection_shrinks.
  - apply (shrinks_allocates (process_conn_change env (RemoveAllByTokens ts))); [|done..].
    cbn [process_conn_change]. shrink. apply remove_connections_shrinks.
Qed.
End opening.

(** ** Network events *)

Section events.
Context `{!NodeExt}.
Implicit Types c : Connection session.
Implicit Types n : P2PNode.

(** What a method keeps of the node, but for the connection it runs on. *)
Lemma frame_rest c n c' n' t :
  method_frame (c, n) (c', n') → conn_token c = t → node_ok n →
  (1 ≤ next_token (handler n'))%Z ∧ conn_token c' = t ∧ buckets_ok (handler_buckets (handler n'))
  ∧ ∀ t', t' ∈ promotions n' → t' ∈ promotions n ∨ t' = t ∧ handshaken c'.
Proof.
  intros [Hid _ _ _ Hnext Hprom Hb] Ht Hok. simpl in *. rewrite Hnext.
  assert (conn_token c' = t) as Ht' by (unfold conn_token in *; by rewrite Hid).
  split_and!; [apply (ok_next _ Hok)|done|apply Hb, (ok_buckets _ Hok)|].
  intros t' [?|[-> ?]]%Hprom; [by left|]. by right.
Qed.

Lemma on_candidate_ok t (m : ST (Connection session * P2PNode) unit) n :
  keeps method_frame m → node_ok n → node_ok (on_candidate t m n).2.
Proof.
  intros Hm Hok. unfold on_candidate. destruct (node_candidates n !! t) as [c|] eqn:Hc; [|done].
  pose proof (Hm (c, n)) as Hf. destruct (m (c, n)) as [r [c' n']]. simpl in *.
  destruct (ok_candidates _ Hok _ _ Hc) as [Ht Hrange].
  destruct (frame_rest _ _ _ _ _ Hf Ht Hok) as (Hnext & Ht' & Hb & Hprom).
  destruct Hf as [_ Hpost Hcand Hconn Hn _ _]. simpl in *. destruct Hok as [H1 H2 H3 H4 H5 H6].
  unfold node_candidates, node_connections in *. rewrite Hcand.
  split; simpl; auto; unfold node_candidates, node_connections, token_ok; simpl; rewrite ?Hn, ?Hconn.
  - intros t1 c1. rewrite lookup_insert_Some. intros [[<- <-]|[_ ?]]; [done|by apply H2].
  - auto.
  - intros t1 c1 c2. rewrite lookup_insert_Some.
    intros [[<- <-]|[_ ?]] ?; [by eapply H4|by eapply H4].
  - intros t1 Hp. destruct (decide (t1 = t)) as [->|Hne].
    + split; [lia|]. intros c1. rewrite lookup_insert_eq. intros [= <-].
      destruct (Hprom t Hp) as [Hold|[_ ?]]; [|done]. apply Hpost. by apply (H5 t Hold).
    + destruct (Hprom t1 Hp) as [Hold|[? _]]; [|done]. destruct (H5 t1 Hold) as [? Hh].
      split; [done|]. intros c1. rewrite lookup_insert_ne by done. apply Hh.
Qed.

Lemma on_connection_ok t (m : ST (Connection session * P2PNode) unit) n :
  keeps method_frame m → node_ok n → node_ok (on_connection t m n).2.
Proof.
  intros Hm Hok. unfold on_connection. destruct (node_connections n !! t) as [c|] eqn:Hc; [|done].
  pose proof (Hm (c, n)) as Hf. destruct (m (c, n)) as [r [c' n']]. simpl in *.
  destruct (ok_connections _ Hok _ _ Hc) as [[Ht Hrange] Hhs].
  destruct (frame_rest _ _ _ _ _ Hf Ht Hok) as (Hnext & Ht' & Hb & Hprom).
  destruct Hf as [_ Hpost Hcand Hconn Hn _ _]. simpl in *. destruct Hok as [H1 H2 H3 H4 H5 H6].
  unfold node_candidates, node_connections in *. rewrite Hconn.
  split; simpl; auto; unfold node_candidates, node_connections, token_ok; simpl; rewrite ?Hn, ?Hcand.
  - auto.
  - intros t1 c1. rewrite lookup_insert_Some.
    intros [[<- <-]|[_ ?]]; [split; [done|by apply Hpost]|by apply H3].
  - intros t1 c1 c2 ?. rewrite lookup_insert_Some.
    intros [[<- <-]|[_ ?]]; [by eapply H4|by eapply H4].
  - intros t1 Hp. destruct (Hprom t1 Hp) as [Hold|[-> _]]; [by apply H5|].
    split; [lia|]. intros c1 Hc1. by destruct (H4 _ _ _ Hc1 Hc).
Qed.

Lemma preserves_for {S A} (P : S → Prop) (l : list A) (f : A → ST S unit) :
  (∀ a, preserves P (f a)) → preserves P (st_for l f).
Proof.
  intros Hf. induction l as [|a l IH]; simpl; [apply preserves_mret|].
  apply preserves_bind; [apply Hf|by intros _].
Qed.

Lemma process_network_events_ok now v evs : preserves node_ok (process_network_events now v evs).
Proof.
  unfold process_network_events. apply preserves_bind; [apply preserves_get|intros n].
  apply preserves_bind; [apply preserves_lift|intros st].
  apply preserves_bind; [|intros _]; apply preserves_for; intros t n' Hok.
  - apply on_candidate_ok; [apply process_connection_frame|done].
  - apply on_connection_ok; [apply process_connection_frame|done].
Qed.

Lemma clean_buckets_ok now timeout b : buckets_ok b → buckets_ok (clean_buckets now timeout b).2.
Proof. apply bucket_update_ok. intros x. apply clean_ok. Qed.

(** ** Reachable states

    The steps of a node: the parts of the poll loop and the operations other
    threads run on the node (consensus queues, RPC, regenesis). *)

Inductive node_step n : P2PNode → Prop :=
  | step_accept env sock addr :
      tokens_left 1 n → node_step n (accept env sock addr n).2
  | step_conn_change env ch rest :
      conn_changes (handler n) = ch :: rest → tokens_left (change_tokens ch) n →
      node_step n (process_conn_change env ch (with_conn_changes rest n)).2
  | step_network_events now v evs :
      node_step n (process_network_events now v evs n).2
  | step_housekeeping env :
      tokens_left (size (given_addresses n)) n → node_step n (connection_housekeeping env n).2
  | step_establish_connections conf env :
      tokens_left (size (given_addresses n)) n → node_step n (establish_connections conf env n).2
  | step_latencies now : node_step n (measure_connection_latencies now n).2
  | step_check_peers env ps b : node_step n (check_peers env ps b n).2
  | step_throughput now ps : node_step n (measure_throughput now ps n).2
  | step_clean_buckets now timeout :
      node_step n (with_handler_buckets (clean_buckets now timeout (handler_buckets (handler n))).2 n)
  | step_update_peer_list : node_step n (node_update_peer_list n).2
  | step_check_peer_states now consensus : node_step n (check_peer_states now consensus n).2
  | step_inbound now sample consensus m :
      node_step n (handle_consensus_inbound_msg now sample consensus m n).2
  | step_outbound now m : node_step n (handle_consensus_outbound_msg now m n).2
  | step_request now r : node_step n (broadcast_network_request now r n).2
  | step_join_network id : node_step n (add_network id n)
  | step_connect_requested addr t given :
      node_step n (register_conn_change (NewConn addr t given) n)
  | step_drop_by_id id : node_step n (drop_by_id id n).2
  | step_drop_by_ip_and_ban ip : node_step n (drop_by_ip_and_ban ip n).2
  | step_drop_addr addr : node_step n (drop_addr addr n).2
  | step_unban id : node_step n (unban_node id n).2
  | step_clear_bans : node_step n (clear_bans n).2
  | step_queues q : node_step n (with_callback_queue q n)
  | step_regenesis r : node_step n (with_regenesis r n)
  | step_shutdown : node_step n (poll_shutdown n).

Lemma node_step_ok n n' : node_step n n' → node_ok n → node_ok n'.
Proof.
  intros Hstep Hok. destruct Hstep.
  1: by apply accept_allocates. 1: by apply process_conn_change_ok.
  1: by apply process_network_events_ok. 1: by apply housekeeping_allocates.
  1: by apply establish_connections_allocates.
  4: { destruct Hok as [H1 H2 H3 H4 H5 H6]. split; simpl; auto. by apply clean_buckets_ok. }
  all: eapply shrinks_ok; [|exact Hok].
  all: try by eauto with shrinks.
  all: try by (split; simpl; eauto).
  all: first
    [ apply measure_latencies_shrinks | apply check_peers_shrinks | apply measure_throughput_shrinks
    | apply node_update_peer_list_shrinks | apply check_peer_states_shrinks
    | apply handle_consensus_inbound_shrinks | apply handle_consensus_outbound_shrinks
    | apply broadcast_request_shrinks | apply drop_by_id_shrinks | apply drop_by_ip_and_ban_shrinks
    | apply drop_addr_shrinks | apply lift_kv_shrinks | apply poll_shutdown_shrinks ].
Qed.

Lemma P2PNode_new_ok env ip id conf t store seeds s r n :
  P2PNode_new env ip id conf t store seeds s r = Ok n → node_ok n.
Proof.
  unfold P2PNode_new. intros (given & _ & (conf' & _ & Hn)%outcome_bind_ok)%outcome_bind_ok.
  set (n0 := MkNode _ _ _ _ _ _ _ _ _ _) in Hn.
  assert (node_ok n0) as Hok.
  { split; simpl; auto; try done; [set_solver|apply buckets_default_ok]. }
  destruct (no_clear_bans conf'); [by simplify_eq|].
  pose proof (keeps_try shrinks _ (lift_kv_shrinks kv_clear) n0) as Hs.
  unfold clear_bans in Hn. destruct (st_try _ n0) as [[] n1]; simplify_eq.
  by eapply shrinks_ok.
Qed.

(** C2: in every state a node reaches from its construction, by any sequence of
    start-up, incoming and outgoing connections, network events with any data from the
    peers, housekeeping, consensus messages and operator requests, every
    connection is stored under its own token, which was handed out once; no
    token belongs to a candidate and to a peer at once; and every peer has
    completed the handshake. *)
Theorem node_invariant env ip id conf t store seeds s r n0 n :
  P2PNode_new env ip id conf t store seeds s r = Ok n0 → rtc node_step n0 n → node_ok n.
Proof.
  intros Hn0%P2PNode_new_ok Hr.
  induction Hr as [|n1 n2 n3 Hstep _ IH]; [done|]. apply IH. by eapply node_step_ok.
Qed.

Lemma peer_stats_total cs :
  Forall handshaken cs →
  ∃ l, mapM peer_stats_of cs = Ok l ∧ ps_local_id <$> l = (λ c, local_id (remote_peer c)) <$> cs.
Proof.
  induction 1 as [|c cs [id Hid] _ (l & IH & Hl)]; [by exists []|].
  eassert (peer_stats_of c = Ok _) as Hc.
  { unfold peer_stats_of, conn_remote_id. rewrite Hid. reflexivity. }
  change (mapM peer_stats_of (c :: cs)) with
    (y ← peer_stats_of c; k ← mapM peer_stats_of cs; Ok (y :: k)).
  rewrite Hc, bind_Ok, IH, bind_Ok. eexists. split; [reflexivity|]. rewrite !fmap_cons. by f_equal.
Qed.

Lemma conn_tokens_keys n :
  node_ok n → conn_token <$> map_values (node_connections n) = map_keys (node_connections n).
Proof.
  intros Hok. unfold map_values, map_keys. rewrite <-list_fmap_compose.
  apply Forall_fmap_ext_1, Forall_forall. intros [t c] Hc%elem_of_map_iter.
  by apply (ok_connections _ Hok _ _ Hc).
Qed.

Lemma get_peer_stats_total n t :
  node_ok n →
  ∃ l, get_peer_stats t n = Ok l ∧ NoDup (ps_local_id <$> l)
    ∧ ∀ i, i ∈ ps_local_id <$> l ↔
        ∃ c, node_connections n !! to_token i = Some c ∧ (t = None ∨ t = Some (remote_peer_type c)).
Proof.
  intros Hok. unfold get_peer_stats. set (cs := filter _ _).
  assert (∀ c, c ∈ cs ↔ node_connections n !! conn_token c = Some c
            ∧ (t = None ∨ t = Some (remote_peer_type c))) as Hcs.
  { intros c. unfold cs. rewrite list_elem_of_filter, elem_of_map_values. split.
    - intros [? [t' Hc]]. destruct (ok_connections _ Hok _ _ Hc) as [[-> _] _]. auto.
    - intros [? ?]. eauto. }
  destruct (peer_stats_total cs) as (l & Hl & Hids).
  { apply Forall_forall. intros c [Hc _]%Hcs. by apply (ok_connections _ Hok _ _ Hc). }
  exists l. split; [done|]. rewrite Hids. split.
  - apply (NoDup_fmap_1 to_token). rewrite <-list_fmap_compose.
    eapply sublist_NoDup; [|apply fmap_sublist, sublist_filter].
    change (to_token ∘ _) with (conn_token (sess:=session)).
    rewrite conn_tokens_keys by done. apply NoDup_map_keys.
  - intros i. rewrite list_elem_of_fmap. split.
    + intros (c & -> & Hc%Hcs). eauto.
    + intros (c & Hc & Ht). destruct (ok_connections _ Hok _ _ Hc) as [[Hi _] _].
      exists c. split; [by apply (inj to_token)|]. apply Hcs. by rewrite Hi.
Qed.

(** In a state that satisfies the invariant [get_peer_stats] does not panic on
    the identifier it unwraps, and lists each connection to a peer of the given
    type once. *)
Theorem get_peer_stats_safe n t :
  node_ok n →
  ∃ l, get_peer_stats t n = Ok l ∧ NoDup (ps_local_id <$> l)
    ∧ ∀ i, i ∈ ps_local_id <$> l ↔
        ∃ c, node_connections n !! to_token i = Some c ∧ (t = None ∨ t = Some (remote_peer_type c)).
Proof. apply get_peer_stats_total. Qed.
End events.

(** *** Witness: a node that accepted a connection *)

Definition accepted (n : @P2PNode NodeExample.ext) : P2PNode :=
  (accept NodeExample.env NodeExample.sock (NodeExample.addr 11 9999) n).2.

Lemma reaches_accepted (n : @P2PNode NodeExample.ext) :
  next_token (handler n) = 1%Z → rtc node_step n (accepted n).
Proof. intros Hn. apply rtc_once, step_accept. unfold tokens_left. rewrite Hn. lia. Qed.

Lemma node_invariant_witness :
  ∃ n, NodeExample.new_node = Ok n ∧ node_ok (accepted n).
Proof.
  eexists. split; [reflexivity|].
  eapply (node_invariant NodeExample.env (V4 10) (MkP2PNodeId 7) (Config_default "." ".") Node);
    [reflexivity|by apply reaches_accepted].
Defined.

(** The example node satisfies the invariant. *)
Lemma node3_relaying_ok relay : node_ok (NodeExample.node3_relaying relay).
Proof.
  split; simpl.
  - lia.
  - intros t c. unfold node_candidates. simpl. rewrite lookup_singleton_Some. intros [<- <-].
    split; [done|simpl; lia].
  - intros t c. unfold node_connections. simpl. rewrite lookup_insert_Some, lookup_singleton_Some.
    intros [[<- <-]|[_ [<- <-]]]; (split; [split; [done|simpl; lia]|by eexists]).
  - intros t c c'. unfold node_candidates, node_connections. simpl.
    rewrite lookup_singleton_Some, lookup_insert_Some, lookup_singleton_Some.
    intros [<- _] [[? _]|[_ [? _]]]; done.
  - set_solver.
  - apply buckets_default_ok.
Qed.

Lemma node3_ok : node_ok NodeExample.node3.
Proof. apply node3_relaying_ok. Qed.

Lemma get_peer_stats_safe_witness :
  ∃ l, get_peer_stats None NodeExample.node3 = Ok l ∧ MkRemotePeerId 2 ∈ ps_local_id <$> l.
Proof.
  destruct (get_peer_stats_safe NodeExample.node3 None node3_ok) as (l & Hl & _ & Hin).
  exists l. split; [exact Hl|]. apply Hin. eexists. split; [reflexivity|by left].
Defined.
