(* ===== verification/Sending.v ===== *)
(** * Sending to peers

    What [send_direct_message] and [send_broadcast_message] of
    [concordium-node/src/p2p/connectivity.rs] put on which connections, and the
    relay of consensus messages in [plugins/consensus.rs]. *)
From S2P Require Import Prelude.
From S2P Require Import PeerTypes.
From S2P Require Import ConnParts.
From S2P Require Import NetTypes.
From S2P Require Import Fbs.
From S2P Require Import FfiHelpers.
From S2P Require Import CatchUp.
From S2P Require Import Float.
From S2P Require Import Config.
From S2P Require Import NodeState.
From S2P Require Import ConnMethods.
From S2P Require Import Connectivity.
From S2P Require Import ConsensusPlugin.
From S2P Require Import Maintenance.
From S2P Require Import NodeExample.
From S2P Require Import NodeInvariant.

Section sending.
Context `{!NodeExt}.
Implicit Types c : Connection session.
Implicit Types n : P2PNode.

(** All packets are relayed: the percentage is one. *)
Definition relays_all n : Prop :=
  F64.ltb (relay_broadcast_percentage (config n)) F64.one = false.

(** The octets a packet is sent as. *)
Definition packet_bytes (now : u64) (dest : PacketDestination) (net : NetworkId) (msg : bytes) :
    bytes :=
  serialize now (netmsg now (PPacket (MkNetworkPacket dest net msg))).

(** The connections after [data] has been queued on those [p] holds of. *)
Definition queued_on (data : bytes) (p : Connection session → bool) n : P2PNode :=
  with_connections ((λ c, if p c then async_send data Normal c else c) <$> node_connections n) n.

Definition receivers (p : Connection session → bool) n : nat :=
  length (filter (λ c, p c) (map_values (node_connections n))).

Lemma send_direct_eq now target net msg n :
  let p c := bool_decide (local_id (remote_peer c) = target) in
  send_direct_message now target net msg n
  = (Ok (receivers p n), queued_on (packet_bytes now (Direct target) net msg) p n).
Proof. done. Qed.

Lemma send_broadcast_eq now ex net msg n :
  relays_all n →
  let p c := is_valid_broadcast_target c ex net in
  send_broadcast_message now ex net msg n
  = (Ok (receivers p n), queued_on (packet_bytes now (Broadcast ex) net msg) p n).
Proof.
  intros Hn p. unfold send_broadcast_message, send_message_over_network, process_network_packet,
    mbind, ST_bind, st_get, st_lift, peers_to_skip. simpl. unfold relays_all in Hn. by rewrite Hn.
Qed.

(** Tokens are unique, so at most one connection has a given identifier. *)
Lemma receivers_direct target n :
  node_ok n →
  receivers (λ c, bool_decide (local_id (remote_peer c) = target)) n
  = if decide (is_Some (node_connections n !! to_token target)) then 1 else 0.
Proof.
  intros Hok. unfold receivers.
  assert (∀ c, c ∈ map_values (node_connections n) →
    node_connections n !! conn_token c = Some c) as Hkey.
  { intros c [t Hc]%elem_of_map_values. by destruct (ok_connections _ Hok _ _ Hc) as [[-> _] _]. }
  set (l := filter _ _).
  assert (∀ c, c ∈ l ↔ node_connections n !! to_token target = Some c) as Hl.
  { intros c. unfold l. rewrite list_elem_of_filter, bool_decide_spec. split.
    - intros [<- Hc]. by apply Hkey.
    - intros Hc. destruct (ok_connections _ Hok _ _ Hc) as [[Hi _] _].
      split; [by apply (inj to_token)|]. apply elem_of_map_values. eauto. }
  assert (NoDup l) as Hnd.
  { apply NoDup_filter, (NoDup_fmap_1 conn_token). rewrite conn_tokens_keys by done.
    apply NoDup_map_keys. }
  case_decide as Hs.
  - destruct Hs as [c Hc]. apply Hl in Hc as Hin. destruct l as [|c1 [|c2 l']]; [set_solver|done|].
    assert (node_connections n !! to_token target = Some c1) as H1 by (apply Hl; set_solver).
    assert (node_connections n !! to_token target = Some c2) as H2 by (apply Hl; set_solver).
    simplify_eq. inversion Hnd. set_solver.
  - destruct l as [|c l']; [done|]. destruct Hs. exists c. apply Hl. set_solver.
Qed.

(** C29: in a state that satisfies the invariant a direct message is queued on the connection with
    the given identifier and on no other, and the number returned says whether
    there is one; nothing else of the node changes.  A broadcast, when all
    packets are relayed, is queued exactly on the connections to nodes on its
    network that are not excluded, and their number is returned. *)
Theorem messages_reach_their_targets n now net msg :
  node_ok n →
  (∀ target,
     let found := node_connections n !! to_token target in
     let data := packet_bytes now (Direct target) net msg in
     send_direct_message now target net msg n
     = (Ok (if decide (is_Some found) then 1 else 0),
        with_connections (alter (async_send data Normal) (to_token target) (node_connections n)) n))
  ∧ (∀ ex, relays_all n →
       ∃ conns, send_broadcast_message now ex net msg n
         = (Ok (receivers (λ c, is_valid_broadcast_target c ex net) n), with_connections conns n)
       ∧ ∀ t c, conns !! t = Some c ↔ (∃ c0, node_connections n !! t = Some c0
         ∧ ((peer_type (remote_peer c0) = Node ∧ (local_id (remote_peer c0) ∉ ex)
             ∧ net ∈ remote_end_networks c0)
              ∧ c = async_send (packet_bytes now (Broadcast ex) net msg) Normal c0
            ∨ (peer_type (remote_peer c0) = Bootstrapper ∨ local_id (remote_peer c0) ∈ ex
               ∨ net ∉ remote_end_networks c0) ∧ c = c0))).
Proof.
  intros Hok. split.
  - intros target. rewrite send_direct_eq, receivers_direct by done. f_equal. unfold queued_on.
    f_equal. apply map_eq. intros t. rewrite lookup_fmap.
    destruct (decide (t = to_token target)) as [->|Hne].
    + rewrite lookup_alter_eq. destruct (node_connections n !! _) as [c|] eqn:Hc; [|done].
      simpl. destruct (ok_connections _ Hok _ _ Hc) as [[Ht _] _].
      rewrite bool_decide_true; [done|]. by apply (inj to_token).
    + rewrite lookup_alter_ne by done. destruct (node_connections n !! t) as [c|] eqn:Hc; [|done].
      simpl. destruct (ok_connections _ Hok _ _ Hc) as [[Ht _] _].
      rewrite bool_decide_false; [done|]. intros Heq. apply Hne. rewrite <-Ht. unfold conn_token.
      by rewrite Heq.
  - intros ex Hall. eexists. rewrite send_broadcast_eq by done. split; [reflexivity|].
    intros t c. rewrite lookup_fmap_Some. unfold is_valid_broadcast_target.
    assert (∀ c0, (peer_type (remote_peer c0) ≠ Bootstrapper ↔ peer_type (remote_peer c0) = Node))
      as Hpt by (intros c0; by destruct (peer_type _)).
    split.
    + intros (c0 & Hc & Hl). exists c0. split; [done|]. revert Hc.
      destruct (peer_type _); repeat case_bool_decide; simpl; intros; subst; naive_solver.
    + intros (c0 & Hl & Hc). exists c0. split; [|done]. revert Hc.
      destruct (peer_type _); repeat case_bool_decide; simpl; naive_solver.
Qed.

(** ** A consensus message does not return to its source *)

(** Nothing is queued on the connection to [p]. *)
Definition keyed n : Prop := ∀ t c, node_connections n !! t = Some c → conn_token c = t.

Definition unheard (p : RemotePeerId) n n' : Prop :=
  config n' = config n ∧
  (keyed n → keyed n' ∧ node_connections n' !! to_token p = node_connections n !! to_token p).

#[local] Instance unheard_preorder p : PreOrder (unheard p).
Proof.
  split; [by split|]. intros n1 n2 n3 [Hc1 Hk1] [Hc2 Hk2]. split; [congruence|].
  intros [Hk Hl]%Hk1. destruct (Hk2 Hk) as [? ->]. auto.
Qed.

Lemma unheard_same p n n' : config n' = config n → handler n' = handler n → unheard p n n'.
Proof. intros Hc Hh. split; [done|]. unfold keyed, node_connections. by rewrite Hh. Qed.

Lemma unheard_register p ch n : unheard p n (register_conn_change ch n).
Proof. by split. Qed.

Lemma unheard_queued p data q n :
  (∀ c, local_id (remote_peer c) = p → q c = false) → unheard p n (queued_on data q n).
Proof.
  intros Hq. split; [done|]. intros Hk. unfold queued_on, keyed, node_connections. simpl. split.
  - intros t c. rewrite lookup_fmap_Some. intros (c0 & <- & Hc%Hk). by destruct (q c0).
  - rewrite lookup_fmap. change (connections (handler n)) with (node_connections n).
    destruct (node_connections n !! to_token p) as [c|] eqn:Hc; [|done]. simpl.
    rewrite Hq; [done|]. apply (inj to_token), (Hk _ _ Hc).
Qed.

Lemma send_direct_unheard p now target msg :
  target ≠ p → keeps (unheard p) (send_consensus_msg_to_net now [] (Some target) msg).
Proof.
  intros Hne n. unfold send_consensus_msg_to_net. rewrite bind_get.
  unfold mbind, ST_bind. rewrite send_direct_eq. apply unheard_queued.
  intros c <-. by apply bool_decide_false.
Qed.

Lemma send_broadcast_unheard p now ex msg n :
  p ∈ ex → relays_all n → unheard p n (send_consensus_msg_to_net now ex None msg n).2.
Proof.
  intros Hex Hall. unfold send_consensus_msg_to_net. rewrite bind_get.
  unfold mbind, ST_bind. rewrite send_broadcast_eq by done. apply unheard_queued.
  intros c <-. unfold is_valid_broadcast_target.
  rewrite (bool_decide_false (_ ∉ ex)) by naive_solver. by rewrite andb_false_r.
Qed.

Lemma keeps_for_elem {S A} (R : relation S) `{!PreOrder R} (l : list A) (f : A → ST S unit) :
  (∀ a, a ∈ l → keeps R (f a)) → keeps R (st_for l f).
Proof.
  induction l as [|a l IH]; intros Hf; simpl; [by apply keeps_mret|].
  apply keeps_bind; [done|apply Hf; set_solver|intros _; apply IH; set_solver].
Qed.

Lemma elem_of_peers_with q l i :
  i ∈ peers_with q l → ∃ st, peer_states l !! i = Some st ∧ q i st = true.
Proof.
  unfold peers_with. rewrite list_elem_of_fmap. intros ([j st] & -> & Hin).
  apply list_elem_of_filter in Hin as [Hq Hin%elem_of_map_iter]. exists st. split; [done|].
  by apply Is_true_true_1 in Hq.
Qed.

Lemma update_peer_states_unheard p now m r :
  source_peer m = Ok p → keeps (unheard p) (update_peer_states now m r).
Proof.
  intros Hsrc n. unfold update_peer_states. rewrite (bind_lift _ _ _ _ Hsrc).
  match goal with |- unheard p n (?m n).2 => revert n; change (keeps (unheard p) m) end.
  apply keeps_bind; [apply _|by apply keeps_modify; intros ?; apply unheard_same|intros _].
  assert (keeps (unheard p) (n ← st_get;
    st_for (peers_with (λ id state, bool_decide (id ≠ p ∧ state ≠ Pending)) (peers n))
      (λ peer, send_consensus_msg_to_net now [] (Some peer) (payload m)))) as Hfor.
  { apply keeps_bind; [apply _|apply keeps_get, _|intros n]. apply keeps_for_elem; [apply _|].
    intros i (st & _ & [? _]%bool_decide_eq_true)%elem_of_peers_with. by apply send_direct_unheard. }
  destruct (variant m), r; repeat case_decide; try apply Hfor; try apply keeps_mret, _.
  all: apply keeps_modify; intros n; apply unheard_register.
Qed.

Lemma send_msg_to_consensus_unheard p consensus src m :
  keeps (unheard p) (send_msg_to_consensus consensus src m).
Proof.
  unfold send_msg_to_consensus. shrink. apply unheard_same; done.
Qed.

Lemma handle_inbound_unheard p now sample consensus m n :
  source_peer m = Ok p → p ∈ dont_relay_to m → relays_all n →
  unheard p n (handle_consensus_inbound_msg now sample consensus m n).2.
Proof.
  intros Hsrc Hex Hall. unfold handle_consensus_inbound_msg. rewrite bind_get.
  destruct (match drop_rebroadcast_probability (config n) with Some q => sample q | None => Ok false end)
    as [drop| |]; [|done..].
  rewrite (bind_lift _ drop) by done. rewrite (bind_lift _ _ _ _ Hsrc).
  pose proof (send_msg_to_consensus_unheard p consensus p m n) as H1. unfold mbind at 1, ST_bind at 1.
  destruct (send_msg_to_consensus consensus p m n) as [[[r cb]| |] n1]; [|done..]. simpl in H1.
  pose proof (update_peer_states_unheard p now m r Hsrc n1) as H2. unfold mbind at 1, ST_bind at 1.
  destruct (update_peer_states now m r n1) as [[[]| |] n2]; simpl in H2; [|by etrans..].
  assert (unheard p n n2) as H3 by by etrans.
  assert (relays_all n2) as Hall2 by (unfold relays_all; by rewrite (proj1 H3)).
  destruct (_ && _); [|done].
  pose proof (send_broadcast_unheard p now (dont_relay_to m) (payload m) n2 Hex Hall2) as H4.
  unfold mbind at 1, ST_bind at 1.
  destruct (send_consensus_msg_to_net _ _ _ _ n2) as [[[]| |] n3]; simpl in *; by etrans.
Qed.

(** The message [handle_pkt_out] queues. *)
Lemma handle_pkt_out_queues ex p msg b n u n1 m :
  handle_pkt_out ex p msg b n = (Ok u, n1) →
  Relay m ∈ inbound_high (callback_queue n1) ++ inbound_low (callback_queue n1) →
  Relay m ∉ inbound_high (callback_queue n) ++ inbound_low (callback_queue n) →
  source_peer m = Ok p ∧ dont_relay_to m = ex ∧ payload m = msg.
Proof.
  unfold handle_pkt_out.
  intros (t & n2 & Ht & (ty & n3 & Hty & Hrest)%ST_bind_inv)%ST_bind_inv Hin Hnot.
  unfold st_lift in Ht, Hty. simplify_eq.
  set (req := MkConsensusMessage _ _ _ _ _) in Hrest.
  enough (m = req) as ->. { by unfold req. }
  unfold send_in_low_priority_message, send_in_high_priority_message, try_send, st_modify in Hrest.
  destruct ty; try apply ST_bind_inv in Hrest as (? & ? & Hens & Hrest);
    try (unfold st_lift in Hens); repeat case_decide; simplify_eq; simpl in *; set_solver.
Qed.

(** C12: what a peer sends to consensus does not return to it.  A message that
    [handle_pkt_out] queued for peer [p], handled in any state of the invariant of
    a node that relays all packets, puts nothing on the connection to [p],
    whatever consensus answers and whether it is relayed as a broadcast or to
    the peers that are not pending. *)
Theorem relay_never_echoes n p msg b na u nb m now sample consensus :
  handle_pkt_out [p] p msg b na = (Ok u, nb) →
  Relay m ∈ inbound_high (callback_queue nb) ++ inbound_low (callback_queue nb) →
  Relay m ∉ inbound_high (callback_queue na) ++ inbound_low (callback_queue na) →
  node_ok n → relays_all n →
  node_connections (handle_consensus_inbound_msg now sample consensus m n).2 !! to_token p
  = node_connections n !! to_token p.
Proof.
  intros Hpkt Hin Hnot Hok Hall.
  destruct (handle_pkt_out_queues _ _ _ _ _ _ _ _ Hpkt Hin Hnot) as (Hsrc & Hex & _).
  destruct (handle_inbound_unheard p now sample consensus m n Hsrc) as [_ Hk];
    [rewrite Hex; set_solver|done|].
  apply Hk. intros t c Hc. by apply (ok_connections _ Hok _ _ Hc).
Qed.

(** ** The percentage of peers to relay to *)

Lemma of_int_mul_zero k : F64.floor_as F64.u64_max (F64.mul (F64.of_int k) F64.zero) = 0%Z.
Proof.
  unfold F64.mul, F64.zero. by destruct (F64.of_int k) as [[]|[]| |[] ? ?].
Qed.

Lemma peers_to_skip_zero n ex net msg :
  node_ok n → relay_broadcast_percentage (config n) = F64.zero →
  peers_to_skip (MkNetworkPacket (Broadcast ex) net msg) n = Ok [].
Proof.
  intros Hok Hzero. destruct (get_peer_stats_total n (Some Node) Hok) as (l & Hl & _).
  unfold peers_to_skip, get_node_peer_tokens. cbn [destination]. rewrite Hzero, Hl, !bind_Ok.
  change (F64.ltb F64.zero F64.one) with true. cbn match zeta. rewrite of_int_mul_zero. f_equal.
  apply nil_length_inv. by rewrite choose_multiple_length.
Qed.

(** The percentage of peers to relay to is taken as a percentage of peers to
    leave out, and it replaces the exclusions of the packet: with a percentage
    of zero a broadcast goes to every node on its network, the excluded ones
    (such as the peer the packet came from) included. *)
Theorem relay_percentage_inverted n now ex net msg :
  node_ok n → relay_broadcast_percentage (config n) = F64.zero →
  let p c := is_valid_broadcast_target c [] net in
  send_broadcast_message now ex net msg n
  = (Ok (receivers p n), queued_on (packet_bytes now (Broadcast ex) net msg) p n).
Proof.
  intros Hok Hzero p. unfold send_broadcast_message, send_message_over_network,
    process_network_packet, mbind, ST_bind, st_get, st_lift.
  by rewrite peers_to_skip_zero.
Qed.
End sending.

(** *** Witnesses: the node with the peers 1 and 2 *)

Module SendingExample.
Import NodeExample.

(** A transaction, and consensus that accepts everything. *)
Definition packet : bytes := [1; 1; 2; 3; 4; 5]%Z.
Definition accepting : Consensus := {|
  receive_block _ _ := (FfiHelpers.Success, false);
  send_finalization _ _ := FfiHelpers.Success;
  send_finalization_record _ _ := FfiHelpers.Success;
  receive_catch_up_status _ _ _ _ := FfiHelpers.Success;
  send_transaction _ := FfiHelpers.Success;
  get_catch_up_status := [3%Z];
|}.
Definition peer1 : RemotePeerId := MkRemotePeerId 1.
Definition received : outcome unit * P2PNode := handle_pkt_out [peer1] peer1 packet true node3.
Definition message : ConsensusMessage :=
  MkConsensusMessage (Inbound peer1 DistBroadcast) Transaction packet [peer1] None.

(** A broadcast that excludes peer 1 is queued for peer 2 only. *)
Lemma messages_reach_their_targets_witness :
  (send_direct_message 5 peer1 (MkNetworkId 100) packet node3).1 = Ok 1
  ∧ (send_direct_message 5 (MkRemotePeerId 3) (MkNetworkId 100) packet node3).1 = Ok 0
  ∧ ∃ conns, send_broadcast_message 5 [peer1] (MkNetworkId 100) packet node3
      = (Ok 1, with_connections conns node3)
    ∧ conns !! MkToken 1 = node_connections node3 !! MkToken 1
    ∧ conns !! MkToken 2 = async_send (packet_bytes 5 (Broadcast [peer1]) (MkNetworkId 100) packet) Normal
        <$> node_connections node3 !! MkToken 2.
Proof.
  destruct (messages_reach_their_targets node3 5 (MkNetworkId 100) packet node3_ok) as [Hd Hb].
  split; [rewrite (Hd peer1); reflexivity|]. split; [rewrite (Hd (MkRemotePeerId 3)); reflexivity|].
  destruct (Hb [peer1] eq_refl) as (conns & E & Hc). exists conns. split; [exact E|]. split.
  - pose (view (c : Connection session) := local_id (remote_peer c)).
    assert (view <$> node_connections node3 !! MkToken 1 = Some peer1) as Hv by (vm_compute; reflexivity).
    destruct (node_connections node3 !! MkToken 1) as [c|] eqn:H1; [injection Hv as Hv|discriminate Hv].
    apply Hc. exists c. split; [exact H1|]. right. split; [|reflexivity]. right. left.
    unfold view in Hv. rewrite Hv. left.
  - pose (view (c : Connection session) := (peer_type (remote_peer c), local_id (remote_peer c),
                     bool_decide (MkNetworkId 100 ∈ remote_end_networks c))).
    assert (view <$> node_connections node3 !! MkToken 2 = Some (Node, MkRemotePeerId 2, true)) as Hv
      by (vm_compute; reflexivity).
    destruct (node_connections node3 !! MkToken 2) as [c|] eqn:H2; [|discriminate Hv].
    injection Hv as Ht Hi Hn. apply Hc. exists c. split; [exact H2|]. left. split; [|reflexivity].
    split; [exact Ht|]. split; [|exact (bool_decide_eq_true_1 _ Hn)].
    intros Hin%list_elem_of_singleton. discriminate (eq_trans (eq_sym Hi) Hin).
Defined.

(** Peer 2 receives the transaction of peer 1, peer 1 does not. *)
Lemma relay_never_echoes_witness :
  let n := (handle_consensus_inbound_msg 5 (λ _, Ok false) accepting message node3).2 in
  node_connections n !! MkToken 1 = node_connections node3 !! MkToken 1
  ∧ match node_connections n !! MkToken 2 with
    | Some c => pending (pending_messages c) = 1
    | None => False
    end.
Proof.
  intros n. split; [|vm_compute; reflexivity].
  apply (relay_never_echoes node3 peer1 packet true node3 tt received.2 message 5).
  - reflexivity.
  - vm_compute. by left.
  - apply not_elem_of_nil.
  - apply node3_ok.
  - reflexivity.
Defined.

(** Peer 1 receives a broadcast it is excluded from. *)
Lemma relay_percentage_inverted_witness :
  let n := (send_broadcast_message 5 [peer1] (MkNetworkId 100) packet (node3_relaying F64.zero)).2 in
  match node_connections n !! MkToken 1 with
  | Some c => pending (pending_messages c) = 1
  | None => False
  end.
Proof.
  intros n. unfold n. rewrite (relay_percentage_inverted (node3_relaying F64.zero)
    5 [peer1] (MkNetworkId 100) packet (node3_relaying_ok _) eq_refl).
  vm_compute. reflexivity.
Defined.
End SendingExample.
