(* ===== verification/Admission.v ===== *)
(** * Admission of connections and bans

    What [accept] and [connect] of [concordium-node/src/p2p/connectivity.rs]
    admit, and that a banned address is kept out ([p2p/bans.rs]). *)
From S2P Require Import Prelude.
From S2P Require Import PeerTypes.
From S2P Require Import ConnParts.
From S2P Require Import NetTypes.
From S2P Require Import Noise.
From S2P Require Import LowLevel.
From S2P Require Import Buckets.
From S2P Require Import Config.
From S2P Require Import NodeState.
From S2P Require Import Bans.
From S2P Require Import ConnMethods.
From S2P Require Import Connectivity.
From S2P Require Import ConsensusPlugin.
From S2P Require Import Maintenance.
From S2P Require Import NodeExample.
From S2P Require Import ConnFrame.
From S2P Require Import NodeInvariant.

Section admission.
Context `{!NodeExt}.
Implicit Types c : Connection session.
Implicit Types n : P2PNode.

(** The connection [c] is open, as a candidate or as a peer. *)
Definition open_conn n c : Prop :=
  ∃ t, node_candidates n !! t = Some c ∨ node_connections n !! t = Some c.

Lemma elem_of_open n c : c ∈ candidates_then_connections n ↔ open_conn n c.
Proof.
  unfold candidates_then_connections, open_conn. rewrite elem_of_app, !elem_of_map_values.
  naive_solver.
Qed.

Lemma first_some_None {A B} (f : A → option B) l :
  first_some f l = None ↔ ∀ a, a ∈ l → f a = None.
Proof.
  induction l as [|a l IH]; simpl; [set_solver|]. destruct (f a) eqn:Ha.
  - split; [done|]. intros Hl. rewrite Hl in Ha by set_solver. done.
  - rewrite IH. set_solver.
Qed.

Lemma first_some_Some {A B} (f : A → option B) l b :
  first_some f l = Some b → ∃ a, a ∈ l ∧ f a = Some b.
Proof.
  induction l as [|a l IH]; simpl; [done|]. destruct (f a) eqn:Ha.
  - intros [= ->]. exists a. set_solver.
  - intros (a' & ? & ?)%IH. exists a'. set_solver.
Qed.

(** A new connection clashes with an open one: they have the same IP address
    where that is not allowed, or the same address or listening address. *)
Definition clashes (addr : SocketAddr) n c : Prop :=
  if disallow_multiple_peers_on_ip (config n) then addr_ip (remote_addr c) = addr_ip addr
  else remote_addr c = addr ∨ external_addr (remote_peer c) = addr.

Lemma accept_conflict_None addr c n :
  accept_conflict addr (disallow_multiple_peers_on_ip (config n)) c = None → ¬ clashes addr n c.
Proof.
  unfold accept_conflict, clashes, external_addr, remote_addr. destruct addr as [ip port].
  destruct (rp_addr (remote_peer c)) as [ip' port'] eqn:Ha. simpl.
  destruct (disallow_multiple_peers_on_ip _); repeat case_decide; naive_solver.
Qed.

(** Why a connection is refused. *)
Definition refused_for (e : AcceptFailureReason) (addr : SocketAddr) n : Prop :=
  match e with
  | AcceptBanned => refuses_ip (addr_ip addr) n = true
  | TooManyConnections a => a = addr ∧ node_peer_type n = Node
      ∧ (hard_connection_limit (config n)
         ≤ Z.of_nat (size (node_candidates n) + size (node_connections n)))%Z
  | AlreadyConnectedToIP ip => ip = addr_ip addr ∧ disallow_multiple_peers_on_ip (config n) = true
      ∧ ∃ c, open_conn n c ∧ addr_ip (remote_addr c) = ip
  | DuplicateConnection a => a = addr ∧ ∃ c, open_conn n c ∧ clashes addr n c
  | AcceptSoftBanned => is_soft_banned addr (handler n) = true
  | AcceptOther _ => False
  end.

Lemma accept_refusal_Some addr n e : accept_refusal addr n = Some e → refused_for e addr n.
Proof.
  unfold accept_refusal. destruct (refuses_ip _ n) eqn:Hban; [by intros [= <-]|].
  case_decide as Hlim; [by intros [= <-]|].
  destruct (first_some _ _) as [e'|] eqn:Hf.
  - intros [= ->]. apply first_some_Some in Hf as (c & Hc%elem_of_open & He). revert He.
    unfold accept_conflict. destruct addr as [ip port]. simpl.
    destruct (disallow_multiple_peers_on_ip _) eqn:Hd; repeat case_decide; intros; simplify_eq; simpl.
    + eauto.
    + split; [done|]. exists c. split; [done|]. unfold clashes, external_addr, remote_addr in *.
      rewrite Hd. destruct (rp_addr (remote_peer c)); simpl in *. naive_solver.
  - destruct (is_soft_banned addr _) eqn:Hs; [by intros [= <-]|done].
Qed.

Lemma accept_refusal_None addr n :
  accept_refusal addr n = None →
  refuses_ip (addr_ip addr) n = false ∧ is_soft_banned addr (handler n) = false
  ∧ (node_peer_type n = Node →
     (Z.of_nat (size (node_candidates n) + size (node_connections n))
      < hard_connection_limit (config n))%Z)
  ∧ ∀ c, open_conn n c → ¬ clashes addr n c.
Proof.
  unfold accept_refusal. destruct (refuses_ip _ n); [done|]. case_decide as Hlim; [done|].
  destruct (first_some _ _) eqn:Hf; [done|]. destruct (is_soft_banned addr _); [done|].
  intros _. split_and!; [done..| |].
  - intros Ht. apply Z.lt_nge. naive_solver.
  - intros c Hc. apply accept_conflict_None. rewrite first_some_None in Hf. by apply Hf, elem_of_open.
Qed.

Lemma fresh_candidate n : node_ok n → node_candidates n !! MkToken (next_token (handler n)) = None.
Proof.
  intros Hok. destruct (node_candidates n !! _) as [c|] eqn:Hc; [|done].
  destruct (ok_candidates _ Hok _ _ Hc) as [_ Hr]. simpl in Hr. lia.
Qed.

(** A candidate with the next token was added. *)
Definition added_candidate (addr : SocketAddr) n n' c : Prop :=
  node_candidates n' = <[MkToken (next_token (handler n)) := c]> (node_candidates n)
  ∧ node_connections n' = node_connections n
  ∧ conn_token c = MkToken (next_token (handler n))
  ∧ remote_addr c = addr ∧ conn_is_post_handshake c = false.

(** An incoming connection is admitted only when its IP address is neither
    banned nor soft-banned, it does not clash with an open connection and,
    for a node, the number of connections stays within the hard limit; it then
    becomes a candidate under a fresh token, before its handshake.  Otherwise
    the reason returned is true of the node and no connection changes. *)
Theorem accept_spec env sock addr n :
  node_ok n → tokens_left 1 n →
  match accept env sock addr n with
  | (Ok (inr t), n') =>
    t = MkToken (next_token (handler n))
    ∧ refuses_ip (addr_ip addr) n = false ∧ is_soft_banned addr (handler n) = false
    ∧ (∀ c, open_conn n c → ¬ clashes addr n c)
    ∧ (node_peer_type n = Node →
       (Z.of_nat (size (node_candidates n') + size (node_connections n'))
        ≤ hard_connection_limit (config n))%Z)
    ∧ ∃ c, added_candidate addr n n' c
  | (Ok (inl e), n') =>
    node_candidates n' = node_candidates n ∧ node_connections n' = node_connections n
    ∧ match e with
      | AcceptOther e' => poll_register env (MkToken (next_token (handler n))) = Err e'
      | _ => refused_for e addr n
      end
  | (Err _, _) => False
  | (Panic m, _) => poll_register env (MkToken (next_token (handler n))) = Panic m
  end.
Proof.
  intros Hok Hl. unfold accept. set (n1 := with_stats _ n).
  destruct (accept_refusal addr n1) as [e|] eqn:Href.
  { apply accept_refusal_Some in Href. split_and!; [done..|]. by destruct e. }
  apply accept_refusal_None in Href as (Hban & Hsoft & Hlim & Hclash).
  rewrite fetch_token_next by (done || by apply node_ok_stats).
  unfold Connection_new. destruct (poll_register env _) as [[]|e|m] eqn:Hp; [|done|done].
  cbn [mbind outcome_bind]. split_and!; [done..| |].
  - intros Ht. specialize (Hlim Ht). unfold node_candidates, node_connections in *. simpl in *.
    rewrite map_size_insert_None by by apply fresh_candidate. lia.
  - eexists. by split_and!.
Qed.

(** ** Outgoing connections *)

Lemma connect_conflict_false addr n c :
  connect_conflict addr (disallow_multiple_peers_on_ip (config n)) c = false ↔ ¬ clashes addr n c.
Proof.
  unfold connect_conflict, clashes. destruct (disallow_multiple_peers_on_ip _).
  - by rewrite bool_decide_eq_false.
  - rewrite orb_false_iff, !bool_decide_eq_false. naive_solver.
Qed.

(** The conditions under which a node connects to an address. *)
Definition may_connect (t : PeerType) (addr : SocketAddr) (respect_max_peers : bool) n : Prop :=
  (respect_max_peers = true → t = Node → ∃ l, get_peer_stats (Some Node) n = Ok l ∧
     (as_u16 (Z.of_nat (length l)) < max_allowed_nodes (config n))%Z)
  ∧ p2p_addr (self_peer n) ≠ addr ∧ refuses_ip (addr_ip addr) n = false
  ∧ is_soft_banned addr (handler n) = false ∧ ∀ c, open_conn n c → ¬ clashes addr n c.

Lemma connect_checks_ok t addr b n u :
  connect_checks t addr b n = Ok u → may_connect t addr b n.
Proof.
  unfold connect_checks, may_connect.
  intros ([] & H1 & ([] & H2 & ([] & H3 & ([] & H4 & H5)%outcome_bind_ok)%outcome_bind_ok)
    %outcome_bind_ok)%outcome_bind_ok.
  apply ensure_ok in H2, H3, H4, H5. rewrite negb_true_iff in H2, H3, H4, H5.
  apply bool_decide_eq_false in H2. split_and!; [|done..|].
  - intros -> ->. simpl in H1. apply outcome_bind_ok in H1 as (l & Hl & Hlt).
    apply ensure_ok, bool_decide_eq_true in Hlt. eauto.
  - intros c Hc. apply connect_conflict_false.
    destruct (connect_conflict _ _ c) eqn:Hcc; [|done].
    rewrite <-not_true_iff_false, existsb_exists in H5. destruct H5. exists c. split; [|done].
    apply list_elem_of_In. apply elem_of_open in Hc. unfold candidates_then_connections in Hc.
    set_solver.
Qed.

(** A connection is opened only when the node may connect to the address; it
    then is a candidate under a fresh token whose first handshake message is on
    its way.  When opening fails no connection changes, and the address is
    soft-banned when it belongs to a node that could not be reached. *)
Theorem connect_spec env t addr b n :
  node_ok n → tokens_left 1 n →
  match connect env t addr b n with
  | (Ok _, n') =>
    may_connect t addr b n
    ∧ ∃ sock c0 c, tcp_connect env addr = Ok sock ∧ added_candidate addr n n' c
      ∧ low_level c0 = ConnectionLowLevel_new sock true (socket_read_size (config n))
          (socket_write_size (config n)) (socket_so_linger (config n))
      ∧ send_handshake_message_a (low_level c0) = (Ok tt, low_level c)
  | (r, n') =>
    node_candidates n' = node_candidates n ∧ node_connections n' = node_connections n
    ∧ (soft_bans (handler n') = soft_bans (handler n)
       ∨ ∃ e, r = Err e ∧ tcp_connect env addr = Err e ∧ t = Node ∧ soft_bans (handler n')
         = <[BanSocket addr := (now_instant env + UNREACHABLE_EXPIRATION_SECS * 1000)%Z]>
             (soft_bans (handler n)))
  end.
Proof.
  intros Hok Hl. unfold connect. rewrite bind_get. unfold mbind at 1, ST_bind at 1, st_lift at 1.
  destruct (connect_checks t addr b n) as [u|e|m] eqn:Hck; [|auto..].
  apply connect_checks_ok in Hck.
  destruct (tcp_connect env addr) as [sock|e|m] eqn:Htcp; [| |simpl; auto].
  2: { destruct t; simpl; split_and!; eauto 10. }
  unfold connect_socket.
  rewrite fetch_token_next by (done || by apply node_ok_stats).
  unfold Connection_new.
  destruct (poll_register env _) as [[]|e|m]; cbn [mbind outcome_bind]; [|simpl; auto..].
  set (c0 := MkConnection _ _ _ _ _ _).
  destruct (send_handshake_message_a (low_level c0)) as [[[]|e|m] ll] eqn:Hsend;
    [|simpl; auto..].
  split; [done|]. exists sock, c0, (with_low_level ll c0). by split_and!.
Qed.

(** ** Bans *)

(** No connection is open under the token [t]. *)
Definition closed (t : Token) n : Prop :=
  node_candidates n !! t = None ∧ node_connections n !! t = None.

Lemma closed_shrinks t n n' : shrinks n n' → closed t n → closed t n'.
Proof.
  intros [Hc Hn _ _ _ _] [H1 H2]. split; apply eq_None_not_Some; intros [c Hs].
  - apply Hc in Hs as (? & ? & _). by rewrite H1 in *.
  - apply Hn in Hs as (? & ? & _). by rewrite H2 in *.
Qed.

Lemma remove_one_closes t n p r : node_ok n → closed t (remove_one t (n, p, r)).1.1.
Proof.
  intros Hok. unfold remove_one, closed, node_candidates, node_connections.
  destruct (conn_candidates (handler n) !! t) as [c|] eqn:Hc; simpl.
  - rewrite drop_connection_handler. simpl. split; [apply lookup_delete_eq|].
    destruct (connections (handler n) !! t) eqn:Hn; [|done].
    by destruct (ok_disjoint _ Hok _ _ _ Hc Hn).
  - destruct (connections (handler n) !! t) as [c|] eqn:Hn; simpl; [|done].
    rewrite drop_connection_handler. simpl. split; [done|apply lookup_delete_eq].
Qed.

Lemma remove_connections_closes now ts n t :
  node_ok n → t ∈ ts → closed t (remove_connections now ts n).2.
Proof.
  intros Hok Ht. unfold remove_connections.
  assert (∀ s, node_ok s.1.1 → closed t (foldl (λ s t, remove_one t s) s ts).1.1) as Hl.
  { clear n Hok. induction Ht as [t ts|t t' ts Ht IH]; intros [[n p] r] Hok; cbn [foldl].
    - eapply closed_shrinks; [apply remove_all_shrinks|]. by apply remove_one_closes.
    - apply IH. eapply shrinks_ok; [apply remove_one_shrinks|done]. }
  specialize (Hl (n, false, false) Hok). by destruct (foldl _ _ _) as [[n' []] r].
Qed.

Lemma remove_connections_kvs now ts n : kvs (remove_connections now ts n).2 = kvs n.
Proof.
  unfold remove_connections.
  assert (∀ c n, kvs (drop_connection c n) = kvs n) as Hdrop.
  { intros c n'. unfold drop_connection. by destruct (conn_remote_id c). }
  assert (∀ s, kvs (foldl (λ s t, remove_one t s) s ts).1.1 = kvs s.1.1) as Hl.
  { induction ts as [|t ts IH]; intros [[n' p] r]; cbn [foldl]; [done|]. rewrite IH.
    unfold remove_one. destruct (node_candidates n' !! t); simpl; [by rewrite Hdrop|].
    destruct (node_connections n' !! t); simpl; [by rewrite Hdrop|done]. }
  specialize (Hl (n, false, false)). by destruct (foldl _ _ _) as [[n' []] r].
Qed.

Lemma find_conn_tokens_by_ip_spec ip n t :
  node_ok n →
  t ∈ find_conn_tokens_by_ip ip n ↔
  ∃ c, (node_candidates n !! t = Some c ∨ node_connections n !! t = Some c)
    ∧ addr_ip (remote_addr c) = ip.
Proof.
  intros Hok. unfold find_conn_tokens_by_ip. rewrite list_elem_of_fmap.
  assert (∀ c t', node_candidates n !! t' = Some c ∨ node_connections n !! t' = Some c →
    conn_token c = t') as Htok.
  { intros c t' [Hc|Hc]; [apply (ok_candidates _ Hok _ _ Hc)|apply (ok_connections _ Hok _ _ Hc)]. }
  split.
  - intros (c & -> & [Hip [t' Hc]%elem_of_open]%list_elem_of_filter). exists c.
    by rewrite (Htok _ _ Hc).
  - intros (c & Hc & Hip). exists c. split; [by rewrite (Htok _ _ Hc)|].
    apply list_elem_of_filter. split; [done|]. apply elem_of_open. by exists t.
Qed.

Lemma find_some_token ip n :
  find_conn_tokens_by_ip ip n ≠ [] ↔
  ∃ c, (∃ t, conn_candidates (handler n) !! t = Some c ∨ connections (handler n) !! t = Some c)
    ∧ addr_ip (remote_addr c) = ip.
Proof.
  unfold find_conn_tokens_by_ip. split.
  - intros Hne. destruct (filter _ _) as [|c l] eqn:Hf; [done|]. exists c.
    assert (c ∈ c :: l) as Hin by set_solver. rewrite <-Hf in Hin.
    by apply list_elem_of_filter in Hin as [? Hc%elem_of_open].
  - intros (c & Hc & Hip) Hnil%fmap_nil_inv. apply (not_elem_of_nil c). rewrite <-Hnil.
    apply list_elem_of_filter. split; [done|]. by apply elem_of_open.
Qed.

(** Processing a queue that holds a single request to remove connections. *)
Lemma process_remove_all env ts n u n2 :
  conn_changes (handler n) = [RemoveAllByTokens ts] →
  process_conn_changes 1 env n = (Ok u, n2) →
  n2 = (remove_connections (now_stamp env) ts (with_conn_changes [] n)).2.
Proof.
  intros Hq. cbn [process_conn_changes]. rewrite bind_get, Hq, bind_modify.
  cbn [process_conn_change]. rewrite ST_bind_assoc.
  intros (removed & n3 & -> & Hrest)%ST_bind_inv. rewrite bind_mret, bind_get in Hrest.
  unfold mret, ST_ret in Hrest. by destruct (conn_changes (handler n3)); simplify_eq.
Qed.

Lemma node_ok_handler n n' : handler n' = handler n → node_ok n → node_ok n'.
Proof.
  intros Hh [H1 H2 H3 H4 H5 H6].
  unfold node_candidates, node_connections, promotions, token_ok in *.
  split; unfold node_candidates, node_connections, promotions, token_ok; by rewrite Hh.
Qed.

Section banning.
Context `{!KvStoreLaws}.

Lemma ban_registers ip found n n1 :
  conn_changes (handler n) = [] → (0 < hard_connection_limit (config n))%Z →
  drop_by_ip_and_ban ip n = (Ok found, n1) →
  ∃ na, let ts := find_conn_tokens_by_ip ip na in
    handler na = handler n ∧ given_addresses na = filter (λ a, addr_ip a ≠ ip) (given_addresses n)
    ∧ PersistedBanId_serial (PersistedIp ip) ∈ kv_keys (kvs na)
    ∧ found = negb (bool_decide (ts = []))
    ∧ n1 = with_conn_changes [RemoveAllByTokens ts] na.
Proof.
  intros Hq Hlim Hban. unfold drop_by_ip_and_ban, ban_ip in Hban.
  apply ST_bind_inv in Hban as ([] & na & Hput & Hban). unfold lift_kv in Hput.
  destruct (kv_put _ (kvs n)) as [rp store] eqn:Hkv. simplify_eq.
  apply kv_put_keys in Hkv. cbn [is_ok] in Hkv.
  rewrite bind_modify, bind_get, bind_modify in Hban. unfold mret, ST_ret in Hban.
  set (na := with_given_addresses _ _) in Hban. exists na. simplify_eq. split_and!; [done..| |done|].
  - simpl. rewrite Hkv. set_solver.
  - unfold register_conn_change, try_send. simpl. rewrite Hq, decide_True by (simpl; lia). done.
Qed.

Lemma accept_not_banned a n : refuses_ip (addr_ip a) n = false → accept_refusal a n ≠ Some AcceptBanned.
Proof.
  intros Href. unfold accept_refusal. rewrite Href. case_decide; [done|].
  destruct (first_some _ _) eqn:Hf; [|by destruct (is_soft_banned _ _)].
  intros [= ->]. induction (candidates_then_connections n) as [|c cs IH]; [done|]. cbn in Hf.
  unfold accept_conflict in Hf at 1. by repeat (case_decide || case_match; simplify_eq).
Qed.

(** C14: banning an IP address closes what is open and keeps it out: when the
    queue of connection changes was empty and may hold one, and the request that
    [drop_by_ip_and_ban] puts into it has been processed, no connection and no
    given address has this IP address.  While the database of bans can be read, a
    connection from the address is refused as banned and none is opened to it;
    when reading it fails the ban is not seen. *)
Theorem ban_enforced env ip found n n1 n2 port :
  node_ok n → conn_changes (handler n) = [] → (0 < hard_connection_limit (config n))%Z →
  drop_by_ip_and_ban ip n = (Ok found, n1) →
  process_conn_changes 1 env n1 = (Ok tt, n2) →
  (∀ c, open_conn n2 c → addr_ip (remote_addr c) ≠ ip)
  ∧ (∀ a, a ∈ given_addresses n2 → addr_ip a ≠ ip)
  ∧ (found = true ↔ ∃ c, open_conn n c ∧ addr_ip (remote_addr c) = ip)
  ∧ (if is_ok (is_banned (PersistedIp ip) n2)
     then accept_refusal (MkSocketAddr ip port) n2 = Some AcceptBanned
          ∧ ∀ t b, is_ok (connect_checks t (MkSocketAddr ip port) b n2) = false
     else accept_refusal (MkSocketAddr ip port) n2 ≠ Some AcceptBanned).
Proof.
  intros Hok Hq Hlim Hban Hproc.
  destruct (ban_registers _ _ _ _ Hq Hlim Hban) as (na & Hh & Hg & Hkey & -> & ->).
  set (ts := find_conn_tokens_by_ip ip na) in *.
  apply (process_remove_all env ts) in Hproc; [|done]. set (nb := with_conn_changes [] _) in Hproc.
  assert (node_ok nb) as Hokb.
  { apply (shrinks_ok na); [split; simpl; eauto; set_solver|by eapply node_ok_handler]. }
  pose proof (remove_connections_shrinks (now_stamp env) ts nb) as Hs.
  pose proof (remove_connections_kvs (now_stamp env) ts nb) as Hkv.
  pose proof (λ t, remove_connections_closes (now_stamp env) ts nb t Hokb) as Hcl.
  rewrite <-Hproc in Hs, Hkv, Hcl.
  assert (refuses_ip ip n2 = is_ok (is_banned (PersistedIp ip) n2)) as Href.
  { unfold refuses_ip in *. destruct (is_banned _ n2) as [b| |] eqn:Hb; [|done..].
    apply kv_get_ok in Hb. rewrite Hb, Hkv. by apply bool_decide_eq_true. }
  split_and!.
  - intros c [t Hc] Hip.
    assert (closed t n2) as [H1 H2]; [|destruct Hc as [Hc|Hc]; by rewrite Hc in *].
    apply Hcl, find_conn_tokens_by_ip_spec; [by eapply node_ok_handler|].
    destruct Hc as [(c0 & ? & Hr)%(sh_candidates _ _ Hs)|(c0 & ? & Hr)%(sh_connections _ _ Hs)];
      exists c0; (split; [auto|]); unfold remote_addr in *; by rewrite <-Hr.
  - intros a Ha%(sh_given _ _ Hs). simpl in Ha. rewrite Hg in Ha.
    by apply elem_of_filter in Ha as [? _].
  - rewrite negb_true_iff, bool_decide_eq_false. unfold ts. by rewrite find_some_token, Hh.
  - destruct (is_ok (is_banned _ _)); [split|by apply accept_not_banned].
    + unfold accept_refusal. simpl. by rewrite Href.
    + intros t b. destruct (connect_checks _ _ _ _) as [u| |] eqn:Hck; [|done..].
      apply connect_checks_ok in Hck as (_ & _ & Hno & _). simpl in Hno. by rewrite Href in Hno.
Qed.
End banning.
End admission.

(** *** Witnesses *)

Module AdmissionExample.
Import NodeExample.

Lemma accept_spec_witness :
  ∃ t n', accept env sock (addr 14 7777) node3 = (Ok (inr t), n') ∧ t = MkToken 4
    ∧ ∃ c, added_candidate (addr 14 7777) node3 n' c.
Proof.
  eexists _, _. split; [reflexivity|].
  pose proof (accept_spec env sock (addr 14 7777) node3 node3_ok eq_refl) as (Ht & _ & _ & _ & _ & Hc).
  split; [exact Ht|exact Hc].
Defined.

Lemma connect_spec_witness :
  (connect env Node (addr 14 7777) true node3).1 = Ok tt
  ∧ may_connect Node (addr 14 7777) true node3.
Proof.
  assert ((connect env Node (addr 14 7777) true node3).1 = Ok tt) as Hr by (vm_compute; reflexivity).
  split; [exact Hr|].
  pose proof (connect_spec env Node (addr 14 7777) true node3 node3_ok eq_refl) as Hc.
  destruct (connect env Node (addr 14 7777) true node3) as [[u|e|m] n']; [apply Hc|discriminate..].
Defined.

(** The IP address of peer 1 is banned. *)
Definition banned : outcome bool * P2PNode := drop_by_ip_and_ban (V4 11) node3.

Lemma ban_enforced_witness :
  banned.1 = Ok true ∧
  accept_refusal (addr 11 5) (process_conn_changes 1 env banned.2).2 = Some AcceptBanned.
Proof.
  assert (banned.1 = Ok true) as Hb by (vm_compute; reflexivity). split; [exact Hb|].
  assert ((process_conn_changes 1 env banned.2).1 = Ok tt) as Hp by (vm_compute; reflexivity).
  assert (is_ok (is_banned (PersistedIp (V4 11)) (process_conn_changes 1 env banned.2).2) = true) as Hr
    by (vm_compute; reflexivity).
  destruct (@ban_enforced ext set_kv_laws env (V4 11) true node3 banned.2
    (process_conn_changes 1 env banned.2).2 5%Z) as (_ & _ & _ & H);
    [| | | | |rewrite Hr in H; exact (proj1 H)].
  - apply node3_ok.
  - reflexivity.
  - reflexivity.
  - rewrite <-Hb. apply surjective_pairing.
  - rewrite <-Hp. apply surjective_pairing.
Defined.
End AdmissionExample.
