(* ===== verification/Messages.v ===== *)
(** * Messages from peers

    What a message does to the node: the handshake of
    [concordium-node/src/connection/message_handlers.rs], the protection of the
    other handlers by it, deduplication in [connection/mod.rs], and the way of a
    packet to consensus ([plugins/consensus.rs]). *)
From S2P Require Import Prelude.
From S2P Require Import PeerTypes.
From S2P Require Import Dedup.
From S2P Require Import ConnParts.
From S2P Require Import NetTypes.
From S2P Require Import Fbs.
From S2P Require Import Noise.
From S2P Require Import LowLevel.
From S2P Require Import FfiHelpers.
From S2P Require Import CatchUp.
From S2P Require Import Buckets.
From S2P Require Import Float.
From S2P Require Import Config.
From S2P Require Import NodeState.
From S2P Require Import ConnMethods.
From S2P Require Import Connectivity.
From S2P Require Import ConsensusPlugin.
From S2P Require Import Maintenance.
From S2P Require Import NodeExample.
From S2P Require Import ConnFrame.
From S2P Require Import NodeInvariant.

Section handshake.
Context `{!NodeExt}.
Implicit Types c : Connection session.
Implicit Types n : P2PNode.

(** ** The handshake *)

(** The genesis blocks agree as far as both lists go. *)
Definition genesis_agree (ours theirs : list BlockHash) : Prop :=
  ∀ i a b, ours !! i = Some a → theirs !! i = Some b → a = b.

Lemma genesis_mismatch_false ours theirs :
  genesis_mismatch ours theirs = false ↔ genesis_agree ours theirs.
Proof.
  unfold genesis_mismatch, genesis_agree. revert theirs.
  induction ours as [|a ours IH]; intros [|b theirs]; simpl.
  - split; [intros _ ?; by rewrite lookup_nil|done].
  - split; [intros _ ?; by rewrite lookup_nil|done].
  - split; [intros _ ???? Hb; by rewrite lookup_nil in Hb|done].
  - rewrite orb_false_iff, bool_decide_eq_false, IH. split.
    + intros [Hab Hl] [|i] x y ?? ; simplify_eq/=; [by apply dec_stable|by eapply Hl].
    + intros Hl. split; [intros Hne; apply Hne; by apply (Hl 0)|].
      intros i x y. apply (Hl (S i)).
Qed.

(** What a handshake must satisfy, with the wire version that is agreed on. *)
Definition acceptable (h : Handshake) (v : u8) n : Prop :=
  is_compatible_version (node_version h) = true
  ∧ wire_versions h ≠ [] ∧ is_compatible_wire_version (wire_versions h) = Some v
  ∧ size (NetTypes.networks h) ≤ MAX_PEER_NETWORKS
  ∧ genesis_agree (genesis_blocks_known (regenesis n)) (genesis_blocks h).

(** The connection and the node after a handshake has been accepted. *)
Record handshake_done (h : Handshake) (v : u8) c n c' n' : Prop := {
  hd_id : conn_remote_id c' = Some (remote_id h);
  hd_port : remote_peer_external_port c' = remote_port h;
  hd_addr : remote_addr c' = remote_addr c ∧ conn_token c' = conn_token c;
  hd_networks : remote_end_networks c' = remote_end_networks c ∪ NetTypes.networks h;
  hd_version : wire_version c' = v;
  hd_peers : peers_gauge (stats n') = as_i64 (peers_gauge (stats n) + 1);
  hd_promotion : conn_changes (handler n')
    = (try_send (Z.to_nat (hard_connection_limit (config n))) (Promotion (conn_token c))
         (conn_changes (handler n))).2;
  hd_bucket : peer_type (remote_peer c) = Node → ∃ b bn,
    buckets (handler_buckets (handler n')) = [b] ∧ b !! local_id (remote_peer c) = Some bn;
}.

Lemma send_peer_list_resp_queues now nets st c n :
  ∃ q, send_peer_list_resp now nets st (c, n) = (Ok tt, (with_pending_messages q c, n)).
Proof.
  unfold send_peer_list_resp, mbind, ST_bind, get_conn, get_node. simpl.
  destruct (peer_list_resp nets st c n); [by eexists|].
  exists (pending_messages c). by destruct c.
Qed.

Lemma promote_done now h v c n :
  buckets_ok (handler_buckets (handler n)) →
  ∃ c' n', promote_to_post_handshake now (remote_id h) (remote_port h) (NetTypes.networks h) v (c, n)
    = (Ok tt, (c', n')) ∧ handshake_done h v c n c' n'.
Proof.
  intros (b & Hb & Hok). unfold promote_to_post_handshake, populate_remote_end_networks,
    mbind, ST_bind, modify_conn, modify_node, get_conn, lift_buckets, insert_into_bucket, at_bucket_0.
  cbn [fst snd remote_peer with_remote_peer with_remote_end_networks PeerTypes.peer_type].
  destruct (PeerTypes.peer_type (remote_peer c)) eqn:Ht; simpl; [rewrite Hb|]; simpl.
  - eexists _, _. split; [reflexivity|]. split; simpl; auto. intros _.
    unfold set_insert. simpl.
    destruct (b !! local_id (remote_peer c)) as [bn|] eqn:Hl; eexists _, _; (split; [reflexivity|]).
    + exact Hl.
    + apply lookup_insert_eq.
  - eexists _, _. split; [reflexivity|]. split; simpl; auto. by rewrite Ht.
Qed.

(** C21: a handshake is accepted exactly when the versions are compatible, a wire
    version is shared, there are not too many networks and the genesis blocks
    agree as far as both sides list them.  The connection then carries the
    identifier, port, networks and wire version of the handshake, and its
    promotion to a peer is requested; otherwise the connection fails and
    neither it nor the node changes. *)
Theorem handshake_accepted_iff now h st c n :
  buckets_ok (handler_buckets (handler n)) →
  (∀ v, acceptable h v n →
     ∃ c' n', handle_handshake_req now h st (c, n) = (Ok tt, (c', n'))
       ∧ handshake_done h v c n c' n')
  ∧ ((∀ v, ¬ acceptable h v n) → ∃ e, handle_handshake_req now h st (c, n) = (Err e, (c, n))).
Proof.
  intros Hb. split.
  - intros v (H1 & H2 & H3 & H4 & H5%genesis_mismatch_false).
    destruct (promote_done now h v c n Hb) as (c' & n' & Hp & Hd).
    unfold handle_handshake_req, st_lift. rewrite H1, H3, !bool_decide_true by done.
    cbn [ensure]. unfold mbind, ST_bind, get_node. cbn [fst snd]. rewrite H5. cbn [negb ensure].
    rewrite Hp. destruct (node_peer_type n); [by eexists _, _|].
    destruct (send_peer_list_resp_queues now (NetTypes.networks h) st c' n') as [q Hq].
    eexists _, _. split; [exact Hq|]. destruct Hd. by split.
  - intros Hno. unfold handle_handshake_req, mbind, ST_bind, st_lift, get_node, ensure.
    destruct (is_compatible_version (node_version h)) eqn:H1; [|by eexists].
    case_bool_decide as H2; [|by eexists].
    destruct (is_compatible_wire_version (wire_versions h)) as [v|] eqn:H3; [|by eexists].
    case_bool_decide as H4; [|by eexists]. cbn [fst snd].
    destruct (genesis_mismatch _ _) eqn:H5; [by eexists|].
    destruct (Hno v). apply genesis_mismatch_false in H5. by split_and!.
Qed.
End handshake.

(** ** Before the handshake *)

Section before_handshake.
Context `{!NodeExt}.
Implicit Types c : Connection session.
Implicit Types n : P2PNode.

(** What consensus, the peers and the operator see of the node stays the same. *)
Definition unaffected (s s' : Connection session * P2PNode) : Prop :=
  callback_queue s'.2 = callback_queue s.2 ∧ conn_changes (handler s'.2) = conn_changes (handler s.2)
  ∧ handler_buckets (handler s'.2) = handler_buckets (handler s.2)
  ∧ node_candidates s'.2 = node_candidates s.2 ∧ node_connections s'.2 = node_connections s.2
  ∧ remote_peer s'.1 = remote_peer s.1 ∧ pending_messages s'.1 = pending_messages s.1
  ∧ remote_end_networks s'.1 = remote_end_networks s.1.

Lemma handle_message_before_handshake now msg st c n :
  conn_is_post_handshake c = false →
  (∀ h, msg_payload msg ≠ PRequest (HandshakeReq h)) →
  handle_incoming_message now msg st (c, n)
  = (Err (Other "Connection has not yet completed the handshake."), (c, n)).
Proof.
  intros Hpre Hno. unfold handle_incoming_message, mbind, ST_bind, get_conn, st_lift. cbn [fst snd].
  destruct (msg_payload msg) as [[]|[]|]; cbn [fst]; rewrite ?Hpre; try done. by edestruct Hno.
Qed.

Lemma is_packet_duplicate_unaffected packet s r s' :
  is_packet_duplicate packet s = (r, s') → unaffected s s'.
Proof.
  unfold is_packet_duplicate, mbind, ST_bind, mret, ST_ret, st_lift, get_node, modify_node.
  intros Hd. destruct s as [c n].
  destruct (match message packet with [] => _ | _ :: _ => _ end) as [t| |]; [|by simplify_eq..].
  destruct (destination packet); [by simplify_eq/=|].
  destruct (dedup_queue t) as [[get set]|]; [|by simplify_eq/=].
  destruct (dedup_with _ _) as [r' q]. by simplify_eq/=.
Qed.

(** C13: before its handshake a connection gets nothing out of the node: whatever
    octets it sends, unless they are a handshake, no packet reaches consensus,
    no reply is queued, no peer is added and no other connection is asked for;
    the message is rejected, except that a bootstrapper ignores packets and
    a packet known as a duplicate is dropped. *)
Theorem nothing_before_handshake now bs st c n :
  conn_is_post_handshake c = false →
  (∀ msg h, deserialize now bs = Ok msg → msg_payload msg ≠ PRequest (HandshakeReq h)) →
  unaffected (c, n) (process_message now bs st (c, n)).2
  ∧ ((process_message now bs st (c, n)).1 = Ok tt →
     ∃ msg pkt, deserialize now bs = Ok msg ∧ msg_payload msg = PPacket pkt).
Proof.
  intros Hpre Hno. unfold process_message, mbind, ST_bind, get_node, modify_conn, modify_node, st_lift.
  cbn [fst snd]. set (c1 := with_conn_stats _ c). set (n1 := with_stats _ _).
  assert (unaffected (c, n) (c1, n1)) as H1 by done.
  destruct (deserialize now bs) as [msg|e|m] eqn:Hmsg; [|done..].
  specialize (λ h, Hno msg h eq_refl).
  pose proof (handle_message_before_handshake now msg st c1) as Hrej.
  destruct (msg_payload msg) as [| |pkt] eqn:Hpl; [rewrite Hrej by done; split; [done|done]..|].
  split; [|eauto]. destruct (node_peer_type n); [|done].
  destruct (is_packet_duplicate pkt (c1, n1)) as [r s'] eqn:Hdup.
  apply is_packet_duplicate_unaffected in Hdup as Hs.
  assert (unaffected (c, n) s') as H2.
  { unfold unaffected in *. unpack. split_and!; congruence. }
  destruct r as [[]| |]; [done| |done..]. destruct s' as [c' n'].
  rewrite handle_message_before_handshake; [done| |by rewrite Hpl].
  unfold conn_is_post_handshake in *. destruct H2 as (_ & _ & _ & _ & _ & Hr & _).
  simpl in Hr. by rewrite Hr.
Qed.
End before_handshake.

(** ** Deduplication *)

Section deduplication.
Context `{!NodeExt} `{!CircularQueueLaws circular}.
Implicit Types c : Connection session.
Implicit Types n : P2PNode.

Lemma dedup_twice (q q' : DynQueue circular) m r :
  0 < dyn_capacity q → dedup_with m q = (r, q') → dedup_with m q' = (Ok true, q').
Proof.
  intros Hcap Hq. destruct (check_step q m) as (q1 & Hc & Hh & _ & Hw).
  unfold dedup_with in *. rewrite Hc in Hq. simplify_eq. apply check_duplicate.
  rewrite Hh, Hw. unfold is_dup. case_bool_decide as Hin; [done|].
  simpl. destruct (dyn_capacity q); [lia|]. simpl. set_solver.
Qed.

(** A packet handled by [handle_pkt_out] leaves the deduplication queues and the
    kind of the node alone. *)
Lemma handle_pkt_out_keeps ex id msg b n :
  deduplication_queues (handler (handle_pkt_out ex id msg b n).2) = deduplication_queues (handler n)
  ∧ self_peer (handle_pkt_out ex id msg b n).2 = self_peer n.
Proof.
  unfold handle_pkt_out. destruct msg as [|tag msg]; [done|].
  unfold mbind, ST_bind, st_lift. destruct (PacketType_try_from tag) as [t| |]; [|done|done].
  destruct t; simpl;
    try (destruct (ensure _ _); [|done|done]); unfold st_modify;
    (destruct (send_in_high_priority_message _ _) as [[] q] ||
     destruct (send_in_low_priority_message _ _) as [[] q]); done.
Qed.

Lemma handle_packet_keeps now msg pkt st c n :
  msg_payload msg = PPacket pkt →
  let n' := (handle_incoming_message now msg st (c, n)).2.2 in
  deduplication_queues (handler n') = deduplication_queues (handler n) ∧ self_peer n' = self_peer n.
Proof.
  intros Hp. unfold handle_incoming_message. rewrite Hp.
  unfold mbind, ST_bind, get_conn, st_lift, handle_incoming_packet, lift_node. cbn [fst snd].
  destruct (ensure _ _); [|done..].
  match goal with |- context [handle_pkt_out ?a ?b ?c ?d n] =>
    pose proof (handle_pkt_out_keeps a b c d n) as Hk; destruct (handle_pkt_out a b c d n) end.
  done.
Qed.

(** A broadcast packet of a type that is deduplicated. *)
Record dedup_broadcast (now : u64) (bs : bytes) (m : bytes) n : Prop := {
  db_msg : ∃ msg pkt ex, deserialize now bs = Ok msg ∧ msg_payload msg = PPacket pkt
    ∧ destination pkt = Broadcast ex ∧ NetTypes.message pkt = m;
  db_type : ∃ tag rest ty, m = tag :: rest ∧ PacketType_try_from tag = Ok ty ∧ ty ≠ CatchUpStatus;
  db_node : node_peer_type n = Node;
}.

(** The state after the packet went through deduplication. *)
Lemma process_broadcast now bs m st c n :
  dedup_broadcast now bs m n →
  ∃ get set c1 n1 msg pkt,
    msg_payload msg = PPacket pkt
    ∧ (∀ q d, get (set q d) = q)
    ∧ In get [finalizations; transactions; blocks; fin_records]
    ∧ (∃ tag rest ty, m = tag :: rest ∧ PacketType_try_from tag = Ok ty
         ∧ dedup_queue ty = Some (get, set))
    ∧ handler n1 = handler (with_total_received (u64_add (total_received (handler n)) 1) n)
    ∧ callback_queue n1 = callback_queue n ∧ self_peer n1 = self_peer n
    ∧ let '(r, q) := dedup_with m (get (deduplication_queues (handler n))) in
      let n2 := with_deduplication_queues (set q (deduplication_queues (handler n))) n1 in
      process_message now bs st (c, n)
      = match r with
        | Ok true => (Ok tt, (c1, n2))
        | Ok false => handle_incoming_message now msg st (c1, n2)
        | Err e => (Err e, (c1, n2))
        | Panic p => (Panic p, (c1, n2))
        end.
Proof.
  intros [(msg & pkt & ex & Hmsg & Hpl & Hdest & <-) (tag & rest & ty & Hm & Hty & Hcu) Hnode].
  assert (∃ get set, dedup_queue ty = Some (get, set) ∧ (∀ q d, get (set q d) = q)
    ∧ In get [finalizations; transactions; blocks; fin_records]) as (get & set & Hq & Hgs & Hin).
  { destruct ty; try done; eexists _, _; (split; [reflexivity|]); (split; [done|]); simpl; auto. }
  unfold process_message, mbind, ST_bind, get_node, modify_conn, modify_node, st_lift. cbn [fst snd].
  set (c1 := with_conn_stats _ c). set (n1 := with_stats _ _).
  exists get, set, c1, n1, msg, pkt.
  do 3 (split; [done|]). split; [by exists tag, rest, ty|]. split_and!; [done..|].
  rewrite Hmsg, Hpl, Hnode. unfold is_packet_duplicate, mbind, ST_bind, get_node, modify_node, st_lift.
  rewrite Hm, Hty, Hdest, Hq. cbn [fst snd].
  change (deduplication_queues (handler n1)) with (deduplication_queues (handler n)).
  rewrite <-Hm. destruct (dedup_with _ _) as [[[]| |] q]; done.
Qed.

(** The node hands a broadcast to consensus once: after any connection has
    delivered it, whatever came of it, the next copy is dropped without an
    error and the queues of consensus do not change. *)
Theorem broadcast_delivered_once now now2 bs bs2 m st st2 c c2 n :
  dedup_broadcast now bs m n → dedup_broadcast now2 bs2 m n →
  Forall (λ get, 0 < dyn_capacity (get (deduplication_queues (handler n))))
    [finalizations; transactions; blocks; fin_records] →
  let n1 := (process_message now bs st (c, n)).2.2 in
  let s2 := process_message now2 bs2 st2 (c2, n1) in
  s2.1 = Ok tt ∧ callback_queue s2.2.2 = callback_queue n1.
Proof.
  intros Hdb [Hmsg Htype Hnode] Hcap n1.
  destruct (process_broadcast now bs m st c n Hdb) as
    (get & set & ca & na & msg & pkt & Hpl & Hgs & Hin & (tag & rest & ty & Hm & Hty & Hq) & Ha & Hcb & Hself & Hrun).
  destruct (dedup_with m (get (deduplication_queues (handler n)))) as [r q] eqn:Hd.
  apply list_elem_of_In in Hin. rewrite Forall_forall in Hcap. specialize (Hcap _ Hin).
  pose proof (dedup_twice _ _ _ _ Hcap Hd) as Hdup.
  assert (get (deduplication_queues (handler n1)) = q ∧ self_peer n1 = self_peer n) as [Hq1 Hself1].
  { unfold n1. rewrite Hrun. destruct r as [[]| |]; simpl; [by rewrite Hgs| |by rewrite Hgs..].
    edestruct (handle_packet_keeps now msg pkt st ca) as [Hk1 Hk2]; [done|].
    rewrite Hk1, Hk2. simpl. by rewrite Hgs. }
  assert (dedup_broadcast now2 bs2 m n1) as Hdb2.
  { split; [done..|]. unfold node_peer_type. by rewrite Hself1. }
  destruct (process_broadcast now2 bs2 m st2 c2 n1 Hdb2) as
    (get' & set' & cb & nb & msg' & pkt' & _ & _ & _ & (tag' & rest' & ty' & Hm' & Hty' & Hq')
     & _ & Hcb2 & _ & Hrun2).
  assert (get' = get) as -> by (simplify_eq; congruence).
  rewrite Hq1, Hdup in Hrun2. simpl. rewrite Hrun2. by split.
Qed.
End deduplication.

(** ** Packets too short for consensus *)

Section short_packets.
Context `{!NodeExt}.
Implicit Types n : P2PNode.

Lemma split_short body : length body < 4 → is_panic (split_genesis_index body) = true.
Proof.
  intros Hl. unfold split_genesis_index, slice_to. rewrite decide_False by lia. done.
Qed.

(** A packet of fewer than five octets that is not a transaction passes all
    checks of the network layer, and makes the thread that hands it to
    consensus panic, on the slice of the genesis index. *)
Theorem short_packet_panics p b tag rest ty n na now sample consensus :
  PacketType_try_from tag = Ok ty → ty ≠ Transaction → length rest < 4 →
  drop_rebroadcast_probability (config n) = None →
  (∃ n', handle_pkt_out [p] p (tag :: rest) b na = (Ok tt, n'))
  ∧ ∀ m, variant m = ty → payload m = tag :: rest → source_peer m = Ok p →
    is_panic (handle_consensus_inbound_msg now sample consensus m n).1 = true.
Proof.
  intros Hty Htr Hlen Hdrop. split.
  - unfold handle_pkt_out, mbind, ST_bind, st_lift. rewrite Hty. unfold st_modify.
    destruct ty; [by eexists|done|by eexists..].
  - intros m Hvar Hpay Hsrc. unfold handle_consensus_inbound_msg. rewrite bind_get, Hdrop.
    rewrite (bind_lift _ false) by done. rewrite (bind_lift _ _ _ _ Hsrc).
    unfold send_msg_to_consensus. rewrite ST_bind_assoc, bind_get, ST_bind_assoc.
    rewrite (bind_lift _ rest) by (rewrite Hpay; done).
    pose proof (split_short rest Hlen) as Hs.
    destruct (split_genesis_index rest) as [| |msg] eqn:Hsp; [done..|].
    rewrite ST_bind_assoc. unfold mbind at 1, ST_bind at 1, st_lift at 1.
    rewrite Hvar. by destruct ty.
Qed.
End short_packets.

(** ** Answers to requests for peers *)

Section peer_lists.
Context `{!NodeExt}.
Implicit Types c : Connection session.
Implicit Types n : P2PNode.

(** A peer that asks for peers is never told about itself: a node lists the
    peers of the other connections, with their listening addresses; a
    bootstrapper lists at most the configured number of known nodes that share
    a network with the request, each once, and nothing while it knows fewer
    than it waits for. *)
Theorem peer_list_resp_spec nets st c n ps :
  buckets_ok (handler_buckets (handler n)) →
  peer_list_resp nets st c n = Some ps →
  let requestor := local_id (remote_peer c) in
  ps ≠ [] ∧
  match node_peer_type n with
  | Node => ∀ p, p ∈ ps ↔ ∃ s, s ∈ st ∧ ps_local_id s ≠ requestor
      ∧ p = MkP2PPeer (ps_self_id s) (PeerStats_external_address s) (ps_peer_type s)
  | Bootstrapper =>
    length ps ≤ bootstrapper_peer_list_size (config n)
    ∧ (bootstrapper_wait_minimum_peers (config n) ≤ Z.of_nat (length ps))%Z
    ∧ ∃ b, buckets (handler_buckets (handler n)) = [b]
      ∧ ∀ p, p ∈ ps → ∃ rp, RemotePeer_peer rp = Some p ∧ eligible (Some requestor) nets b rp
  end.
Proof.
  intros Hb. unfold peer_list_resp. destruct (node_peer_type n).
  - case_decide as Hne; [|done]. intros [= <-]. split; [done|].
    intros p. rewrite list_elem_of_fmap. split.
    + intros (s & -> & [? ?]%list_elem_of_filter). eauto.
    + intros (s & ? & ? & ->). exists s. split; [done|]. by apply list_elem_of_filter.
  - set (l := get_random_nodes _ _ _ _). case_decide as Hne; [|done]. intros [= <-].
    destruct Hne as [Hne Hmin]. split; [done|].
    assert (length (omap RemotePeer_peer l) ≤ length l) as Hlen.
    { generalize l as k. induction k as [|a k IH]; [done|].
      change (omap RemotePeer_peer (a :: k)) with
        (match RemotePeer_peer a with
         | Some p => p :: omap RemotePeer_peer k
         | None => omap RemotePeer_peer k
         end).
      destruct (RemotePeer_peer a); simpl; lia. }
    assert (length l ≤ bootstrapper_peer_list_size (config n)) as Hl.
    { unfold l, get_random_nodes. rewrite choose_multiple_length. lia. }
    split_and!; [lia|done|]. destruct Hb as (b & Hb & Hok). exists b. split; [done|].
    intros p (rp & Hrp & Hp)%list_elem_of_omap. exists rp. split; [done|].
    rewrite <-(elem_of_get_all_nodes _ _ _ _ _ Hb Hok). eapply elem_of_submseteq; [exact Hrp|].
    apply choose_multiple_submseteq.
Qed.
End peer_lists.

(** *** Examples: messages to the node with two peers and a candidate *)

Module MessagesExample.
Import NodeExample.

Definition candidate : Connection session := conn 3 13 None.
Definition peer1 : Connection session := conn 1 11 (Some (MkP2PNodeId 91)).

Definition hello : Handshake :=
  @MkHandshake toy_ext (MkP2PNodeId 93) 8889 {[ MkNetworkId 100 ]} 5 [1%Z; 0%Z] [true; false] [].

Lemma hello_acceptable : ∃ v, acceptable hello v node3.
Proof.
  eexists. split_and!; [reflexivity|done|reflexivity|vm_compute; lia|].
  by apply genesis_mismatch_false.
Qed.

Lemma handshake_accepted_iff_witness :
  ∃ c' n', handle_handshake_req 5 hello [] (candidate, node3) = (Ok tt, (c', n'))
    ∧ conn_remote_id c' = Some (MkP2PNodeId 93).
Proof.
  destruct hello_acceptable as [v Hv].
  destruct (@handshake_accepted_iff ext 5 hello [] candidate node3 (ok_buckets _ node3_ok)) as [Hacc _].
  destruct (Hacc v Hv) as (c' & n' & Hr & Hd). exists c', n'.
  split; [exact Hr|apply (hd_id _ _ _ _ _ _ Hd)].
Defined.

(** A broadcast transaction. *)
Definition transaction : bytes := [1; 7; 8]%Z.
Definition broadcast : bytes :=
  @serialize toy_ext CodecExample.codec (canonical_set_iter NetworkId) 5
    (netmsg 5 (PPacket (MkNetworkPacket (Broadcast []) (MkNetworkId 100) transaction))).

Lemma nothing_before_handshake_witness :
  unaffected (candidate, node3) (process_message 6 broadcast [] (candidate, node3)).2.
Proof.
  apply (nothing_before_handshake 6 broadcast [] candidate node3); [reflexivity|].
  intros msg h Hmsg. vm_compute in Hmsg. by injection Hmsg as <-.
Defined.

Lemma broadcast_dedup now : dedup_broadcast now broadcast transaction node3.
Proof.
  split.
  - eexists _, _, _. split; [vm_compute; reflexivity|]. done.
  - exists 1%Z, [7; 8]%Z, Transaction. done.
  - reflexivity.
Qed.

Lemma broadcast_delivered_once_witness :
  let n1 := (process_message 6 broadcast [] (peer1, node3)).2.2 in
  length (inbound_low (callback_queue n1)) = 1
  ∧ callback_queue (process_message 7 broadcast [] (peer1, n1)).2.2 = callback_queue n1.
Proof.
  intros n1. split; [vm_compute; reflexivity|].
  apply (broadcast_delivered_once 6 7 broadcast broadcast transaction [] [] peer1 peer1 node3).
  - apply broadcast_dedup.
  - apply broadcast_dedup.
  - repeat constructor.
Defined.

(** A packet is remembered as seen before it is checked that its sender has
    completed the handshake: a connection without a handshake can keep a
    transaction from consensus.  It sends the transaction and is rejected; the
    copy of an honest peer is then dropped as a duplicate. *)
Theorem unauthenticated_packet_suppresses :
  let s1 := process_message 6 broadcast [] (candidate, node3) in
  let s2 := process_message 7 broadcast [] (peer1, s1.2.2) in
  s1.1 = Err (Other "Connection has not yet completed the handshake.")
  ∧ s2.1 = Ok tt ∧ callback_queue s2.2.2 = ConsensusQueues_default.
Proof. split_and!; vm_compute; reflexivity. Qed.

Definition accepting : Consensus := {|
  receive_block _ _ := (FfiHelpers.Success, false);
  send_finalization _ _ := FfiHelpers.Success;
  send_finalization_record _ _ := FfiHelpers.Success;
  receive_catch_up_status _ _ _ _ := FfiHelpers.Success;
  send_transaction _ := FfiHelpers.Success;
  get_catch_up_status := [3%Z];
|}.

Lemma short_packet_panics_witness :
  is_panic (handle_consensus_inbound_msg 5 (λ _, Ok false) accepting
    (MkConsensusMessage (Inbound (MkRemotePeerId 1) DistBroadcast) Block [0%Z; 9%Z]
       [MkRemotePeerId 1] None) node3).1 = true.
Proof.
  apply (short_packet_panics (MkRemotePeerId 1) true 0 [9%Z] Block node3 node3);
    [reflexivity|done|simpl; lia|reflexivity..].
Defined.

Definition answer : list P2PPeer :=
  [MkP2PPeer (MkP2PNodeId 92) (addr 12 8888) Node].

Lemma peer_list_resp_spec_witness :
  ∃ st, get_peer_stats None node3 = Ok st ∧ peer_list_resp ∅ st peer1 node3 = Some answer
    ∧ ∀ p, p ∈ answer → ∃ s, s ∈ st ∧ ps_local_id s ≠ MkRemotePeerId 1.
Proof.
  eexists. split; [vm_compute; reflexivity|].
  match goal with |- peer_list_resp ∅ ?st _ _ = _ ∧ _ => set (stats := st) end.
  assert (peer_list_resp ∅ stats peer1 node3 = Some answer) as Hr by (vm_compute; reflexivity).
  split; [exact Hr|].
  destruct (peer_list_resp_spec ∅ stats peer1 node3 answer (ok_buckets _ node3_ok) Hr) as [_ Hps].
  intros p (s & Hs & Hid & _)%Hps. exists s. split; [exact Hs|exact Hid].
Defined.
End MessagesExample.
