(* ===== verification/Upkeep.v ===== *)
(** * Upkeep of the connections

    Housekeeping ([connection_housekeeping] of
    [concordium-node/src/p2p/connectivity.rs]) and the processing of requested
    changes ([p2p/maintenance.rs]). *)
From S2P Require Import Prelude.
From S2P Require Import PeerTypes.
From S2P Require Import ConnParts.
From S2P Require Import NetTypes.
From S2P Require Import Noise.
From S2P Require Import LowLevel.
From S2P Require Import Buckets.
From S2P Require Import Config.
From S2P Require Import NodeState.
From S2P Require Import Bans.
From S2P Require Import ConnMethods.
From S2P Require Import Connectivity.
From S2P Require Import ConsensusPlugin.
From S2P Require Import Maintenance.
From S2P Require Import NodeExample.
From S2P Require Import ConnFrame.
From S2P Require Import NodeInvariant.

Section housekeeping.
Context `{!NodeExt}.
Implicit Types c : Connection session.
Implicit Types n : P2PNode.

(** ** What connecting does *)

Record connecting (env : Env) n n' : Prop := {
  cg_connections : node_connections n' = node_connections n;
  cg_candidates t c : node_candidates n' !! t = Some c →
    node_candidates n !! t = Some c ∨ created (conn_stats c) = now_stamp env;
  cg_soft_bans b e : soft_bans (handler n') !! b = Some e →
    soft_bans (handler n) !! b = Some e ∨ (now_instant env < e)%Z;
}.

#[global] Instance connecting_preorder env : PreOrder (connecting env).
Proof.
  split.
  - intros n. split; auto.
  - intros n1 n2 n3 [H1 H2 H3] [H4 H5 H6]. split; [congruence|naive_solver|naive_solver].
Qed.

Lemma connecting_handler env n n' : handler n' = handler n → connecting env n n'.
Proof.
  intros Hh. split; unfold node_candidates, node_connections; rewrite Hh; auto.
Qed.

Lemma connecting_register env ch n : connecting env n (register_conn_change ch n).
Proof. split; simpl; auto. Qed.

Lemma connect_socket_connecting env t addr sock :
  keeps (connecting env) (connect_socket env t addr sock).
Proof.
  intros n. unfold connect_socket. unfold fetch_token. set (n2 := with_next_token _ _).
  assert (connecting env n n2) as H2 by (split; simpl; auto).
  unfold Connection_new. destruct (poll_register env _) as [[]| |]; cbn [mbind outcome_bind]; [|done..].
  set (c0 := MkConnection _ _ _ _ _ _).
  destruct (send_handshake_message_a (low_level c0)) as [[[]| |] ll]; [|done..].
  etrans; [exact H2|]. split; simpl; auto.
  intros t' c. unfold node_candidates. simpl. rewrite lookup_insert_Some.
  intros [[_ <-]|[_ Hc]]; [by right|by left].
Qed.

Lemma connect_connecting env t addr b : keeps (connecting env) (connect env t addr b).
Proof.
  unfold connect. apply keeps_bind; [apply _|apply keeps_get, _|intros n].
  apply keeps_bind; [apply _|apply keeps_lift, _|intros _].
  destruct (tcp_connect env addr); [apply connect_socket_connecting| |apply keeps_lift, _].
  apply keeps_bind; [apply _| |intros _; apply keeps_lift, _].
  destruct t; [|apply keeps_mret, _]. apply keeps_modify. intros n'. split; simpl; auto.
  intros b' e'. rewrite lookup_insert_Some. intros [[_ <-]|[_ He]]; [right|by left].
  unfold UNREACHABLE_EXPIRATION_SECS. lia.
Qed.

Lemma connect_new_peers_connecting env k j ps :
  keeps (connecting env) (connect_new_peers env k j ps).
Proof.
  revert j. induction ps as [|p ps IH]; intros j; cbn [connect_new_peers]; [apply keeps_mret, _|].
  apply keeps_bind; [apply _|apply keeps_get, _|intros n0]. case_decide; [apply keeps_mret, _|].
  intros n. pose proof (connect_connecting env Node (p2p_addr p) true n) as Hc.
  destruct (connect env Node (p2p_addr p) true n) as [[] n1]; simpl in Hc; [| |done].
  - etrans; [exact Hc|apply IH].
  - etrans; [exact Hc|apply IH].
Qed.

Lemma attempt_bootstrap_connecting env n : connecting env n (attempt_bootstrap env n).
Proof.
  unfold attempt_bootstrap. destruct (no_net _); [done|].
  destruct (get_bootstrap_nodes _ _) as [nodes| |]; [|done|done].
  revert n. induction nodes as [|a l IH]; intros n; simpl; [done|].
  etrans; [|apply IH]. apply connecting_register.
Qed.

(** ** Housekeeping *)

Lemma retain_candidates_lookup keep n t c :
  node_candidates (retain_candidates keep n) !! t = Some c ↔
  node_candidates n !! t = Some c ∧ keep c.
Proof.
  unfold retain_candidates, node_candidates. rewrite drop_connections_handler. simpl.
  apply map_lookup_filter_Some.
Qed.

Lemma retain_connections_lookup keep n t c :
  node_connections (retain_connections keep n) !! t = Some c ↔
  node_connections n !! t = Some c ∧ keep c.
Proof.
  unfold retain_connections, node_connections. rewrite drop_connections_handler. simpl.
  apply map_lookup_filter_Some.
Qed.

(** Connections are only removed, and the rest of the node stays. *)
Record removed n n' : Prop := {
  rm_connections : node_connections n' ⊆ node_connections n;
  rm_candidates : node_candidates n' ⊆ node_candidates n;
  rm_soft_bans : soft_bans (handler n') = soft_bans (handler n);
  rm_config : config n' = config n;
  rm_self : self_peer n' = self_peer n;
  rm_given : given_addresses n' = given_addresses n;
}.

#[global] Instance removed_preorder : PreOrder removed.
Proof.
  split; [by split|]. intros n1 n2 n3 [H1 H2 H3 H4 H5 H6] [H7 H8 H9 H10 H11 H12].
  split; [by etrans|by etrans|congruence..].
Qed.

Lemma removed_drop c n n' : removed n n' → removed n (drop_connection c n').
Proof.
  intros [H1 H2 H3 H4 H5 H6]. unfold drop_connection. by destruct (conn_remote_id c); split.
Qed.
Lemma removed_drops cs n n' : removed n n' → removed n (drop_connections cs n').
Proof. intros Hr. induction cs; simpl; [done|]. by apply removed_drop. Qed.

Lemma removed_candidates m n : m ⊆ node_candidates n → removed n (with_conn_candidates m n).
Proof. by split. Qed.
Lemma removed_connections m n : m ⊆ node_connections n → removed n (with_connections m n).
Proof. by split. Qed.
Lemma removed_bump now n n' : removed n n' → removed n (bump_last_peer_update now n').
Proof. intros [H1 H2 H3 H4 H5 H6]. by split. Qed.

Lemma retain_candidates_removed keep n : removed n (retain_candidates keep n).
Proof. apply removed_drops, removed_candidates, map_filter_subseteq. Qed.
Lemma retain_connections_removed keep n : removed n (retain_connections keep n).
Proof. apply removed_drops, removed_connections, map_filter_subseteq. Qed.

Lemma remove_one_removed t n p r : removed n (remove_one t (n, p, r)).1.1.
Proof.
  unfold remove_one. destruct (node_candidates n !! t).
  { apply removed_drop, removed_candidates, delete_subseteq. }
  destruct (node_connections n !! t); [|done].
  apply removed_drop, removed_connections, delete_subseteq.
Qed.

Lemma remove_connections_removed now ts : keeps removed (remove_connections now ts).
Proof.
  intros n. unfold remove_connections.
  assert (∀ s, removed s.1.1 (foldl (λ s t, remove_one t s) s ts).1.1) as Hl.
  { induction ts as [|t ts IH]; intros [[n' p] r]; cbn [foldl]; [done|].
    etrans; [apply (remove_one_removed t)|apply IH]. }
  specialize (Hl (n, false, false)). destruct (foldl _ _ _) as [[n' [|]] ?]; simpl in *; [|done].
  by apply removed_bump.
Qed.

Lemma drop_excess_removed now : keeps removed (drop_excess now).
Proof.
  unfold drop_excess. shrink. apply remove_connections_removed.
Qed.

Lemma remove_faulty_lookup now n t c :
  node_connections (remove_faulty now n) !! t = Some c →
  node_connections n !! t = Some c ∧ is_conn_faulty n c = false ∧ is_conn_inactive now n c = false.
Proof.
  unfold remove_faulty. intros Hc.
  assert (node_connections (retain_connections
    (λ c, negb (is_conn_faulty n c || is_conn_inactive now n c)) n) !! t = Some c) as Hr.
  { by destruct (existsb _ _). }
  apply retain_connections_lookup in Hr as [? Hk%Is_true_true_1]. split; [done|].
  apply negb_true_iff, orb_false_iff in Hk. done.
Qed.

Lemma remove_faulty_removed now n : removed n (remove_faulty now n).
Proof.
  unfold remove_faulty. destruct (existsb _ _); [apply removed_bump|];
    apply retain_connections_removed.
Qed.

Lemma faulty_same n n' c : removed n n' → is_conn_faulty n' c = is_conn_faulty n c.
Proof. intros [_ _ _ Hc _ _]. unfold is_conn_faulty. by rewrite Hc. Qed.
Lemma inactive_same now n n' c : removed n n' → is_conn_inactive now n' c = is_conn_inactive now n c.
Proof. intros [_ _ _ Hc Hs _]. unfold is_conn_inactive, node_peer_type. by rewrite Hc, Hs. Qed.

(** The part of housekeeping that opens connections. *)
Lemma given_loop_connecting env l (p : P2PNode → bool) :
  keeps (connecting env)
    (st_for l (λ given, st_try (connect env Node given false)) ;;
     st_modify (with_bad_events BadEvents_default) ;;
     n ← st_get;
     if p n then st_modify (attempt_bootstrap env) ;; mret true else mret false).
Proof.
  apply keeps_bind; [apply _| |intros _].
  { apply keeps_for; [apply _|]. intros a. apply keeps_try, connect_connecting. }
  apply keeps_bind; [apply _|by apply keeps_modify; intros ?; apply connecting_handler|intros _].
  apply keeps_bind; [apply _|apply keeps_get, _|intros n5].
  destruct (p n5); [|apply keeps_mret, _].
  apply keeps_bind; [apply _| |intros _; apply keeps_mret, _].
  apply keeps_modify. intros ?. apply attempt_bootstrap_connecting.
Qed.

(** After housekeeping no connection is left that is faulty or inactive at
    this time, no candidate has waited for its handshake for too long, and all
    soft bans that are left have still to expire.  No connection is added; the
    candidates that are new have just been created, for given addresses. *)
Theorem housekeeping_spec env n b n' :
  (0 ≤ now_stamp env)%Z → (now_stamp env + MAX_PREHANDSHAKE_KEEP_ALIVE < 2 ^ 64)%Z →
  connection_housekeeping env n = (Ok b, n') →
  (∀ t c, node_connections n' !! t = Some c → node_connections n !! t = Some c
     ∧ is_conn_faulty n c = false ∧ is_conn_inactive (now_stamp env) n c = false)
  ∧ (∀ t c, node_candidates n' !! t = Some c →
     is_conn_without_handshake (now_stamp env) c = false)
  ∧ (∀ i e, soft_bans (handler n') !! i = Some e → (now_instant env < e)%Z).
Proof.
  intros Hnow Hmax. unfold connection_housekeeping.
  rewrite bind_modify. set (n1 := retain_candidates _ n). rewrite bind_modify.
  set (n2 := remove_faulty _ n1).
  intros ([] & n3 & Hex & Hrun)%ST_bind_inv.
  pose proof (drop_excess_removed (now_stamp env) n2) as H23. rewrite Hex in H23. simpl in H23.
  rewrite bind_modify in Hrun. set (n4 := lift_soft_bans env n3) in Hrun.
  rewrite bind_get in Hrun. set (l := set_iter _) in Hrun.
  match type of Hrun with (?m n4 = _) =>
    assert (keeps (connecting env) m) as Hk by apply given_loop_connecting end.
  specialize (Hk n4). rewrite Hrun in Hk. simpl in Hk. destruct Hk as [Hconn Hcand Hsoft].
  pose proof (retain_candidates_removed
    (λ c, negb (is_conn_without_handshake (now_stamp env) c)) n) as H01. fold n1 in H01.
  pose proof (remove_faulty_removed (now_stamp env) n1) as H12. fold n2 in H12.
  split_and!.
  - intros t c. rewrite Hconn. change (node_connections n4) with (node_connections n3). intros Hc.
    apply (lookup_weaken _ _ _ _) with (2 := rm_connections _ _ H23) in Hc.
    apply remove_faulty_lookup in Hc as (Hc & Hf & Hi).
    rewrite (faulty_same n) in Hf by done. rewrite (inactive_same _ n) in Hi by done.
    split_and!; [|done..]. by apply (lookup_weaken _ _ _ _ Hc), rm_connections.
  - intros t c [Hc|Hc]%Hcand.
    + change (node_candidates n4) with (node_candidates n3) in Hc.
      apply (lookup_weaken _ _ _ _) with (2 := rm_candidates _ _ H23) in Hc.
      apply (lookup_weaken _ _ _ _) with (2 := rm_candidates _ _ H12) in Hc.
      apply retain_candidates_lookup in Hc as [_ Hk%Is_true_true_1]. by apply negb_true_iff.
    + unfold is_conn_without_handshake. rewrite Hc. apply bool_decide_eq_false.
      unfold MAX_PREHANDSHAKE_KEEP_ALIVE in *. rewrite u64_add_small by (unfold fits; lia). lia.
  - intros i e [He|He]%Hsoft; [|done]. unfold n4, lift_soft_bans in He. simpl in He.
    by apply map_lookup_filter_Some in He as [_ ?].
Qed.

(** ** The limit on the number of peers *)

Lemma remove_connections_exact now ts n :
  (∀ t, t ∈ ts → node_candidates n !! t = None) →
  node_connections (remove_connections now ts n).2
  = filter (λ '(t, _), t ∉ ts) (node_connections n).
Proof.
  intros Hts. unfold remove_connections.
  assert (∀ s, (∀ t, t ∈ ts → node_candidates s.1.1 !! t = None) →
    node_connections (foldl (λ s t, remove_one t s) s ts).1.1
    = filter (λ '(t, _), t ∉ ts) (node_connections s.1.1)) as Hl.
  { clear n Hts. induction ts as [|t ts IH]; intros [[n p] r] Hts; cbn [foldl].
    - symmetry. apply map_filter_id. intros ???. apply not_elem_of_nil.
    - assert (node_connections (remove_one t (n, p, r)).1.1 = delete t (node_connections n)
        ∧ node_candidates (remove_one t (n, p, r)).1.1 = node_candidates n) as [Hc Hcand].
      { simpl in *. unfold node_candidates, node_connections in *. unfold remove_one.
        rewrite (Hts t) by set_solver. destruct (connections (handler n) !! t) eqn:Ht; simpl.
        - by rewrite drop_connection_handler.
        - by rewrite delete_id. }
      rewrite IH by (intros; rewrite Hcand; apply Hts; set_solver). rewrite Hc. simpl.
      apply map_eq. intros k. apply option_eq. intros c.
      rewrite !map_lookup_filter_Some, lookup_delete_Some. set_solver. }
  specialize (Hl (n, false, false) Hts). destruct (foldl _ _ _) as [[n' []] r]; exact Hl.
Qed.

Lemma size_filter_notin {A} (m : gmap Token A) ts :
  NoDup ts → (∀ t, t ∈ ts → is_Some (m !! t)) →
  size (filter (λ '(t, _), t ∉ ts) m) = size m - length ts.
Proof.
  intros Hnd Hin. rewrite <-!size_dom.
  rewrite <-(size_list_to_set (C:=gset Token) ts) by done.
  assert (dom (filter (λ '(t, _), t ∉ ts) m) = dom m ∖ list_to_set ts) as ->.
  { apply set_eq. intros t. rewrite elem_of_difference, elem_of_list_to_set, !elem_of_dom.
    split.
    - intros [c [Hc ?]%map_lookup_filter_Some]. split; [by exists c|done].
    - intros [[c Hc] ?]. exists c. by apply map_lookup_filter_Some. }
  apply size_difference. intros t Ht%elem_of_list_to_set. by apply elem_of_dom, Hin.
Qed.

Lemma get_peer_stats_length n t :
  node_ok n →
  ∃ l, get_peer_stats t n = Ok l ∧ length l
    = length (filter (λ c, t = None ∨ t = Some (remote_peer_type c)) (map_values (node_connections n))).
Proof.
  intros Hok. unfold get_peer_stats. set (cs := filter _ _).
  destruct (peer_stats_total cs) as (l & Hl & Hids).
  { apply Forall_forall. intros c [_ [t' Hc]%elem_of_map_values]%list_elem_of_filter.
    by apply (ok_connections _ Hok _ _ Hc). }
  exists l. split; [done|]. apply (f_equal length) in Hids. by rewrite !length_fmap in Hids.
Qed.

Definition non_given n : list Token :=
  map_iter (node_connections n) ≫= λ '(t, c), if is_given_connection c n then [] else [t].

Lemma elem_of_non_given n t :
  t ∈ non_given n ↔ ∃ c, node_connections n !! t = Some c ∧ is_given_connection c n = false.
Proof.
  unfold non_given. rewrite list_elem_of_bind. split.
  - intros ([t' c] & Hin & Hit%elem_of_map_iter). destruct (is_given_connection c n) eqn:Hg; set_solver.
  - intros (c & Hc & Hg). exists (t, c). rewrite Hg. split; [set_solver|by apply elem_of_map_iter].
Qed.

Lemma NoDup_non_given n : NoDup (non_given n).
Proof.
  unfold non_given. pose proof (NoDup_map_keys (node_connections n)) as Hnd. unfold map_keys in Hnd.
  induction (map_iter (node_connections n)) as [|[t c] l IH]; [constructor|].
  apply NoDup_cons in Hnd as [Ht Hnd]. csimpl. apply NoDup_app. split_and!; [|
    |by apply IH].
  - destruct (is_given_connection c n); [constructor|apply NoDup_singleton].
  - intros t' Ht' ([t2 c2] & Hin & Hit)%list_elem_of_bind. apply Ht. simpl.
    apply list_elem_of_fmap. exists (t2, c2). split; [|done].
    destruct (is_given_connection c n), (is_given_connection c2 n); set_solver.
Qed.

(** Closing [k] of the connections that are not to given addresses. *)
Lemma close_non_given n k :
  let ts := choose_multiple (non_given n) k in
  let rest := filter (λ '(t, _), t ∉ ts) (node_connections n) in
  (size rest = size (node_connections n) - k
   ∨ ∀ t c, rest !! t = Some c → is_given_connection c n = true)
  ∧ ∀ t c, node_connections n !! t = Some c → is_given_connection c n = true → rest !! t = Some c.
Proof.
  intros ts rest. pose proof (choose_multiple_submseteq (non_given n) k) as Hsub. fold ts in Hsub.
  assert (∀ t, t ∈ ts → t ∈ non_given n) as Hin.
  { intros t Ht. by eapply elem_of_submseteq. }
  split.
  - pose proof (choose_multiple_length (non_given n) k) as Hlen. fold ts in Hlen.
    destruct (decide (k ≤ length (non_given n))) as [Hk|Hk].
    + left. rewrite Nat.min_l in Hlen by done. rewrite <-Hlen. apply size_filter_notin.
      * eapply NoDup_submseteq; [exact Hsub|apply NoDup_non_given].
      * intros t (c & Hc & _)%Hin%elem_of_non_given. by exists c.
    + right. rewrite Nat.min_r in Hlen by lia.
      apply submseteq_length_Permutation in Hsub as Hperm; [|lia].
      intros t c [Hc Hnot]%map_lookup_filter_Some.
      destruct (is_given_connection c n) eqn:Hg; [done|]. destruct Hnot.
      rewrite Hperm. apply elem_of_non_given. eauto.
  - intros t c Hc Hg. apply map_lookup_filter_Some. split; [done|].
    intros (c' & Hc' & Hg')%Hin%elem_of_non_given. congruence.
Qed.

(** When a node has more peers than it allows, housekeeping closes as many
    as needed: afterwards the limit holds, or only connections to given
    addresses are left; those are never closed.  (The node has no connection to a
    bootstrapper, which would be counted among those that may be closed.) *)
Theorem drop_excess_bound now n :
  node_ok n → node_peer_type n = Node →
  (∀ t c, node_connections n !! t = Some c → remote_peer_type c = Node) →
  (Z.of_nat (size (node_connections n)) < 2 ^ 16)%Z → (0 ≤ max_allowed_nodes (config n))%Z →
  ∃ n', drop_excess now n = (Ok tt, n')
    ∧ ((Z.of_nat (size (node_connections n')) ≤ max_allowed_nodes (config n))%Z
       ∨ ∀ t c, node_connections n' !! t = Some c → is_given_connection c n = true)
    ∧ (∀ t c, node_connections n !! t = Some c → is_given_connection c n = true →
         node_connections n' !! t = Some c).
Proof.
  intros Hok Hnode Hall Hsize Hmax. unfold drop_excess. rewrite bind_get, Hnode.
  destruct (get_peer_stats_length n (Some Node) Hok) as (l & Hl & Hlen).
  rewrite (bind_lift _ l) by done.
  rewrite filter_everything, length_map_values in Hlen.
  2: { intros c [t Hc]%elem_of_map_values. right. f_equal. symmetry. by eapply Hall. }
  assert (as_u16 (Z.of_nat (length l)) = Z.of_nat (size (node_connections n))) as Hcount.
  { rewrite Hlen. apply wrap_small. unfold fits. lia. }
  rewrite Hcount. case_decide as Hex.
  2: { eexists. split; [reflexivity|]. split; [left; lia|done]. }
  fold (non_given n). set (k := Z.to_nat _). set (ts := choose_multiple (non_given n) k).
  assert (∀ t, t ∈ ts → t ∈ non_given n) as Hsub.
  { intros t Ht. eapply elem_of_submseteq; [exact Ht|]. apply choose_multiple_submseteq. }
  assert (∀ t, t ∈ ts → node_candidates n !! t = None) as Hcand.
  { intros t (c & Hc & _)%Hsub%elem_of_non_given. destruct (node_candidates n !! t) eqn:Ht; [|done].
    by destruct (ok_disjoint _ Hok _ _ _ Ht Hc). }
  unfold mbind, ST_bind. destruct (remove_connections now ts n) as [r n'] eqn:Hr.
  pose proof (remove_connections_exact now ts n Hcand) as Hconn. rewrite Hr in Hconn. simpl in Hconn.
  assert (∃ b, r = Ok b) as [b ->].
  { unfold remove_connections in Hr. destruct (foldl _ _ _) as [[? ?] ?]. simplify_eq. eauto. }
  eexists. split; [reflexivity|]. rewrite Hconn. destruct (close_non_given n k) as [[Hs|Hg] Hkeep].
  - split; [left; fold ts in Hs; rewrite Hs; lia|done].
  - split; [by right|done].
Qed.
End housekeeping.

(** ** Processing the requested changes *)

Section changes.
Context `{!NodeExt} `{!NoiseLaws session}.
Implicit Types c : Connection session.
Implicit Types n : P2PNode.

(** The operating system answers, with success or an error. *)
Definition env_answers (env : Env) : Prop :=
  (∀ addr, is_panic (tcp_connect env addr) = false)
  ∧ ∀ t, is_panic (poll_register env t) = false.

Lemma no_panic_ensure b msg : is_panic (ensure b msg) = false.
Proof. by destruct b. Qed.
Lemma no_panic_bind {A B} (o : outcome A) (f : A → outcome B) :
  is_panic o = false → (∀ a, is_panic (f a) = false) → is_panic (o ≫= f) = false.
Proof. by destruct o; simpl. Qed.

(** A new connection is not writable yet: its first message is only queued. *)
Lemma send_a_new_no_panic sock rs ws l :
  is_panic (send_handshake_message_a (ConnectionLowLevel_new (sess:=session) sock true rs ws l)).1
  = false.
Proof.
  unfold send_handshake_message_a, send_xx_msg, noise_send, mbind, ST_bind, st_modify. simpl.
  match goal with |- context [send_message ?m ?s] => pose proof (send_no_panic m s) as Hp;
    destruct (send_message m s) as [[] ?]; done end.
Qed.

Lemma connect_no_panic env t addr b n :
  node_ok n → env_answers env → is_panic (connect env t addr b n).1 = false.
Proof.
  intros Hok [Htcp Hpoll]. unfold connect. rewrite bind_get.
  unfold mbind at 1, ST_bind at 1, st_lift at 1.
  assert (is_panic (connect_checks t addr b n) = false) as Hck.
  { unfold connect_checks. destruct (get_peer_stats_total n (Some Node) Hok) as (l & Hl & _).
    rewrite Hl. apply no_panic_bind; [destruct (b && _); [apply no_panic_ensure|done]|intros []].
    repeat (apply no_panic_bind; [apply no_panic_ensure|intros []]). apply no_panic_ensure. }
  destruct (connect_checks t addr b n) as [[]| |]; [|done..].
  specialize (Htcp addr). destruct (tcp_connect env addr) as [sock| |]; [|by destruct t|done].
  unfold connect_socket. destruct (fetch_token _) as [tok n1].
  unfold Connection_new. specialize (Hpoll tok).
  destruct (poll_register env tok) as [[]| |]; cbn [mbind outcome_bind]; [|done..].
  cbn [low_level]. match goal with |- context [send_handshake_message_a (ConnectionLowLevel_new ?s ?i ?r ?w ?l)] =>
    pose proof (send_a_new_no_panic s r w l) as Hp;
    destruct (send_handshake_message_a (ConnectionLowLevel_new s i r w l)) as [[] ?]; done end.
Qed.

(** The queue of changes stays as it is. *)
Definition same_queue n n' : Prop := conn_changes (handler n') = conn_changes (handler n).

#[local] Instance same_queue_preorder : PreOrder same_queue.
Proof. unfold same_queue. split; [done|]. intros ???. congruence. Qed.

Lemma drop_queue c n : same_queue n (drop_connection c n).
Proof. unfold same_queue. by rewrite drop_connection_handler. Qed.

Lemma connect_queue env t addr b : keeps same_queue (connect env t addr b).
Proof.
  unfold connect. shrink; try done. intros n. unfold connect_socket, fetch_token.
  destruct (Connection_new _ _ _ _ _ _) as [c| |]; [|done..].
  destruct (send_handshake_message_a _) as [[] ll]; [done| |done].
  unfold same_queue. simpl. by rewrite drop_connection_handler.
Qed.

Lemma connect_new_peers_queue env k j ps : keeps same_queue (connect_new_peers env k j ps).
Proof.
  revert j. induction ps as [|p ps IH]; intros j; cbn [connect_new_peers]; [apply keeps_mret, _|].
  apply keeps_bind; [apply _|apply keeps_get, _|intros n0]. case_decide; [apply keeps_mret, _|].
  intros n. pose proof (connect_queue env Node (p2p_addr p) true n) as Hc.
  destruct (connect env Node (p2p_addr p) true n) as [[] n1]; simpl in Hc; [| |done].
  - etrans; [exact Hc|apply IH].
  - etrans; [exact Hc|apply IH].
Qed.

Lemma remove_connections_queue now ts : keeps same_queue (remove_connections now ts).
Proof.
  intros n. unfold remove_connections.
  assert (∀ s, same_queue s.1.1 (foldl (λ s t, remove_one t s) s ts).1.1) as Hl.
  { induction ts as [|t ts IH]; intros [[n' p] r]; cbn [foldl]; [done|]. etrans; [|apply IH].
    unfold remove_one. destruct (node_candidates n' !! t); simpl;
      [unfold same_queue; by rewrite drop_connection_handler|].
    destruct (node_connections n' !! t); simpl; [|done].
    unfold same_queue. by rewrite drop_connection_handler. }
  specialize (Hl (n, false, false)). destruct (foldl _ _ _) as [[n' [|]] ?]; done.
Qed.

Lemma remove_connection_queue now t : keeps same_queue (remove_connection now t).
Proof.
  intros n. unfold remove_connection, same_queue.
  destruct (node_candidates n !! t); simpl; [by rewrite drop_connection_handler|].
  destruct (node_connections n !! t); simpl; [by rewrite drop_connection_handler|done].
Qed.

Lemma process_conn_change_queue env ch : keeps same_queue (process_conn_change env ch).
Proof.
  destruct ch as [t|addr pt given|ps|t|t|ts]; cbn [process_conn_change].
  - shrink; [apply remove_connection_queue|done].
  - intros n. pose proof (connect_queue env pt addr (negb given) n) as Hc.
    destruct (connect _ _ _ _ n) as [[] n1]; [|done..]. by destruct given.
  - shrink. apply connect_new_peers_queue.
  - apply keeps_modify. intros n. unfold promote, same_queue.
    destruct (node_candidates n !! t); [|done].
    destruct (connected_to _ _); [by rewrite drop_connection_handler|done].
  - shrink. apply remove_connection_queue.
  - shrink. apply remove_connections_queue.
Qed.

Lemma connect_new_peers_returns env k j ps i n :
  env_answers env → node_ok n → length ps ≤ i → tokens_left i n →
  (connect_new_peers env k j ps n).1 = Ok tt.
Proof.
  intros Henv. revert i j n. induction ps as [|p ps IH]; intros i j n Hok Hi Hl; [done|].
  cbn [length] in Hi. cbn [connect_new_peers]. unfold mbind, ST_bind, st_get. case_decide; [done|].
  destruct i as [|i]; [lia|]. unfold tokens_left in *.
  pose proof (connect_no_panic env Node (p2p_addr p) true n Hok Henv) as Hp.
  destruct (connect_allocates env Node (p2p_addr p) true n Hok) as [Hok1 Ht1];
    [unfold tokens_left; lia|]. unfold took in Ht1.
  destruct (connect env Node (p2p_addr p) true n) as [[]  n1]; cbn [fst snd] in *; [| |done];
    apply (IH i); unfold tokens_left; auto; lia.
Qed.

Lemma remove_connection_returns now t n : ∃ r, (remove_connection now t n).1 = Ok r.
Proof.
  unfold remove_connection. destruct (node_candidates n !! t); [by eexists|].
  destruct (node_connections n !! t); by eexists.
Qed.

Lemma remove_connections_returns now ts n : ∃ r, (remove_connections now ts n).1 = Ok r.
Proof. unfold remove_connections. destruct (foldl _ _ _) as [[??]?]. by eexists. Qed.

Lemma process_conn_change_returns env ch n :
  env_answers env → node_ok n → tokens_left (change_tokens ch) n →
  (process_conn_change env ch n).1 = Ok tt.
Proof.
  intros Henv Hok Hl. destruct ch as [t|addr pt given|ps|t|t|ts]; cbn [process_conn_change].
  - destruct (remove_connection_returns (now_stamp env) t n) as [r Hr]. unfold mbind, ST_bind.
    destruct (remove_connection _ t n) as [o n1]. simpl in Hr. subst o. by destruct r.
  - pose proof (connect_no_panic env pt addr (negb given) n Hok Henv) as Hp.
    destruct (connect _ _ _ _ n) as [[] n1]; done.
  - destruct (get_peer_stats_total n (Some Node) Hok) as (l & Hst & _).
    unfold mbind, ST_bind, st_get, st_lift. rewrite Hst.
    eapply connect_new_peers_returns; [done|done| |exact Hl]. by rewrite shuffle_perm.
  - done.
  - destruct (remove_connection_returns (now_stamp env) t n) as [r Hr]. unfold mbind, ST_bind.
    destruct (remove_connection _ t n) as [o n1]. simpl in Hr. by subst o.
  - destruct (remove_connections_returns (now_stamp env) ts n) as [r Hr]. unfold mbind, ST_bind.
    destruct (remove_connections _ ts n) as [o n1]. simpl in Hr. by subst o.
Qed.

(** The tokens all changes of a queue may take. *)
Definition queue_tokens (q : list ConnChange) : nat := sum_list (change_tokens <$> q).

(** C19: the poll thread gets through the queue of requested changes: in a state
    that satisfies the invariant, processing one round per queued change returns
    without an error or a panic, leaves the queue empty, since processing a change
    never requests another one, and keeps the invariant. *)
Theorem conn_changes_processed env n :
  env_answers env → node_ok n → tokens_left (queue_tokens (conn_changes (handler n))) n →
  ∃ n', process_conn_changes (length (conn_changes (handler n))) env n = (Ok tt, n')
    ∧ conn_changes (handler n') = [] ∧ node_ok n'.
Proof.
  intros Henv. remember (conn_changes (handler n)) as q eqn:Hq. revert n Hq.
  induction q as [|ch q IH]; intros n Hq Hok Hl; cbn [length process_conn_changes];
    unfold mbind at 1, ST_bind at 1, st_get at 1; rewrite <-Hq; [by exists n|].
  unfold mbind at 1, ST_bind at 1, st_modify at 1. set (n1 := with_conn_changes q n).
  unfold queue_tokens in Hl. csimpl in *.
  assert (tokens_left (change_tokens ch) n) as Hl1 by (unfold tokens_left in *; lia).
  destruct (process_conn_change_ok env ch q n Hok (eq_sym Hq) Hl1) as [Hok2 Ht2]. fold n1 in Hok2, Ht2.
  pose proof (process_conn_change_queue env ch n1) as Hq2. unfold same_queue in Hq2.
  assert (node_ok n1) as Hok1.
  { eapply shrinks_ok; [|exact Hok]. split; simpl; eauto. unfold promotions. rewrite <-Hq.
    simpl. intros t Ht. destruct ch; set_solver. }
  pose proof (process_conn_change_returns env ch n1 Henv Hok1 Hl1) as Hr.
  unfold mbind at 1, ST_bind at 1.
  destruct (process_conn_change env ch n1) as [o n2]. cbn [fst snd] in *. subst o.
  apply IH; [by rewrite Hq2|done|]. unfold tokens_left, took, queue_tokens in *. simpl in Ht2. lia.
Qed.

(** *** New peers *)

Lemma connect_adds_one env t addr b n :
  config (connect env t addr b n).2 = config n ∧
  match connect env t addr b n with
  | (Ok _, n') => size (node_candidates n') ≤ S (size (node_candidates n))
  | (_, n') => node_candidates n' = node_candidates n
  end.
Proof.
  unfold connect, mbind, ST_bind, st_get, st_lift, st_modify, mret, ST_ret.
  destruct (connect_checks t addr b n) as [[]| |]; [|done..].
  destruct (tcp_connect env addr) as [sock| |]; [|by destruct t|done].
  unfold connect_socket, fetch_token, node_candidates.
  destruct (Connection_new _ _ _ _ _ _) as [c| |]; [|done..].
  destruct (send_handshake_message_a _) as [[] ll]; simpl; [| |done].
  - split; [done|]. rewrite map_size_insert. destruct (_ !! _); simpl; lia.
  - rewrite drop_connection_handler. unfold drop_connection. by destruct (conn_remote_id c).
Qed.

Lemma connect_new_peers_bound env k j ps n :
  (Z.of_nat (size (node_candidates (connect_new_peers env k j ps n).2))
   ≤ Z.of_nat (size (node_candidates n))
     + Z.max 0 (desired_nodes_count (config n) - Z.of_nat (j + k)))%Z.
Proof.
  revert j n. induction ps as [|p ps IH]; intros j n; cbn [connect_new_peers].
  { simpl. lia. }
  unfold mbind, ST_bind, st_get. case_decide as Hd; [simpl; lia|].
  pose proof (connect_adds_one env Node (p2p_addr p) true n) as [Hconf Hadd].
  destruct (connect env Node (p2p_addr p) true n) as [[] n1]; cbn [fst snd] in *.
  - specialize (IH (S j) n1). rewrite Hconf in IH. lia.
  - specialize (IH j n1). rewrite Hconf, Hadd in IH. lia.
  - rewrite Hadd. lia.
Qed.

(** However many peers a list from a peer names, the node opens no more
    connections for it than it lacks for the desired number of peers, and none
    when it has them. *)
Theorem new_peers_bounded env ps n l :
  get_peer_stats (Some Node) n = Ok l →
  let n' := (process_conn_change env (NewPeers ps) n).2 in
  (Z.of_nat (size (node_candidates n'))
   ≤ Z.of_nat (size (node_candidates n))
     + Z.max 0 (desired_nodes_count (config n) - Z.of_nat (length l)))%Z
  ∧ node_connections n' = node_connections n.
Proof.
  intros Hl. cbn [process_conn_change]. split.
  - unfold mbind, ST_bind, st_get, st_lift. rewrite Hl. apply (connect_new_peers_bound env (length l) 0).
  - apply (cg_connections env). revert n Hl. intros n _.
    enough (keeps (connecting env) (n ← st_get; current ← st_lift (get_peer_stats (Some Node) n);
      connect_new_peers env (length current) 0 (shuffle ps))) as Hk by apply Hk.
    shrink. apply connect_new_peers_connecting.
Qed.
End changes.

(** *** Witnesses *)

Module UpkeepExample.
Import NodeExample.

Lemma housekeeping_spec_witness :
  ∃ b, (connection_housekeeping env node3).1 = Ok b
    ∧ ∀ t c, node_connections (connection_housekeeping env node3).2 !! t = Some c →
        is_conn_inactive 1000000 node3 c = false.
Proof.
  assert ((connection_housekeeping env node3).1 = Ok false) as Hr by (vm_compute; reflexivity).
  exists false. split; [exact Hr|].
  destruct (housekeeping_spec env node3 false (connection_housekeeping env node3).2) as [Hc _].
  - done.
  - done.
  - rewrite <-Hr. apply surjective_pairing.
  - intros t c Ht. apply (Hc t c Ht).
Defined.

Lemma drop_excess_bound_witness :
  ∃ n', drop_excess 1000000 node3 = (Ok tt, n')
    ∧ ∀ t c, node_connections node3 !! t = Some c → is_given_connection c node3 = true →
        node_connections n' !! t = Some c.
Proof.
  destruct (drop_excess_bound 1000000 node3 node3_ok) as (n' & Hr & _ & Hk).
  - reflexivity.
  - intros t c. unfold node_connections. simpl. rewrite lookup_insert_Some, lookup_singleton_Some.
    intros [[_ <-]|[_ [_ <-]]]; reflexivity.
  - reflexivity.
  - done.
  - exists n'. split; [exact Hr|exact Hk].
Defined.

(** The candidate of [node3] is expelled, and a connection to a given address is
    requested. *)
Definition node_changing : P2PNode :=
  with_conn_changes [ExpulsionByToken (MkToken 3); NewConn (addr 20 8888) Node true] node3.

Lemma node_changing_ok : node_ok node_changing.
Proof. eapply shrinks_ok; [|exact node3_ok]. split; simpl; eauto. Qed.

Lemma conn_changes_processed_witness :
  ∃ n', process_conn_changes 2 env node_changing = (Ok tt, n') ∧ conn_changes (handler n') = [].
Proof.
  destruct (@conn_changes_processed ext toy_noise_laws env node_changing) as (n' & Hr & Hq & _).
  - split; done.
  - exact node_changing_ok.
  - reflexivity.
  - exists n'. split; [exact Hr|exact Hq].
Defined.

(** Three peers are named, one is wanted. *)
Lemma new_peers_bounded_witness :
  let ps := (λ x, MkP2PPeer (MkP2PNodeId x) (addr x 8888) Node) <$> [30; 31; 32]%Z in
  size (node_candidates (process_conn_change env (NewPeers ps) node3).2) ≤ 2.
Proof.
  intros ps. destruct (get_peer_stats_total node3 (Some Node) node3_ok) as (l & Hl & _).
  assert (length l = 2) as Hlen.
  { apply (f_equal (λ o, match o with Ok l => length l | _ => 0 end)) in Hl as Hl2.
    rewrite <-Hl2. vm_compute. reflexivity. }
  destruct (new_peers_bounded env ps node3 l Hl) as [Hb _]. rewrite Hlen in Hb.
  change (Z.of_nat (size (node_candidates node3))) with 1%Z in Hb.
  change (desired_nodes_count (config node3)) with 3%Z in Hb. lia.
Defined.
End UpkeepExample.
