(* ===== verification/QueueThreads.v ===== *)
(** * The consensus message threads

    Models [handle_queue_stop] and [start_consensus_message_threads] of
    [concordium-node/src/bin/cli.rs] and the blocking operations of
    [ConsensusQueues] in [consensus_ffi/consensus.rs].  Two threads empty the
    queues between the network layer and consensus; [CALLBACK_QUEUE.stop] asks
    them to end.  This file has the passes of their loop; [QueueSystem] lets the
    threads and the senders take turns. *)
From S2P Require Import Prelude.
From S2P Require Import PeerTypes.
From S2P Require Import NetTypes.
From S2P Require Import FfiHelpers.
From S2P Require Import CatchUp.
From S2P Require Import Float.
From S2P Require Import Config.
From S2P Require Import NodeState.
From S2P Require Import Connectivity.
From S2P Require Import ConsensusPlugin.
From S2P Require Import NodeInvariant.
From S2P Require Import NodeExample.

Abbreviation message := (QueueMsg ConsensusMessage) (only parsing).

(** The two queues a thread reads, with their capacity and the gauges that show
    their sizes. *)
Record Lane := MkLane {
  lane_high : ConsensusQueues → list message;
  lane_low : ConsensusQueues → list message;
  lane_set : list message → list message → ConsensusQueues → ConsensusQueues;
  lane_depth_high : Z;
  lane_depth_low : Z;
  lane_sizes : i64 → i64 → StatsExportService → StatsExportService;
}.

Definition inbound : Lane := {|
  lane_high := inbound_high;
  lane_low := inbound_low;
  lane_set hi lo q := MkConsensusQueues hi lo (outbound_high q) (outbound_low q);
  lane_depth_high := CONSENSUS_QUEUE_DEPTH_IN_HI;
  lane_depth_low := CONSENSUS_QUEUE_DEPTH_IN_LO;
  lane_sizes hi lo s :=
    with_inbound_high_priority_consensus_size hi (with_inbound_low_priority_consensus_size lo s);
|}.

Definition outbound : Lane := {|
  lane_high := outbound_high;
  lane_low := outbound_low;
  lane_set hi lo q := MkConsensusQueues (inbound_high q) (inbound_low q) hi lo;
  lane_depth_high := CONSENSUS_QUEUE_DEPTH_OUT_HI;
  lane_depth_low := CONSENSUS_QUEUE_DEPTH_OUT_LO;
  lane_sizes hi lo s :=
    with_outbound_high_priority_consensus_size hi (with_outbound_low_priority_consensus_size lo s);
|}.

Class LaneLaws (l : Lane) : Prop := {
  lane_high_set : ∀ hi lo q, lane_high l (lane_set l hi lo q) = hi;
  lane_low_set : ∀ hi lo q, lane_low l (lane_set l hi lo q) = lo;
  lane_set_same : ∀ q, lane_set l (lane_high l q) (lane_low l q) q = q;
  lane_set_set : ∀ hi lo hi' lo' q, lane_set l hi lo (lane_set l hi' lo' q) = lane_set l hi lo q;
}.

#[global] Instance inbound_laws : LaneLaws inbound.
Proof. split; try done. by intros []. Qed.
#[global] Instance outbound_laws : LaneLaws outbound.
Proof. split; try done. by intros []. Qed.

(** ** Blocking sends

    [None]: the queue is full and the sender waits. *)

Definition send {A} (cap : Z) (x : A) (q : list A) : option (list A) :=
  if decide (length q < Z.to_nat cap) then Some (q ++ [x]) else None.

Definition send_high (l : Lane) (x : message) (q : ConsensusQueues) : option ConsensusQueues :=
  (λ hi, lane_set l hi (lane_low l q) q) <$> send (lane_depth_high l) x (lane_high l q).
Definition send_low (l : Lane) (x : message) (q : ConsensusQueues) : option ConsensusQueues :=
  (λ lo, lane_set l (lane_high l q) lo q) <$> send (lane_depth_low l) x (lane_low l q).

Definition send_out_blocking_msg (m : ConsensusMessage) (q : ConsensusQueues) :
    option ConsensusQueues := send_high outbound (Relay m) q.

(** [ConsensusQueues::stop]: the sends it makes, one after the other. *)
Definition ConsensusQueues_stop : list (ConsensusQueues → option ConsensusQueues) :=
  [send_low outbound Stop; send_high outbound Stop; send_low inbound Stop; send_high inbound Stop].

(** ** The threads *)

(** What a pass of the loop ends with: another pass, a wait for a message in
    either queue, or the end of the thread, by a stop message or a panic. *)
Inductive Progress := Loops | Waits | Broke | Died.

#[global] Instance Progress_eq_dec : EqDecision Progress.
Proof. solve_decision. Defined.

Definition ended (p : Progress) : Prop := p = Broke ∨ p = Died.

(** [ConsensusQueues::clear], on the queues of a lane: they are emptied when
    their lock can be taken.  A thread holds it while it runs, and poisons it
    when it panics. *)
Definition clear_lane (l : Lane) (p : Progress) (q : ConsensusQueues) : ConsensusQueues :=
  match p with
  | Broke => lane_set l [] [] q
  | _ => q
  end.
Definition ConsensusQueues_clear (p_in p_out : Progress) (q : ConsensusQueues) : ConsensusQueues :=
  clear_lane inbound p_in (clear_lane outbound p_out q).

Section threads.
Context `{!NodeExt}.
Implicit Types n : P2PNode.

Abbreviation N := (ST P2PNode) (only parsing).

(** The handler of a thread. *)
Definition Handler : Type := ConsensusMessage → N unit.

(** [false]: the thread has to stop. *)
Definition handle_queue_stop (f : Handler) (msg : message) : N bool :=
  match msg with
  | Relay m => st_try (f m) ;; mret true
  | Stop => mret false
  end.

Definition high n (l : Lane) : list message := lane_high l (callback_queue n).
Definition low n (l : Lane) : list message := lane_low l (callback_queue n).
Definition with_lane (l : Lane) (hi lo : list message) n : P2PNode :=
  with_callback_queue (lane_set l hi lo (callback_queue n)) n.

(** Up to [k] messages of high priority: [None] when the thread has to stop, and
    otherwise whether the queue was found empty. *)
Fixpoint drain_high (k : nat) (l : Lane) (f : Handler) : N (option bool) :=
  match k with
  | O => mret (Some false)
  | S k =>
    n ← st_get;
    match high n l with
    | [] => mret (Some true)
    | msg :: hi =>
      st_modify (with_lane l hi (low n l)) ;;
      go_on ← handle_queue_stop f msg;
      if go_on : bool then drain_high k l f else mret None
    end
  end.

(** Handle a message that leaves [hi] and [lo] in the queues. *)
Definition receive (l : Lane) (f : Handler) (hi lo : list message) (msg : message) : N Progress :=
  st_modify (with_lane l hi lo) ;;
  go_on ← handle_queue_stop f msg;
  mret (if go_on : bool then Loops else Broke).

(** A pass of the loop, up to the wait. *)
Definition update_sizes (l : Lane) n : P2PNode :=
  with_stats (lane_sizes l (Z.of_nat (length (high n l))) (Z.of_nat (length (low n l))) (stats n)) n.

Definition queue_round (l : Lane) (f : Handler) : N Progress :=
  st_modify (update_sizes l) ;;
  r ← drain_high (Z.to_nat (lane_depth_high l)) l f;
  match r with
  | None => mret Broke
  | Some exhausted =>
    n ← st_get;
    match low n l with
    | msg :: lo => receive l f (high n l) lo msg
    | [] => mret (if exhausted : bool then Waits else Loops)
    end
  end.

(** The wait, over when a queue has a message; when both have one, either is
    taken. *)
Definition queue_select (high_first : bool) (l : Lane) (f : Handler) : N Progress :=
  n ← st_get;
  match high n l, low n l with
  | [], [] => mret Waits
  | msg :: hi, [] => receive l f hi [] msg
  | [], msg :: lo => receive l f [] lo msg
  | msg_hi :: hi, msg_lo :: lo =>
    if high_first then receive l f hi (msg_lo :: lo) msg_hi
    else receive l f (msg_hi :: hi) lo msg_lo
  end.

(** The handlers of the two threads; what the library sends while the inbound
    handler calls it is in [QueueSystem]. *)
Definition inbound_handler (now : u64) (sample : F64.t → outcome bool) (consensus : Consensus) :
    Handler := λ m, handle_consensus_inbound_msg now sample consensus m ;; mret tt.
Definition outbound_handler (now : u64) : Handler := handle_consensus_outbound_msg now.

(** The state of a thread after a pass: it dies when the pass panics. *)
Definition after_pass (r : outcome Progress) : Progress :=
  match r with
  | Ok p => p
  | _ => Died
  end.

(** ** Handlers leave the queues alone *)

Definition same_queues n n' : Prop := callback_queue n' = callback_queue n.

#[local] Instance same_queues_preorder : PreOrder same_queues.
Proof. unfold same_queues. split; [done|]. intros n1 n2 n3 H1 H2. by rewrite H2. Qed.

Lemma register_same_queues ch n : same_queues n (register_conn_change ch n).
Proof. done. Qed.

Lemma send_message_same_queues now target ex net msg :
  keeps same_queues (send_message_over_network now target ex net msg).
Proof.
  intros n. unfold send_message_over_network. set (pkt := MkNetworkPacket _ _ _).
  assert (keeps same_queues (process_network_packet now pkt)) as Hk
    by (unfold process_network_packet; shrink; by intros m).
  specialize (Hk n). by destruct (process_network_packet now pkt n) as [[] ?].
Qed.

Lemma send_consensus_same_queues now ex target msg :
  keeps same_queues (send_consensus_msg_to_net now ex target msg).
Proof. unfold send_consensus_msg_to_net. shrink; apply send_message_same_queues. Qed.

Lemma outbound_handler_same_queues now m : keeps same_queues (outbound_handler now m).
Proof.
  unfold outbound_handler, handle_consensus_outbound_msg. shrink; apply send_consensus_same_queues.
Qed.

Lemma inbound_handler_same_queues now sample consensus m :
  keeps same_queues (inbound_handler now sample consensus m).
Proof.
  unfold inbound_handler, handle_consensus_inbound_msg, send_msg_to_consensus, update_peer_states.
  shrink; auto using send_consensus_same_queues, register_same_queues; done.
Qed.

(** ** A pass of the loop *)

(** The messages before a stop message, and what follows it if there is one. *)
Fixpoint cut (hs : list message) : list ConsensusMessage * option (list message) :=
  match hs with
  | [] => ([], None)
  | Relay m :: hs => let '(ms, rest) := cut hs in (m :: ms, rest)
  | Stop :: hs => ([], Some hs)
  end.

(** [runs f ms n n']: the handler has been run on these messages, in this order
    and without a panic, from [n] to [n']; in between only messages were taken
    from the queues. *)
Inductive runs (f : Handler) : list ConsensusMessage → P2PNode → P2PNode → Prop :=
  | runs_nil n q : runs f [] n (with_callback_queue q n)
  | runs_cons m ms n q n2 :
      is_panic (f m (with_callback_queue q n)).1 = false →
      runs f ms (f m (with_callback_queue q n)).2 n2 → runs f (m :: ms) n n2.

Definition panics (f : Handler) : Prop := ∃ m n, is_panic (f m n).1 = true.

Lemma runs_refl f n : runs f [] n n.
Proof.
  replace n with (with_callback_queue (callback_queue n) n) at 2 by by destruct n. apply runs_nil.
Qed.

Lemma runs_app f ms ms' n n1 n2 : runs f ms n n1 → runs f ms' n1 n2 → runs f (ms ++ ms') n n2.
Proof.
  induction 1 as [n q|m ms n q n1 Hp Hr IH]; intros H2; simpl; [|by eapply runs_cons; eauto].
  inversion H2 as [? q2|m ms ? q2 ? Hp2 Hr2]; subst;
    [apply (runs_nil f n q2)|by apply (runs_cons f m ms n q2)].
Qed.

Section lane.
Context (l : Lane) `{!LaneLaws l} (f : Handler).
Hypothesis handler_same_queues : ∀ m, keeps same_queues (f m).

(** Taking the message [msg] from the queues and handling it. *)
Lemma handle_taken msg hi lo n :
  match handle_queue_stop f msg (with_lane l hi lo n) with
  | (Ok go_on, n') =>
    high n' l = hi ∧ low n' l = lo
    ∧ match msg with
      | Relay m => go_on = true ∧ runs f [m] n n'
      | Stop => go_on = false ∧ runs f [] n n'
      end
  | (Err _, _) => False
  | (Panic _, _) => panics f
  end.
Proof.
  assert (∀ n', same_queues (with_lane l hi lo n) n' → high n' l = hi ∧ low n' l = lo) as Hq.
  { intros n' Hn. unfold high, low. rewrite Hn. simpl. by rewrite lane_high_set, lane_low_set. }
  destruct msg as [m|]; simpl.
  2: { destruct (Hq _ (reflexivity _)) as [??]. repeat split; [done..|apply runs_nil]. }
  unfold mbind, ST_bind, st_try. set (n0 := with_lane l hi lo n).
  pose proof (handler_same_queues m n0) as Hk.
  destruct (f m n0) as [r n1] eqn:Hf. simpl in Hk. apply Hq in Hk as [??].
  assert (is_panic r = false → runs f [m] n n1) as Hr.
  { intros Hp. apply (runs_cons f m [] n (lane_set l hi lo (callback_queue n)));
      change (with_callback_queue _ n) with n0; rewrite Hf; [done|apply runs_refl]. }
  destruct r; simpl; auto. by exists m, n0; rewrite Hf.
Qed.

Lemma drain_high_spec k n :
  length (high n l) ≤ k →
  match drain_high k l f n with
  | (Ok r, n') =>
    runs f (cut (high n l)).1 n n' ∧ low n' l = low n l
    ∧ match (cut (high n l)).2 with
      | Some rest => r = None ∧ high n' l = rest
      | None => r = Some (bool_decide (length (high n l) < k)) ∧ high n' l = []
      end
  | (Err _, _) => False
  | (Panic _, _) => panics f
  end.
Proof.
  revert n. induction k as [|k IH]; intros n Hlen.
  { simpl. destruct (high n l) as [|?] eqn:Hh; simpl in *; [|lia]. eauto using runs_refl. }
  cbn [drain_high]. rewrite bind_get. destruct (high n l) as [|msg hi] eqn:Hh.
  { simpl. eauto using runs_refl. }
  rewrite bind_modify. pose proof (handle_taken msg hi (low n l) n) as Ht.
  unfold mbind, ST_bind. destruct (handle_queue_stop _ _ _) as [[go_on|e|e] n1]; [|done..].
  destruct Ht as (Hhi & Hlo & Hm). destruct msg as [m|]; destruct Hm as [-> Hr]; [|done].
  specialize (IH n1). rewrite Hhi in IH. simpl in *.
  destruct (drain_high k l f n1) as [[r|e|e] n2]; [|by apply IH; lia..].
  destruct IH as (Hr2 & Hlo2 & Hc); [lia|]. destruct (cut hi) as [ms rest]. simpl in *.
  split; [by apply (runs_app _ [m] ms _ n1)|]. split; [congruence|]. destruct rest; [done|].
  destruct Hc as [-> ?]. split; [|done]. do 2 f_equal. apply bool_decide_ext. lia.
Qed.

(** C30: a pass of a consensus message thread handles all messages of high
    priority that are queued, in their order, and then exactly one message of
    low priority if there is one, so that neither queue starves the other; at
    a stop message it ends at once, with what is queued behind it unhandled.
    It waits only when both queues have been emptied, and it panics only when
    the handler does. *)
Theorem queue_round_spec n :
  (Z.of_nat (length (high n l)) ≤ lane_depth_high l)%Z →
  match queue_round l f n with
  | (Ok p, n') =>
    let '(ms, rest) := cut (high n l) in
    match rest, low n l with
    | Some hi, lo => p = Broke ∧ runs f ms (update_sizes l n) n' ∧ high n' l = hi ∧ low n' l = lo
    | None, [] =>
      p = (if decide (Z.of_nat (length (high n l)) < lane_depth_high l)%Z then Waits else Loops)
      ∧ runs f ms (update_sizes l n) n' ∧ high n' l = [] ∧ low n' l = []
    | None, Relay m :: lo =>
      p = Loops ∧ runs f (ms ++ [m]) (update_sizes l n) n' ∧ high n' l = [] ∧ low n' l = lo
    | None, Stop :: lo =>
      p = Broke ∧ runs f ms (update_sizes l n) n' ∧ high n' l = [] ∧ low n' l = lo
    end
  | (Err _, _) => False
  | (Panic _, _) => panics f
  end.
Proof.
  intros Hlen. unfold queue_round. rewrite bind_modify. set (n0 := update_sizes l n).
  change (high n l) with (high n0 l) in *. change (low n l) with (low n0 l).
  pose proof (drain_high_spec (Z.to_nat (lane_depth_high l)) n0) as Hd.
  unfold mbind at 1, ST_bind at 1. destruct (drain_high _ _ _ _) as [[r|e|e] n1]; [|by apply Hd; lia..].
  destruct Hd as (Hr & Hlo & Hc); [lia|]. destruct (cut (high n0 l)) as [ms rest]. simpl in *.
  destruct rest as [hi|]; destruct Hc as [-> Hhi]; [done|]. rewrite bind_get, Hlo.
  destruct (low n0 l) as [|msg lo] eqn:Hlow.
  { split; [|done]. simpl. case_bool_decide; case_decide; (done || lia). }
  unfold receive. rewrite bind_modify. unfold mbind, ST_bind.
  pose proof (handle_taken msg (high n1 l) lo n1) as Ht.
  destruct (handle_queue_stop _ _ _) as [[go_on|e|e] n2]; [|done..].
  destruct Ht as (Hhi2 & Hlo2 & Hm). destruct msg as [m|]; destruct Hm as [-> Hr2];
    simpl; repeat split; try congruence; [by eapply runs_app|].
  rewrite <-(app_nil_r ms). by eapply runs_app.
Qed.

(** *** What a pass does to the queues, also when it panics *)

Definition lane_shrinks n n' : Prop :=
  ∃ hi lo, callback_queue n' = lane_set l hi lo (callback_queue n)
    ∧ hi `suffix_of` high n l ∧ lo `suffix_of` low n l.

#[local] Instance lane_shrinks_preorder : PreOrder lane_shrinks.
Proof.
  split.
  - intros n. exists (high n l), (low n l). split; [|done]. symmetry. apply lane_set_same.
  - intros n1 n2 n3 (hi & lo & Hq & Hhi & Hlo) (hi' & lo' & Hq' & Hhi' & Hlo').
    exists hi', lo'. rewrite Hq', Hq, lane_set_set. split; [done|].
    unfold high, low in Hhi', Hlo'. rewrite Hq, lane_high_set in Hhi'. rewrite Hq, lane_low_set in Hlo'.
    split; by etrans.
Qed.

Lemma take_shrinks hi lo n :
  hi `suffix_of` high n l → lo `suffix_of` low n l → lane_shrinks n (with_lane l hi lo n).
Proof. by exists hi, lo. Qed.

Lemma same_queues_shrinks n n' : same_queues n n' → lane_shrinks n n'.
Proof. intros Hq. unfold lane_shrinks. rewrite Hq. apply (reflexivity (R:=lane_shrinks) n). Qed.

Lemma handle_shrinks msg : keeps lane_shrinks (handle_queue_stop f msg).
Proof.
  destruct msg as [m|]; simpl; shrink. intros n. apply same_queues_shrinks, handler_same_queues.
Qed.

Lemma drain_high_shrinks k : keeps lane_shrinks (drain_high k l f).
Proof.
  induction k as [|k IH]; simpl; [shrink|]. intros n. rewrite bind_get.
  destruct (high n l) as [|msg hi] eqn:Hh; [apply (reflexivity n)|]. rewrite bind_modify.
  etrans; [apply (take_shrinks hi (low n l)); [rewrite Hh; by apply suffix_cons_r|done]|].
  revert IH. generalize (with_lane l hi (low n l) n). intros n1 IH.
  assert (keeps lane_shrinks (go_on ← handle_queue_stop f msg;
    if go_on : bool then drain_high k l f else mret None)) as Hk; [|apply Hk].
  shrink. apply handle_shrinks.
Qed.

Lemma receive_shrinks hi lo msg n :
  hi `suffix_of` high n l → lo `suffix_of` low n l → lane_shrinks n (receive l f hi lo msg n).2.
Proof.
  intros Hhi Hlo. unfold receive. rewrite bind_modify. etrans; [by apply take_shrinks|].
  generalize (with_lane l hi lo n). intros n1.
  assert (keeps lane_shrinks (go_on ← handle_queue_stop f msg;
    mret (if go_on : bool then Loops else Broke))) as Hk; [|apply Hk].
  shrink. apply handle_shrinks.
Qed.

Lemma queue_round_shrinks : keeps lane_shrinks (queue_round l f).
Proof.
  unfold queue_round. apply keeps_bind; [apply _|intros n; by apply same_queues_shrinks|intros _].
  apply keeps_bind; [apply _|apply drain_high_shrinks|intros [b|]]; [|shrink].
  intros n. rewrite bind_get. destruct (low n l) as [|msg lo] eqn:Hlo; [apply (reflexivity n)|].
  apply receive_shrinks; [done|]. rewrite Hlo. by apply suffix_cons_r.
Qed.

Lemma queue_select_shrinks b : keeps lane_shrinks (queue_select b l f).
Proof.
  intros n. unfold queue_select. rewrite bind_get.
  destruct (high n l) eqn:Hh, (low n l) eqn:Hl; [apply (reflexivity n)| | |destruct b];
    apply receive_shrinks; rewrite ?Hh, ?Hl; solve [done|by apply suffix_cons_r].
Qed.

(** *** A stop message in the queue of high priority *)

Lemma cut_stop hs : Stop ∈ hs → (cut hs).2 ≠ None.
Proof.
  induction hs as [|[m|] hs IH]; simpl; [by intros ?%not_elem_of_nil| |done].
  intros [?|Hin]%elem_of_cons; [done|]. destruct (cut hs). by apply IH.
Qed.

Lemma queue_round_stops n :
  (Z.of_nat (length (high n l)) ≤ lane_depth_high l)%Z → Stop ∈ high n l →
  let r := queue_round l f n in
  ended (after_pass r.1) ∧ (after_pass r.1 = Broke → low r.2 l = low n l).
Proof.
  intros Hlen Hin%cut_stop r. unfold ended, r.
  unfold queue_round. rewrite bind_modify. set (n0 := update_sizes l n).
  change (high n l) with (high n0 l) in *. change (low n l) with (low n0 l).
  pose proof (drain_high_spec (Z.to_nat (lane_depth_high l)) n0) as Hd.
  unfold mbind, ST_bind.
  destruct (drain_high _ _ _ _) as [[r'|e|e] n1]; [|by split; [right|]..].
  destruct Hd as (_ & Hlo & Hc); [lia|].
  destruct (cut (high n0 l)).2; [|done]. destruct Hc as [-> _]. simpl. auto.
Qed.

Lemma queue_select_stops b n :
  Stop ∈ high n l →
  let r := queue_select b l f n in
  ended (after_pass r.1) ∨ after_pass r.1 = Loops ∧ Stop ∈ high r.2 l.
Proof.
  intros Hin. unfold queue_select. rewrite bind_get.
  assert (∀ hi lo msg, msg = Stop ∨ Stop ∈ hi → let r := receive l f hi lo msg n in
    ended (after_pass r.1) ∨ after_pass r.1 = Loops ∧ Stop ∈ high r.2 l) as Hrec.
  { intros hi lo msg Hm. unfold receive. rewrite bind_modify. unfold mbind, ST_bind, ended.
    pose proof (handle_taken msg hi lo n) as Ht.
    destruct (handle_queue_stop _ _ _) as [[go_on|e|e] n1]; simpl; [|by auto..].
    destruct Ht as (Hhi & _ & Ht). destruct msg as [m|]; destruct Ht as [-> _]; simpl; [|by auto].
    right. rewrite Hhi. destruct Hm as [|]; done. }
  destruct (high n l) as [|m hi] eqn:Hh; [by apply not_elem_of_nil in Hin|].
  apply elem_of_cons in Hin. destruct (low n l) eqn:Hl; [|destruct b];
    apply Hrec; [naive_solver..|]. right. apply elem_of_cons. naive_solver.
Qed.
End lane.

End threads.

(** *** Witnesses *)

Module QueueExample.
Import NodeExample.

Definition accepting : Consensus := {|
  receive_block _ _ := (FfiHelpers.Success, false);
  send_finalization _ _ := FfiHelpers.Success;
  send_finalization_record _ _ := FfiHelpers.Success;
  receive_catch_up_status _ _ _ _ := FfiHelpers.Success;
  send_transaction _ := FfiHelpers.Success;
  get_catch_up_status := [3%Z];
|}.

Definition tx (x : Z) : ConsensusMessage :=
  MkConsensusMessage (Inbound (MkRemotePeerId 1) DistDirect) Transaction [1%Z; x] [] None.

(** Two messages of high priority, a stop message and one of low priority. *)
Definition waiting : P2PNode :=
  with_callback_queue (MkConsensusQueues [Relay (tx 1); Relay (tx 2); Stop] [Relay (tx 3)] [] []) node3.

Lemma queue_round_spec_witness :
  match queue_round inbound (inbound_handler 5 (λ _, Ok false) accepting) waiting with
  | (Ok p, n') =>
    p = Broke
    ∧ runs (inbound_handler 5 (λ _, Ok false) accepting) [tx 1; tx 2] (update_sizes inbound waiting) n'
    ∧ high n' inbound = [] ∧ low n' inbound = [Relay (tx 3)]
  | (Err _, _) => False
  | (Panic _, _) => panics (inbound_handler 5 (λ _, Ok false) accepting)
  end.
Proof.
  apply (queue_round_spec inbound (inbound_handler 5 (λ _, Ok false) accepting)
           (inbound_handler_same_queues _ _ _) waiting).
  vm_compute. discriminate.
Defined.
End QueueExample.
