(* ===== verification/QueueSystem.v ===== *)
(** * The consensus message threads together with their senders

    The two threads of [start_consensus_message_threads] in
    [concordium-node/src/bin/cli.rs], the threads of the network layer and of consensus
    that put messages into the queues, and [ConsensusQueues::stop], interleaved.

    The outbound thread never waits within a pass of its loop, which is one step
    ([QueueThreads.queue_round]).  The inbound thread does: the consensus library, which it
    calls, sends messages through [sending_callback!] of [consensus_ffi/ffi.rs], for example
    the answers to a catch-up status, and each of them waits for room in the outbound queue
    of high priority.  It is modelled by the steps of its loop.  A send that would wait is no
    step. *)
From S2P Require Import Prelude.
From S2P Require Import PeerTypes.
From S2P Require Import NetTypes.
From S2P Require Import FfiHelpers.
From S2P Require Import CatchUp.
From S2P Require Import Float.
From S2P Require Import Config.
From S2P Require Import NodeState.
From S2P Require Import Connectivity.
From S2P Require Import ConsensusPlugin.
From S2P Require Import NodeInvariant.
From S2P Require Import QueueThreads.
From S2P Require Import NodeExample.

(** Where the inbound thread is: at the head of the loop, in the loop over the messages of
    high priority with so many turns left, before it looks for a message of low priority, at
    [select!], in the call for a message with the messages that the library has yet to send
    and what comes after the call, or at its end. *)
Inductive InThread :=
  | InLoops
  | InDrain (k : nat)
  | InLow (exhausted : bool)
  | InWaits
  | InCall (m : ConsensusMessage) (out : list ConsensusMessage) (next : InThread)
  | InBroke
  | InDied.

Definition in_ended (t : InThread) : Prop := t = InBroke ∨ t = InDied.

Section system.
Context `{!NodeExt}.
Implicit Types n : P2PNode.

(** ** The inbound thread *)

Section inbound_thread.
(** The handler, and the messages that the library sends while it is called for a message *)
Context (f : Handler) (sends : ConsensusMessage → list ConsensusMessage).

(** [handle_queue_stop] on a message that was taken *)
Definition in_take (msg : message) (next : InThread) : InThread :=
  match msg with
  | Relay m => InCall m (sends m) next
  | Stop => InBroke
  end.

(** The next step of the thread, [None] when it waits or has ended; [high_first] decides
    which message [select!] takes when there are two. *)
Definition in_next (high_first : bool) (t : InThread) (n : P2PNode) : option (InThread * P2PNode) :=
  match t with
  | InLoops => Some (InDrain (Z.to_nat CONSENSUS_QUEUE_DEPTH_IN_HI), update_sizes inbound n)
  | InDrain O => Some (InLow false, n)
  | InDrain (S k) =>
    match high n inbound with
    | [] => Some (InLow true, n)
    | msg :: hi => Some (in_take msg (InDrain k), with_lane inbound hi (low n inbound) n)
    end
  | InLow exhausted =>
    match low n inbound with
    | [] => Some (if exhausted then InWaits else InLoops, n)
    | msg :: lo => Some (in_take msg InLoops, with_lane inbound (high n inbound) lo n)
    end
  | InWaits =>
    match high n inbound, low n inbound with
    | [], [] => None
    | msg :: hi, [] => Some (in_take msg InLoops, with_lane inbound hi [] n)
    | [], msg :: lo => Some (in_take msg InLoops, with_lane inbound [] lo n)
    | msg_hi :: hi, msg_lo :: lo =>
      if high_first then Some (in_take msg_hi InLoops, with_lane inbound hi (msg_lo :: lo) n)
      else Some (in_take msg_lo InLoops, with_lane inbound (msg_hi :: hi) lo n)
    end
  | InCall m (x :: out) next =>
    (λ q, (InCall m out next, with_callback_queue q n)) <$> send_out_blocking_msg x (callback_queue n)
  | InCall m [] next => let '(r, n) := f m n in Some (if is_panic r then InDied else next, n)
  | InBroke | InDied => None
  end.
End inbound_thread.

(** ** The system *)

Record System := MkSystem {
  sys_node : P2PNode;
  in_thread : InThread;
  out_thread : Progress;
  (** what is left to do of [ConsensusQueues::stop], [None] before it is called *)
  stopping : option (list (ConsensusQueues → option ConsensusQueues));
}.

Definition System_new n : System := MkSystem n InLoops Loops None.

Definition out_pass (r : outcome Progress * P2PNode) (σ : System) : System :=
  MkSystem r.2 (in_thread σ) (after_pass r.1) (stopping σ).
Definition with_queue (q : ConsensusQueues) (σ : System) : System :=
  MkSystem (with_callback_queue q (sys_node σ)) (in_thread σ) (out_thread σ) (stopping σ).

(** A step of the inbound thread; the library sends at most [bound] messages in a call. *)
Inductive in_step (bound : nat) (σ : System) : System → Prop :=
  | MkInStep now sample consensus sends b t n' :
      (∀ m, length (sends m) ≤ bound) →
      in_next (inbound_handler now sample consensus) sends b (in_thread σ) (sys_node σ) = Some (t, n') →
      in_step bound σ (MkSystem n' t (out_thread σ) (stopping σ)).

(** A step of somebody else *)
Inductive env_step (σ : System) : System → Prop :=
  | sys_out_round now :
      out_thread σ = Loops →
      env_step σ (out_pass (queue_round outbound (outbound_handler now) (sys_node σ)) σ)
  | sys_out_select now b :
      out_thread σ = Waits →
      env_step σ (out_pass (queue_select b outbound (outbound_handler now) (sys_node σ)) σ)
  | sys_in_high m :
      env_step σ (with_queue (send_in_high_priority_message m (callback_queue (sys_node σ))).2 σ)
  | sys_in_low m :
      env_step σ (with_queue (send_in_low_priority_message m (callback_queue (sys_node σ))).2 σ)
  | sys_out_low m :
      env_step σ (with_queue (send_out_message m (callback_queue (sys_node σ))).2 σ)
  | sys_out_high m q :
      send_out_blocking_msg m (callback_queue (sys_node σ)) = Some q →
      env_step σ (with_queue q σ)
  | sys_close :
      stopping σ = None →
      env_step σ (MkSystem (sys_node σ) (in_thread σ) (out_thread σ) (Some ConsensusQueues_stop))
  | sys_stop s ss q :
      stopping σ = Some (s :: ss) → s (callback_queue (sys_node σ)) = Some q →
      env_step σ (MkSystem (with_callback_queue q (sys_node σ)) (in_thread σ) (out_thread σ) (Some ss))
  | sys_node_step n' :
      callback_queue n' = callback_queue (sys_node σ) →
      env_step σ (MkSystem n' (in_thread σ) (out_thread σ) (stopping σ)).

Definition sys_step (σ σ' : System) : Prop := (∃ bound, in_step bound σ σ') ∨ env_step σ σ'.

(** [in_runs bound k σ σ']: a run in which the inbound thread makes [k] steps *)
Inductive in_runs (bound : nat) : nat → System → System → Prop :=
  | in_runs_nil σ : in_runs bound 0 σ σ
  | in_runs_in k σ1 σ2 σ3 : in_step bound σ1 σ2 → in_runs bound k σ2 σ3 → in_runs bound (S k) σ1 σ3
  | in_runs_env k σ1 σ2 σ3 : env_step σ1 σ2 → in_runs bound k σ2 σ3 → in_runs bound k σ1 σ3.

(** ** The steps of the inbound thread make up the passes of [queue_round] *)

Definition in_state (p : Progress) : InThread :=
  match p with Loops => InLoops | Waits => InWaits | Broke => InBroke | Died => InDied end.

Section refinement.
Context (f : Handler) (b : bool).

(** The thread runs alone, and the library sends nothing. *)
Definition alone (c c' : InThread * P2PNode) : Prop := in_next f (λ _, []) b c.1 c.2 = Some c'.

Lemma alone_call m next n :
  rtc alone (InCall m [] next, n) (if is_panic (f m n).1 then InDied else next, (f m n).2).
Proof. apply rtc_once. unfold alone. simpl. by destruct (f m n). Qed.

(** A message that was taken is handled. *)
Lemma alone_take msg next n :
  match handle_queue_stop f msg n with
  | (Ok true, n') => rtc alone (in_take (λ _, []) msg next, n) (next, n')
  | (Ok false, n') => in_take (λ _, []) msg next = InBroke ∧ n' = n
  | (Err _, _) => False
  | (Panic _, n') => rtc alone (in_take (λ _, []) msg next, n) (InDied, n')
  end.
Proof.
  destruct msg as [m|]; [|done]. pose proof (alone_call m next n) as Hc. simpl.
  unfold mbind, ST_bind, st_try. by destruct (f m n) as [[] n'].
Qed.

Lemma alone_drain k n :
  match drain_high k inbound f n with
  | (Ok (Some e), n') => rtc alone (InDrain k, n) (InLow e, n')
  | (Ok None, n') => rtc alone (InDrain k, n) (InBroke, n')
  | (Err _, _) => False
  | (Panic _, n') => rtc alone (InDrain k, n) (InDied, n')
  end.
Proof.
  revert n. induction k as [|k IH]; intros n; [by apply rtc_once|]. cbn [drain_high]. rewrite bind_get.
  assert (alone (InDrain (S k), n) (match high n inbound with
    | [] => (InLow true, n)
    | msg :: hi => (in_take (λ _, []) msg (InDrain k), with_lane inbound hi (low n inbound) n)
    end)) as H1 by (unfold alone; cbn [in_next fst snd]; by destruct (high n inbound)).
  destruct (high n inbound) as [|msg hi]; [by apply rtc_once|]. rewrite bind_modify.
  pose proof (alone_take msg (InDrain k) (with_lane inbound hi (low n inbound) n)) as Ht.
  unfold mbind, ST_bind. destruct (handle_queue_stop _ _ _) as [[[]|e|e] n1]; [| |done|].
  - specialize (IH n1). destruct (drain_high k inbound f n1) as [[[]|e|e] n2]; [..|done|];
      (eapply rtc_l; [exact H1|]; by etrans).
  - destruct Ht as [Ht ->]. rewrite Ht in H1. by apply rtc_once.
  - by eapply rtc_l.
Qed.

(** When the library sends nothing, the steps of the thread are those of a pass. *)
Lemma in_thread_refines n :
  let '(r, n') := queue_round inbound f n in rtc alone (InLoops, n) (in_state (after_pass r), n').
Proof.
  unfold queue_round. rewrite bind_modify. set (n0 := update_sizes inbound n).
  assert (alone (InLoops, n) (InDrain (Z.to_nat CONSENSUS_QUEUE_DEPTH_IN_HI), n0)) as H0 by reflexivity.
  pose proof (alone_drain (Z.to_nat CONSENSUS_QUEUE_DEPTH_IN_HI) n0) as Hd.
  unfold mbind at 1, ST_bind at 1. cbn [lane_depth_high inbound].
  revert H0 Hd. generalize (Z.to_nat CONSENSUS_QUEUE_DEPTH_IN_HI) as depth. intros depth H0 Hd.
  destruct (drain_high _ _ _ _) as [[[e|]|e|e] n1]; [|by eapply rtc_l..].
  rewrite bind_get.
  assert (alone (InLow e, n1) (match low n1 inbound with
    | [] => (if e then InWaits else InLoops, n1)
    | msg :: lo => (in_take (λ _, []) msg InLoops, with_lane inbound (high n1 inbound) lo n1)
    end)) as H1 by (unfold alone; cbn [in_next fst snd]; by destruct (low n1 inbound)).
  destruct (low n1 inbound) as [|msg lo].
  { eapply rtc_l; [exact H0|]. eapply rtc_r; [exact Hd|]. by destruct e. }
  unfold receive. rewrite bind_modify.
  pose proof (alone_take msg InLoops (with_lane inbound (high n1 inbound) lo n1)) as Ht.
  unfold mbind, ST_bind. destruct (handle_queue_stop _ _ _) as [[[]|x|x] n2]; [| |done|];
    (eapply rtc_l; [exact H0|]; etrans; [exact Hd|]; eapply rtc_l; [exact H1|]).
  - done.
  - destruct Ht as [-> ->]. done.
  - done.
Qed.
End refinement.

(** ** What the steps do to the queues *)

(** A step of the inbound thread takes messages from its own queues, or puts one into the
    outbound queue of high priority. *)
Lemma in_next_queues f sends b t n t' n' :
  (∀ m, keeps same_queues (f m)) → in_next f sends b t n = Some (t', n') →
  lane_shrinks inbound n n'
  ∨ ∃ x, send_out_blocking_msg x (callback_queue n) = Some (callback_queue n').
Proof.
  intros Hf. destruct t as [|[|k]|e| |m [|x out] next| |]; cbn [in_next].
  - intros [= <- <-]. left. by apply same_queues_shrinks; [apply _|].
  - intros [= <- <-]. left. by apply same_queues_shrinks; [apply _|].
  - destruct (high n inbound) as [|msg hi] eqn:Hh; intros [= <- <-]; left.
    + by apply same_queues_shrinks; [apply _|].
    + apply take_shrinks; [rewrite Hh; by apply suffix_cons_r|done].
  - destruct (low n inbound) as [|msg lo] eqn:Hl; intros [= <- <-]; left.
    + by apply same_queues_shrinks; [apply _|].
    + apply take_shrinks; [done|rewrite Hl; by apply suffix_cons_r].
  - destruct (high n inbound) as [|x hi] eqn:Hh, (low n inbound) as [|y lo] eqn:Hl; [done| | |destruct b];
      intros [= <- <-]; left; apply take_shrinks; rewrite ?Hh, ?Hl; solve [done|by apply suffix_cons_r].
  - pose proof (Hf m n) as Hk. destruct (f m n) as [r n1]. intros [= <- <-]. left.
    apply same_queues_shrinks; [apply _|exact Hk].
  - intros (q & Hq & [= -> ->])%fmap_Some. right. by exists x.
  - done.
  - done.
Qed.

Lemma send_out_queues x q q' :
  send_out_blocking_msg x q = Some q' →
  q' = lane_set outbound (outbound_high q ++ [Relay x]) (outbound_low q) q
  ∧ length (outbound_high q) < Z.to_nat CONSENSUS_QUEUE_DEPTH_OUT_HI.
Proof.
  unfold send_out_blocking_msg, send_high, send. cbn [lane_high lane_depth_high outbound].
  case_decide as Hlen; [|done]. by intros [= <-].
Qed.

(** ** The stop message *)

(** How many messages are before the stop message *)
Fixpoint stop_index (hs : list message) : nat :=
  match hs with
  | Relay _ :: hs => S (stop_index hs)
  | _ => 0
  end.

Lemma stop_index_lt hs : Stop ∈ hs → stop_index hs < length hs.
Proof.
  induction hs as [|[m|] hs IH]; [by intros ?%not_elem_of_nil| |simpl; lia].
  intros [?|Hin]%elem_of_cons; [done|]. apply IH in Hin. simpl. lia.
Qed.

Lemma stop_index_prefix hs hs' : Stop ∈ hs → hs `prefix_of` hs' → stop_index hs' = stop_index hs.
Proof.
  intros Hin [k ->]. induction hs as [|[m|] hs IH]; [by apply not_elem_of_nil in Hin| |done].
  simpl. apply elem_of_cons in Hin as [?|Hin]; [done|]. by rewrite IH.
Qed.

(** A bound on the steps of the inbound thread until it next takes a message of high
    priority, if there is one, when the library sends at most [bound] messages in a call *)
Fixpoint in_local (bound : nat) (t : InThread) : nat :=
  match t with
  | InLoops => 2
  | InDrain O => bound + 6
  | InDrain (S _) => 1
  | InLow _ => bound + 5
  | InWaits => bound + 4
  | InCall _ out next => S (length out) + in_local bound next
  | InBroke | InDied => 0
  end.

(** A bound on the steps until it ends, once the stop message is in its queue *)
Definition in_budget (bound : nat) (σ : System) : nat :=
  stop_index (high (sys_node σ) inbound) * (2 * bound + 8) + in_local bound (in_thread σ).

Lemma in_local_drain bound k : in_local bound (InDrain k) ≤ bound + 6.
Proof. destruct k; simpl; lia. Qed.

(** Taking the first message of high priority *)
Lemma in_take_budget bound sends msg hi next :
  (∀ m, length (sends m) ≤ bound) → Stop ∈ msg :: hi → in_local bound next ≤ bound + 6 →
  let t := in_take sends msg next in
  in_ended t ∨ Stop ∈ hi
    ∧ stop_index hi * (2 * bound + 8) + in_local bound t < stop_index (msg :: hi) * (2 * bound + 8).
Proof.
  intros Hs Hin Hn t. destruct msg as [m|]; [|by left; left]. right.
  apply elem_of_cons in Hin as [?|Hin]; [done|]. split; [done|].
  unfold t. cbn [in_take in_local stop_index]. specialize (Hs m). nia.
Qed.

(** Taking a message of low priority *)
Lemma in_take_low bound sends msg :
  (∀ m, length (sends m) ≤ bound) →
  in_ended (in_take sends msg InLoops) ∨ in_local bound (in_take sends msg InLoops) ≤ bound + 3.
Proof.
  intros Hs. destruct msg as [m|]; [right|by left; left]. specialize (Hs m). simpl. lia.
Qed.

Lemma high_with_lane hi lo n : high (with_lane inbound hi lo n) inbound = hi.
Proof. done. Qed.
Lemma low_with_lane hi lo n : low (with_lane inbound hi lo n) inbound = lo.
Proof. done. Qed.

(** With a stop message in the queue every step uses up the budget. *)
Lemma in_step_budget bound σ σ' :
  Stop ∈ high (sys_node σ) inbound → in_step bound σ σ' →
  in_ended (in_thread σ')
  ∨ Stop ∈ high (sys_node σ') inbound ∧ in_budget bound σ' < in_budget bound σ.
Proof.
  intros Hin [now sample cs sends b t n' Hs Hn]. unfold in_budget. cbn [sys_node in_thread].
  set (n := sys_node σ) in *. destruct (in_thread σ) as [|[|k]|e| |m [|x out] next| |]; cbn [in_next] in Hn.
  - injection Hn as <- <-. right. split; [exact Hin|].
    change (high (update_sizes inbound n) inbound) with (high n inbound).
    unfold CONSENSUS_QUEUE_DEPTH_IN_HI. destruct (Z.to_nat _) eqn:E; [lia|]. simpl. lia.
  - injection Hn as <- <-. right. split; [done|]. simpl. lia.
  - destruct (high n inbound) as [|msg hi]; [by apply not_elem_of_nil in Hin|]. injection Hn as <- <-.
    pose proof (in_take_budget bound sends msg hi _ Hs Hin (in_local_drain bound k)) as [|[? Hlt]];
      [by left|right]. rewrite (high_with_lane hi). split; [done|]. cbn [in_local]. lia.
  - destruct (low n inbound) as [|msg lo]; injection Hn as <- <-.
    { right. split; [done|]. destruct e; simpl; lia. }
    destruct (in_take_low bound sends msg Hs) as [|Hle]; [by left|right].
    change (high (with_lane inbound _ lo n) inbound) with (high n inbound). split; [done|]. cbn [in_local]. lia.
  - destruct (high n inbound) as [|x hi] eqn:Hh; [by apply not_elem_of_nil in Hin|].
    destruct (low n inbound) as [|y lo]; [|destruct b]; injection Hn as <- <-.
    1,2: pose proof (in_take_budget bound sends x hi InLoops Hs Hin ltac:(simpl; lia)) as [|[? Hlt]];
      [by left|right]; rewrite (high_with_lane hi); split; [done|cbn [in_local]; lia].
    destruct (in_take_low bound sends y Hs) as [|Hle]; [by left|right].
    rewrite (high_with_lane (x :: hi) lo n). split; [done|]. cbn [in_local]. lia.
  - pose proof (inbound_handler_same_queues now sample cs m n) as Hk.
    destruct (inbound_handler now sample cs m n) as [r n1]. injection Hn as <- <-.
    assert (high n1 inbound = high n inbound) as Hh by (unfold high; simpl in Hk; by rewrite Hk).
    rewrite Hh. destruct (is_panic r); [by left; right|]. right. split; [done|]. simpl. lia.
  - apply fmap_Some in Hn as (q & Hq & [= -> ->]). apply send_out_queues in Hq as [-> _]. right.
    change (high (with_callback_queue _ n) inbound) with (high n inbound). split; [done|]. simpl. lia.
  - done.
  - done.
Qed.

(** ** The threads and the senders together *)

Definition bounded (q : ConsensusQueues) : Prop :=
  (Z.of_nat (length (inbound_high q)) ≤ CONSENSUS_QUEUE_DEPTH_IN_HI)%Z
  ∧ (Z.of_nat (length (inbound_low q)) ≤ CONSENSUS_QUEUE_DEPTH_IN_LO)%Z
  ∧ (Z.of_nat (length (outbound_high q)) ≤ CONSENSUS_QUEUE_DEPTH_OUT_HI)%Z
  ∧ (Z.of_nat (length (outbound_low q)) ≤ CONSENSUS_QUEUE_DEPTH_OUT_LO)%Z.

(** Once the [k]-th send of [ConsensusQueues::stop] is done, the stop message is
    in its queue unless the thread that reads it has ended. *)
Definition told (k : nat) (l : Lane) (has_ended : Prop) (σ : System) : Prop :=
  ∀ ss, stopping σ = Some ss → length ss + k ≤ 4 → has_ended ∨ Stop ∈ high (sys_node σ) l.

Record sys_ok (σ : System) : Prop := {
  so_bounded : bounded (callback_queue (sys_node σ));
  so_stopping : ∀ ss, stopping σ = Some ss → ss `suffix_of` ConsensusQueues_stop;
  so_told_out : told 2 outbound (ended (out_thread σ)) σ;
  so_told_in : told 4 inbound (in_ended (in_thread σ)) σ;
}.

Lemma lane_shrinks_bounded l n n' :
  l = inbound ∨ l = outbound →
  lane_shrinks l n n' → bounded (callback_queue n) → bounded (callback_queue n').
Proof.
  intros Hl (hi & lo & -> & Hhi%suffix_length & Hlo%suffix_length) (?&?&?&?).
  destruct Hl as [-> | ->]; unfold high, low in *; simpl in *; repeat split; simpl; lia.
Qed.

(** A pass of the thread of one lane leaves the queues of the other one alone. *)
Lemma in_shrinks_out n n' : lane_shrinks inbound n n' → high n' outbound = high n outbound.
Proof. intros (hi & lo & Hq & _). unfold high. by rewrite Hq. Qed.
Lemma out_shrinks_in n n' :
  lane_shrinks outbound n n' → high n' inbound = high n inbound ∧ low n' inbound = low n inbound.
Proof. intros (hi & lo & Hq & _). unfold high, low. by rewrite Hq. Qed.

Lemma not_ended_loops : ¬ ended Loops.
Proof. by intros [|]. Qed.
Lemma not_ended_waits : ¬ ended Waits.
Proof. by intros [|]. Qed.

Lemma sys_ok_in bound σ σ' : in_step bound σ σ' → sys_ok σ → sys_ok σ'.
Proof.
  intros Hstep [Hb Hs Ho Hi]. pose proof (in_step_budget bound σ σ') as Hbud. pose proof Hstep as Hstep0.
  destruct Hstep as [now sample cs sends b t n' Hsend Hn]. cbn [sys_node in_thread] in Hbud.
  pose proof (in_next_queues _ _ _ _ _ _ _ (inbound_handler_same_queues now sample cs) Hn) as Hq.
  split; cbn [sys_node in_thread out_thread stopping].
  - destruct Hq as [Hq|[x Hq]]; [by eapply (lane_shrinks_bounded inbound); eauto|].
    apply send_out_queues in Hq as [-> Hlt]. destruct Hb as (?&?&?&?).
    repeat split; simpl; rewrite ?length_app; simpl; lia.
  - done.
  - intros ss Hss Hlen. destruct (Ho ss Hss Hlen) as [|Hin]; [by left|right]. cbn [sys_node].
    destruct Hq as [Hq|[x Hq]]; [by rewrite (in_shrinks_out _ _ Hq)|].
    apply send_out_queues in Hq as [Hq _]. unfold high in *. rewrite Hq. simpl. set_solver.
  - intros ss Hss Hlen. destruct (Hi ss Hss Hlen) as [[He|He]|Hin]; [by rewrite He in Hn..|].
    destruct (Hbud Hin Hstep0) as [|[? _]]; auto.
Qed.

Lemma sys_ok_out σ r :
  sys_ok σ → ¬ ended (out_thread σ) → lane_shrinks outbound (sys_node σ) r.2 →
  (Stop ∈ high (sys_node σ) outbound → ended (after_pass r.1) ∨ Stop ∈ high r.2 outbound) →
  sys_ok (out_pass r σ).
Proof.
  intros [Hb Hs Ho Hi] Hne Hsh Hstop. split; simpl; [|done| |].
  - apply (lane_shrinks_bounded outbound (sys_node σ)); auto.
  - intros ss Hss Hlen. destruct (Ho ss Hss Hlen) as [|Hin]; [done|auto].
  - intros ss Hss Hlen. destruct (Hi ss Hss Hlen) as [|Hin]; [by left|right].
    cbn [out_pass sys_node]. by rewrite (proj1 (out_shrinks_in _ _ Hsh)).
Qed.

(** A message joins the end of a queue. *)
Definition extends (q q' : ConsensusQueues) : Prop :=
  inbound_high q `prefix_of` inbound_high q' ∧ inbound_low q `prefix_of` inbound_low q'
  ∧ outbound_high q `prefix_of` outbound_high q'.

Lemma sys_ok_queue σ q :
  sys_ok σ → bounded q → extends (callback_queue (sys_node σ)) q → sys_ok (with_queue q σ).
Proof.
  intros [Hb Hs Ho Hi] Hq (Hpi & _ & Hpo). split; simpl; [done..| |]; intros ss Hss Hlen.
  - destruct (Ho ss Hss Hlen) as [|Hin]; [by left|right]. by eapply elem_of_prefix.
  - destruct (Hi ss Hss Hlen) as [|Hin]; [by left|right]. by eapply elem_of_prefix.
Qed.

Lemma send_some {A} cap (x : A) q q' :
  send cap x q = Some q' →
  q' = q ++ [x] ∧ ((Z.of_nat (length q) ≤ cap)%Z → (Z.of_nat (length q') ≤ cap)%Z).
Proof.
  unfold send. case_decide as Hlen; [|done]. intros [= <-]. split; [done|].
  rewrite length_app. simpl. lia.
Qed.

Lemma try_send_bounded {A} cap (x : A) q :
  (Z.of_nat (length q) ≤ cap)%Z → (Z.of_nat (length (try_send (Z.to_nat cap) x q).2) ≤ cap)%Z.
Proof. unfold try_send. case_decide; simpl; rewrite ?length_app; simpl; lia. Qed.

Lemma try_send_prefix {A} cap (x : A) q : q `prefix_of` (try_send cap x q).2.
Proof. unfold try_send. case_decide; simpl; [by apply prefix_app_r|done]. Qed.

(** The sends of [ConsensusQueues::stop] *)
Lemma stop_send_extends s q q' :
  s ∈ ConsensusQueues_stop → s q = Some q' → extends q q' ∧ (bounded q → bounded q').
Proof.
  intros Hin Hs.
  assert (∃ l x, (l = inbound ∨ l = outbound) ∧ (s = send_high l x ∨ s = send_low l x))
    as (l & x & Hl & Hsend).
  { unfold ConsensusQueues_stop in Hin. rewrite !elem_of_cons, elem_of_nil in Hin.
    destruct Hin as [->|[->|[->|[->|[]]]]]; eauto 6. }
  unfold bounded, extends.
  destruct Hl as [-> | ->], Hsend as [-> | ->]; apply fmap_Some in Hs as (k & Hk & ->);
    apply send_some in Hk as [-> Hk]; simpl in *; split; intuition; by apply prefix_app_r.
Qed.

(** What the others do to the queues of the inbound thread: messages are added. *)
Lemma env_step_inbound σ σ' :
  sys_ok σ → env_step σ σ' →
  in_thread σ' = in_thread σ
  ∧ high (sys_node σ) inbound `prefix_of` high (sys_node σ') inbound
  ∧ low (sys_node σ) inbound `prefix_of` low (sys_node σ') inbound.
Proof.
  intros Hok [now Hp|now b Hp|m|m|m|m q Hq|Hn|s ss q Hss Hq|n' Hn];
    cbn [in_thread sys_node out_pass with_queue]; (split; [done|]).
  - destruct (out_shrinks_in _ _ (queue_round_shrinks outbound _
      (outbound_handler_same_queues now) (sys_node σ))) as [-> ->]. done.
  - destruct (out_shrinks_in _ _ (queue_select_shrinks outbound _
      (outbound_handler_same_queues now) b (sys_node σ))) as [-> ->]. done.
  - unfold send_in_high_priority_message. rewrite (surjective_pairing (try_send _ _ _)).
    split; [apply try_send_prefix|done].
  - unfold send_in_low_priority_message. rewrite (surjective_pairing (try_send _ _ _)).
    split; [done|apply try_send_prefix].
  - unfold send_out_message. by rewrite (surjective_pairing (try_send _ _ _)).
  - by apply send_out_queues in Hq as [-> _].
  - done.
  - destruct (so_stopping _ Hok _ Hss) as [pre Hpre].
    destruct (stop_send_extends s (callback_queue (sys_node σ)) q) as [(? & ? & _) _]; [|done|by split].
    rewrite Hpre. set_solver.
  - unfold high, low. by rewrite Hn.
Qed.

(** One more send of [ConsensusQueues::stop]. *)
Lemma sys_ok_stop σ s ss q :
  sys_ok σ → stopping σ = Some (s :: ss) → s (callback_queue (sys_node σ)) = Some q →
  sys_ok (MkSystem (with_callback_queue q (sys_node σ)) (in_thread σ) (out_thread σ) (Some ss)).
Proof.
  intros Hok Hss Hs. destruct (so_stopping _ Hok _ Hss) as [pre Hpre].
  pose proof (f_equal length Hpre) as Hl. rewrite length_app in Hl. simpl in Hl.
  destruct (stop_send_extends s (callback_queue (sys_node σ)) q) as [Hex Hb];
    [rewrite Hpre; set_solver|done|]. specialize (Hb (so_bounded _ Hok)).
  pose proof (sys_ok_queue σ q Hok Hb Hex) as [_ _ Ho Hi]. split; simpl; [done|..].
  - intros ? [= <-]. rewrite Hpre. exists (pre ++ [s]). by rewrite <-app_assoc.
  - intros ? [= <-] Hlen. unfold ConsensusQueues_stop in Hpre.
    destruct pre as [|? [|? pre]]; simplify_eq/=; [lia| |].
    + right. apply fmap_Some in Hs as (k & Hk & ->). apply send_some in Hk as [-> _].
      unfold high. simpl. set_solver.
    + apply (Ho (s :: ss)); [done|]. simpl. lia.
  - intros ? [= <-] Hlen. assert (ss = []) as -> by (by apply nil_length_inv; lia).
    unfold ConsensusQueues_stop in Hpre.
    destruct pre as [|? [|? [|? [|? pre]]]]; simplify_eq/=. 2: by destruct pre.
    right. apply fmap_Some in Hs as (k & Hk & ->). apply send_some in Hk as [-> _].
    unfold high. simpl. set_solver.
Qed.

Lemma env_step_ok σ σ' : env_step σ σ' → sys_ok σ → sys_ok σ'.
Proof.
  intros Hstep Hok. pose proof Hok as [Hb Hs Ho Hi]. pose proof Hb as (B1 & B2 & B3 & B4).
  destruct Hstep as [now Hp|now b Hp|m|m|m|m q Hq|Hn|s ss q Hss Hq|n' Hn].
  - apply sys_ok_out; [done|rewrite Hp; apply not_ended_loops|..].
    + apply queue_round_shrinks; [apply _|apply outbound_handler_same_queues].
    + intros Hin. left. apply queue_round_stops; auto using outbound_handler_same_queues, outbound_laws.
  - apply sys_ok_out; [done|rewrite Hp; apply not_ended_waits|..].
    + apply queue_select_shrinks; [apply _|apply outbound_handler_same_queues].
    + intros Hin. edestruct (queue_select_stops outbound) as [|[_ ?]];
        eauto using outbound_handler_same_queues.
  - apply sys_ok_queue; [done|..]; unfold send_in_high_priority_message;
      rewrite (surjective_pairing (try_send _ _ _)); simpl.
    + repeat split; simpl; auto using try_send_bounded.
    + split_and!; simpl; [apply try_send_prefix|done..].
  - apply sys_ok_queue; [done|..]; unfold send_in_low_priority_message;
      rewrite (surjective_pairing (try_send _ _ _)); simpl.
    + repeat split; simpl; auto using try_send_bounded.
    + split_and!; simpl; [done|apply try_send_prefix|done].
  - apply sys_ok_queue; [done|..]; unfold send_out_message;
      rewrite (surjective_pairing (try_send _ _ _)); simpl; [|done].
    repeat split; simpl; auto using try_send_bounded.
  - apply send_out_queues in Hq as [-> Hlt].
    apply sys_ok_queue; [done|repeat split; simpl; rewrite ?length_app; simpl; lia|].
    split_and!; simpl; [done..|by apply prefix_app_r].
  - split; simpl; [done|by intros ? [= <-]|..]; intros ? [= <-] Hlen; simpl in Hlen; lia.
  - by eapply sys_ok_stop.
  - split; simpl; [by rewrite Hn|done|..]; intros ss Hss Hlen; unfold high; simpl; rewrite Hn;
      [by apply (Ho ss)|by apply (Hi ss)].
Qed.

Lemma sys_step_ok σ σ' : sys_step σ σ' → sys_ok σ → sys_ok σ'.
Proof. intros [[bound Hi]|He]; [by eapply sys_ok_in|by apply env_step_ok]. Qed.

Lemma sys_reachable_ok n σ :
  callback_queue n = ConsensusQueues_default → rtc sys_step (System_new n) σ → sys_ok σ.
Proof.
  intros Hq Hr. assert (sys_ok (System_new n)) as Hok.
  { split; simpl; [rewrite Hq; repeat split; simpl; unfold CONSENSUS_QUEUE_DEPTH_IN_HI,
      CONSENSUS_QUEUE_DEPTH_IN_LO, CONSENSUS_QUEUE_DEPTH_OUT_HI, CONSENSUS_QUEUE_DEPTH_OUT_LO; lia|
      by intros ss ?..]. }
  induction Hr as [|σ1 σ2 σ3 Hstep _ IH]; [done|]. apply IH. by eapply sys_step_ok.
Qed.

(** ** The inbound thread ends *)

Lemma in_ended_stays bound k σ σ' :
  in_runs bound k σ σ' → sys_ok σ → in_ended (in_thread σ) → in_ended (in_thread σ').
Proof.
  induction 1 as [σ|k σ1 σ2 σ3 Hs _ IH|k σ1 σ2 σ3 Hs _ IH]; [done|..]; intros Hok He.
  - destruct Hs as [now sample cs sends b t n' _ Hn]. by destruct He as [He|He]; rewrite He in Hn.
  - apply IH; [by eapply env_step_ok|]. by destruct (env_step_inbound _ _ Hok Hs) as (-> & _).
Qed.

Lemma in_budget_ends bound k σ σ' :
  in_runs bound k σ σ' → sys_ok σ → in_ended (in_thread σ) ∨ Stop ∈ high (sys_node σ) inbound →
  in_budget bound σ ≤ k → in_ended (in_thread σ').
Proof.
  induction 1 as [σ|k σ1 σ2 σ3 Hs Hr IH|k σ1 σ2 σ3 Hs Hr IH]; intros Hok [He|Hin] Hk.
  - done.
  - unfold in_budget in Hk. unfold in_ended.
    destruct (in_thread σ) as [|[]| | | | |]; simpl in Hk; auto; lia.
  - eapply (in_ended_stays bound); [by eapply in_runs_in|done..].
  - pose proof (sys_ok_in _ _ _ Hs Hok) as Hok2.
    destruct (in_step_budget _ _ _ Hin Hs) as [He|[Hin2 Hlt]]; [by eapply in_ended_stays|].
    apply IH; [done|by right|lia].
  - eapply (in_ended_stays bound); [by eapply in_runs_env|done..].
  - pose proof (env_step_ok _ _ Hs Hok) as Hok2.
    destruct (env_step_inbound _ _ Hok Hs) as (Ht & Hp & _).
    apply IH; [done|right; by eapply elem_of_prefix|].
    unfold in_budget in *. by rewrite Ht, (stop_index_prefix _ _ Hin Hp).
Qed.

(** The inbound thread is in a call of the library that waits for room in the outbound
    queue of high priority. *)
Definition awaits_room (σ : System) : Prop :=
  ∃ m x out next, in_thread σ = InCall m (x :: out) next
    ∧ (CONSENSUS_QUEUE_DEPTH_OUT_HI ≤ Z.of_nat (length (outbound_high (callback_queue (sys_node σ)))))%Z.

Lemma in_progress σ :
  Stop ∈ high (sys_node σ) inbound →
  in_ended (in_thread σ) ∨ awaits_room σ ∨ ∃ σ', in_step 0 σ σ'.
Proof.
  intros Hin. destruct (in_next (inbound_handler 0 (λ _, Ok false) QueueExample.accepting) (λ _, []) true (in_thread σ)
    (sys_node σ)) as [[t n']|] eqn:Hn.
  { do 2 right. eexists. by eapply MkInStep; [|exact Hn]. }
  unfold in_ended, awaits_room. destruct (in_thread σ) as [|[|k]|e| |m [|x out] next| |];
    cbn [in_next] in Hn; try done; auto.
  - by destruct (high _ inbound).
  - by destruct (low _ inbound).
  - destruct (high _ inbound); [by apply not_elem_of_nil in Hin|]. by destruct (low _ inbound).
  - by destruct (inbound_handler _ _ _ _ _).
  - right. left. exists m, x, out, next. split; [done|]. apply fmap_None in Hn.
    unfold send_out_blocking_msg, send_high, send in Hn. cbn [lane_high lane_depth_high outbound] in Hn.
    case_decide; [done|lia].
Qed.

(** *** The messages of low priority *)

(** The thread will find the stop message before it looks at the queue of low priority. *)
Definition last_pass (t : InThread) (hs : list message) : Prop :=
  match t with
  | InDrain k | InCall _ _ (InDrain k) => stop_index hs < k
  | InBroke | InDied => True
  | _ => False
  end.

Lemma last_pass_step bound σ σ' :
  in_step bound σ σ' → Stop ∈ high (sys_node σ) inbound →
  in_thread σ = InLoops ∨ last_pass (in_thread σ) (high (sys_node σ) inbound) →
  sys_ok σ →
  last_pass (in_thread σ') (high (sys_node σ') inbound)
  ∧ low (sys_node σ') inbound = low (sys_node σ) inbound.
Proof.
  intros [now sample cs sends b t n' _ Hn] Hin Hl Hok. cbn [sys_node in_thread]. revert Hn.
  set (n := sys_node σ) in *. destruct (in_thread σ) as [|[|k]|e| |m [|x out] next| |];
    cbn [in_next last_pass] in *; try (destruct Hl as [?|[]]; done).
  - intros [= <- <-]. split; [|done]. destruct (so_bounded _ Hok) as (Hb & _).
    pose proof (stop_index_lt _ Hin). unfold high in *. simpl in *. fold n in Hb. lia.
  - destruct Hl as [?|Hl]; [done|lia].
  - destruct (high n inbound) as [|[m|] hi]; [by apply not_elem_of_nil in Hin|..]; intros [= <- <-];
      (split; [|done]); [|done]. destruct Hl as [?|Hl]; [done|]. simpl in *. lia.
  - pose proof (inbound_handler_same_queues now sample cs m n) as Hk.
    destruct (inbound_handler now sample cs m n) as [r n1]. intros [= <- <-]. simpl in Hk.
    assert (high n1 inbound = high n inbound ∧ low n1 inbound = low n inbound) as [-> ->]
      by (unfold high, low; by rewrite Hk).
    split; [|done]. destruct Hl as [?|Hl]; [done|]. destruct (is_panic r); [done|]. by destruct next.
  - intros (q & Hq & [= -> ->])%fmap_Some. apply send_out_queues in Hq as [-> _].
    split; [|done]. by destruct Hl as [?|Hl].
Qed.

(** Once it begins a pass with the stop message in its queue, the inbound thread takes no
    message of low priority any more. *)
Lemma low_never_taken bound k σ σ' :
  in_runs bound k σ σ' → sys_ok σ →
  (Stop ∈ high (sys_node σ) inbound ∧ (in_thread σ = InLoops ∨
     last_pass (in_thread σ) (high (sys_node σ) inbound))) ∨ in_ended (in_thread σ) →
  low (sys_node σ) inbound `prefix_of` low (sys_node σ') inbound.
Proof.
  induction 1 as [σ|k σ1 σ2 σ3 Hs _ IH|k σ1 σ2 σ3 Hs _ IH]; [done|..]; intros Hok Hl.
  - destruct Hl as [[Hin Hl]|He].
    2:{ destruct Hs as [now sample cs sends b t n' _ Hn]. by destruct He as [He|He]; rewrite He in Hn. }
    pose proof (last_pass_step _ _ _ Hs Hin Hl Hok) as [Hl2 <-].
    apply IH; [by eapply sys_ok_in|]. destruct (in_step_budget _ _ _ Hin Hs) as [|[? _]]; auto.
  - destruct (env_step_inbound _ _ Hok Hs) as (Ht & Hp & Hlo). etrans; [exact Hlo|].
    apply IH; [by eapply env_step_ok|]. rewrite Ht. destruct Hl as [[Hin Hl]|He]; [left|by right].
    split; [by eapply elem_of_prefix|]. unfold last_pass in *.
    by rewrite (stop_index_prefix _ _ Hin Hp).
Qed.

(** C31: [CALLBACK_QUEUE.stop] ends the threads unless the inbound one waits for room.  In
    every state that is reached by the threads and the senders from empty queues, once all
    sends of the stop are done:  the outbound thread, when it runs, ends in its next pass,
    and when it waits is awake and either ends or makes a last pass.  The inbound thread
    ends within a number of its own steps that is known in advance, whatever the others do
    meanwhile, as long as the library sends a bounded number of messages in a call; until
    then it can always make a step, unless it is in a call of the library that waits for
    room in the outbound queue of high priority.  Messages of low priority that are queued
    when the last pass of either thread begins are not handled. *)
Theorem stop_ends_threads n σ now b :
  callback_queue n = ConsensusQueues_default → rtc sys_step (System_new n) σ →
  stopping σ = Some [] →
  let fo := outbound_handler now in
  (out_thread σ = Loops →
     let r := queue_round outbound fo (sys_node σ) in
     ended (after_pass r.1)
     ∧ (after_pass r.1 = Broke → low r.2 outbound = low (sys_node σ) outbound))
  ∧ (out_thread σ = Waits →
     let p := after_pass (queue_select b outbound fo (sys_node σ)).1 in ended p ∨ p = Loops)
  ∧ (∀ bound k σ', in_runs bound k σ σ' → in_budget bound σ ≤ k → in_ended (in_thread σ'))
  ∧ (in_ended (in_thread σ) ∨ awaits_room σ ∨ ∃ σ', in_step 0 σ σ')
  ∧ (in_thread σ = InLoops → ∀ bound k σ', in_runs bound k σ σ' →
     low (sys_node σ) inbound `prefix_of` low (sys_node σ') inbound).
Proof.
  intros Hq Hr Hss fo. pose proof (sys_reachable_ok _ _ Hq Hr) as Hok.
  pose proof Hok as [(_ & _ & B3 & _) _ Ho Hi].
  specialize (Ho [] Hss ltac:(simpl; lia)). specialize (Hi [] Hss ltac:(simpl; lia)).
  assert (∀ p P, (p = Loops ∨ p = Waits) → ended p ∨ P → P) as Hor by (intros p P [-> | ->] [[]|]; done).
  split_and!.
  - intros Hp. apply (queue_round_stops outbound fo); [apply outbound_handler_same_queues|done|].
    eapply Hor; [|apply Ho]. auto.
  - intros Hp. assert (Stop ∈ high (sys_node σ) outbound) as Hin by (eapply Hor; [|apply Ho]; auto).
    pose proof (queue_select_stops outbound fo (outbound_handler_same_queues now) b (sys_node σ) Hin)
      as [|[? _]]; auto.
  - intros bound k σ' Hruns. by apply (in_budget_ends bound).
  - destruct Hi as [|Hin]; [by left|]. by apply in_progress.
  - intros Ht bound k σ' Hruns. eapply low_never_taken; [done..|].
    rewrite Ht in *. destruct Hi as [[]|Hin]; [done..|]. left. auto.
Qed.

(** ** Waits that never end *)

(** The outbound thread has ended and its queue of high priority is full. *)
Definition outbound_dead (σ : System) : Prop :=
  out_thread σ = Broke
  ∧ length (outbound_high (callback_queue (sys_node σ))) = Z.to_nat CONSENSUS_QUEUE_DEPTH_OUT_HI.

Lemma send_full {A} cap (x : A) q : length q = Z.to_nat cap → send cap x q = None.
Proof. intros Hlen. unfold send. case_decide; [lia|done]. Qed.

Lemma send_out_full x σ :
  outbound_dead σ → send_high outbound x (callback_queue (sys_node σ)) = None.
Proof. intros [_ Hlen]. unfold send_high. simpl. by rewrite send_full. Qed.

Lemma outbound_dead_step σ σ' :
  sys_step σ σ' → outbound_dead σ → stopping σ ≠ None →
  (∀ s ss, stopping σ = Some (s :: ss) → s = send_high outbound Stop) →
  outbound_dead σ' ∧ stopping σ' = stopping σ.
Proof.
  intros Hstep Hd Hs0 Hs. pose proof Hd as [Hp Hlen].
  destruct Hstep as [[bound [now sample cs sends b t n' _ Hn]]|Hstep].
  { split; [|done]. split; [done|]. cbn [sys_node].
    destruct (in_next_queues _ _ _ _ _ _ _ (inbound_handler_same_queues now sample cs) Hn) as [Hq|[x Hq]].
    - apply in_shrinks_out in Hq. unfold high in Hq. simpl in Hq. by rewrite Hq.
    - unfold send_out_blocking_msg in Hq. by rewrite send_out_full in Hq. }
  destruct Hstep as [now Ho|now b Ho|m|m|m|m q Hq|Hn|s ss q Hss Hq|n' Hn]; try congruence.
  5: { exfalso. rewrite (Hs _ _ Hss) in Hq. by rewrite send_out_full in Hq. }
  all: split; [split; [done|]|done]; cbn [sys_node with_queue].
  - unfold send_in_high_priority_message. by destruct (try_send _ _ _).
  - unfold send_in_low_priority_message. by destruct (try_send _ _ _).
  - unfold send_out_message. by destruct (try_send _ _ _).
  - exfalso. unfold send_out_blocking_msg in Hq. by rewrite send_out_full in Hq.
  - by rewrite Hn.
Qed.

(** A pass that finds nothing but a stop message, of low or of high priority. *)
Lemma queue_round_low_stop l f n lo :
  high n l = [] → low n l = Stop :: lo → (0 < lane_depth_high l)%Z →
  queue_round l f n = (Ok Broke, with_lane l [] lo (update_sizes l n)).
Proof.
  intros Hhi Hlo Hd. unfold queue_round. rewrite bind_modify.
  destruct (Z.to_nat (lane_depth_high l)) as [|k] eqn:Hk; [lia|]. cbn [drain_high].
  change (high n l) with (high (update_sizes l n) l) in Hhi.
  change (low n l) with (low (update_sizes l n) l) in Hlo.
  rewrite ST_bind_assoc, bind_get, Hhi, bind_mret, bind_get, Hlo, Hhi. done.
Qed.

Lemma queue_round_high_stop l f n hi :
  high n l = Stop :: hi → (0 < lane_depth_high l)%Z →
  queue_round l f n = (Ok Broke, with_lane l hi (low n l) (update_sizes l n)).
Proof.
  intros Hhi Hd. unfold queue_round. rewrite bind_modify.
  destruct (Z.to_nat (lane_depth_high l)) as [|k] eqn:Hk; [lia|]. cbn [drain_high].
  change (high n l) with (high (update_sizes l n) l) in Hhi.
  rewrite ST_bind_assoc, bind_get, Hhi. done.
Qed.

(** Consensus may send messages as long as there is room. *)
Lemma fill_outbound (m : ConsensusMessage) k σ :
  length (outbound_high (callback_queue (sys_node σ))) + k = Z.to_nat CONSENSUS_QUEUE_DEPTH_OUT_HI →
  ∃ σ', rtc sys_step σ σ' ∧ in_thread σ' = in_thread σ ∧ out_thread σ' = out_thread σ
    ∧ stopping σ' = stopping σ
    ∧ length (outbound_high (callback_queue (sys_node σ'))) = Z.to_nat CONSENSUS_QUEUE_DEPTH_OUT_HI.
Proof.
  revert σ. induction k as [|k IH]; intros σ Hlen; [exists σ; do 4 (split; [done|]); lia|].
  set (q := callback_queue (sys_node σ)) in *.
  set (q' := lane_set outbound (outbound_high q ++ [Relay m]) (outbound_low q) q).
  destruct (IH (with_queue q' σ)) as (σ' & Hr & Hi & Ho & Hs & Hl).
  { unfold q'. simpl. rewrite length_app. simpl. lia. }
  exists σ'. split; [|done]. eapply rtc_l; [|exact Hr]. right. apply (sys_out_high _ m). fold q.
  unfold send_out_blocking_msg, send_high, send. cbn [lane_high lane_depth_high outbound].
  rewrite decide_True by lia. done.
Qed.

Definition a_block : ConsensusMessage := MkConsensusMessage (Outbound None) Block [0%Z] [] None.

(** [close] may wait forever: the outbound thread ends at the stop message of
    low priority, which is sent first; if consensus then fills the queue of high
    priority, nobody makes room for the second stop message, so that the
    remaining stop messages are never sent. *)
Theorem close_can_hang n :
  callback_queue n = ConsensusQueues_default →
  ∃ σ, rtc sys_step (System_new n) σ ∧ is_Some (stopping σ)
    ∧ ∀ σ', rtc sys_step σ σ' → stopping σ' = stopping σ ∧ stopping σ' ≠ Some [].
Proof.
  intros Hq. set (q1 := MkConsensusQueues [] [] [] [Stop]).
  set (σ1 := MkSystem n InLoops Loops (Some ConsensusQueues_stop)).
  set (σ2 := MkSystem (with_callback_queue q1 n) InLoops Loops (Some (tail ConsensusQueues_stop))).
  assert (rtc sys_step (System_new n) σ2) as H2.
  { eapply rtc_l; [by right; apply sys_close|]. apply rtc_once. right.
    eapply (sys_stop σ1 _ _ q1); [done|]. simpl. by rewrite Hq. }
  pose proof (queue_round_low_stop outbound (outbound_handler 0) (sys_node σ2) [] eq_refl eq_refl
    eq_refl) as Hround.
  pose proof (sys_out_round σ2 0%Z eq_refl) as H3. rewrite Hround in H3.
  set (σ3 := out_pass _ σ2) in H3.
  destruct (fill_outbound a_block (Z.to_nat CONSENSUS_QUEUE_DEPTH_OUT_HI) σ3)
    as (σ & Hr & _ & Ho & Hs & Hl); [done|].
  exists σ. split; [etrans; [eapply rtc_r; [exact H2|by right]|exact Hr]|]. split; [by rewrite Hs|].
  assert (outbound_dead σ ∧ stopping σ = Some (tail ConsensusQueues_stop)) as Hd by (rewrite Hs; done).
  clear -Hd. intros σ' Hr. assert (outbound_dead σ' ∧ stopping σ' = Some (tail ConsensusQueues_stop))
    as [_ ->]; [|by rewrite (proj2 Hd)].
  induction Hr as [|σ1 σ2 σ3 Hstep _ IH]; [done|]. apply IH. destruct Hd as [Hd Hs].
  destruct (outbound_dead_step _ _ Hstep Hd) as [? ->]; [by rewrite Hs|rewrite Hs; by intros ?? [= <- _]|done].
Qed.

Lemma call_waits_forever σ σ' t m x out next :
  t = InCall m (x :: out) next →
  outbound_dead σ ∧ stopping σ = Some [] ∧ in_thread σ = t → rtc sys_step σ σ' → in_thread σ' = t.
Proof.
  intros Ht Hd Hr. induction Hr as [|σ1 σ2 σ3 Hstep _ IH]; [by apply Hd|]. apply IH.
  destruct Hd as (Hd & Hs & Hi). destruct (outbound_dead_step _ _ Hstep Hd) as [Hd2 ->];
    [by rewrite Hs|by rewrite Hs|]. split; [done|]. split; [done|].
  destruct Hstep as [[bound [now sample cs sends b t' n' _ Hn]]|Hstep].
  - rewrite Hi, Ht in Hn. cbn [in_next] in Hn. unfold send_out_blocking_msg in Hn.
    by rewrite send_out_full in Hn.
  - by destruct Hstep.
Qed.

(** C34: the inbound thread may wait forever, and with it the main thread, which joins it: it is
    in a call of the library for a message of the network, for example the catch-up status
    of a peer, when the queues are stopped; the outbound thread ends at its stop message;
    when consensus has then filled the outbound queue of high priority, nobody makes room
    for the message that the call has to send. *)
Theorem inbound_can_hang n m x :
  callback_queue n = ConsensusQueues_default →
  ∃ σ, rtc sys_step (System_new n) σ ∧ stopping σ = Some []
    ∧ in_thread σ = InCall m [x] (InDrain (pred (Z.to_nat CONSENSUS_QUEUE_DEPTH_IN_HI)))
    ∧ ∀ σ', rtc sys_step σ σ' → in_thread σ' = in_thread σ.
Proof.
  intros Hq. set (t := InCall m [x] (InDrain (pred (Z.to_nat CONSENSUS_QUEUE_DEPTH_IN_HI)))).
  set (n1 := with_callback_queue (MkConsensusQueues [Relay m] [] [] []) n).
  set (n2 := update_sizes inbound n1). set (n3 := with_lane inbound [] [] n2).
  assert (rtc sys_step (System_new n) (MkSystem n3 t Loops None)) as H1.
  { eapply (rtc_l _ _ (MkSystem n1 InLoops Loops None)).
    { right. pose proof (sys_in_high (System_new n) m) as H1. unfold with_queue in H1.
      cbn [System_new sys_node in_thread out_thread stopping] in H1. by rewrite Hq in H1. }
    eapply (rtc_l _ _ (MkSystem n2 (InDrain (Z.to_nat CONSENSUS_QUEUE_DEPTH_IN_HI)) Loops None)).
    - left. exists 1. by apply (MkInStep 1 (MkSystem n1 InLoops Loops None) 0 (λ _, Ok false)
        QueueExample.accepting (λ _, [x]) true).
    - apply rtc_once. left. exists 1.
      apply (MkInStep 1 (MkSystem n2 (InDrain (Z.to_nat CONSENSUS_QUEUE_DEPTH_IN_HI)) Loops None)
        0 (λ _, Ok false) QueueExample.accepting (λ _, [x]) true); [done|]. cbn [in_thread sys_node].
      unfold t. destruct (Z.to_nat CONSENSUS_QUEUE_DEPTH_IN_HI) as [|k] eqn:E; [|done].
      by apply (f_equal Z.of_nat) in E. }
  set (n4 := with_callback_queue (MkConsensusQueues [Stop] [Stop] [Stop] [Stop]) n3).
  assert (rtc sys_step (MkSystem n3 t Loops None) (MkSystem n4 t Loops (Some []))) as H2.
  { eapply rtc_l; [by right; apply sys_close|].
    do 3 (eapply rtc_l; [right; eapply sys_stop; [done|reflexivity]|]). apply rtc_once. right.
    by apply (sys_stop (MkSystem (with_callback_queue (MkConsensusQueues [] [Stop] [Stop] [Stop]) n3)
      t Loops (Some [send_high inbound Stop])) (send_high inbound Stop)). }
  pose proof (sys_out_round (MkSystem n4 t Loops (Some [])) 0%Z eq_refl) as H3.
  cbn [sys_node] in H3.
  rewrite (queue_round_high_stop outbound (outbound_handler 0) n4 [] eq_refl eq_refl) in H3.
  set (σ3 := out_pass _ _) in H3.
  destruct (fill_outbound a_block (Z.to_nat CONSENSUS_QUEUE_DEPTH_OUT_HI) σ3)
    as (σ & Hr & Hi & Ho & Hs & Hl); [done|].
  exists σ. split; [etrans; [exact H1|]; etrans; [exact H2|]; eapply rtc_l; [by right|exact Hr]|].
  split; [by rewrite Hs|]. split; [by rewrite Hi|]. clear H1 H2 H3 Hr.
  assert (outbound_dead σ ∧ stopping σ = Some [] ∧ in_thread σ = t) as Hd by (rewrite Hs, Hi; done).
  clear -Hd. intros σ' Hr. rewrite (proj2 (proj2 Hd)). by eapply (call_waits_forever σ σ').
Qed.
End system.

(** *** Witnesses *)

Module SystemExample.
Import NodeExample.

Lemma close_can_hang_witness :
  ∃ σ, rtc sys_step (System_new node3) σ ∧ is_Some (stopping σ)
    ∧ ∀ σ', rtc sys_step σ σ' → stopping σ' = stopping σ ∧ stopping σ' ≠ Some [].
Proof. apply (close_can_hang node3). reflexivity. Defined.

(** A peer has sent its catch-up status and is to be answered with a block. *)
Definition catch_up : ConsensusMessage :=
  MkConsensusMessage (Inbound (MkRemotePeerId 1) DistDirect) CatchUpStatus [4; 0; 0; 0; 0; 7]%Z [] None.
Definition answer : ConsensusMessage :=
  MkConsensusMessage (Outbound (Some (MkRemotePeerId 1))) Block [0; 0; 0; 0; 0; 9]%Z [] None.

Lemma inbound_can_hang_witness :
  ∃ σ, rtc sys_step (System_new node3) σ ∧ stopping σ = Some []
    ∧ in_thread σ = InCall catch_up [answer] (InDrain (pred (Z.to_nat CONSENSUS_QUEUE_DEPTH_IN_HI)))
    ∧ ∀ σ', rtc sys_step σ σ' → in_thread σ' = in_thread σ.
Proof. apply (inbound_can_hang node3 catch_up answer). reflexivity. Defined.

(** The node right after its queues were stopped. *)
Definition told_to_stop : System :=
  MkSystem (with_callback_queue (MkConsensusQueues [Stop] [Stop] [Stop] [Stop]) node3)
    InLoops Loops (Some []).

Lemma reaches_told : rtc sys_step (System_new node3) told_to_stop.
Proof.
  eapply rtc_l; [by right; apply sys_close|].
  do 3 (eapply rtc_l; [by right; eapply sys_stop|]).
  apply rtc_once. right. apply (sys_stop (MkSystem (with_callback_queue
    (MkConsensusQueues [] [Stop] [Stop] [Stop]) node3) InLoops Loops
    (Some [send_high inbound Stop])) (send_high inbound Stop)); reflexivity.
Qed.

(** The outbound thread ends in its next pass, the inbound one after two steps. *)
Lemma stop_ends_threads_witness :
  ended (after_pass (queue_round outbound (outbound_handler 5) (sys_node told_to_stop)).1)
  ∧ in_budget 0 told_to_stop = 2
  ∧ ∀ σ', in_runs 0 2 told_to_stop σ' → in_ended (in_thread σ').
Proof.
  destruct (stop_ends_threads node3 told_to_stop 5%Z true eq_refl reaches_told eq_refl)
    as (Ho & _ & Hi & _).
  split; [exact (proj1 (Ho eq_refl))|]. split; [reflexivity|].
  intros σ' Hr. apply (Hi 0 2 σ' Hr). reflexivity.
Defined.
End SystemExample.
