(* ===== verification/OutOfBand.v ===== *)
(** * Out-of-band catch-up

    Models [maybe_do_out_of_band_catchup], [import_missing_blocks] and
    [download_chunk] of [concordium-node/src/bin/cli.rs], and [import_blocks] of
    [consensus_ffi/ffi.rs].  The HTTP client, temporary files, the CSV reader,
    URLs and the import of consensus are parameters that act on a state of the
    world. *)
From S2P Require Import Prelude.
From S2P Require Import Text.
From S2P Require Import FfiHelpers.
From S2P Require Import NodeState.
From S2P Require Import Connectivity.

(** The result of a fallible call as a value; a panic is not caught. *)
Definition st_result {S A} (m : ST S A) : ST S (outcome A) := λ s,
  match m s with
  | (Panic msg, s') => (Panic msg, s')
  | (r, s') => (Ok r, s')
  end.

(** ** The surroundings *)

Record BlockChunkData := MkBlockChunkData {
  filename : text;
  genesis_index : Z;
  first_block_height : u64;
  last_block_height : u64;
}.

(** A response of an HTTP server; the body is read as text or as a stream that may
    fail. *)
Record Response := MkResponse {
  is_success : bool;
  canonical_reason : option text;
  resp_text : outcome text;
  bytes_stream : list (outcome bytes);
}.

(** What blocks are imported from: a file of the user or a downloaded one. *)
Inductive Source := LocalFile (path : text) | Downloaded (contents : bytes).

Class ImportEnv := {
  world : Type;
  url : Type;
  hash : Type;
  hash_to_string : hash → text;
  url_join : url → text → outcome url;
  read_csv : text → list (outcome BlockChunkData);
  build_client : ST world unit;
  http_get : url → ST world Response;
  temp_create : ST world unit;
  temp_write : bytes → ST world unit;
  temp_flush : ST world unit;
  temp_close : ST world unit;
  importBlocks : Source → world → i64 * world;
  getLastFinalizedBlockHeight : world → u64;
  import_stopped : world → bool;
}.

Section catchup.
Context `{!ImportEnv}.

Abbreviation W := (ST world) (only parsing).

(** [ConsensusContainer::import_blocks] *)
Definition import_blocks (src : Source) : W unit := λ w,
  let '(response, w) := importBlocks src w in
  (r ← ConsensusFfiResponse_try_from response;
   match r with
   | Success => Ok tt
   | _ => bail "Error during block import"
   end, w).

(** [anyhow::ensure!(response.status().is_success(), ..)], whose message unwraps the
    reason of the status. *)
Definition ensure_success (r : Response) : outcome unit :=
  if is_success r then Ok tt
  else match canonical_reason r with
       | Some _ => bail "Unable to download"
       | None => Panic "called `Option::unwrap()` on a `None` value"
       end.

(** ** Downloading a chunk *)

(** [while let Some(Ok(bytes)) = stream.next().await]: what was written. *)
Fixpoint write_stream (stream : list (outcome bytes)) : W bytes :=
  match stream with
  | Ok bs :: stream =>
    temp_write bs ;;
    rest ← write_stream stream;
    mret (bs ++ rest)
  | _ => mret []
  end.

Definition download_chunk (u : url) : W bytes :=
  temp_create ;;
  r ← http_get u;
  st_lift (ensure_success r) ;;
  contents ← write_stream (bytes_stream r);
  temp_flush ;;
  mret contents.

(** ** The index *)

Definition GENESIS_PREFIX : text := of_string "# genesis hash ".

(** The genesis block hash that the first line of the index names. *)
Definition index_genesis_block_hash (index_str : text) : outcome text :=
  line ← context "The catchup index file was empty." (head (lines index_str));
  h ← context "The catchup index file does not begin with a line containing the genesis block hash."
        (strip_prefix GENESIS_PREFIX line);
  Ok (trim h).

(** A chunk without blocks above the last finalized one. *)
Definition skippable (current_genesis_index : u64) (last_finalized : u64) (c : BlockChunkData) : bool :=
  bool_decide (genesis_index c < current_genesis_index)%Z
  || bool_decide (last_block_height c ≤ last_finalized)%Z.

Definition import_chunk (index_url : url) (c : BlockChunkData) : W unit :=
  u ← st_lift (url_join index_url (filename c));
  contents ← download_chunk u;
  import_result ← st_result (import_blocks (Downloaded contents));
  st_try temp_close ;;
  st_lift import_result.

Fixpoint chunk_loop (index_url : url) (current_genesis_index last_finalized : u64) (mayskip : bool)
    (results : list (outcome BlockChunkData)) : W unit :=
  match results with
  | [] => mret tt
  | result :: results =>
    w ← st_get;
    st_lift (ensure (negb (import_stopped w)) "Import stopped by the user.") ;;
    c ← st_lift result;
    if mayskip && skippable current_genesis_index last_finalized c
    then chunk_loop index_url current_genesis_index last_finalized mayskip results
    else
      import_chunk index_url c ;;
      chunk_loop index_url current_genesis_index last_finalized false results
  end.

(** [import_missing_blocks]; the subtraction wraps around. *)
Definition import_missing_blocks (genesis_block_hashes : list hash) (index_url : url) : W unit :=
  let current_genesis_index := u64_sub (Z.of_nat (length genesis_block_hashes)) 1 in
  w ← st_get;
  let last_finalized := getLastFinalizedBlockHeight w in
  build_client ;;
  index_response ← http_get index_url;
  st_lift (ensure_success index_response) ;;
  index_str ← st_lift (resp_text index_response);
  index_hash ← st_lift (index_genesis_block_hash index_str);
  genesis_hash ← st_lift (match genesis_block_hashes with
                          | h :: _ => Ok (hash_to_string h)
                          | [] => Panic "index out of bounds"
                          end);
  st_lift (ensure (bool_decide (index_hash = genesis_hash))
             "The genesis block hash in the catchup index file does not match") ;;
  chunk_loop index_url current_genesis_index last_finalized true (read_csv index_str).

(** [maybe_do_out_of_band_catchup]: errors are only logged. *)
Definition maybe_do_out_of_band_catchup (regenesis_blocks : list hash)
    (import_blocks_from : option text) (download_blocks_from : option url) : W unit :=
  match import_blocks_from, download_blocks_from with
  | Some path, _ => st_try (import_blocks (LocalFile path))
  | None, Some u => st_try (import_missing_blocks regenesis_blocks u)
  | None, None => mret tt
  end.

(** ** Which chunks are imported *)

(** An index that starts with the line the exporter writes. *)
Lemma index_hash_written h rest :
  Forall (λ c, is_whitespace c = false) h →
  index_genesis_block_hash (GENESIS_PREFIX ++ h ++ 10%Z :: rest) = Ok h.
Proof.
  intros Hh. unfold index_genesis_block_hash. rewrite app_assoc, lines_first.
  - cbn [head context mbind outcome_bind]. rewrite strip_prefix_app.
    cbn [context mbind outcome_bind]. by rewrite trim_no_whitespace.
  - apply Forall_app. split; [apply (bool_decide_unpack _); by vm_compute|].
    eapply Forall_impl; [exact Hh|]. intros c Hc. split; intros ->; vm_compute in Hc; done.
Qed.

(** A check for the flag that stops the import, and the import of a chunk. *)
Definition import_unless_stopped (index_url : url) (c : BlockChunkData) : W unit :=
  w ← st_get;
  st_lift (ensure (negb (import_stopped w)) "Import stopped by the user.") ;;
  import_chunk index_url c.

Lemma chunk_loop_all u cur last cs w :
  chunk_loop u cur last false (Ok <$> cs) w = st_for cs (import_unless_stopped u) w.
Proof.
  revert w. induction cs as [|c cs IH]; intros w; [done|]. csimpl. cbn [chunk_loop st_for].
  rewrite bind_get. change (import_unless_stopped u c) with (w ← st_get;
    st_lift (ensure (negb (import_stopped w)) "Import stopped by the user.") ;; import_chunk u c).
  rewrite ST_bind_assoc, bind_get, ST_bind_assoc.
  unfold mbind, ST_bind, st_lift. destruct (ensure _ _); [|done..]. simpl.
  destruct (import_chunk u c w) as [[] ?]; [|done..]. apply IH.
Qed.

Lemma chunk_loop_skips u cur last cs w :
  import_stopped w = false →
  chunk_loop u cur last true (Ok <$> cs) w
  = st_for (drop_while (skippable cur last) cs) (import_unless_stopped u) w.
Proof.
  intros Hw. induction cs as [|c cs IH]; [done|]. csimpl. cbn [chunk_loop drop_while].
  destruct (skippable cur last c) eqn:Hc.
  - rewrite bind_get, Hw. simpl. unfold mbind, ST_bind, st_lift. simpl. rewrite Hc. apply IH.
  - rewrite <-(chunk_loop_all u cur last (c :: cs)). csimpl. cbn [chunk_loop].
    rewrite !bind_get, Hw. unfold mbind, ST_bind, st_lift. simpl. by rewrite Hc.
Qed.

(** The index, as it was downloaded at a time when the import had not been
    stopped. *)
Definition downloads_index (u : url) (index_str : text) (w w' : world) : Prop :=
  ∃ w1 r, build_client w = (Ok tt, w1) ∧ http_get u w1 = (Ok r, w')
    ∧ is_success r = true ∧ resp_text r = Ok index_str ∧ import_stopped w' = false.

(** Blocks are imported only from an index for the chain of the node: when
    its first line names another genesis block the import fails and nothing
    is imported.  Otherwise chunks are imported in the order of the index, from
    the first chunk that cannot be skipped to the end or the first failure; all
    chunks before it have no block above the last finalized one, and any chunk
    of the current genesis with such blocks is imported. *)
Theorem import_missing_blocks_spec h hs u index_str cs w w' :
  downloads_index u index_str w w' → read_csv index_str = Ok <$> cs →
  fits 64 (Z.of_nat (length (h :: hs))) →
  let last := getLastFinalizedBlockHeight w in
  if decide (index_genesis_block_hash index_str = Ok (hash_to_string h)) then
    ∃ skipped imported, cs = skipped ++ imported
      ∧ import_missing_blocks (h :: hs) u w = st_for imported (import_unless_stopped u) w'
      ∧ Forall (λ c, genesis_index c < Z.of_nat (length hs) ∨ last_block_height c ≤ last)%Z skipped
      ∧ ∀ c, c ∈ cs → genesis_index c = Z.of_nat (length hs) → (last < last_block_height c)%Z →
          c ∈ imported
  else ∃ e, import_missing_blocks (h :: hs) u w = (e, w') ∧ is_ok e = false.
Proof.
  intros (w1 & r & Hb & Hg & Hs & Ht & Hstop) Hcsv Hfit last.
  assert (∀ f : unit → W unit, (st_lift (ensure_success r) ≫= f) w' = f tt w') as Hsucc.
  { intros f. unfold ensure_success. by rewrite Hs. }
  unfold import_missing_blocks. rewrite bind_get.
  rewrite (ST_bind_ok _ _ _ _ _ Hb), (ST_bind_ok _ _ _ _ _ Hg), Hsucc, (bind_lift _ _ _ _ Ht).
  case_decide as Hhash.
  2: { destruct (index_genesis_block_hash index_str) as [t|e|e]; [|by eexists..].
       rewrite (bind_lift _ t), (bind_lift _ (hash_to_string h)), bool_decide_false by congruence.
       by eexists. }
  rewrite (bind_lift _ _ _ _ Hhash), (bind_lift _ (hash_to_string h)), bool_decide_true by done.
  rewrite (bind_lift _ tt) by done. rewrite Hcsv, chunk_loop_skips by done.
  replace (u64_sub _ 1) with (Z.of_nat (length hs)).
  2: { cbn [length] in *. rewrite u64_sub_small by (unfold fits in *; lia). lia. }
  destruct (drop_while_split (skippable (Z.of_nat (length hs)) last) cs) as (pre & Hcs & Hpre & _).
  set (imported := drop_while _ _) in *.
  assert (Forall (λ c, genesis_index c < Z.of_nat (length hs) ∨ last_block_height c ≤ last)%Z pre)
    as Hskip.
  { eapply Forall_impl; [exact Hpre|]. intros c Hc. unfold skippable in Hc. simpl in Hc.
    apply orb_true_iff in Hc as [Hc%bool_decide_eq_true|Hc%bool_decide_eq_true]; auto. }
  exists pre, imported. do 3 (split; [done|]).
  intros c Hc Hi Hh. rewrite Hcs in Hc. apply elem_of_app in Hc as [Hc|]; [|done].
  rewrite Forall_forall in Hskip. destruct (Hskip c Hc); lia.
Qed.

(** Heights are relative to the genesis of their chunk, but are compared across
    genesis blocks: when no chunk before needs to be imported, a chunk of a later
    genesis is skipped if its heights do not exceed the height of the last
    finalized block of the current one, and all its blocks are left out. *)
Theorem later_genesis_chunk_skipped u cur last pre c w :
  import_stopped w = false → Forall (λ c, skippable cur last c = true) pre →
  (cur < genesis_index c)%Z → (last_block_height c ≤ last)%Z →
  chunk_loop u cur last true (Ok <$> (pre ++ [c])) w = (Ok tt, w).
Proof.
  intros Hw Hpre _ Hh. rewrite chunk_loop_skips by done.
  assert (skippable cur last c = true) as Hc.
  { unfold skippable. apply orb_true_iff. right. by apply bool_decide_eq_true. }
  replace (drop_while _ _) with (@nil BlockChunkData); [done|].
  induction Hpre as [|x pre Hx _ IH]; simpl; [by rewrite Hc|by rewrite Hx].
Qed.

(** A download that breaks off is taken for a complete one: the stream that
    fails after some data is written like the stream that ends there, so that
    the truncated file is imported. *)
Theorem truncated_download_accepted bss e rest w :
  write_stream ((Ok <$> bss) ++ Err e :: rest) w = write_stream (Ok <$> bss) w.
Proof.
  revert w. induction bss as [|bs bss IH]; intros w; [done|]. csimpl. cbn [write_stream].
  unfold mbind, ST_bind. destruct (temp_write bs w) as [[] w1]; [|done..]. by rewrite IH.
Qed.
End catchup.

(** *** Witnesses: a server with an index and two chunks *)

Module CatchupExample.

(** The world is the list of imports; the index is at address 0, the chunks at
    addresses 1 and 2. *)
Definition index : text := GENESIS_PREFIX ++ of_string "ab" ++ [10%Z].
Definition chunk (i : nat) (g h : Z) : BlockChunkData := MkBlockChunkData [Z.of_nat i] g 0 h.
Definition chunks : list BlockChunkData := [chunk 1 0 500; chunk 2 0 1000].

#[local] Instance server : ImportEnv := {|
  world := list Source;
  url := nat;
  hash := nat;
  hash_to_string _ := of_string "ab";
  url_join _ name := match name with [i] => Ok (Z.to_nat i) | _ => bail "invalid URL" end;
  read_csv _ := Ok <$> chunks;
  build_client := mret tt;
  http_get u := mret (MkResponse true None (Ok (if decide (u = 0) then index else []))
                        [Ok [Z.of_nat u]]);
  temp_create := mret tt;
  temp_write _ := mret tt;
  temp_flush := mret tt;
  temp_close := mret tt;
  importBlocks src w := (0%Z, w ++ [src]);
  getLastFinalizedBlockHeight _ := 600%Z;
  import_stopped _ := false;
|}.

Lemma import_missing_blocks_spec_witness :
  (∃ skipped imported, chunks = skipped ++ imported
    ∧ @import_missing_blocks server [7] 0 [] = st_for imported (@import_unless_stopped server 0) []
    ∧ Forall (λ c, genesis_index c < 0 ∨ last_block_height c ≤ 600)%Z skipped
    ∧ ∀ c, c ∈ chunks → genesis_index c = 0%Z → (600 < last_block_height c)%Z → c ∈ imported)
  ∧ @import_missing_blocks server [7] 0 [] = (Ok tt, [Downloaded [2%Z]]).
Proof.
  split; [|vm_compute; reflexivity].
  apply (@import_missing_blocks_spec server 7 [] 0 index chunks [] []).
  - exists [], (MkResponse true None (Ok index) [Ok [0%Z]]). vm_compute. auto.
  - reflexivity.
  - vm_compute. split; [discriminate|reflexivity].
Defined.

Lemma later_genesis_chunk_skipped_witness :
  @chunk_loop server 0 0 600 true (Ok <$> [chunk 1 0 500; chunk 2 1 300]) [] = (Ok tt, []).
Proof.
  apply (@later_genesis_chunk_skipped server 0 0 600 [chunk 1 0 500] (chunk 2 1 300) []).
  - reflexivity.
  - repeat constructor.
  - reflexivity.
  - vm_compute. discriminate.
Defined.
End CatchupExample.
