(* ===== verification/Container.v ===== *)
(** * The consensus container

    Models [ConsensusContainer] of [concordium-node/src/consensus_ffi/consensus.rs],
    the handle to the consensus library.  The calls into the library are
    recorded in the order they are made; whether a call blocks or fails inside
    the library is not part of the model. *)
From S2P Require Import Prelude.
From S2P Require Import NodeState.
From S2P Require Import QueueThreads.

Inductive ConsensusLogLevel := LError | LWarning | LInfo | LDebug | LTrace.

(** [TryFrom<u8>]: every other value means [Trace]. *)
Definition ConsensusLogLevel_try_from (value : u8) : outcome ConsensusLogLevel :=
  Ok (match value with
      | 1 => LError
      | 2 => LWarning
      | 3 => LInfo
      | 4 => LDebug
      | _ => LTrace
      end)%Z.

Inductive ConsensusType := Active | Passive.

#[global] Instance ConsensusType_eq_dec : EqDecision ConsensusType.
Proof. solve_decision. Defined.

(** Calls of the foreign function interface. *)
Inductive Call := startBaker | stopBaker | stopConsensus.

Record ConsensusContainer := MkContainer {
  consensus_type : ConsensusType;
  baking : bool;
  calls : list Call;
}.

(** [ConsensusContainer::new]: the consensus pointer may be refused. *)
Definition ConsensusContainer_new (get_consensus_ptr : outcome unit) (private_data : option bytes) :
    outcome ConsensusContainer :=
  let consensus_type := match private_data with Some _ => Active | None => Passive end in
  get_consensus_ptr ;;
  Ok (MkContainer consensus_type false []).

Definition is_active (c : ConsensusContainer) : bool := bool_decide (consensus_type c = Active).

Definition start_baker (c : ConsensusContainer) : bool * ConsensusContainer :=
  if negb (is_active c) || baking c then (false, c)
  else (true, MkContainer (consensus_type c) true (calls c ++ [startBaker])).

Definition stop_baker (c : ConsensusContainer) : bool * ConsensusContainer :=
  if negb (is_active c) || negb (baking c) then (false, c)
  else (true, MkContainer (consensus_type c) false (calls c ++ [stopBaker])).

(** [ConsensusContainer::stop] also empties the queues of the threads that have
    ended. *)
Definition container_stop (p_in p_out : Progress) (c : ConsensusContainer) (q : ConsensusQueues) :
    ConsensusContainer * ConsensusQueues :=
  let c := (stop_baker c).2 in
  (MkContainer (consensus_type c) (baking c) (calls c ++ [stopConsensus]),
   ConsensusQueues_clear p_in p_out q).

(** ** The baker is started and stopped in turns *)

Inductive Op := OpStartBaker | OpStopBaker | OpStop.

Definition run_op (o : Op) (c : ConsensusContainer) : ConsensusContainer :=
  match o with
  | OpStartBaker => (start_baker c).2
  | OpStopBaker => (stop_baker c).2
  | OpStop => (container_stop Broke Broke c ConsensusQueues_default).1
  end.

(** Whether the library bakes after these calls; [None] when a baker was started
    twice, stopped while there was none, or was running when the library was
    stopped. *)
Fixpoint bakes (cs : list Call) (baking : bool) : option bool :=
  match cs with
  | [] => Some baking
  | startBaker :: cs => if baking then None else bakes cs true
  | stopBaker :: cs => if baking then bakes cs false else None
  | stopConsensus :: cs => if baking then None else bakes cs baking
  end.

Lemma bakes_app cs cs' b : bakes (cs ++ cs') b = (b' ← bakes cs b; bakes cs' b').
Proof.
  revert b. induction cs as [|[] cs IH]; intros b; simpl; [done|..]; by destruct b; simpl.
Qed.

Record container_ok (c : ConsensusContainer) : Prop := {
  co_bakes : bakes (calls c) false = Some (baking c);
  co_active : baking c = true → consensus_type c = Active;
  co_passive : consensus_type c = Passive → startBaker ∉ calls c;
}.

Lemma start_baker_ok c : container_ok c → container_ok (start_baker c).2.
Proof.
  intros Hok. pose proof Hok as [Hb Ha Hp]. unfold start_baker, is_active.
  case_bool_decide as Ht; simpl; [|done]. destruct (baking c) eqn:Hc; [done|].
  split; simpl; [|done|congruence]. by rewrite bakes_app, Hb.
Qed.

Lemma stop_baker_ok c : container_ok c → container_ok (stop_baker c).2 ∧ baking (stop_baker c).2 = false.
Proof.
  intros Hok. pose proof Hok as [Hb Ha Hp]. unfold stop_baker, is_active.
  case_bool_decide as Ht; simpl; destruct (baking c) eqn:Hc; try (by exfalso; auto); [|done..].
  split; [|done]. split; simpl; [|done|congruence]. by rewrite bakes_app, Hb.
Qed.

Lemma run_op_ok o c : container_ok c → container_ok (run_op o c).
Proof.
  intros Hc. destruct o; simpl; [by apply start_baker_ok|by apply stop_baker_ok|].
  destruct (stop_baker_ok c Hc) as [[Hb Ha Hp] Hn]. split; simpl; [|done|].
  - by rewrite bakes_app, Hb, Hn.
  - intros Ht. specialize (Hp Ht). rewrite elem_of_app, list_elem_of_singleton. naive_solver.
Qed.

(** In whatever order the operations of the container are called, the library sees
    the baker started and stopped in turns, never stopped as a whole while
    baking, and its state agrees with the flag; a node without baker keys never
    starts a baker. *)
Theorem baker_calls_in_turns ptr keys c0 ops :
  ConsensusContainer_new ptr keys = Ok c0 →
  let c := foldl (λ c o, run_op o c) c0 ops in
  bakes (calls c) false = Some (baking c) ∧ (keys = None → startBaker ∉ calls c).
Proof.
  intros Hnew c.
  assert (container_ok c0 ∧ (keys = None → consensus_type c0 = Passive)) as [Hok Hk].
  { unfold ConsensusContainer_new in Hnew. destruct ptr; [|done..]. simplify_eq/=.
    split; [split; simpl; [done..|set_solver]|by intros ->]. }
  assert (container_ok c ∧ consensus_type c = consensus_type c0) as [[Hb _ Hp] Ht].
  { unfold c. clear c. clear Hnew. revert c0 Hok Hk. induction ops as [|o ops IH]; intros c0 Hok Hk; [done|].
    assert (consensus_type (run_op o c0) = consensus_type c0) as Ho.
    { destruct o; simpl; unfold start_baker, stop_baker; by destruct (is_active c0), (baking c0). }
    simpl. rewrite <-Ho. apply IH; [by apply run_op_ok|by rewrite Ho]. }
  split; [done|]. intros Hn. apply Hp. by rewrite Ht, Hk.
Qed.
