(* ===== verification/CollectorBackend.v ===== *)
(** * The collector backend

    Models [collector-backend], the web service that nodes report their state to:
    the data of [src/lib.rs], and the checks, the store and the cleanup of
    [src/bin/node-collector-backend.rs].  The MessagePack decoder is a parameter;
    routing and the rendering of JSON are left out. *)
From S2P Require Import Prelude.
From S2P Require Import Text.
From S2P Require Import Float.
From stdpp Require Import sorting.

(** ** Data *)

Inductive IsInBakingCommittee :=
  | ActiveInCommittee
  | AddedButNotActiveInCommittee
  | AddedButWrongKeys
  | NotInCommittee.

(** [Serialize] and [Deserialize], as strings. *)
Definition committee_serialize (c : IsInBakingCommittee) : string :=
  match c with
  | ActiveInCommittee => "ActiveInCommittee"
  | AddedButNotActiveInCommittee => "AddedButNotActiveInCommittee"
  | AddedButWrongKeys => "AddedButWrongKeys"
  | NotInCommittee => "NotInCommittee"
  end.
Definition committee_deserialize (s : string) : outcome IsInBakingCommittee :=
  if decide (s = "ActiveInCommittee"%string) then Ok ActiveInCommittee
  else if decide (s = "AddedButNotActiveInCommittee"%string) then Ok AddedButNotActiveInCommittee
  else if decide (s = "AddedButWrongKeys"%string) then Ok AddedButWrongKeys
  else if decide (s = "NotInCommittee"%string) then Ok NotInCommittee
  else bail "Failed deserializing string as IsInBakingCommittee".

Record NodeInfo := MkNodeInfo {
  nodeName : text;
  nodeId : text;
  peerType : text;
  uptime : u64;
  client : text;
  averagePing : option F64.t;
  peersCount : u64;
  peersList : list text;
  bestBlock : text;
  bestBlockHeight : u64;
  bestBlockBakerId : option u64;
  bestArrivedTime : option text;
  blockArrivePeriodEMA : option F64.t;
  blockArrivePeriodEMSD : option F64.t;
  blockArriveLatencyEMA : option F64.t;
  blockArriveLatencyEMSD : option F64.t;
  blockReceivePeriodEMA : option F64.t;
  blockReceivePeriodEMSD : option F64.t;
  blockReceiveLatencyEMA : option F64.t;
  blockReceiveLatencyEMSD : option F64.t;
  finalizedBlock : text;
  finalizedBlockHeight : u64;
  finalizedTime : option text;
  finalizationPeriodEMA : option F64.t;
  finalizationPeriodEMSD : option F64.t;
  packetsSent : u64;
  packetsReceived : u64;
  consensusRunning : bool;
  bakingCommitteeMember : IsInBakingCommittee;
  consensusBakerId : option u64;
  finalizationCommitteeMember : bool;
  ancestorsSinceBestBlock : option (list text);
  stagingNetUsername : option text;
  transactionsPerBlockEMA : option F64.t;
  transactionsPerBlockEMSD : option F64.t;
  bestBlockTransactionsSize : option u64;
  bestBlockTotalEncryptedAmount : option u64;
  bestBlockTotalAmount : option u64;
  bestBlockTransactionCount : option u64;
  bestBlockTransactionEnergyCost : option u64;
  bestBlockExecutionCost : option u64;
  bestBlockCentralBankAmount : option u64;
  blocksReceivedCount : option u64;
  blocksVerifiedCount : option u64;
  genesisBlock : text;
  finalizationCount : option u64;
  finalizedBlockParent : text;
  last_updated : u64;
  averageBytesPerSecondIn : u64;
  averageBytesPerSecondOut : u64;
}.

Definition with_last_updated (t : u64) (i : NodeInfo) : NodeInfo :=
  MkNodeInfo
    (nodeName i) (nodeId i) (peerType i) (uptime i) (client i) (averagePing i) (peersCount i)
    (peersList i) (bestBlock i) (bestBlockHeight i) (bestBlockBakerId i) (bestArrivedTime i)
    (blockArrivePeriodEMA i) (blockArrivePeriodEMSD i) (blockArriveLatencyEMA i)
    (blockArriveLatencyEMSD i) (blockReceivePeriodEMA i) (blockReceivePeriodEMSD i)
    (blockReceiveLatencyEMA i) (blockReceiveLatencyEMSD i) (finalizedBlock i)
    (finalizedBlockHeight i) (finalizedTime i) (finalizationPeriodEMA i)
    (finalizationPeriodEMSD i) (packetsSent i) (packetsReceived i) (consensusRunning i)
    (bakingCommitteeMember i) (consensusBakerId i) (finalizationCommitteeMember i)
    (ancestorsSinceBestBlock i) (stagingNetUsername i) (transactionsPerBlockEMA i)
    (transactionsPerBlockEMSD i) (bestBlockTransactionsSize i) (bestBlockTotalEncryptedAmount i)
    (bestBlockTotalAmount i) (bestBlockTransactionCount i) (bestBlockTransactionEnergyCost i)
    (bestBlockExecutionCost i) (bestBlockCentralBankAmount i) (blocksReceivedCount i)
    (blocksVerifiedCount i) (genesisBlock i) (finalizationCount i) (finalizedBlockParent i) t
    (averageBytesPerSecondIn i) (averageBytesPerSecondOut i).

(** What [nodes_summary] shows. *)
Record NodeInfoDashboard := MkNodeInfoDashboard {
  d_nodeName : text;
  d_nodeId : text;
  d_peerType : text;
  d_uptime : u64;
  d_client : text;
  d_averagePing : option F64.t;
  d_peersCount : u64;
  d_peersList : list text;
  d_bestBlock : text;
  d_bestBlockHeight : u64;
  d_bestBlockBakerId : option u64;
  d_bestArrivedTime : option text;
  d_blockArrivePeriodEMA : option F64.t;
  d_blockArrivePeriodEMSD : option F64.t;
  d_blockArriveLatencyEMA : option F64.t;
  d_blockArriveLatencyEMSD : option F64.t;
  d_blockReceivePeriodEMA : option F64.t;
  d_blockReceivePeriodEMSD : option F64.t;
  d_blockReceiveLatencyEMA : option F64.t;
  d_blockReceiveLatencyEMSD : option F64.t;
  d_finalizedBlock : text;
  d_finalizedBlockHeight : u64;
  d_finalizedTime : option text;
  d_finalizationPeriodEMA : option F64.t;
  d_finalizationPeriodEMSD : option F64.t;
  d_packetsSent : u64;
  d_packetsReceived : u64;
  d_consensusRunning : bool;
  d_bakingCommitteeMember : IsInBakingCommittee;
  d_consensusBakerId : option u64;
  d_finalizationCommitteeMember : bool;
  d_transactionsPerBlockEMA : option F64.t;
  d_transactionsPerBlockEMSD : option F64.t;
  d_bestBlockTransactionsSize : option u64;
  d_bestBlockTotalEncryptedAmount : option u64;
  d_bestBlockTotalAmount : option u64;
  d_bestBlockTransactionCount : option u64;
  d_bestBlockTransactionEnergyCost : option u64;
  d_bestBlockExecutionCost : option u64;
  d_bestBlockCentralBankAmount : option u64;
  d_blocksReceivedCount : option u64;
  d_blocksVerifiedCount : option u64;
  d_genesisBlock : text;
  d_finalizationCount : option u64;
  d_finalizedBlockParent : text;
  d_averageBytesPerSecondIn : F64.t;
  d_averageBytesPerSecondOut : F64.t;
}.

Definition NodeInfoDashboard_from (i : NodeInfo) : NodeInfoDashboard :=
  MkNodeInfoDashboard
    (nodeName i) (nodeId i) (peerType i) (uptime i) (client i) (averagePing i) (peersCount i)
    (peersList i) (bestBlock i) (bestBlockHeight i) (bestBlockBakerId i) (bestArrivedTime i)
    (blockArrivePeriodEMA i) (blockArrivePeriodEMSD i) (blockArriveLatencyEMA i)
    (blockArriveLatencyEMSD i) (blockReceivePeriodEMA i) (blockReceivePeriodEMSD i)
    (blockReceiveLatencyEMA i) (blockReceiveLatencyEMSD i) (finalizedBlock i)
    (finalizedBlockHeight i) (finalizedTime i) (finalizationPeriodEMA i)
    (finalizationPeriodEMSD i) (packetsSent i) (packetsReceived i) (consensusRunning i)
    (bakingCommitteeMember i) (consensusBakerId i) (finalizationCommitteeMember i)
    (transactionsPerBlockEMA i) (transactionsPerBlockEMSD i) (bestBlockTransactionsSize i)
    (bestBlockTotalEncryptedAmount i) (bestBlockTotalAmount i) (bestBlockTransactionCount i)
    (bestBlockTransactionEnergyCost i) (bestBlockExecutionCost i) (bestBlockCentralBankAmount i)
    (blocksReceivedCount i) (blocksVerifiedCount i) (genesisBlock i) (finalizationCount i)
    (finalizedBlockParent i) (F64.of_int (averageBytesPerSecondIn i))
    (F64.of_int (averageBytesPerSecondOut i)).

(** What [nodes_block_info] shows. *)
Record NodeInfoChainViz := MkNodeInfoChainViz {
  v_nodeName : text;
  v_nodeId : text;
  v_bestBlock : text;
  v_bestBlockHeight : u64;
  v_finalizedBlock : text;
  v_finalizedBlockHeight : u64;
  v_finalizedBlockParent : text;
  v_ancestorsSinceBestBlock : option (list text);
}.

Definition NodeInfoChainViz_from (i : NodeInfo) : NodeInfoChainViz :=
  MkNodeInfoChainViz
    (nodeName i) (nodeId i) (bestBlock i) (bestBlockHeight i) (finalizedBlock i)
    (finalizedBlockHeight i) (finalizedBlockParent i) (ancestorsSinceBestBlock i).

Record ValidationConfig := MkValidationConfig {
  valid_content_length : u64;
  valid_node_name_lenght : nat;
  valid_node_average_ping : F64.t;
  valid_node_peers_count : u64;
  validate_against_average_at : u64;
  percentage_used_for_averages : u64;
  valid_additional_best_block_height : u64;
  valid_additional_finalized_block_height : u64;
}.

Definition ValidationConfig_default : ValidationConfig :=
  MkValidationConfig 100000 100 (F64.of_int 150000) 50 20 60 1000 1000.

Record CollectorStateData := MkCollectorStateData {
  nodes : gmap text NodeInfo;
  banned_versions : list text;
  banned_node_names : list text;
}.

Definition with_nodes (x : gmap text NodeInfo) (s : CollectorStateData) : CollectorStateData :=
  MkCollectorStateData x (banned_versions s) (banned_node_names s).

(** ** Averages *)

(** [sum::<u64>] wraps around. *)
Definition sum_u64 (l : list u64) : u64 := foldl u64_add 0%Z l.

(** When more values are to be included than there are, the subtraction wraps and
    the slice panics; the model panics at the subtraction. *)
Definition average_without_outer_values (values : list u64) (number_to_include : nat) : outcome u64 :=
  let values := merge_sort Z.le values in
  omitting ← usize_sub (length values) number_to_include;
  let start := omitting `div` 2 in
  let stop := start + number_to_include in
  included ← slice_to stop values;
  included ← slice_from start included;
  if decide (number_to_include = 0) then Panic "attempt to divide by zero"
  else Ok (sum_u64 included / Z.of_nat number_to_include)%Z.

(** *** Properties of the average *)

Lemma sum_u64_foldr l : sum_u64 l = wrap 64 (foldr Z.add 0%Z l).
Proof.
  unfold sum_u64. assert (∀ a, foldl u64_add (wrap 64 a) l = wrap 64 (a + foldr Z.add 0%Z l)%Z) as Hg.
  { induction l as [|x l IH]; intros a; simpl; [by rewrite Z.add_0_r|].
    assert (u64_add (wrap 64 a) x = wrap 64 (a + x)) as ->
      by (unfold u64_add, wrap; apply Zplus_mod_idemp_l).
    rewrite IH. f_equal. lia. }
  apply (Hg 0%Z).
Qed.

#[local] Instance sum_proper : Proper ((≡ₚ) ==> (=)) (foldr Z.add 0%Z).
Proof. induction 1; simpl; lia. Qed.

Lemma sum_bounds lo hi l :
  Forall (λ x, lo ≤ x ≤ hi)%Z l →
  (Z.of_nat (length l) * lo ≤ foldr Z.add 0 l ≤ Z.of_nat (length l) * hi)%Z.
Proof. induction 1 as [|x l Hx _ IH]; cbn [length foldr]; lia. Qed.

Lemma sum_sublist (l k : list Z) :
  l ⊆+ k → Forall (λ x, 0 ≤ x)%Z k → (0 ≤ foldr Z.add 0 l ≤ foldr Z.add 0 k)%Z.
Proof.
  intros Hs Hk. apply submseteq_Permutation in Hs as [r Hr].
  assert (∀ m, Forall (λ x, 0 ≤ x)%Z m → (0 ≤ foldr Z.add 0 m)%Z) as Hnn
    by (induction 1; simpl; lia).
  rewrite Hr in Hk. apply Forall_app in Hk as [Hl Hk'].
  assert (foldr Z.add 0 k = foldr Z.add 0 l + foldr Z.add 0 r)%Z as ->.
  { rewrite Hr. clear. induction l as [|x l IH]; simpl; lia. }
  pose proof (Hnn l Hl). pose proof (Hnn r Hk'). lia.
Qed.

Lemma filter_nothing {A} (P : A → Prop) `{!∀ x, Decision (P x)} (l : list A) :
  (∀ x, x ∈ l → ¬ P x) → filter P l = [].
Proof.
  induction l as [|x l IH]; intros Hl; [done|]. rewrite filter_cons, decide_False by set_solver.
  apply IH. set_solver.
Qed.

Lemma elem_of_length_pos {A} (x : A) l : x ∈ l → 0 < length l.
Proof. destruct l; simpl; [by intros ?%not_elem_of_nil|lia]. Qed.

(** In a sorted list, what lies beyond position [i] from either side is bounded by
    any value that fewer elements lie beyond. *)
Lemma sorted_drop_ge i lo (l : list Z) :
  StronglySorted Z.le l → length (filter (λ x, x < lo)%Z l) ≤ i →
  Forall (λ x, lo ≤ x)%Z (drop i l).
Proof.
  intros Hs Hf. apply Forall_forall. intros x Hx. apply Znot_gt_le. intros Hlt.
  assert (i < length l) as Hlen.
  { destruct (decide (i < length l)); [done|]. rewrite drop_ge in Hx by lia. set_solver. }
  assert (Forall (λ y, y < lo)%Z (take i l)) as Ht.
  { apply Forall_forall. intros y Hy. apply (Z.le_lt_trans _ x); [|lia].
    rewrite <-(take_drop i l) in Hs. by eapply StronglySorted_app_1_elem_of. }
  rewrite <-(take_drop i l), filter_app, length_app, filter_everything, length_take in Hf
    by by apply Forall_forall.
  assert (0 < length (filter (λ x, x < lo)%Z (drop i l))); [|lia].
  apply (elem_of_length_pos x), list_elem_of_filter. split; [lia|done].
Qed.

Lemma sorted_take_le i hi (l : list Z) :
  StronglySorted Z.le l → length (filter (λ x, hi < x)%Z l) ≤ length l - i →
  Forall (λ x, x ≤ hi)%Z (take i l).
Proof.
  intros Hs Hf. apply Forall_forall. intros x Hx. apply Znot_gt_le. intros Hlt.
  assert (Forall (λ y, hi < y)%Z (drop i l)) as Ht.
  { apply Forall_forall. intros y Hy. apply (Z.lt_le_trans _ x); [lia|].
    rewrite <-(take_drop i l) in Hs. by eapply StronglySorted_app_1_elem_of. }
  rewrite <-(take_drop i l) in Hf at 1.
  rewrite filter_app, length_app, (filter_everything _ (drop i l)), length_drop in Hf
    by by apply Forall_forall.
  assert (0 < length (filter (λ x, hi < x)%Z (take i l))); [|lia].
  apply (elem_of_length_pos x), list_elem_of_filter. split; [lia|done].
Qed.

Lemma average_defined vs k :
  0 < k ≤ length vs →
  let sorted := merge_sort Z.le vs in
  let start := (length vs - k) `div` 2 in
  average_without_outer_values vs k
  = Ok (sum_u64 (drop start (take (start + k) sorted)) / Z.of_nat k)%Z.
Proof.
  intros Hk sorted start. unfold average_without_outer_values.
  assert (length sorted = length vs) as Hlen by (unfold sorted; by rewrite merge_sort_Permutation).
  fold sorted. rewrite Hlen, usize_sub_ok by lia. cbn [mbind outcome_bind].
  assert (start ≤ length vs - k) by (apply Nat.Div0.div_le_upper_bound; lia).
  fold start. rewrite slice_to_ok by lia. cbn [mbind outcome_bind].
  rewrite slice_from_ok by (rewrite length_take; lia). cbn [mbind outcome_bind].
  by rewrite decide_False by lia.
Qed.

(** The average is not moved by outliers: when no more values lie above [hi] and
    below [lo] than are left out on a side, it lies between [lo] and [hi].  Values
    that are left out may be as great as they like. *)
Lemma average_robust vs k lo hi :
  0 < k ≤ length vs → Forall (λ x, 0 ≤ x)%Z vs → (Z.of_nat k * hi < 2 ^ 64)%Z →
  length (filter (λ x, x < lo)%Z vs) ≤ (length vs - k) `div` 2 →
  length (filter (λ x, hi < x)%Z vs) ≤ (length vs - k) `div` 2 →
  ∃ avg, average_without_outer_values vs k = Ok avg ∧ (lo ≤ avg ≤ hi)%Z.
Proof.
  intros Hk Hpos Hsum Hlo Hhi. rewrite average_defined by done. eexists. split; [done|].
  pose proof (merge_sort_Permutation Z.le vs) as Hp.
  pose proof (StronglySorted_merge_sort Z.le vs) as Hs.
  set (sorted := merge_sort Z.le vs) in *. set (start := (length vs - k) `div` 2) in *.
  assert (start + start ≤ length vs - k) as Hst
    by (pose proof (Nat.Div0.mul_div_le (length vs - k) 2); fold start in H; lia).
  assert (length sorted = length vs) as Hlen by by rewrite Hp.
  rewrite <-Hp in Hlo, Hhi. apply sorted_drop_ge in Hlo; [|done].
  assert (Forall (λ x, x ≤ hi)%Z (take (start + k) sorted)) as Hhi' by (apply sorted_take_le; [done|lia]).
  clear Hhi. rename Hhi' into Hhi.
  set (incl := drop start (take (start + k) sorted)).
  assert (length incl = k) as Hk' by (unfold incl; rewrite length_drop, length_take; lia).
  assert (Forall (λ x, lo ≤ x ≤ hi)%Z incl) as Hincl.
  { apply Forall_and. split; [|by apply Forall_drop].
    unfold incl. rewrite <-take_drop_commute. by apply Forall_take. }
  apply sum_bounds in Hincl. rewrite Hk' in Hincl.
  assert (0 ≤ foldr Z.add 0 incl ≤ foldr Z.add 0 vs)%Z as Hb.
  { apply sum_sublist; [|done]. rewrite <-Hp. unfold incl.
    etrans; [apply sublist_submseteq, sublist_drop|apply sublist_submseteq, sublist_take]. }
  rewrite sum_u64_foldr, wrap_small by (unfold fits; lia).
  split; [apply Z.div_le_lower_bound|apply Z.div_le_upper_bound]; lia.
Qed.

Section handlers.
Context `{!MapIter text NodeInfo} (decode : bytes → outcome NodeInfo).

(** ** Requests *)

Definition nodes_summary (s : CollectorStateData) : list NodeInfoDashboard :=
  NodeInfoDashboard_from <$> map_values (nodes s).
Definition nodes_block_info (s : CollectorStateData) : list NodeInfoChainViz :=
  NodeInfoChainViz_from <$> map_values (nodes s).

(** The loop that reads the body, in the pieces it arrives in. *)
Fixpoint read_body (content_length : nat) (content : bytes) (body : list (outcome bytes)) :
    outcome bytes :=
  match body with
  | [] =>
    ensure (bool_decide (length content = content_length)) "Invalid body" ;;
    Ok content
  | buf :: body =>
    buffer ← buf;
    ensure (bool_decide (length content + length buffer ≤ content_length)) "Invalid body" ;;
    read_body content_length (content ++ buffer) body
  end.

(** The checks of a report on its own. *)
Definition validate_info (v : ValidationConfig) (s : CollectorStateData) (i : NodeInfo) : outcome unit :=
  ensure (bool_decide (nodeName i ≠ [])) "nodeName cannot be empty" ;;
  ensure (bool_decide (length (lines (nodeName i)) = 1))
    "nodeName is not allowed to contain line breaks" ;;
  ensure (bool_decide (nodeId i ≠ [])) "nodeId cannot be empty" ;;
  ensure (bool_decide (text_len (nodeName i) ≤ valid_node_name_lenght v))
    "nodeName is to long too be considered valid" ;;
  (match averagePing i with
   | Some avg_ping =>
     ensure (F64.leb avg_ping (valid_node_average_ping v))
       "Average ping is too high to be considered valid"
   | None => Ok tt
   end) ;;
  ensure (bool_decide (peersCount i ≤ valid_node_peers_count v)%Z)
    "peersCount is too high to be considered valid" ;;
  ensure (bool_decide (client i ∉ banned_versions s)) "node version is banned" ;;
  ensure (bool_decide (trim (nodeName i) ∉ banned_node_names s)) "node name is banned".

(** The checks against the averages of the known nodes, when there are enough. *)
Definition validate_heights (v : ValidationConfig) (s : CollectorStateData) (i : NodeInfo) :
    outcome unit :=
  let len := size (nodes s) in
  if decide (validate_against_average_at v ≤ Z.of_nat len)%Z then
    let number_of_nodes_to_include := 
      Z.to_nat (wrap 64 (Z.of_nat len * percentage_used_for_averages v) / 100) in
    avg_best ← average_without_outer_values (bestBlockHeight <$> map_values (nodes s))
                 number_of_nodes_to_include;
    ensure (bool_decide (bestBlockHeight i
                         ≤ u64_add avg_best (valid_additional_best_block_height v))%Z)
      "bestBlockHeight is too high above average to be considered valid" ;;
    avg_finalized ← average_without_outer_values (finalizedBlockHeight <$> map_values (nodes s))
                      number_of_nodes_to_include;
    ensure (bool_decide (finalizedBlockHeight i
                         ≤ u64_add avg_finalized (valid_additional_finalized_block_height v))%Z)
      "finalizedBlockHeight is too high above average to be considered valid"
  else Ok tt.

(** [nodes_post_handler]; an error is answered with status 400. *)
Definition nodes_post_handler (now : u64) (v : ValidationConfig) (exact_length : option u64)
    (body : list (outcome bytes)) : ST CollectorStateData unit :=
  content_length ← st_lift (context "Header 'Content-Length' is required" exact_length);
  st_lift (ensure (bool_decide (content_length ≤ valid_content_length v)%Z)
             "Content-Length is larger than the limit set by the collector backend") ;;
  content ← st_lift (read_body (Z.to_nat content_length) [] body);
  info ← st_lift (decode content);
  s ← st_get;
  st_lift (validate_info v s info) ;;
  st_lift (validate_heights v s info) ;;
  st_modify (λ s, with_nodes (<[nodeId info := with_last_updated now info]> (nodes s)) s).

(** A run of the cleanup thread. *)
Definition cleanup (current_stamp allowed_stale_time : u64) (s : CollectorStateData) :
    CollectorStateData :=
  with_nodes (filter (λ '(_, element),
    current_stamp < u64_add (last_updated element) allowed_stale_time)%Z (nodes s)) s.

(** ** What a report needs to be accepted *)

Lemma read_body_ok n content body r :
  read_body n content body = Ok r →
  ∃ bufs, body = (Ok <$> bufs) ∧ r = content ++ concat bufs ∧ length r = n.
Proof.
  revert content. induction body as [|buf body IH]; intros content; simpl.
  - unfold ensure. case_bool_decide as Hlen; [|done]. intros [= <-]. exists []. by rewrite app_nil_r.
  - destruct buf as [bs|e|e]; [|done..]. simpl. unfold ensure. case_bool_decide; [|done]. simpl.
    intros (bufs & -> & -> & Hn)%IH. exists (bs :: bufs). split; [done|].
    simpl. by rewrite app_assoc.
Qed.

(** The limits on a report by itself. *)
Record within_limits (v : ValidationConfig) (s : CollectorStateData) (i : NodeInfo) : Prop := {
  wl_name : nodeName i ≠ [];
  wl_line : length (lines (nodeName i)) = 1;
  wl_id : nodeId i ≠ [];
  wl_length : text_len (nodeName i) ≤ valid_node_name_lenght v;
  wl_ping : match averagePing i with
            | Some ping => F64.leb ping (valid_node_average_ping v) = true
            | None => True
            end;
  wl_peers : (peersCount i ≤ valid_node_peers_count v)%Z;
  wl_version : client i ∉ banned_versions s;
  wl_banned : trim (nodeName i) ∉ banned_node_names s;
}.

(** The number of known nodes that the averages are taken over. *)
Definition included (v : ValidationConfig) (s : CollectorStateData) : nat :=
  Z.to_nat (wrap 64 (Z.of_nat (size (nodes s)) * percentage_used_for_averages v) / 100).

Lemma validate_info_ok v s i u :
  validate_info v s i = Ok u →
  within_limits v s i.
Proof.
  unfold validate_info.
  intros ([] & H1%ensure_ok & ([] & H2%ensure_ok & ([] & H3%ensure_ok & ([] & H4%ensure_ok &
    ([] & H5 & ([] & H6%ensure_ok & ([] & H7%ensure_ok & H8%ensure_ok)%outcome_bind_ok)
    %outcome_bind_ok)%outcome_bind_ok)%outcome_bind_ok)%outcome_bind_ok)%outcome_bind_ok)
    %outcome_bind_ok.
  apply bool_decide_eq_true in H1, H2, H3, H4, H6, H7, H8. split; [done..| |done|done|done].
  destruct (averagePing i) as [ping|]; [by apply ensure_ok in H5|done].
Qed.

Lemma validate_heights_ok v s i u :
  validate_heights v s i = Ok u → (validate_against_average_at v ≤ Z.of_nat (size (nodes s)))%Z →
  (∃ avg, average_without_outer_values (bestBlockHeight <$> map_values (nodes s)) (included v s) = Ok avg
     ∧ (bestBlockHeight i ≤ u64_add avg (valid_additional_best_block_height v))%Z)
  ∧ ∃ avg, average_without_outer_values (finalizedBlockHeight <$> map_values (nodes s)) (included v s)
       = Ok avg
     ∧ (finalizedBlockHeight i ≤ u64_add avg (valid_additional_finalized_block_height v))%Z.
Proof.
  intros Hv Hat. unfold validate_heights in Hv. rewrite decide_True in Hv by done.
  fold (included v s) in Hv.
  apply outcome_bind_ok in Hv as (ab & Hab & ([] & Hb%ensure_ok & (af & Haf & Hf%ensure_ok)
    %outcome_bind_ok)%outcome_bind_ok).
  apply bool_decide_eq_true in Hb, Hf. split; eauto.
Qed.

(** At most as many of the known nodes claim a height above [bound] as the average
    leaves out on either side, however great a height they claim. *)
Definition few_above (height : NodeInfo → u64) (bound : u64) (v : ValidationConfig)
    (s : CollectorStateData) : Prop :=
  let heights := height <$> map_values (nodes s) in
  0 < included v s ≤ size (nodes s)
  ∧ Forall (λ x, 0 ≤ x)%Z heights ∧ (Z.of_nat (included v s) * bound < 2 ^ 64)%Z
  ∧ length (filter (λ x, bound < x)%Z heights) ≤ (size (nodes s) - included v s) `div` 2.

Lemma few_above_average height bound v s :
  few_above height bound v s →
  ∃ avg, average_without_outer_values (height <$> map_values (nodes s)) (included v s) = Ok avg
    ∧ (0 ≤ avg ≤ bound)%Z.
Proof.
  intros (Hk & Hpos & Hsum & Hf).
  assert (length (height <$> map_values (nodes s)) = size (nodes s)) as Hlen
    by by rewrite length_fmap, length_map_values.
  apply average_robust; rewrite ?Hlen; [done..| |done].
  rewrite filter_nothing; [simpl; lia|]. intros x Hx. rewrite Forall_forall in Hpos.
  specialize (Hpos x Hx). lia.
Qed.

(** No height is above the average by more than the margin. *)
Lemma height_plausible height bound v s add x avg :
  few_above height bound v s → (0 ≤ add)%Z → (bound + add < 2 ^ 64)%Z →
  average_without_outer_values (height <$> map_values (nodes s)) (included v s) = Ok avg →
  (x ≤ u64_add avg add)%Z → (x ≤ bound + add)%Z.
Proof.
  intros (avg' & Ha & Hb)%few_above_average Hadd Hlt Ha'. rewrite Ha in Ha'. injection Ha' as <-.
  unfold u64_add. rewrite wrap_small by (unfold fits; lia). lia.
Qed.

(** C37: a report that the collector backend rejects changes nothing.  An accepted
    one is stored under the identifier of its node with the current time; it
    arrived completely and within the size limit, it has a name of one line of
    limited length and an identifier, the average ping and the number of peers
    are within their limits, and its version and name are not banned.  When
    as many nodes are known as the check of heights asks for, its heights exceed
    what the network has reached by at most the configured margin, provided that
    no more of the known nodes claim more, however much, than the average leaves
    out on a side, and that what the network has reached, added up over the nodes
    that the average is taken of, is below 2^64. *)
Theorem accepted_report_plausible now v len body s :
  match nodes_post_handler now v len body s with
  | (Ok _, s') => ∃ l bufs i,
    len = Some l ∧ (l ≤ valid_content_length v)%Z
    ∧ body = (Ok <$> bufs) ∧ length (concat bufs) = Z.to_nat l ∧ decode (concat bufs) = Ok i
    ∧ s' = with_nodes (<[nodeId i := with_last_updated now i]> (nodes s)) s
    ∧ within_limits v s i
    ∧ ((validate_against_average_at v ≤ Z.of_nat (size (nodes s)))%Z →
       (∀ best, few_above bestBlockHeight best v s →
          (0 ≤ valid_additional_best_block_height v)%Z →
          (best + valid_additional_best_block_height v < 2 ^ 64)%Z →
          (bestBlockHeight i ≤ best + valid_additional_best_block_height v)%Z)
       ∧ (∀ finalized, few_above finalizedBlockHeight finalized v s →
          (0 ≤ valid_additional_finalized_block_height v)%Z →
          (finalized + valid_additional_finalized_block_height v < 2 ^ 64)%Z →
          (finalizedBlockHeight i ≤ finalized + valid_additional_finalized_block_height v)%Z))
  | (_, s') => s' = s
  end.
Proof.
  unfold nodes_post_handler, mbind, ST_bind, st_lift, st_get, st_modify.
  destruct len as [l|]; [|done]. simpl. unfold ensure at 1. case_bool_decide as Hl; [|done].
  destruct (read_body _ _ _) as [content| |] eqn:Hread; [|done..].
  apply read_body_ok in Hread as (bufs & -> & -> & Hlen). simpl in *.
  destruct (decode (concat bufs)) as [i| |] eqn:Hdec; [|done..].
  destruct (validate_info v s i) as [[]| |] eqn:Hinfo; [|done..].
  destruct (validate_heights v s i) as [[]| |] eqn:Hheights; [|done..].
  apply validate_info_ok in Hinfo. exists l, bufs, i. do 7 (split; [done|]). intros Hat.
  destruct (validate_heights_ok _ _ _ _ Hheights Hat) as [(ab & Hab & Hb) (af & Haf & Hf)].
  split; intros; by eapply height_plausible.
Qed.
End handlers.

(** *** Averages that are not defined *)

(** The average panics exactly when it is taken over no value or over more values
    than there are, such as with a percentage of zero or above one hundred. *)
Theorem average_panics_iff vs k :
  is_panic (average_without_outer_values vs k) = true ↔ k = 0 ∨ length vs < k.
Proof.
  destruct (decide (0 < k ≤ length vs)) as [Hk|Hk].
  { rewrite average_defined by done. simpl. split; [done|lia]. }
  split; [lia|]. intros _. unfold average_without_outer_values.
  assert (length (merge_sort Z.le vs) = length vs) as -> by by rewrite merge_sort_Permutation.
  unfold usize_sub. destruct (decide (k ≤ length vs)); [|done]. rewrite bind_Ok.
  unfold slice_to. destruct (decide (_ + k ≤ _)); [|done]. rewrite bind_Ok.
  unfold slice_from. destruct (decide (_ ≤ length (take _ _))); [|done]. rewrite bind_Ok.
  by rewrite decide_True by lia.
Qed.

(** *** Witness: two honest nodes and one that claims the greatest height there is *)

Module CollectorExample.

Definition info (id name : text) (height : u64) : NodeInfo :=
  MkNodeInfo name id [] 0 [] None 0 [] [] height None None None None None None None None None
    None [] height None None None 0 0 true NotInCommittee None true None None None None None
    None None None None None None None None [] None [] 0 0 0.

#[local] Instance iter : MapIter text NodeInfo := canonical_map_iter text NodeInfo.

Definition config : ValidationConfig :=
  MkValidationConfig 100000 100 (F64.of_int 150000) 50 3 60 1000 1000.

Definition known : CollectorStateData :=
  MkCollectorStateData
    (list_to_map ((λ '(k, h), ([k], info [k] [k] h)) <$> [(65, 100); (66, 101); (67, 18446744073709551615)]%Z))
    [] [].

Definition decoder (_ : bytes) : outcome NodeInfo := Ok (info [68%Z] [68%Z] 1101).

Lemma accepted_report_plausible_witness :
  ∃ s', nodes_post_handler decoder 7 config (Some 2%Z) [Ok [1%Z]; Ok [2%Z]] known = (Ok tt, s')
    ∧ few_above bestBlockHeight 101 config known
    ∧ (1101 ≤ 101 + valid_additional_best_block_height config)%Z.
Proof.
  pose proof (accepted_report_plausible decoder 7 config (Some 2%Z) [Ok [1%Z]; Ok [2%Z]] known) as Hp.
  destruct (nodes_post_handler decoder 7 config (Some 2%Z) [Ok [1%Z]; Ok [2%Z]] known) as [r s']
    eqn:Hr.
  assert (r = Ok tt) as ->.
  { change r with (r, s').1. rewrite <-Hr. vm_compute. reflexivity. }
  assert (few_above bestBlockHeight 101 config known) as Hf
    by (vm_compute; repeat split; (lia || (repeat constructor; discriminate))).
  exists s'. split; [reflexivity|]. split; [exact Hf|].
  destruct Hp as (l & bufs & i & _ & _ & _ & _ & Hi & _ & _ & Hh). injection Hi as <-.
  destruct Hh as [Hbest _]; [vm_compute; discriminate|]. apply (Hbest 101%Z Hf); vm_compute;
    [discriminate|reflexivity].
Defined.
End CollectorExample.
