(* ===== verification/Collector.v ===== *)
(** * The collector

    Models [concordium-node/src/bin/collector.rs], the program that asks nodes for their
    state over the first interface and sends it to the collector backend.  The gRPC
    client, the JSON parser and the MessagePack encoder are parameters. *)
From S2P Require Import Prelude.
From S2P Require Import Text.
From S2P Require Import Float.
From S2P Require Import FfiHelpers.
From S2P Require Import CollectorBackend.

(** ** The name of a node *)

(** [str::split] on a predicate *)
Fixpoint split_on (p : Z → bool) (s : text) : list text :=
  match s with
  | [] => [[]]
  | c :: s =>
    if p c then [] :: split_on p s
    else match split_on p s with
         | [] => [[c]]
         | w :: ws => (c :: w) :: ws
         end
  end.

(** [str::split_whitespace] *)
Definition split_whitespace (s : text) : list text := filter (λ w, w ≠ []) (split_on is_whitespace s).

(** [slice::join] *)
Fixpoint join (sep : text) (ws : list text) : text :=
  match ws with
  | [] => []
  | [w] => w
  | w :: ws => w ++ sep ++ join sep ws
  end.

Record NodeName := MkNodeName { words : list text }.

Definition NodeName_from_str (input : text) : NodeName := MkNodeName (split_whitespace input).
Definition NodeName_fmt (n : NodeName) : text := join [32%Z] (words n).

(** ** Replies *)

(** [serde_json::Value] *)
Class JsonExt := {
  jvalue : Type;
  from_str : text → outcome jvalue;
  jget : jvalue → string → jvalue;
  as_str : jvalue → option text;
  as_u64_json : jvalue → option u64;
  as_f64 : jvalue → option F64.t;
  as_array : jvalue → option (list jvalue);
}.

(** The replies of the node that are used. *)
Record NodeInfoReply := MkNodeInfoReply {
  r_node_id : option text;
  r_peer_type : text;
  r_committee : BakingCommitteeResponse;
  r_finalizer : bool;
  r_running : bool;
  r_baker_id : option u64;
}.

Record PeerStat := MkPeerStat { st_node_id : text; st_latency : u64 }.

Record PeerStatsReply := MkPeerStatsReply {
  r_peerstats : list PeerStat;
  r_avg_bps_in : u64;
  r_avg_bps_out : u64;
}.

(** [P2pClient]: what a request is answered with. *)
Record P2pClient := MkP2pClient {
  c_node_info : outcome NodeInfoReply;
  c_peer_uptime : outcome u64;
  c_peer_version : outcome text;
  c_consensus_status : outcome text;
  c_peer_stats : outcome PeerStatsReply;
  c_total_sent : outcome u64;
  c_total_received : outcome u64;
  c_get_ancestors : text → u64 → outcome text;
  c_get_block_info : text → outcome text;
}.

Record ConfigCli := MkConfigCli {
  grpc_auth_token : text;
  grpc_hosts : list text;
  node_names : list NodeName;
}.

(** Connections, the encoding of requests and of reports. *)
Class CollectorExt := {
  valid_uri : text → bool;
  connect : text → outcome P2pClient;
  valid_metadata : text → bool;
  to_vec : NodeInfo → outcome bytes;
  post : bytes → outcome unit;
}.

Section collector.
Context `{!JsonExt, !CollectorExt}.

Definition unwrap {A} (o : option A) : outcome A :=
  match o with Some a => Ok a | None => Panic "called `Option::unwrap()` on a `None` value" end.


Definition committee_member (c : BakingCommitteeResponse) : IsInBakingCommittee :=
  match c with
  | NotInBakingCommittee => NotInCommittee
  | AddedButNotActiveInBakingCommittee => AddedButNotActiveInCommittee
  | FfiHelpers.AddedButWrongKeys => CollectorBackend.AddedButWrongKeys
  | ActiveInBakingCommittee => ActiveInCommittee
  end.

(** The latency, on average over the peers with a positive one. *)
Definition average_ping (stats : list PeerStat) : option F64.t :=
  let summed := F64.of_int (sum_u64 (st_latency <$> stats)) in
  let valid := length (filter (λ s, 0 < st_latency s)%Z stats) in
  if decide (0 < valid) then Some (F64.div summed (F64.of_int (Z.of_nat valid))) else None.

(** The ancestors of the best block down to the last finalized one. *)
Definition ancestors_since (client : P2pClient) (best_block : text) (best finalized : u64) :
    outcome (option (list text)) :=
  if decide (finalized < best)%Z then
    reply ← c_get_ancestors client best_block (best - finalized);
    v ← from_str reply;
    match as_array v with
    | Some a => l ← mapM (λ v, unwrap (as_str v)) a; Ok (Some l)
    | None => Ok None
    end
  else Ok None.

Definition block_parent (v : jvalue) : outcome text := unwrap (as_str (jget v "blockParent")).

(** The report at the end of [collect_data], from the answers of the node *)
Definition report_of (node_name : NodeName) (info : NodeInfoReply) (uptime : u64) (version : text)
    json (peers : PeerStatsReply) (sent received : u64) (node_id best_block : text)
    (best_block_height : u64) (genesis_block finalized_block : text) (finalized_block_height : u64)
    (ancestors : _) block (parent : _) : NodeInfo :=
  {|
    nodeName := NodeName_fmt node_name;
    nodeId := node_id;
    peerType := r_peer_type info;
    CollectorBackend.uptime := uptime;
    CollectorBackend.client := version;
    averagePing := average_ping (r_peerstats peers);
    peersCount := Z.of_nat (length (r_peerstats peers));
    peersList := st_node_id <$> r_peerstats peers;
    bestBlock := best_block;
    bestBlockHeight := best_block_height;
    bestBlockBakerId := as_u64_json (jget block "blockBaker");
    bestArrivedTime := as_str (jget json "blockLastArrivedTime");
    blockArrivePeriodEMA := as_f64 (jget json "blockArrivePeriodEMA");
    blockArrivePeriodEMSD := as_f64 (jget json "blockArrivePeriodEMSD");
    blockArriveLatencyEMA := as_f64 (jget json "blockArriveLatencyEMA");
    blockArriveLatencyEMSD := as_f64 (jget json "blockArriveLatencyEMSD");
    blockReceivePeriodEMA := as_f64 (jget json "blockReceivePeriodEMA");
    blockReceivePeriodEMSD := as_f64 (jget json "blockReceivePeriodEMSD");
    blockReceiveLatencyEMA := as_f64 (jget json "blockReceiveLatencyEMA");
    blockReceiveLatencyEMSD := as_f64 (jget json "blockReceiveLatencyEMSD");
    finalizedBlock := finalized_block;
    finalizedBlockHeight := finalized_block_height;
    finalizedTime := as_str (jget json "lastFinalizedTime");
    finalizationPeriodEMA := as_f64 (jget json "finalizationPeriodEMA");
    finalizationPeriodEMSD := as_f64 (jget json "finalizationPeriodEMSD");
    packetsSent := sent;
    packetsReceived := received;
    consensusRunning := r_running info;
    bakingCommitteeMember := committee_member (r_committee info);
    consensusBakerId := r_baker_id info;
    finalizationCommitteeMember := r_finalizer info;
    ancestorsSinceBestBlock := ancestors;
    stagingNetUsername := None;
    transactionsPerBlockEMA := as_f64 (jget json "transactionsPerBlockEMA");
    transactionsPerBlockEMSD := as_f64 (jget json "transactionsPerBlockEMSD");
    bestBlockTransactionsSize := as_u64_json (jget block "transactionsSize");
    bestBlockTotalEncryptedAmount := as_u64_json (jget block "totalEncryptedAmount");
    bestBlockTotalAmount := as_u64_json (jget block "totalAmount");
    bestBlockTransactionCount := as_u64_json (jget block "transactionCount");
    bestBlockTransactionEnergyCost := as_u64_json (jget block "transactionEnergyCost");
    bestBlockExecutionCost := as_u64_json (jget block "executionCost");
    bestBlockCentralBankAmount := as_u64_json (jget block "centralBankAmount");
    blocksReceivedCount := as_u64_json (jget json "blocksReceivedCount");
    blocksVerifiedCount := as_u64_json (jget json "blocksVerifiedCount");
    genesisBlock := genesis_block;
    finalizationCount := as_u64_json (jget json "finalizationCount");
    finalizedBlockParent := parent;
    last_updated := 0;
    averageBytesPerSecondIn := r_avg_bps_in peers;
    averageBytesPerSecondOut := r_avg_bps_out peers;
  |}.

(** [collect_data] *)
Definition collect_data (node_name : NodeName) (grpc_host : text) (conf : ConfigCli) :
    outcome NodeInfo :=
  (if valid_uri grpc_host then Ok tt else Panic "called `Result::unwrap()` on an `Err` value") ;;
  client ← connect grpc_host;
  (if valid_metadata (grpc_auth_token conf) then Ok tt
   else Panic "called `Result::unwrap()` on an `Err` value") ;;
  info ← c_node_info client;
  uptime ← c_peer_uptime client;
  version ← c_peer_version client;
  status ← c_consensus_status client;
  peers ← c_peer_stats client;
  sent ← c_total_sent client;
  received ← c_total_received client;
  node_id ← unwrap (r_node_id info);
  json ← from_str status;
  best_block ← unwrap (as_str (jget json "bestBlock"));
  best_block_height ← unwrap (as_u64_json (jget json "bestBlockHeight"));
  genesis_block ← unwrap (as_str (jget json "genesisBlock"));
  finalized_block ← unwrap (as_str (jget json "lastFinalizedBlock"));
  finalized_block_height ← unwrap (as_u64_json (jget json "lastFinalizedBlockHeight"));
  ancestors ← ancestors_since client best_block best_block_height finalized_block_height;
  block_reply ← c_get_block_info client best_block;
  block ← from_str block_reply;
  parent ← (if decide (best_block_height = finalized_block_height) then block_parent block
            else finalized_reply ← c_get_block_info client finalized_block;
                 finalized ← from_str finalized_reply;
                 block_parent finalized);
  Ok (report_of node_name info uptime version json peers sent received node_id best_block
    best_block_height genesis_block finalized_block finalized_block_height ancestors block parent).

(** One turn of the loop of [main]: the reports that are sent to the backend. *)
Fixpoint collect_all (conf : ConfigCli) (nodes : list (NodeName * text)) : outcome (list bytes) :=
  match nodes with
  | [] => Ok []
  | (node_name, grpc_host) :: nodes =>
    match collect_data node_name grpc_host conf with
    | Ok info =>
      match to_vec info with
      | Ok msgpack =>
        match post msgpack with
        | Panic m => Panic m
        | _ => rest ← collect_all conf nodes; Ok (msgpack :: rest)
        end
      | Err _ => collect_all conf nodes
      | Panic m => Panic m
      end
    | Err _ => collect_all conf nodes
    | Panic m => Panic m
    end
  end.

(** [main] up to its loop; [Err] is the exit with code 1. *)
Definition collector_start (conf : ConfigCli) : outcome (list (NodeName * text)) :=
  ensure (bool_decide (length (node_names conf) = length (grpc_hosts conf)))
    "The number of node-names and grpc-hosts must be equal!" ;;
  Ok (zip (node_names conf) (grpc_hosts conf)).
End collector.

(** ** Names *)

Definition word (w : text) : Prop := w ≠ [] ∧ Forall (λ c, is_whitespace c = false) w.

Lemma split_on_words p s : Forall (Forall (λ c, p c = false)) (split_on p s).
Proof.
  induction s as [|c s IH]; cbn; [by repeat constructor|]. destruct (p c) eqn:E; [by constructor|].
  destruct (split_on p s) as [|w ws]; [by repeat constructor|]. apply Forall_cons in IH as [Hw Hws].
  by repeat constructor.
Qed.

Lemma split_whitespace_words s : Forall word (split_whitespace s).
Proof.
  apply Forall_forall. intros w [Hne Hw]%list_elem_of_filter. split; [done|].
  by eapply (proj1 (Forall_forall _ _) (split_on_words is_whitespace s)).
Qed.

Lemma split_on_end p w : Forall (λ c, p c = false) w → split_on p w = [w].
Proof. induction 1 as [|c w Hc _ IH]; cbn; [done|]. by rewrite Hc, IH. Qed.

Lemma split_on_sep p w c s :
  Forall (λ c, p c = false) w → p c = true → split_on p (w ++ c :: s) = w :: split_on p s.
Proof.
  intros Hw Hc. induction Hw as [|x w Hx _ IH]; cbn; [by rewrite Hc|]. by rewrite Hx, IH.
Qed.

Lemma split_join ws : Forall word ws → split_whitespace (join [32%Z] ws) = ws.
Proof.
  intros Hws. unfold split_whitespace. destruct ws as [|w ws]; [done|].
  assert (split_on is_whitespace (join [32%Z] (w :: ws)) = w :: ws) as ->.
  - revert w Hws. induction ws as [|w' ws IH]; intros w [[_ Hw] Hws]%Forall_cons.
    + by apply split_on_end.
    + change (join [32%Z] (w :: w' :: ws)) with (w ++ 32%Z :: join [32%Z] (w' :: ws)).
      rewrite split_on_sep by done. f_equal. by apply IH.
  - apply filter_everything. intros x Hx. by apply (proj1 (Forall_forall _ _) Hws).
Qed.

Lemma join_chars (P : Z → Prop) ws :
  P 32%Z → Forall (Forall P) ws → Forall P (join [32%Z] ws).
Proof.
  intros Hsep Hws. induction Hws as [|w ws Hw Hws IH]; [constructor|].
  destruct ws as [|w' ws]; [done|].
  change (join [32%Z] (w :: w' :: ws)) with (w ++ [32%Z] ++ join [32%Z] (w' :: ws)).
  repeat (apply Forall_app; split); [done|by repeat constructor|done].
Qed.

Lemma lines_single s : Forall (λ c, c ≠ 10)%Z s → s ≠ [] → lines s = [s].
Proof.
  intros Hs. induction Hs as [|c s Hc Hs IH]; [done|]. intros _.
  destruct s as [|c' s].
  - cbn. repeat case_match; done.
  - specialize (IH ltac:(done)). apply Forall_cons in Hs as [Hc' Hs].
    assert (lines (c :: c' :: s)
            = match lines (c' :: s) with [] => [[c]] | l :: ls => (c :: l) :: ls end) as ->.
    { cbn [lines]. repeat case_match; done. }
    by rewrite IH.
Qed.

Lemma drop_while_head (p : Z → bool) s :
  (∀ c, head s = Some c → p c = false) → drop_while p s = s.
Proof. destruct s as [|c s]; intros Hc; cbn; [done|]. by rewrite Hc. Qed.

Lemma last_join w ws : Forall word (w :: ws) →
  ∃ c, last (join [32%Z] (w :: ws)) = Some c ∧ is_whitespace c = false.
Proof.
  revert w. induction ws as [|w' ws IH]; intros w Hw.
  - apply Forall_cons in Hw as [[Hne Hw] _]. cbn [join].
    destruct (last w) as [c|] eqn:E; [|by apply last_None in E].
    exists c. split; [done|]. apply last_Some in E as [l ->]. apply Forall_app in Hw as [_ Hw].
    by apply Forall_cons in Hw as [? _].
  - apply Forall_cons in Hw as [_ Hw]. destruct (IH _ Hw) as (c & Hl & Hc). exists c. split; [|done].
    change (join [32%Z] (w :: w' :: ws)) with (w ++ [32%Z] ++ join [32%Z] (w' :: ws)).
    rewrite app_assoc, last_app, Hl. done.
Qed.

Lemma head_join w ws : word w → head (join [32%Z] (w :: ws)) = head w.
Proof. intros [Hne _]. destruct w as [|c w]; [done|]. by destruct ws. Qed.

(** A name is not changed when it is trimmed, and has one line. *)
Lemma name_trimmed ws : Forall word ws → trim (join [32%Z] ws) = join [32%Z] ws.
Proof.
  intros Hws. destruct ws as [|w ws]; [done|]. pose proof (last_join _ _ Hws) as (c & Hl & Hc).
  apply Forall_cons in Hws as [Hw _]. unfold trim. rewrite (drop_while_head _ (join _ _)).
  - rewrite (drop_while_head _ (reverse _)); [apply reverse_involutive|]. intros x.
    rewrite head_reverse, Hl. by intros [= <-].
  - intros x. rewrite head_join by done. destruct Hw as [_ Hw]. destruct w; [done|].
    intros [= <-]. by apply Forall_cons in Hw as [? _].
Qed.

Lemma name_single_line ws : Forall word ws → ws ≠ [] → length (lines (join [32%Z] ws)) = 1.
Proof.
  intros Hws Hne. rewrite lines_single; [done| |].
  - apply join_chars; [done|]. eapply Forall_impl; [exact Hws|]. intros w [_ Hw].
    eapply Forall_impl; [exact Hw|]. intros c Hc ->. done.
  - destruct ws as [|w ws]; [done|]. apply Forall_cons in Hws as [Hw _].
    pose proof (head_join w ws Hw) as Hh. destruct Hw as [Hne' _]. intros E. rewrite E in Hh.
    by destruct w.
Qed.

(** The name that the collector sends reads back as the same name. *)
Lemma node_name_round_trip s :
  NodeName_from_str (NodeName_fmt (NodeName_from_str s)) = NodeName_from_str s.
Proof.
  unfold NodeName_from_str, NodeName_fmt. cbn. f_equal. apply split_join, split_whitespace_words.
Qed.

(** ** Reports *)

Section reports.
Context `{!JsonExt, !CollectorExt}.

Lemma collect_data_name name host conf i :
  collect_data name host conf = Ok i → nodeName i = NodeName_fmt name.
Proof.
  unfold collect_data. intros Hc.
  repeat match goal with
         | H : (?m ≫= ?f) = Ok _ |- _ =>
           apply outcome_bind_ok in H; let x := fresh "x" in destruct H as (x & _ & H)
         end.
  by injection Hc as <-.
Qed.

(** A report of the collector passes the checks of the backend on single reports
    exactly when the configured name of the node has a visible character, is not too
    long and not banned, the node has an identifier, its ping and its number of peers
    are within the limits, and its version is not banned: the white space in a name
    can not have the report rejected. *)
Theorem collector_report_checks name host conf i v s :
  collect_data (NodeName_from_str name) host conf = Ok i →
  validate_info v s i = Ok tt ↔
    words (NodeName_from_str name) ≠ [] ∧ nodeId i ≠ []
    ∧ text_len (nodeName i) ≤ valid_node_name_lenght v
    ∧ match averagePing i with
      | Some avg_ping => F64.leb avg_ping (valid_node_average_ping v) = true
      | None => True
      end
    ∧ (peersCount i ≤ valid_node_peers_count v)%Z ∧ (client i ∉ banned_versions s)
    ∧ (nodeName i ∉ banned_node_names s).
Proof.
  intros Hi%collect_data_name. pose proof (split_whitespace_words name) as Hws.
  unfold NodeName_fmt, NodeName_from_str in Hi. cbn in Hi. unfold validate_info. rewrite Hi. clear Hi.
  rewrite name_trimmed by done. cbn. set (ws := split_whitespace name) in *.
  destruct (decide (ws = [])) as [E|Hne].
  { rewrite E. split; [discriminate|]. by intros [? _]. }
  assert (join [32%Z] ws ≠ []) as Hj.
  { intros E. pose proof (name_single_line ws Hws Hne) as Hl. by rewrite E in Hl. }
  unfold ensure. rewrite (bool_decide_eq_true_2 (join _ _ ≠ [])) by done.
  rewrite (bool_decide_eq_true_2 (length _ = 1)) by by apply name_single_line.
  destruct (averagePing i) as [ping|]; [destruct (F64.leb ping _)|];
    repeat (case_bool_decide; cbn); naive_solver.
Qed.

(** Nodes that cannot be asked do not affect the reports of the others. *)
Lemma collect_all_spec conf nodes :
  Forall (λ '(name, host), is_panic (collect_data name host conf) = false) nodes →
  (∀ i, is_panic (to_vec i) = false) → (∀ m, is_panic (post m) = false) →
  collect_all conf nodes = Ok (omap (λ '(name, host),
    match collect_data name host conf with
    | Ok i => match to_vec i with Ok m => Some m | _ => None end
    | _ => None
    end) nodes).
Proof.
  intros Hn Hv Hp. induction Hn as [|[name host] nodes Hd _ IH]; [done|]. cbn.
  destruct (collect_data name host conf) as [i|e|m]; [|by rewrite IH|done].
  specialize (Hv i). destruct (to_vec i) as [b|e|m]; [|by rewrite IH|done].
  specialize (Hp b). destruct (post b); try done; by rewrite IH.
Qed.
End reports.

(** ** An example *)
Module CollectorClientExample.
#[local] Instance toy_json : JsonExt := {|
  jvalue := text;
  from_str s := Ok s;
  jget v _ := v;
  as_str v := Some v;
  as_u64_json v := Some (Z.of_nat (length v));
  as_f64 _ := None;
  as_array _ := None;
|}.

Definition node : P2pClient := {|
  c_node_info := Ok (MkNodeInfoReply (Some (of_string "0000000000000007")) (of_string "Node")
                       NotInBakingCommittee false true None);
  c_peer_uptime := Ok 60000%Z;
  c_peer_version := Ok (of_string "5.1.0");
  c_consensus_status := Ok (of_string "{}");
  c_peer_stats := Ok (MkPeerStatsReply [MkPeerStat (of_string "0000000000000008") 20] 0 0);
  c_total_sent := Ok 3%Z;
  c_total_received := Ok 4%Z;
  c_get_ancestors _ _ := bail "no such block";
  c_get_block_info _ := Ok (of_string "{}");
|}.

#[local] Instance toy_collector : CollectorExt := {|
  valid_uri _ := true;
  connect _ := Ok node;
  valid_metadata _ := true;
  to_vec _ := Ok [1%Z];
  post _ := Ok tt;
|}.

Definition conf : ConfigCli := MkConfigCli (of_string "rpcadmin") [] [].
Definition state : CollectorStateData := MkCollectorStateData ∅ [] [].

(** A name with white space around it and a line break inside. *)
Definition name : text := [32; 65; 10; 9; 66; 13]%Z.

Lemma collector_report_checks_witness :
  ∃ i, collect_data (NodeName_from_str name) [] conf = Ok i
    ∧ validate_info ValidationConfig_default state i = Ok tt.
Proof.
  destruct (collect_data (NodeName_from_str name) [] conf) as [i|e|m] eqn:E;
    [|vm_compute in E; discriminate..].
  exists i. split; [reflexivity|].
  apply (collector_report_checks name [] conf i ValidationConfig_default state E).
  revert E. intros [= <-]. split_and!;
    [discriminate|discriminate|apply Nat.leb_le|..|discriminate| |]; try (vm_compute; reflexivity);
    intros H; inversion H.
Defined.
End CollectorClientExample.
