(* ===== verification/Rpc.v ===== *)
(** * Requests of operators

    Models the endpoints of [concordium-node/src/rpc.rs] (the first interface,
    protected by an access token) and [concordium-node/src/grpc2.rs] (the second
    one, with endpoints that are enabled one by one) that read or change the
    state of the node, and [close] of [p2p/maintenance.rs].  The
    queries that are passed on to consensus are in [Queries], [QueriesV1], [Streams]
    and [Relay]. *)
From S2P Require Import Prelude.
From S2P Require Import Status.
From S2P Require Import ServiceConfig.
From S2P Require Import PeerTypes.
From S2P Require Import IpText.
From S2P Require Import ConnParts.
From S2P Require Import NetTypes.
From S2P Require Import FfiHelpers.
From S2P Require Import CatchUp.
From S2P Require Import Config.
From S2P Require Import NodeState.
From S2P Require Import Bans.
From S2P Require Import Connectivity.
From S2P Require Import ConsensusPlugin.
From S2P Require Import Maintenance.
From S2P Require Import NodeExample.
From S2P Require Import NodeInvariant.
From S2P Require Import QueueThreads.
From S2P Require Import Container.
From Stdlib Require Import Ascii.

(** [as u16] and [u16::try_from] *)
Definition cast_u16 (x : Z) : u16 := wrap 16 x.
Definition u16_try_from (x : Z) : option u16 := if decide (fits 16 x) then Some x else None.

Section server.
Context `{!NodeExt}.

(** What the servers share: the node, and the handle to consensus, which may be
    missing. *)
Record Server := MkServer {
  srv_node : P2PNode;
  srv_consensus : option ConsensusContainer;
}.

Definition with_node (n : P2PNode) (s : Server) : Server := MkServer n (srv_consensus s).

Definition Rpc (A : Type) : Type := Server → Reply A * Server.

Definition reject {A} (c : Code) : Rpc A := λ s, (Status c, s).
Definition reply {A} (a : A) : Rpc A := λ s, (Value a, s).

(** Run an operation of the node; the reply depends on its result. *)
Definition on_node {A B} (m : ST P2PNode A) (k : A → Reply B) (on_err : Code) : Rpc B := λ s,
  match m (srv_node s) with
  | (Ok a, n) => (k a, with_node n s)
  | (Err _, n) => (Status on_err, with_node n s)
  | (Panic _, n) => (Crashed, with_node n s)
  end.

Definition is_network_stopped (s : Server) : bool := stop_network (regenesis (srv_node s)).

(** Refuse the request once the network has been stopped. *)
Definition unless_stopped {A} (k : Rpc A) : Rpc A := λ s,
  if is_network_stopped s then (Status FailedPrecondition, s) else k s.

(** [P2PNode::close]: the flag is set, then the stop messages are sent; [None] when
    a send has to wait. *)
Definition set_stop_network (n : P2PNode) : P2PNode :=
  with_regenesis (MkRegenesis _ (genesis_blocks_known (regenesis n)) (trigger_catchup (regenesis n))
    true) n.

Fixpoint send_all (sends : list (ConsensusQueues → option ConsensusQueues)) (q : ConsensusQueues) :
    ConsensusQueues * bool :=
  match sends with
  | [] => (q, true)
  | f :: sends =>
    match f q with
    | Some q => send_all sends q
    | None => (q, false)
    end
  end.

Definition close {A} (a : A) : Rpc A := λ s,
  let n := set_stop_network (srv_node s) in
  let '(q, done) := send_all ConsensusQueues_stop (callback_queue n) in
  (if done then Value a else NoReply, with_node (with_callback_queue q n) s).

(** The packet a transaction is sent to the peers as. *)
Definition transaction_packet (transaction : bytes) : ConsensusMessage :=
  MkConsensusMessage (Outbound None) Transaction (1%Z :: transaction) [] None.

(** The common part of [send_transaction] and [send_block_item]: [hash] is the value
    of the reply. *)
Definition submit {A} (consensus : Consensus) (transaction : bytes) (hash : option A) : Rpc A := λ s,
  if decide (PROTOCOL_MAX_TRANSACTION_SIZE < Z.of_nat (length transaction))%Z
  then (Status InvalidArgument, s)
  else match send_transaction consensus transaction with
       | Success =>
         let n := srv_node s in
         let '(sent, q) := send_out_message (transaction_packet transaction) (callback_queue n) in
         let s := with_node (with_callback_queue q n) s in
         if sent then (match hash with Some h => Value h | None => Status Internal end, s)
         else (Status Internal, s)
       | DuplicateEntry => (Status AlreadyExists, s)
       | _ => (Status InvalidArgument, s)
       end.

(** [u8::try_from] of the statuses, as listed in replies. *)
Definition catchup_status (s : Server) (id : RemotePeerId) : PeerStatus :=
  default Pending (peer_states (peers (srv_node s)) !! id).
End server.

(** ** The first interface *)

Module V1.
Record RpcServerImpl := MkRpcServerImpl {
  disable_node_endpoints : bool;
  access_token : list ascii;
}.

(** A peer in a reply; a banned one has no port. *)
Record PeerElement := MkPeerElement {
  pe_node_id : list ascii;
  pe_ip : IpAddr;
  pe_port : option Z;
  pe_catchup_status : PeerStatus;
}.

Section endpoints.
Context `{!NodeExt} (srv : RpcServerImpl).

(** [authenticate!]: the metadata has to carry the token. *)
Definition authenticate {A} (token : option (list ascii)) (k : Rpc A) : Rpc A :=
  match token with
  | Some t => if decide (t = access_token srv) then k else reject Unauthenticated
  | None => reject Unauthenticated
  end.

(** The checks an endpoint of the node begins with. *)
Definition node_endpoint {A} (token : option (list ascii)) (k : Rpc A) : Rpc A :=
  if disable_node_endpoints srv then reject Unimplemented else authenticate token k.

Definition parse_ip {A} (ip : option (list ascii)) (k : IpAddr → Rpc A) : Rpc A :=
  match ip with
  | Some s => match IpAddr_from_str s with Some a => k a | None => reject InvalidArgument end
  | None => reject InvalidArgument
  end.

Definition peer_connect (token : option (list ascii)) (ip : option (list ascii)) (port : option Z) :
    Rpc bool :=
  node_endpoint token (unless_stopped (parse_ip ip (λ ip,
    match port with
    | Some port => λ s,
      (Value true, with_node (register_conn_change
        (NewConn (MkSocketAddr ip (cast_u16 port)) Node true) (srv_node s)) s)
    | None => reject InvalidArgument
    end))).

Definition peer_disconnect (token : option (list ascii)) (ip : option (list ascii))
    (port : option Z) : Rpc bool :=
  node_endpoint token (unless_stopped (parse_ip ip (λ ip,
    match port with
    | Some port =>
      match u16_try_from port with
      | Some x => on_node (drop_addr (MkSocketAddr ip x)) Value Internal
      | None => reject InvalidArgument
      end
    | None => reject InvalidArgument
    end))).

Definition peer_total_received (token : option (list ascii)) : Rpc u64 :=
  node_endpoint token (λ s, reply (total_received (handler (srv_node s))) s).
Definition peer_total_sent (token : option (list ascii)) : Rpc u64 :=
  node_endpoint token (λ s, reply (total_sent (handler (srv_node s))) s).

Definition send_transaction (token : option (list ascii)) (consensus : Consensus)
    (transaction : bytes) : Rpc bool :=
  authenticate token (unless_stopped (λ s,
    match srv_consensus s with
    | Some _ => submit consensus transaction (Some true) s
    | None => (Status Internal, s)
    end)).

(** [join_network] and [leave_network] *)
Definition change_network (now : u64) (request : NetworkId → NetworkRequest)
    (token : option (list ascii)) (network_id : option Z) : Rpc bool :=
  node_endpoint token (unless_stopped (
    match network_id with
    | Some id =>
      if decide (0 < id < 100000)%Z
      then on_node (broadcast_network_request now (request (MkNetworkId (cast_u16 id))))
             (λ _, Value true) Internal
      else reject InvalidArgument
    | None => reject InvalidArgument
    end)).
Definition join_network (now : u64) := change_network now JoinNetwork.
Definition leave_network (now : u64) := change_network now LeaveNetwork.

Definition shown (include_bootstrappers : bool) (p : PeerStats) : bool :=
  match ps_peer_type p with
  | Node => true
  | Bootstrapper => include_bootstrappers
  end.

Definition peer_stats (token : option (list ascii)) (include_bootstrappers : bool) :
    Rpc (list (list ascii * u64 * u64 * u64) * u64 * u64) :=
  node_endpoint token (λ s,
    on_node (λ n, (get_peer_stats None n, n)) (λ l,
      Value ((λ p, (P2PNodeId_fmt (ps_self_id p), ps_msgs_sent p, ps_msgs_received p, ps_latency p))
               <$> filter (λ p, shown include_bootstrappers p) l,
             avg_bps_in (stats (srv_node s)), avg_bps_out (stats (srv_node s)))) Internal s).

Definition peer_list (token : option (list ascii)) (include_bootstrappers : bool) :
    Rpc (PeerType * list PeerElement) :=
  node_endpoint token (λ s,
    on_node (λ n, (get_peer_stats None n, n)) (λ l,
      Value (node_peer_type (srv_node s),
        (λ p, MkPeerElement (P2PNodeId_fmt (ps_self_id p)) (addr_ip (ps_addr p))
                (Some (addr_port (ps_addr p))) (catchup_status s (ps_local_id p)))
          <$> filter (λ p, shown include_bootstrappers p) l)) Internal s).

Definition ban_node (token : option (list ascii)) (node_id ip : option (list ascii)) : Rpc bool :=
  node_endpoint token (
    match node_id, ip with
    | Some node_id, None =>
      match RemotePeerId_from_str node_id with
      | Ok id => on_node (drop_by_id id) Value Aborted
      | _ => reject InvalidArgument
      end
    | None, Some ip =>
      match IpAddr_from_str ip with
      | Some ip => on_node (drop_by_ip_and_ban ip) Value Aborted
      | None => reject InvalidArgument
      end
    | _, _ => reject InvalidArgument
    end).

Definition unban_node (token : option (list ascii)) (ip : option (list ascii)) : Rpc bool :=
  node_endpoint token (
    match ip ≫= IpAddr_from_str with
    | Some ip => on_node (Bans.unban_node (PersistedIp ip)) (λ _, Value true) Aborted
    | None => reject InvalidArgument
    end).

(** A ban list that cannot be read is reported as empty. *)
Definition get_banned_peers (token : option (list ascii)) : Rpc (list PeerElement) :=
  node_endpoint token (λ s,
    match get_banlist (srv_node s) with
    | Ok l => (Value ((λ '(PersistedIp ip), MkPeerElement ["*"%char] ip None Pending) <$> l), s)
    | Err _ => (Value [], s)
    | Panic _ => (Crashed, s)
    end).

(** [call_consensus!] around [start_baker] and [stop_baker]; the pointer to consensus
    is not null once the container exists. *)
Definition call_container (op : ConsensusContainer → bool * ConsensusContainer)
    (token : option (list ascii)) : Rpc bool :=
  node_endpoint token (λ s,
    match srv_consensus s with
    | Some c => let '(r, c) := op c in (Value r, MkServer (srv_node s) (Some c))
    | None => (Status FailedPrecondition, s)
    end).
Definition rpc_start_baker := call_container start_baker.
Definition rpc_stop_baker := call_container stop_baker.

Definition shutdown (token : option (list ascii)) : Rpc bool := node_endpoint token (close true).

(** [dump_start] and [dump_stop] without the feature [network_dump]. *)
Definition dump (token : option (list ascii)) : Rpc bool := node_endpoint token (reject Unavailable).
End endpoints.
End V1.

(** ** The second interface *)

Module V2.
(** The consensus status of a peer in a reply. *)
Inductive ConsensusInfo := NodeCatchupStatus (s : PeerStatus) | IsBootstrapper.

Record Peer := MkPeer {
  peer_id : list ascii;
  socket_address : IpAddr * u16;
  consensus_info : ConsensusInfo;
  packets_sent : u64;
  packets_received : u64;
  latency : u64;
}.

Section endpoints.
Context `{!NodeExt} (cfg : ServiceConfig).

Definition enabled {A} (flag : ServiceConfig → bool) (k : Rpc A) : Rpc A :=
  if flag cfg then k else reject Unimplemented.

(** [field.require()?] *)
Definition require {A B} (field : option A) (k : A → Rpc B) : Rpc B :=
  match field with
  | Some a => k a
  | None => reject InvalidArgument
  end.

Definition parse_addr {A} (ip : option (list ascii)) (port : option Z) (k : SocketAddr → Rpc A) :
    Rpc A :=
  require ip (λ ip,
    match IpAddr_from_str ip with
    | Some ip => require port (λ port, k (MkSocketAddr ip (cast_u16 port)))
    | None => reject InvalidArgument
    end).

Definition shutdown : Rpc unit := enabled en_shutdown (close tt).

Definition peer_connect (ip : option (list ascii)) (port : option Z) : Rpc unit :=
  enabled en_peer_connect (unless_stopped (parse_addr ip port (λ addr s,
    (Value tt, with_node (register_conn_change (NewConn addr Node true) (srv_node s)) s)))).

Definition peer_disconnect (ip : option (list ascii)) (port : option Z) : Rpc unit :=
  enabled en_peer_disconnect (unless_stopped (parse_addr ip port (λ addr,
    on_node (drop_addr addr) (λ found : bool, if found then Value tt else Status NotFound) Internal))).

Definition get_banned_peers : Rpc (list IpAddr) :=
  enabled en_get_banned_peers (λ s,
    match get_banlist (srv_node s) with
    | Ok l => (Value ((λ '(PersistedIp ip), ip) <$> l), s)
    | Err _ => (Status Internal, s)
    | Panic _ => (Crashed, s)
    end).

Definition ban_peer (ip : option (list ascii)) : Rpc unit :=
  enabled en_ban_peer (require ip (λ ip,
    match IpAddr_from_str ip with
    | Some ip => on_node (drop_by_ip_and_ban ip) (λ _, Value tt) Internal
    | None => reject InvalidArgument
    end)).

Definition unban_peer (ip : option (list ascii)) : Rpc unit :=
  enabled en_unban_peer (require ip (λ ip,
    match IpAddr_from_str ip with
    | Some ip => on_node (Bans.unban_node (PersistedIp ip)) (λ _, Value tt) Internal
    | None => reject InvalidArgument
    end)).

(** Without the feature [network_dump]. *)
Definition dump_start : Rpc unit := enabled en_dump_start (reject FailedPrecondition).
Definition dump_stop : Rpc unit := enabled en_dump_stop (reject FailedPrecondition).

Definition get_peers_info : Rpc (list Peer) :=
  enabled en_get_peers_info (λ s,
    on_node (λ n, (get_peer_stats None n, n)) (λ l,
      Value ((λ p, MkPeer (P2PNodeId_fmt (ps_self_id p))
        (addr_ip (PeerStats_external_address p), ps_external_port p)
        (match ps_peer_type p with
         | Node => NodeCatchupStatus (catchup_status s (ps_local_id p))
         | Bootstrapper => IsBootstrapper
         end) (ps_msgs_sent p) (ps_msgs_received p) (ps_latency p)) <$> l)) Internal s).

(** [send_block_item]; the bytes of the item are what [get_v0_format] makes of the
    request, and consensus may return a hash for it. *)
Definition send_block_item (consensus : Consensus) (hash_of : bytes → option bytes)
    (item : Reply bytes) : Rpc bytes :=
  enabled en_send_block_item (unless_stopped (
    match item with
    | Value transaction => submit consensus transaction (hash_of transaction)
    | Status c => reject c
    | Crashed => λ s, (Crashed, s)
    | NoReply => λ s, (NoReply, s)
    end)).
End endpoints.
End V2.

(** ** What requests may do *)

Section requests.
Context `{!NodeExt}.
Implicit Types s : Server.

(** The request was turned away and nothing changed. *)
Definition refused {A} s (r : Reply A * Server) : Prop :=
  (r.1 = Status Unauthenticated ∨ r.1 = Status Unimplemented) ∧ r.2 = s.

Lemma node_endpoint_refused {A} srv token (k : Rpc A) s :
  token ≠ Some (V1.access_token srv) → refused s (V1.node_endpoint srv token k s).
Proof.
  intros Ht. unfold V1.node_endpoint, V1.authenticate, refused.
  destruct (V1.disable_node_endpoints srv); [by auto|].
  destruct token; [rewrite decide_False by congruence|]; by auto.
Qed.

Lemma enabled_refused {A} cfg flag (k : Rpc A) s :
  flag cfg = false → refused s (V2.enabled cfg flag k s).
Proof. intros Hf. unfold V2.enabled, refused. rewrite Hf. by auto. Qed.

(** A request of either interface. *)
Inductive request_step s : Server → Prop :=
  | req1_peer_connect srv token ip port : request_step s (V1.peer_connect srv token ip port s).2
  | req1_peer_disconnect srv token ip port :
      request_step s (V1.peer_disconnect srv token ip port s).2
  | req1_send_transaction srv token consensus tx :
      request_step s (V1.send_transaction srv token consensus tx s).2
  | req1_join srv now token id : request_step s (V1.join_network srv now token id s).2
  | req1_leave srv now token id : request_step s (V1.leave_network srv now token id s).2
  | req1_peer_stats srv token b : request_step s (V1.peer_stats srv token b s).2
  | req1_peer_list srv token b : request_step s (V1.peer_list srv token b s).2
  | req1_ban srv token id ip : request_step s (V1.ban_node srv token id ip s).2
  | req1_unban srv token ip : request_step s (V1.unban_node srv token ip s).2
  | req1_banned srv token : request_step s (V1.get_banned_peers srv token s).2
  | req1_start_baker srv token : request_step s (V1.rpc_start_baker srv token s).2
  | req1_stop_baker srv token : request_step s (V1.rpc_stop_baker srv token s).2
  | req1_shutdown srv token : request_step s (V1.shutdown srv token s).2
  | req2_shutdown cfg : request_step s (V2.shutdown cfg s).2
  | req2_peer_connect cfg ip port : request_step s (V2.peer_connect cfg ip port s).2
  | req2_peer_disconnect cfg ip port : request_step s (V2.peer_disconnect cfg ip port s).2
  | req2_banned cfg : request_step s (V2.get_banned_peers cfg s).2
  | req2_ban cfg ip : request_step s (V2.ban_peer cfg ip s).2
  | req2_unban cfg ip : request_step s (V2.unban_peer cfg ip s).2
  | req2_peers_info cfg : request_step s (V2.get_peers_info cfg s).2
  | req2_send_block_item cfg consensus h item :
      request_step s (V2.send_block_item cfg consensus h item s).2.

(** Requests act on the node through steps of the node. *)
Definition steps s s' : Prop := rtc node_step (srv_node s) (srv_node s').

Lemma steps_refl s : steps s s.
Proof. apply rtc_refl. Qed.

Lemma on_node_steps {A B} (m : ST P2PNode A) (k : A → Reply B) c s :
  rtc node_step (srv_node s) (m (srv_node s)).2 → steps s (on_node m k c s).2.
Proof. unfold steps, on_node. by destruct (m (srv_node s)) as [[] ?]. Qed.

Lemma unless_stopped_steps {A} (k : Rpc A) s : steps s (k s).2 → steps s (unless_stopped k s).2.
Proof. unfold unless_stopped. destruct (is_network_stopped s); [intros; apply steps_refl|done]. Qed.

Lemma node_endpoint_steps {A} srv token (k : Rpc A) s :
  steps s (k s).2 → steps s (V1.node_endpoint srv token k s).2.
Proof.
  intros Hk. unfold V1.node_endpoint, V1.authenticate. destruct (V1.disable_node_endpoints srv);
    [apply steps_refl|]. destruct token; [case_decide|]; (done || apply steps_refl).
Qed.

Lemma enabled_steps {A} cfg flag (k : Rpc A) s : steps s (k s).2 → steps s (V2.enabled cfg flag k s).2.
Proof. unfold V2.enabled. destruct (flag cfg); [done|intros; apply steps_refl]. Qed.

Lemma close_steps {A} (a : A) s : steps s (close a s).2.
Proof.
  unfold close. destruct (send_all _ _) as [q b]. simpl. unfold steps. simpl.
  eapply rtc_l; [apply (step_regenesis (srv_node s))|]. apply rtc_once, step_queues.
Qed.

Lemma submit_steps {A} consensus tx (h : option A) s : steps s (submit consensus tx h s).2.
Proof.
  unfold submit. case_decide; [apply steps_refl|].
  destruct (send_transaction consensus tx); try apply steps_refl.
  destruct (send_out_message _ _) as [[] q]; [destruct h|]; apply rtc_once, step_queues.
Qed.

Lemma connect_steps {A} addr (a : A) s :
  steps s (Value a, with_node (register_conn_change (NewConn addr Node true) (srv_node s)) s).2.
Proof. apply rtc_once, step_connect_requested. Qed.

Lemma read_only_steps {A B} (f : P2PNode → outcome A) (k : A → Reply B) c s :
  steps s (on_node (λ n, (f n, n)) k c s).2.
Proof. apply on_node_steps, rtc_refl. Qed.

(** Case analysis on the fields of a request. *)
Ltac steps :=
  repeat match goal with
  | |- steps ?s (match ?x with _ => _ end ?s).2 => destruct x
  | |- steps _ (match ?x with _ => _ end).2 => destruct x
  | |- steps ?s (on_node _ _ _ ?s).2 => apply on_node_steps, rtc_once
  end; try apply steps_refl; try apply rtc_refl; eauto using node_step.

(** Whatever operators request through either interface, valid or not, what becomes of
    the node is a sequence of its steps, so that it stays within its invariant. *)
Lemma request_step_steps s s' : request_step s s' → steps s s'.
Proof.
  destruct 1;
    try apply node_endpoint_steps; try apply enabled_steps; try apply unless_stopped_steps;
    try apply close_steps; try apply read_only_steps; try apply steps_refl;
    unfold V1.parse_ip, V2.parse_addr, V2.require; steps; try apply connect_steps.
  - unfold V1.send_transaction, V1.authenticate. steps.
    apply unless_stopped_steps. steps. apply submit_steps.
  - apply submit_steps.
Qed.

(** A transaction that is submitted is put into the queue to the peers, once,
    exactly when it is within the size limit, consensus accepts it and the queue
    has room; only then may the reply be a success, and the consensus library
    does not see transactions above the limit. *)
Lemma transaction_submitted {A} consensus tx (h : option A) s :
  let q := callback_queue (srv_node s) in
  let fits := bool_decide (Z.of_nat (length tx) ≤ PROTOCOL_MAX_TRANSACTION_SIZE)%Z in
  let room := bool_decide (Z.of_nat (length (outbound_low q)) < CONSENSUS_QUEUE_DEPTH_OUT_LO)%Z in
  let r := submit consensus tx h s in
  if fits && bool_decide (send_transaction consensus tx = Success) && room then
    r.2 = with_node (with_callback_queue (MkConsensusQueues (inbound_high q) (inbound_low q)
            (outbound_high q) (outbound_low q ++ [Relay (transaction_packet tx)])) (srv_node s)) s
    ∧ ∀ a, h = Some a → r.1 = Value a
  else r.2 = with_node (with_callback_queue q (srv_node s)) s ∧ ∃ c, r.1 = Status c.
Proof.
  intros q fits room r.
  assert (with_node (with_callback_queue q (srv_node s)) s = s) as Hs by by destruct s as [[] ?].
  unfold r, submit, fits, room. case_decide as Hlen.
  { rewrite bool_decide_false by lia. simpl. rewrite Hs. by eauto. }
  rewrite (bool_decide_true (_ ≤ _)%Z) by lia. cbn [andb]. fold q.
  destruct (send_transaction consensus tx);
    try (rewrite bool_decide_false by done; simpl; rewrite Hs; by eauto).
  rewrite bool_decide_true by done. cbn [andb]. unfold send_out_message, try_send.
  case_decide; [rewrite bool_decide_true by lia|rewrite bool_decide_false by lia]; simpl.
  - destruct h; split; (done || by intros ? [= ->]).
  - destruct q. simpl. by eauto.
Qed.

(** The port of a connection request is cut off to 16 bits, while the port of a
    disconnection request has to be in range. *)
Lemma connect_port_truncated srv ip s :
  V1.disable_node_endpoints srv = false → is_network_stopped s = false →
  (V1.peer_connect srv (Some (V1.access_token srv)) (Some (Ipv4Addr_fmt ip)) (Some 74424%Z) s).2
  = (V1.peer_connect srv (Some (V1.access_token srv)) (Some (Ipv4Addr_fmt ip)) (Some 8888%Z) s).2
  ∧ (V1.peer_disconnect srv (Some (V1.access_token srv)) (Some (Ipv4Addr_fmt ip)) (Some 74424%Z) s).1
    = Status InvalidArgument.
Proof.
  intros Hd Hs.
  unfold V1.peer_connect, V1.peer_disconnect, V1.node_endpoint, V1.authenticate, unless_stopped.
  rewrite Hd, !decide_True by done. cbv beta iota. rewrite !Hs. unfold V1.parse_ip.
  destruct (IpAddr_from_str (Ipv4Addr_fmt ip)); [|done].
  assert (cast_u16 74424 = cast_u16 8888) as -> by reflexivity.
  by assert (u16_try_from 74424 = None) as -> by reflexivity.
Qed.
End requests.

(** *** An example *)

Module RpcExample.
Import NodeExample.

Definition srv : V1.RpcServerImpl := V1.MkRpcServerImpl false ["s"%char].
Definition server : Server := MkServer node3 None.
End RpcExample.
