(* ===== verification/Foreign.v ===== *)
(** * Values that cross the boundary to the consensus library

    Models the conversions of [concordium-node/src/grpc2.rs] (module [types]) that
    turn the fields of a request into tags and pointers, and the decoders of
    [concordium-consensus/src/Concordium/External/GRPC2.hs] that read them on the
    other side.  A pointer is modelled by the memory it points to; reading
    beyond that memory is undefined behaviour, which the model makes a panic. *)
From S2P Require Import Prelude.
From S2P Require Import Status.
From S2P Require Import FfiHelpers.

Inductive ptr :=
  | Null
  | ToBytes (bs : bytes)
  | ToU64 (x : u64).

#[global] Instance ptr_eq_dec : EqDecision ptr.
Proof. solve_decision. Defined.

(** [copyBytes] and [packCStringLen]: read [n] octets. *)
Definition read_bytes (p : ptr) (n : nat) : outcome bytes :=
  match p with
  | ToBytes bs => if decide (n ≤ length bs) then Ok (take n bs) else Panic "undefined behaviour"
  | _ => Panic "undefined behaviour"
  end.

(** [peek] of a word *)
Definition read_u64 (p : ptr) : outcome u64 :=
  match p with
  | ToU64 x => Ok x
  | _ => Panic "undefined behaviour"
  end.

(** [slice::from_raw_parts(data, len as usize)] *)
Definition from_raw_parts (p : ptr) (len : i64) : outcome bytes :=
  match p with
  | ToBytes bs =>
    if decide (as_u64 len ≤ Z.of_nat (length bs))%Z then Ok (take (Z.to_nat (as_u64 len)) bs)
    else Panic "undefined behaviour"
  | _ => Panic "undefined behaviour"
  end.

Lemma from_raw_parts_whole bs :
  fits 63 (Z.of_nat (length bs)) → from_raw_parts (ToBytes bs) (Z.of_nat (length bs)) = Ok bs.
Proof.
  intros Hl. unfold from_raw_parts, as_u64. rewrite wrap_small by (unfold fits in *; lia).
  rewrite decide_True by lia. by rewrite Nat2Z.id, firstn_all.
Qed.

(** ** Fields of requests

    The types are generated from the protobuf definitions.  A message with the
    single field [value] is represented by that field; a choice of fields may be
    missing as a whole. *)

Inductive block_hash_input := Best | LastFinal | Given (h : bytes).
Abbreviation BlockHashInput := (option block_hash_input) (only parsing).

Inductive account_identifier_input :=
  | Address (addr : bytes)
  | CredId (cred_id : bytes)
  | AccountIndex (ai : u64).
Abbreviation AccountIdentifierInput := (option account_identifier_input) (only parsing).

Record ContractAddress := MkContractAddress { ca_index : u64; ca_subindex : u64 }.

Inductive blocks_at_height :=
  | Absolute (height : option u64)
  | Relative (genesis_index : option u32) (height : option u64) (restrict : bool).
Abbreviation BlocksAtHeightRequest := (option blocks_at_height) (only parsing).

Inductive address := AddrAccount (a : bytes) | AddrContract (c : ContractAddress).

Record InvokeInstanceRequest := MkInvokeInstanceRequest {
  ii_block_hash : option BlockHashInput;
  ii_invoker : option (option address);
  ii_instance : option ContractAddress;
  ii_amount : option u64;
  ii_entrypoint : option (list Z);
  ii_parameter : option bytes;
  ii_energy : option u64;
}.

(** ** From Rust *)

Definition account_address_to_ffi (address : bytes) : option ptr :=
  if decide (length address = 32) then Some (ToBytes address) else None.

Definition account_identifier_to_ffi (ai : AccountIdentifierInput) : option (u8 * ptr) :=
  ai ← ai;
  match ai with
  | Address addr => if decide (length addr = 32) then Some (0%Z, ToBytes addr) else None
  | CredId cred_id => if decide (length cred_id = 48) then Some (1%Z, ToBytes cred_id) else None
  | AccountIndex ai => Some (2%Z, ToU64 ai)
  end.

Definition block_hash_input_to_ffi (bhi : BlockHashInput) : option (u8 * ptr) :=
  bhi ← bhi;
  match bhi with
  | Best => Some (0%Z, Null)
  | LastFinal => Some (1%Z, Null)
  | Given bh => if decide (length bh = 32) then Some (2%Z, ToBytes bh) else None
  end.

Definition module_reference_to_ffi (module_ref : bytes) : option ptr :=
  if decide (length module_ref = 32) then Some (ToBytes module_ref) else None.

Definition transaction_hash_to_ffi (transaction_hash : bytes) : option ptr :=
  if decide (length transaction_hash = 32) then Some (ToBytes transaction_hash) else None.

(** The text of a name is given by its octets. *)
Definition receive_name_to_ffi (receive_name : bytes) : option (ptr * u32) :=
  if forallb (λ c, bool_decide (c < 128)%Z) receive_name && bool_decide (length receive_name ≤ 100)
  then Some (ToBytes receive_name, Z.of_nat (length receive_name)) else None.

Definition baker_id_to_ffi (baker_id : u64) : u64 := baker_id.

Definition blocks_at_height_request_to_ffi (height : BlocksAtHeightRequest) :
    option (u64 * u32 * u8) :=
  h ← height;
  match h with
  | Absolute height => height ← height; Some (height, 0%Z, 0%Z)
  | Relative genesis_index height restrict =>
    height ← height;
    genesis_index ← genesis_index;
    Some (height, genesis_index, if restrict : bool then 1%Z else 0%Z)
  end.

(** ** To Haskell *)

Module Hs.
Inductive BlockHashInput := BHIBest | BHILastFinal | BHIGiven (h : bytes).
Inductive AccountIdentifier := AccAddress (a : bytes) | CredRegID (c : bytes) | AccIndex (i : u64).
Inductive Address := AddressAccount (a : bytes) | AddressContract (c : ContractAddress).

Record ContractContext := MkContractContext {
  ccInvoker : option Address;
  ccContract : ContractAddress;
  ccAmount : u64;
  ccMethod : bytes;
  ccParameter : bytes;
  ccEnergy : u64;
}.

Definition decodeBlockHashInput (t : u8) (hsh : ptr) : outcome BlockHashInput :=
  match t with
  | 0%Z => Ok BHIBest
  | 1%Z => Ok BHILastFinal
  | _ => h ← read_bytes hsh 32; Ok (BHIGiven h)
  end.

Definition decodeAccountAddress (accPtr : ptr) : outcome bytes := read_bytes accPtr 32.
Definition decodeTransactionHashInput (hsh : ptr) : outcome bytes := read_bytes hsh 32.
Definition decodeModuleRefInput (modRef : ptr) : outcome bytes := read_bytes modRef 32.

(** [decodeReceiveName]; the octets are those of a text. *)
Definition decodeReceiveName (p : ptr) (len : u32) : outcome bytes := read_bytes p (Z.to_nat len).

Section decode.
(** [S.decode] of a credential registration identifier: whether it is accepted. *)
Context (valid_cred : bytes → bool).

Definition decodeAccountIdentifierInput (t : u8) (dta : ptr) : outcome AccountIdentifier :=
  match t with
  | 0%Z => a ← decodeAccountAddress dta; Ok (AccAddress a)
  | 1%Z =>
    bs ← read_bytes dta 48;
    if valid_cred bs then Ok (CredRegID bs) else Panic "Precondition violation in FFI call"
  | 2%Z => i ← read_u64 dta; Ok (AccIndex i)
  | _ => Panic "Unknown account identifier tag"
  end.
End decode.
End Hs.

(** ** The conversions are inverse to each other *)

(** What a field of a request denotes; nothing when it is malformed. *)
Definition block_of (bhi : BlockHashInput) : option Hs.BlockHashInput :=
  bhi ← bhi;
  match bhi with
  | Best => Some Hs.BHIBest
  | LastFinal => Some Hs.BHILastFinal
  | Given bh => if decide (length bh = 32) then Some (Hs.BHIGiven bh) else None
  end.

Definition account_of (ai : AccountIdentifierInput) : option Hs.AccountIdentifier :=
  ai ← ai;
  match ai with
  | Address a => if decide (length a = 32) then Some (Hs.AccAddress a) else None
  | CredId c => if decide (length c = 48) then Some (Hs.CredRegID c) else None
  | AccountIndex i => Some (Hs.AccIndex i)
  end.

Lemma read_bytes_whole bs n : length bs = n → read_bytes (ToBytes bs) n = Ok bs.
Proof. intros <-. unfold read_bytes. by rewrite decide_True, firstn_all. Qed.

Lemma block_marshalled bhi :
  match block_hash_input_to_ffi bhi with
  | Some (t, p) => ∃ b, block_of bhi = Some b ∧ Hs.decodeBlockHashInput t p = Ok b
  | None => block_of bhi = None
  end.
Proof.
  destruct bhi as [[| |h]|]; simpl; [by eauto..| |done]. case_decide; [|done].
  eexists. split; [done|]. cbn [Hs.decodeBlockHashInput]. by rewrite read_bytes_whole.
Qed.

Lemma account_marshalled valid ai :
  match account_identifier_to_ffi ai with
  | Some (t, p) => ∃ a, account_of ai = Some a
      ∧ Hs.decodeAccountIdentifierInput valid t p
        = match a with
          | Hs.CredRegID c => if valid c then Ok a else Panic "Precondition violation in FFI call"
          | _ => Ok a
          end
  | None => account_of ai = None
  end.
Proof.
  destruct ai as [[a|c|i]|]; simpl; [case_decide; [|done]..|by eauto|done]; eexists; (split; [done|]);
    cbn [Hs.decodeAccountIdentifierInput]; unfold Hs.decodeAccountAddress;
    by rewrite read_bytes_whole.
Qed.

Lemma receive_name_marshalled name p len :
  receive_name_to_ffi name = Some (p, len) → Hs.decodeReceiveName p len = Ok name.
Proof.
  unfold receive_name_to_ffi. case_match; [|done]. intros [= <- <-].
  unfold Hs.decodeReceiveName. rewrite Nat2Z.id. by apply read_bytes_whole.
Qed.
