(* ===== verification/Queries.v ===== *)
(** * Queries with a single answer

    Models the queries of the second interface from the endpoint to the consensus
    library and back: the endpoints of [concordium-node/src/grpc2.rs], the methods
    of [ConsensusContainer] in [consensus_ffi/ffi.rs] that call the library, and
    the functions that
    [concordium-consensus/src/Concordium/External/GRPC2.hs] exports to them.  What
    the library answers ([Concordium.Queries]) is a parameter, as are the
    encoding of its answers and the metadata of a response. *)
From S2P Require Import Prelude.
From S2P Require Import Status.
From S2P Require Import ServiceConfig.
From S2P Require Import FfiHelpers.
From S2P Require Import Foreign.
From Stdlib Require Import Ascii.

(** An encoded message; its length is an [Int] of Haskell. *)
Record message := MkMessage {
  msg_bytes : bytes;
  msg_size : bool_decide (fits 63 (Z.of_nat (length msg_bytes))) = true;
}.

(** What the library knows, at the time of the query.  Where an answer has to be
    converted first, [Some None] says that the conversion failed. *)
Class QueryExt := {
  valid_cred : bytes → bool;
  Q_getAccountInfo : Hs.BlockHashInput → Hs.AccountIdentifier → bytes * option message;
  Q_getModuleSource : Hs.BlockHashInput → bytes → bytes * option message;
  Q_getInstanceInfo : Hs.BlockHashInput → ContractAddress → bytes * option message;
  Q_getNextAccountNonce : bytes → message;
  Q_getConsensusStatus : message;
  Q_getTransactionStatus : bytes → option (option message);
  Q_invokeContract : Hs.BlockHashInput → Hs.ContractContext → bytes * option (option message);
  Q_getBlockInfo : Hs.BlockHashInput → bytes * option message;
  Q_getPoolStatus : Hs.BlockHashInput → option u64 → bytes * option (message + message);
  Q_getBlocksAtHeight : u64 → u32 → bool → message;
  Q_getRewardStatus : Hs.BlockHashInput → bytes * option message;
  Q_getBranches : message;
  Q_getBlockBirkParameters : Hs.BlockHashInput → bytes * option (option message);
  Q_getNextUpdateSequenceNumbers : Hs.BlockHashInput → bytes * option message;
  Q_getBlockChainParameters : Hs.BlockHashInput → bytes * option message;
  Q_getBlockFinalizationSummary : Hs.BlockHashInput → bytes * option message;
  (** The state of a contract of version 1 and its operations. *)
  v1_state : Type;
  v1_lookup : v1_state → bytes → option bytes;
  v1_entries : v1_state → list (bytes * bytes);
  Q_getInstanceState : Hs.BlockHashInput → ContractAddress → bytes * option (message + v1_state);
  (** Cryptographic parameters and their fields in a reply. *)
  crypto_parameters : Type;
  crypto_fields : crypto_parameters → bytes * bytes * bytes;
  Q_getCryptographicParameters : Hs.BlockHashInput → bytes * option crypto_parameters;
  (** [MetadataValue::try_from(hex::encode(hash))] *)
  hash_metadata : bytes → option (list ascii);
}.

(** ** The out-parameters of a call *)

Record Out := MkOut { out_hash : bytes; out_data : bytes }.

(** [[0u8; 32]] and [Vec::new()] *)
Definition Out_new : Out := MkOut (replicate 32 0%Z) [].

Definition copy_to_vec_callback (out : bytes) (data : ptr) (len : i64) : outcome bytes :=
  data ← from_raw_parts data len;
  Ok (out ++ data).

(** The functions the library exports. *)
Module Exported.
Abbreviation Ex := (ST Out) (only parsing).

Inductive QueryResult := QRInvalidArgument | QRInternalError | QRSuccess | QRNotFound.

Definition queryResultCode (r : QueryResult) : i64 :=
  match r with
  | QRInvalidArgument => -2
  | QRInternalError => -1
  | QRSuccess => 0
  | QRNotFound => 1
  end.

Definition copyHashTo (bh : bytes) : Ex unit := st_modify (λ o, MkOut bh (out_data o)).

(** [unsafeUseAsCStringLen encoded (copier outVec)] *)
Definition copier (m : message) : Ex unit :=
  o ← st_get;
  data ← st_lift (copy_to_vec_callback (out_data o) (ToBytes (msg_bytes m))
                    (Z.of_nat (length (msg_bytes m))));
  st_modify (λ o, MkOut (out_hash o) data).

Definition return_code (r : QueryResult) : Ex i64 := mret (queryResultCode r).

Definition returnMessage (res : option message) : Ex i64 :=
  match res with
  | None => return_code QRNotFound
  | Some v => copier v ;; return_code QRSuccess
  end.

Definition returnMessageWithBlock (r : bytes * option message) : Ex i64 :=
  copyHashTo r.1 ;; returnMessage r.2.

Section exports.
Context `{!QueryExt}.

Definition decode_block (t : u8) (p : ptr) : Ex Hs.BlockHashInput :=
  st_lift (Hs.decodeBlockHashInput t p).

Definition getAccountInfoV2 blockType blockHashPtr accIdType accIdBytesPtr : Ex i64 :=
  bhi ← decode_block blockType blockHashPtr;
  ai ← st_lift (Hs.decodeAccountIdentifierInput valid_cred accIdType accIdBytesPtr);
  returnMessageWithBlock (Q_getAccountInfo bhi ai).

Definition getModuleSourceV2 blockType blockHashPtr moduleRefPtr : Ex i64 :=
  bhi ← decode_block blockType blockHashPtr;
  modRef ← st_lift (Hs.decodeModuleRefInput moduleRefPtr);
  returnMessageWithBlock (Q_getModuleSource bhi modRef).

Definition getInstanceInfoV2 blockType blockHashPtr addrIndex addrSubindex : Ex i64 :=
  bhi ← decode_block blockType blockHashPtr;
  returnMessageWithBlock (Q_getInstanceInfo bhi (MkContractAddress addrIndex addrSubindex)).

Definition getNextAccountSequenceNumberV2 accPtr : Ex i64 :=
  accountAddress ← st_lift (Hs.decodeAccountAddress accPtr);
  returnMessage (Some (Q_getNextAccountNonce accountAddress)).

Definition getConsensusInfoV2 : Ex i64 := returnMessage (Some Q_getConsensusStatus).

(** The conversion of the answer may fail. *)
Definition return_converted (res : option (option message)) : Ex i64 :=
  match res with
  | None => return_code QRNotFound
  | Some None => return_code QRInternalError
  | Some (Some t) => copier t ;; return_code QRSuccess
  end.

Definition getBlockItemStatusV2 trxHashPtr : Ex i64 :=
  trxHash ← st_lift (Hs.decodeTransactionHashInput trxHashPtr);
  return_converted (Q_getTransactionStatus trxHash).

Definition invokeInstanceV2 blockIdType blockIdPtr contractIndex contractSubindex
    (invokerAddressType : u8) invokerAccountAddressPtr invokerContractIndex invokerContractSubindex
    amount receiveNamePtr receiveNameLen parameterPtr parameterLen energy : Ex i64 :=
  block ← decode_block blockIdType blockIdPtr;
  maybeInvoker ← st_lift (match invokerAddressType with
    | 0%Z => Ok None
    | 1%Z => a ← Hs.decodeAccountAddress invokerAccountAddressPtr; Ok (Some (Hs.AddressAccount a))
    | _ => Ok (Some (Hs.AddressContract
             (MkContractAddress invokerContractIndex invokerContractSubindex)))
    end);
  method ← st_lift (Hs.decodeReceiveName receiveNamePtr receiveNameLen);
  parameter ← st_lift (read_bytes parameterPtr (Z.to_nat parameterLen));
  let context := Hs.MkContractContext maybeInvoker
    (MkContractAddress contractIndex contractSubindex) amount method parameter energy in
  let '(bh, result) := Q_invokeContract block context in
  copyHashTo bh ;; return_converted result.

Definition getBlockInfoV2 blockType blockHashPtr : Ex i64 :=
  bhi ← decode_block blockType blockHashPtr; returnMessageWithBlock (Q_getBlockInfo bhi).

Definition getPoolInfoV2 blockType blockHashPtr bakerId : Ex i64 :=
  bhi ← decode_block blockType blockHashPtr;
  let '(bh, status) := Q_getPoolStatus bhi (Some bakerId) in
  copyHashTo bh ;;
  match status with
  | Some (inl proto) => copier proto ;; return_code QRSuccess
  | _ => return_code QRNotFound
  end.

Definition getPassiveDelegationInfoV2 blockType blockHashPtr : Ex i64 :=
  bhi ← decode_block blockType blockHashPtr;
  let '(bh, status) := Q_getPoolStatus bhi None in
  copyHashTo bh ;;
  match status with
  | Some (inr proto) => copier proto ;; return_code QRSuccess
  | _ => return_code QRNotFound
  end.

Definition getBlocksAtHeightV2 height genIndex (restrict : u8) : Ex i64 :=
  copier (Q_getBlocksAtHeight height genIndex (bool_decide (restrict ≠ 0%Z))) ;;
  return_code QRSuccess.

Definition getTokenomicsInfoV2 blockType blockHashPtr : Ex i64 :=
  bhi ← decode_block blockType blockHashPtr; returnMessageWithBlock (Q_getRewardStatus bhi).

Definition getBranchesV2 : Ex i64 := returnMessage (Some Q_getBranches).

Definition getElectionInfoV2 blockType blockHashPtr : Ex i64 :=
  bhi ← decode_block blockType blockHashPtr;
  let '(bh, maybeInfo) := Q_getBlockBirkParameters bhi in
  copyHashTo bh ;; return_converted maybeInfo.

Definition getNextUpdateSequenceNumbersV2 blockType blockHashPtr : Ex i64 :=
  bhi ← decode_block blockType blockHashPtr;
  returnMessageWithBlock (Q_getNextUpdateSequenceNumbers bhi).

Definition getBlockChainParametersV2 blockType blockHashPtr : Ex i64 :=
  bhi ← decode_block blockType blockHashPtr;
  returnMessageWithBlock (Q_getBlockChainParameters bhi).

Definition getBlockFinalizationSummaryV2 blockType blockHashPtr : Ex i64 :=
  bhi ← decode_block blockType blockHashPtr;
  returnMessageWithBlock (Q_getBlockFinalizationSummary bhi).
End exports.
End Exported.

(** ** The methods of [ConsensusContainer] *)

(** [.try_into()?] of a response code *)
Definition query_response (code : i64) : Reply ConsensusQueryResponse :=
  match ConsensusQueryResponse_try_from code with
  | Ok r => Value r
  | _ => Status Internal
  end.

(** Call an exported function with fresh out-parameters; undefined behaviour and
    exceptions inside the library end the program. *)
Definition call (f : ST Out i64) : Reply (ConsensusQueryResponse * Out) :=
  match f Out_new with
  | (Ok code, o) => response ← query_response code; Value (response, o)
  | _ => Crashed
  end.

(** Both out-parameters are returned when the response is good. *)
Definition call_with_hash (f : ST Out i64) : Reply (bytes * bytes) :=
  '(response, o) ← call f;
  ConsensusQueryResponse_ensure_ok response ;;
  Value (out_hash o, out_data o).

(** Only the data is returned, whatever the response says. *)
Definition call_unchecked (f : ST Out i64) : Reply bytes :=
  '(_, o) ← call f; Value (out_data o).

Section container.
Context `{!QueryExt}.
Import Exported.

Definition require_block (block_hash : BlockHashInput) : Reply (u8 * ptr) :=
  require (block_hash_input_to_ffi block_hash).

(** A query that takes nothing but a block. *)
Definition block_query (f : u8 → ptr → ST Out i64) (block_hash : BlockHashInput) :
    Reply (bytes * bytes) :=
  '(block_id_type, block_id) ← require_block block_hash;
  call_with_hash (f block_id_type block_id).

Definition get_account_info_v2 (block_hash : BlockHashInput) (account : AccountIdentifierInput) :
    Reply (bytes * bytes) :=
  '(block_id_type, block_hash) ← require_block block_hash;
  '(acc_type, acc_id) ← require (account_identifier_to_ffi account);
  call_with_hash (getAccountInfoV2 block_id_type block_hash acc_type acc_id).

Definition get_next_account_sequence_number_v2 (account_address : bytes) : Reply bytes :=
  account_address_ptr ← require (account_address_to_ffi account_address);
  call_unchecked (getNextAccountSequenceNumberV2 account_address_ptr).

Definition get_consensus_info_v2 : Reply bytes := call_unchecked getConsensusInfoV2.

Definition get_module_source_v2 (block_hash : BlockHashInput) (module_ref : bytes) :
    Reply (bytes * bytes) :=
  '(block_id_type, block_id) ← require_block block_hash;
  module_ref_ptr ← require (module_reference_to_ffi module_ref);
  call_with_hash (getModuleSourceV2 block_id_type block_id module_ref_ptr).

Definition get_instance_info_v2 (block_hash : BlockHashInput) (address : ContractAddress) :
    Reply (bytes * bytes) :=
  '(block_id_type, block_hash) ← require_block block_hash;
  call_with_hash (getInstanceInfoV2 block_id_type block_hash (ca_index address)
                    (ca_subindex address)).

Definition get_block_item_status_v2 (transaction_hash : bytes) : Reply bytes :=
  transaction_hash_ptr ← require (transaction_hash_to_ffi transaction_hash);
  '(response, o) ← call (getBlockItemStatusV2 transaction_hash_ptr);
  ConsensusQueryResponse_ensure_ok response ;;
  Value (out_data o).

(** The tag and the fields of the optional invoker. *)
Definition invoker_to_ffi (invoker : option (option address)) : Reply (u8 * ptr * u64 * u64) :=
  match invoker with
  | Some address =>
    address ← require address;
    match address with
    | AddrAccount account =>
      p ← require (account_address_to_ffi account); Value (1%Z, p, 0%Z, 0%Z)
    | AddrContract contract => Value (2%Z, Null, ca_index contract, ca_subindex contract)
    end
  | None => Value (0%Z, Null, 0%Z, 0%Z)
  end.

(** [bytes.len().try_into()] *)
Definition parameter_to_ffi (parameter : bytes) : Reply (ptr * u32) :=
  if decide (fits 32 (Z.of_nat (length parameter)))
  then Value (ToBytes parameter, Z.of_nat (length parameter)) else Status InvalidArgument.

Definition invoke_instance_v2 (request : InvokeInstanceRequest) : Reply (bytes * bytes) :=
  block_hash ← require (ii_block_hash request);
  '(block_id_type, block_id) ← require_block block_hash;
  '(invoker_type, invoker_ptr, invoker_index, invoker_subindex) ← invoker_to_ffi (ii_invoker request);
  amount ← require (ii_amount request);
  entrypoint ← require (ii_entrypoint request);
  '(receive_name_ptr, receive_name_len) ← require (receive_name_to_ffi entrypoint);
  parameter ← require (ii_parameter request);
  '(parameter_ptr, parameter_len) ← parameter_to_ffi parameter;
  energy ← require (ii_energy request);
  contract ← require (ii_instance request);
  call_with_hash (invokeInstanceV2 block_id_type block_id (ca_index contract) (ca_subindex contract)
    invoker_type invoker_ptr invoker_index invoker_subindex amount receive_name_ptr
    receive_name_len parameter_ptr parameter_len energy).

Definition get_block_info_v2 := block_query getBlockInfoV2.

Definition get_pool_info_v2 (block_hash : option BlockHashInput) (baker : option u64) :
    Reply (bytes * bytes) :=
  block_hash ← require block_hash;
  '(block_id_type, block_id) ← require_block block_hash;
  baker ← require baker;
  call_with_hash (getPoolInfoV2 block_id_type block_id (baker_id_to_ffi baker)).

Definition get_passive_delegation_info_v2 := block_query getPassiveDelegationInfoV2.

Definition get_blocks_at_height_v2 (height : BlocksAtHeightRequest) : Reply bytes :=
  '(block_height, genesis_index, restrict) ← require (blocks_at_height_request_to_ffi height);
  call_unchecked (getBlocksAtHeightV2 block_height genesis_index restrict).

Definition get_tokenomics_info_v2 := block_query getTokenomicsInfoV2.
Definition get_branches_v2 : Reply bytes := call_unchecked getBranchesV2.
Definition get_election_info_v2 := block_query getElectionInfoV2.
Definition get_next_update_sequence_numbers_v2 := block_query getNextUpdateSequenceNumbersV2.
Definition get_block_chain_parameters_v2 := block_query getBlockChainParametersV2.
Definition get_block_finalization_summary_v2 := block_query getBlockFinalizationSummaryV2.
End container.

(** ** The endpoints *)

(** [tonic::Response] with the entry [blockhash] of its metadata. *)
Record Response (A : Type) := MkResponse { resp_body : A; resp_blockhash : option (list ascii) }.
Arguments MkResponse {_} _ _.
Arguments resp_body {_} _.
Arguments resp_blockhash {_} _.

Definition MAX_ALLOWED_INVOKE_ENERGY : u64 := 100000000000.

Section endpoints.
Context `{!QueryExt} (cfg : ServiceConfig).

Definition enabled {A} (flag : ServiceConfig → bool) (k : Reply A) : Reply A :=
  if flag cfg then k else Status Unimplemented.

Definition add_hash {A} (a : A) (hash : bytes) : Reply (Response A) :=
  match hash_metadata hash with
  | Some value => Value (MkResponse a (Some value))
  | None => Status Internal
  end.

(** The response of a query that also returns the hash of the block. *)
Definition respond_with_hash (r : Reply (bytes * bytes)) : Reply (Response bytes) :=
  '(hash, response) ← r; add_hash response hash.

Definition respond (r : Reply bytes) : Reply (Response bytes) :=
  response ← r; Value (MkResponse response None).

Definition get_account_info (block_hash : option BlockHashInput)
    (account_identifier : option AccountIdentifierInput) : Reply (Response bytes) :=
  enabled en_get_account_info (
    block_hash ← require block_hash;
    account_identifier ← require account_identifier;
    respond_with_hash (get_account_info_v2 block_hash account_identifier)).

Definition get_module_source (block_hash : option BlockHashInput) (module_ref : option bytes) :
    Reply (Response bytes) :=
  enabled en_get_module_source (
    block_hash ← require block_hash;
    module_ref ← require module_ref;
    respond_with_hash (get_module_source_v2 block_hash module_ref)).

Definition get_instance_info (block_hash : option BlockHashInput)
    (address : option ContractAddress) : Reply (Response bytes) :=
  enabled en_get_instance_info (
    block_hash ← require block_hash;
    contract_address ← require address;
    respond_with_hash (get_instance_info_v2 block_hash contract_address)).

Definition get_next_account_sequence_number (address : bytes) : Reply (Response bytes) :=
  enabled en_get_next_account_sequence_number (
    respond (get_next_account_sequence_number_v2 address)).

Definition get_consensus_info : Reply (Response bytes) :=
  enabled en_get_consensus_info (respond get_consensus_info_v2).

Definition get_block_item_status (transaction_hash : bytes) : Reply (Response bytes) :=
  enabled en_get_block_item_status (respond (get_block_item_status_v2 transaction_hash)).

Definition invoke_instance (request : InvokeInstanceRequest) : Reply (Response bytes) :=
  enabled en_invoke_instance (
    if match ii_energy request with
       | Some x => bool_decide (x ≤ MAX_ALLOWED_INVOKE_ENERGY)%Z
       | None => false
       end
    then respond_with_hash (invoke_instance_v2 request)
    else Status Internal).

Definition get_block_info (block_hash : BlockHashInput) : Reply (Response bytes) :=
  enabled en_get_block_info (respond_with_hash (get_block_info_v2 block_hash)).

Definition get_pool_info (block_hash : option BlockHashInput) (baker : option u64) :
    Reply (Response bytes) :=
  enabled en_get_pool_info (respond_with_hash (get_pool_info_v2 block_hash baker)).

Definition get_passive_delegation_info (block_hash : BlockHashInput) : Reply (Response bytes) :=
  enabled en_get_passive_delegation_info (
    respond_with_hash (get_passive_delegation_info_v2 block_hash)).

Definition get_blocks_at_height (height : BlocksAtHeightRequest) : Reply (Response bytes) :=
  enabled en_get_blocks_at_height (respond (get_blocks_at_height_v2 height)).

Definition get_tokenomics_info (block_hash : BlockHashInput) : Reply (Response bytes) :=
  enabled en_get_tokenomics_info (respond_with_hash (get_tokenomics_info_v2 block_hash)).

Definition get_branches : Reply (Response bytes) :=
  enabled en_get_branches (respond get_branches_v2).

Definition get_election_info (block_hash : BlockHashInput) : Reply (Response bytes) :=
  enabled en_get_election_info (respond_with_hash (get_election_info_v2 block_hash)).

Definition get_next_update_sequence_numbers (block_hash : BlockHashInput) : Reply (Response bytes) :=
  enabled en_get_next_update_sequence_numbers (
    respond_with_hash (get_next_update_sequence_numbers_v2 block_hash)).

Definition get_block_chain_parameters (block_hash : BlockHashInput) : Reply (Response bytes) :=
  enabled en_get_block_chain_parameters (
    respond_with_hash (get_block_chain_parameters_v2 block_hash)).

Definition get_block_finalization_summary (block_hash : BlockHashInput) : Reply (Response bytes) :=
  enabled en_get_block_finalization_summary (
    respond_with_hash (get_block_finalization_summary_v2 block_hash)).
End endpoints.

(** ** What the endpoints answer *)

Inductive Query :=
  | AccountInfo (block : option BlockHashInput) (account : option AccountIdentifierInput)
  | ModuleSource (block : option BlockHashInput) (module_ref : option bytes)
  | InstanceInfo (block : option BlockHashInput) (address : option ContractAddress)
  | NextAccountSequenceNumber (address : bytes)
  | ConsensusInfo
  | BlockItemStatus (transaction_hash : bytes)
  | InvokeInstance (request : InvokeInstanceRequest)
  | BlockInfo (block : BlockHashInput)
  | PoolInfo (block : option BlockHashInput) (baker : option u64)
  | PassiveDelegationInfo (block : BlockHashInput)
  | BlocksAtHeight (height : BlocksAtHeightRequest)
  | TokenomicsInfo (block : BlockHashInput)
  | Branches
  | ElectionInfo (block : BlockHashInput)
  | NextUpdateSequenceNumbers (block : BlockHashInput)
  | BlockChainParameters (block : BlockHashInput)
  | BlockFinalizationSummary (block : BlockHashInput).

Definition flag_of (q : Query) : ServiceConfig → bool :=
  match q with
  | AccountInfo _ _ => en_get_account_info
  | ModuleSource _ _ => en_get_module_source
  | InstanceInfo _ _ => en_get_instance_info
  | NextAccountSequenceNumber _ => en_get_next_account_sequence_number
  | ConsensusInfo => en_get_consensus_info
  | BlockItemStatus _ => en_get_block_item_status
  | InvokeInstance _ => en_invoke_instance
  | BlockInfo _ => en_get_block_info
  | PoolInfo _ _ => en_get_pool_info
  | PassiveDelegationInfo _ => en_get_passive_delegation_info
  | BlocksAtHeight _ => en_get_blocks_at_height
  | TokenomicsInfo _ => en_get_tokenomics_info
  | Branches => en_get_branches
  | ElectionInfo _ => en_get_election_info
  | NextUpdateSequenceNumbers _ => en_get_next_update_sequence_numbers
  | BlockChainParameters _ => en_get_block_chain_parameters
  | BlockFinalizationSummary _ => en_get_block_finalization_summary
  end.

Section answers.
Context `{!QueryExt}.

(** The endpoint that answers a query. *)
Definition answer (cfg : ServiceConfig) (q : Query) : Reply (Response bytes) :=
  match q with
  | AccountInfo b a => get_account_info cfg b a
  | ModuleSource b m => get_module_source cfg b m
  | InstanceInfo b a => get_instance_info cfg b a
  | NextAccountSequenceNumber a => get_next_account_sequence_number cfg a
  | ConsensusInfo => get_consensus_info cfg
  | BlockItemStatus h => get_block_item_status cfg h
  | InvokeInstance r => invoke_instance cfg r
  | BlockInfo b => get_block_info cfg b
  | PoolInfo b i => get_pool_info cfg b i
  | PassiveDelegationInfo b => get_passive_delegation_info cfg b
  | BlocksAtHeight h => get_blocks_at_height cfg h
  | TokenomicsInfo b => get_tokenomics_info cfg b
  | Branches => get_branches cfg
  | ElectionInfo b => get_election_info cfg b
  | NextUpdateSequenceNumbers b => get_next_update_sequence_numbers cfg b
  | BlockChainParameters b => get_block_chain_parameters cfg b
  | BlockFinalizationSummary b => get_block_finalization_summary cfg b
  end.

(** The abstract specification: what a query denotes on the side of the library,
    without tags, pointers, codes and out-parameters.  A malformed request
    denotes nothing; an answer may come with the hash of a block. *)
Inductive Found := Message (m : message) | Missing | Unconvertible.

Definition found (m : option message) : Found :=
  match m with Some m => Message m | None => Missing end.
Definition converted (m : option (option message)) : Found :=
  match m with Some (Some m) => Message m | Some None => Unconvertible | None => Missing end.

Definition of_hash (bs : bytes) : option bytes := if decide (length bs = 32) then Some bs else None.

Definition invoker_of (i : option (option address)) : option (option Hs.Address) :=
  match i with
  | None => Some None
  | Some a =>
    a ← a;
    match a with
    | AddrAccount a => a ← of_hash a; Some (Some (Hs.AddressAccount a))
    | AddrContract c => Some (Some (Hs.AddressContract c))
    end
  end.

Definition name_of (n : bytes) : option bytes :=
  if forallb (λ c, bool_decide (c < 128)%Z) n && bool_decide (length n ≤ 100) then Some n else None.

Definition context_of (r : InvokeInstanceRequest) : option (Hs.BlockHashInput * Hs.ContractContext) :=
  block ← ii_block_hash r ≫= block_of;
  invoker ← invoker_of (ii_invoker r);
  amount ← ii_amount r;
  method ← ii_entrypoint r ≫= name_of;
  parameter ← ii_parameter r;
  guard (fits 32 (Z.of_nat (length parameter)));;
  energy ← ii_energy r;
  contract ← ii_instance r;
  Some (block, Hs.MkContractContext invoker contract amount method parameter energy).

Definition height_of (h : BlocksAtHeightRequest) : option (u64 * u32 * bool) :=
  match h with
  | Some (Absolute (Some h)) => Some (h, 0%Z, false)
  | Some (Relative (Some g) (Some h) r) => Some (h, g, r)
  | _ => None
  end.

Definition on_block (f : Hs.BlockHashInput → bytes * Found) (b : BlockHashInput) :
    option (option bytes * Found) :=
  b ← block_of b; Some (Some (f b).1, (f b).2).

Definition denote (q : Query) : option (option bytes * Found) :=
  match q with
  | AccountInfo b a =>
    b ← b; a ← a; b ← block_of b; a ← account_of a;
    let '(h, m) := Q_getAccountInfo b a in Some (Some h, found m)
  | ModuleSource b m =>
    b ← b; m ← m; b ← block_of b; m ← of_hash m;
    let '(h, m) := Q_getModuleSource b m in Some (Some h, found m)
  | InstanceInfo b a =>
    b ← b; a ← a; b ← block_of b;
    let '(h, m) := Q_getInstanceInfo b a in Some (Some h, found m)
  | NextAccountSequenceNumber a =>
    a ← of_hash a; Some (None, Message (Q_getNextAccountNonce a))
  | ConsensusInfo => Some (None, Message Q_getConsensusStatus)
  | BlockItemStatus h => h ← of_hash h; Some (None, converted (Q_getTransactionStatus h))
  | InvokeInstance r =>
    '(b, c) ← context_of r;
    let '(h, m) := Q_invokeContract b c in Some (Some h, converted m)
  | PoolInfo b i =>
    b ← b; b ← block_of b; i ← i;
    let '(h, s) := Q_getPoolStatus b (Some i) in
    Some (Some h, match s with Some (inl m) => Message m | _ => Missing end)
  | BlockInfo b => on_block (λ b, ((Q_getBlockInfo b).1, found (Q_getBlockInfo b).2)) b
  | PassiveDelegationInfo b =>
    on_block (λ b, ((Q_getPoolStatus b None).1,
                    match (Q_getPoolStatus b None).2 with Some (inr m) => Message m | _ => Missing end)) b
  | BlocksAtHeight h =>
    '(h, g, r) ← height_of h; Some (None, Message (Q_getBlocksAtHeight h g r))
  | TokenomicsInfo b => on_block (λ b, ((Q_getRewardStatus b).1, found (Q_getRewardStatus b).2)) b
  | Branches => Some (None, Message Q_getBranches)
  | ElectionInfo b =>
    on_block (λ b, ((Q_getBlockBirkParameters b).1, converted (Q_getBlockBirkParameters b).2)) b
  | NextUpdateSequenceNumbers b =>
    on_block (λ b, ((Q_getNextUpdateSequenceNumbers b).1,
                    found (Q_getNextUpdateSequenceNumbers b).2)) b
  | BlockChainParameters b =>
    on_block (λ b, ((Q_getBlockChainParameters b).1, found (Q_getBlockChainParameters b).2)) b
  | BlockFinalizationSummary b =>
    on_block (λ b, ((Q_getBlockFinalizationSummary b).1,
                    found (Q_getBlockFinalizationSummary b).2)) b
  end.

(** Contracts are only invoked with a bounded amount of energy. *)
Definition energy_ok (q : Query) : bool :=
  match q with
  | InvokeInstance r =>
    match ii_energy r with
    | Some x => bool_decide (x ≤ MAX_ALLOWED_INVOKE_ENERGY)%Z
    | None => false
    end
  | _ => true
  end.

Definition response_of (d : option (option bytes * Found)) : Reply (Response bytes) :=
  match d with
  | None => Status InvalidArgument
  | Some (_, Missing) => Status NotFound
  | Some (_, Unconvertible) => Status Internal
  | Some (Some h, Message m) => add_hash (msg_bytes m) h
  | Some (None, Message m) => Value (MkResponse (msg_bytes m) None)
  end.

(** An account may be named by 48 octets that are no credential identifier, at which
    the library gives up. *)
Definition undecodable (q : Query) : bool :=
  match q with
  | AccountInfo (Some b) (Some a) =>
    match block_of b, account_of a with
    | Some _, Some (Hs.CredRegID c) => negb (valid_cred c)
    | _, _ => false
    end
  | _ => false
  end.

Definition spec (cfg : ServiceConfig) (q : Query) : Reply (Response bytes) :=
  if flag_of q cfg then
    if undecodable q then Crashed
    else if energy_ok q then response_of (denote q) else Status Internal
  else Status Unimplemented.

(** *** One lemma per layer *)

Lemma copier_appends m o :
  Exported.copier m o = (Ok tt, MkOut (out_hash o) (out_data o ++ msg_bytes m)).
Proof.
  unfold Exported.copier. rewrite bind_get. unfold copy_to_vec_callback.
  rewrite from_raw_parts_whole by apply (bool_decide_eq_true_1 _ (msg_size m)). done.
Qed.

(** The result of a call whose last action returns a message or a code. *)
Definition outcome_of (h : bytes) (f : Found) : Reply (bytes * bytes) :=
  match f with
  | Message m => Value (h, msg_bytes m)
  | Missing => Status NotFound
  | Unconvertible => Status Internal
  end.

Lemma call_message_with_block r :
  call_with_hash (Exported.returnMessageWithBlock r) = outcome_of r.1 (found r.2).
Proof.
  destruct r as [h [m|]]; [|done].
  unfold call_with_hash, call, Exported.returnMessageWithBlock, Exported.copyHashTo.
  rewrite bind_modify. simpl. by rewrite (ST_bind_ok _ _ _ _ _ (copier_appends _ _)).
Qed.

Lemma call_converted h m :
  call_with_hash (Exported.copyHashTo h ;; Exported.return_converted m) = outcome_of h (converted m).
Proof.
  destruct m as [[m|]|]; [|done..]. unfold call_with_hash, call, Exported.copyHashTo.
  rewrite bind_modify. simpl. by rewrite (ST_bind_ok _ _ _ _ _ (copier_appends _ _)).
Qed.

Lemma call_message m :
  call_unchecked (Exported.copier m ;; Exported.return_code Exported.QRSuccess) = Value (msg_bytes m).
Proof.
  unfold call_unchecked, call. by rewrite (ST_bind_ok _ _ _ _ _ (copier_appends _ _)).
Qed.

(** Calls whose first action decodes a value. *)
Lemma call_with_hash_lift {A} (o : outcome A) a f :
  o = Ok a → call_with_hash (st_lift o ≫= f) = call_with_hash (f a).
Proof. by intros ->. Qed.
Lemma call_unchecked_lift {A} (o : outcome A) a f :
  o = Ok a → call_unchecked (st_lift o ≫= f) = call_unchecked (f a).
Proof. by intros ->. Qed.

Lemma call_decode_block t p blk f :
  Hs.decodeBlockHashInput t p = Ok blk →
  call_with_hash (Exported.decode_block t p ≫= f) = call_with_hash (f blk).
Proof. apply call_with_hash_lift. Qed.

Lemma respond_outcome h f :
  respond_with_hash (outcome_of h f) = response_of (Some (Some h, f)).
Proof. by destruct f. Qed.

(** A query that takes nothing but a block. *)
Lemma block_query_spec f (d : Hs.BlockHashInput → bytes * Found) b :
  (∀ t p blk, Hs.decodeBlockHashInput t p = Ok blk →
     call_with_hash (f t p) = outcome_of (d blk).1 (d blk).2) →
  respond_with_hash (block_query f b) = response_of (on_block d b).
Proof.
  intros Hf. unfold block_query, require_block, on_block. pose proof (block_marshalled b) as Hb.
  destruct (block_hash_input_to_ffi b) as [[t p]|]; [|by rewrite Hb].
  destruct Hb as (blk & -> & Hd). simpl. rewrite (Hf _ _ _ Hd). apply respond_outcome.
Qed.

(** A query for the message that belongs to a block. *)
Lemma message_query_spec (Q : Hs.BlockHashInput → bytes * option message) b :
  respond_with_hash (block_query (λ t p,
    bhi ← Exported.decode_block t p; Exported.returnMessageWithBlock (Q bhi)) b)
  = response_of (on_block (λ b, ((Q b).1, found (Q b).2)) b).
Proof.
  apply block_query_spec. intros t p blk Hb. erewrite call_decode_block by done.
  apply call_message_with_block.
Qed.

Lemma passive_delegation_spec b :
  respond_with_hash (get_passive_delegation_info_v2 b)
  = response_of (denote (PassiveDelegationInfo b)).
Proof.
  apply (block_query_spec _ (λ b, (_, _))). intros t p blk Hb.
  unfold Exported.getPassiveDelegationInfoV2. erewrite call_decode_block by done.
  destruct (Q_getPoolStatus blk None) as [h [[m|m]|]]; [done| |done].
  apply (call_message_with_block (h, Some m)).
Qed.

Lemma election_info_spec b :
  respond_with_hash (get_election_info_v2 b) = response_of (denote (ElectionInfo b)).
Proof.
  apply (block_query_spec _ (λ b, (_, _))). intros t p blk Hb. unfold Exported.getElectionInfoV2.
  erewrite call_decode_block by done. destruct (Q_getBlockBirkParameters blk) as [h m].
  apply call_converted.
Qed.

(** Take a block through the boundary. *)
Ltac marshal_block b :=
  let H := fresh "Hb" in
  pose proof (block_marshalled b) as H; unfold require_block;
  destruct (block_hash_input_to_ffi b) as [[? ?]|];
    [destruct H as (? & -> & H); simpl
    |by rewrite H].

Lemma account_info_spec b a :
  respond_with_hash (get_account_info_v2 b a)
  = if undecodable (AccountInfo (Some b) (Some a)) then Crashed else
    response_of (b ← block_of b; a ← account_of a;
                 let '(h, m) := Q_getAccountInfo b a in Some (Some h, found m)).
Proof.
  unfold get_account_info_v2, undecodable. marshal_block b.
  pose proof (account_marshalled valid_cred a) as Ha.
  destruct (account_identifier_to_ffi a) as [[ty ap]|]; [|by rewrite Ha].
  destruct Ha as (acc & Hacc & Hd). rewrite Hacc. simpl.
  unfold Exported.getAccountInfoV2. erewrite call_decode_block by done.
  assert (Hs.decodeAccountIdentifierInput valid_cred ty ap = Ok acc →
    respond_with_hash (call_with_hash (ai ← st_lift (Hs.decodeAccountIdentifierInput valid_cred ty ap);
      Exported.returnMessageWithBlock (Q_getAccountInfo x ai)))
    = response_of (let '(h, m) := Q_getAccountInfo x acc in Some (Some h, found m))) as Hok.
  { intros E. rewrite (call_with_hash_lift _ acc) by done. rewrite call_message_with_block.
    destruct (Q_getAccountInfo _ acc). apply respond_outcome. }
  rewrite Hd in Hok |- *. destruct acc as [|c|]; [by apply Hok| |by apply Hok].
  destruct (valid_cred c); [by apply Hok|done].
Qed.

Lemma module_source_spec b m :
  respond_with_hash (get_module_source_v2 b m)
  = response_of (b ← block_of b; m ← of_hash m;
                 let '(h, m) := Q_getModuleSource b m in Some (Some h, found m)).
Proof.
  unfold get_module_source_v2. marshal_block b. unfold module_reference_to_ffi, of_hash.
  case_decide; [|done]. simpl. unfold Exported.getModuleSourceV2.
  erewrite call_decode_block by done.
  erewrite call_with_hash_lift by by apply read_bytes_whole.
  rewrite call_message_with_block. destruct (Q_getModuleSource _ m). apply respond_outcome.
Qed.

Lemma instance_info_spec b a :
  respond_with_hash (get_instance_info_v2 b a)
  = response_of (b ← block_of b;
                 let '(h, m) := Q_getInstanceInfo b a in Some (Some h, found m)).
Proof.
  unfold get_instance_info_v2. marshal_block b. unfold Exported.getInstanceInfoV2.
  erewrite call_decode_block by done. destruct a as [i j]. simpl.
  rewrite call_message_with_block. destruct (Q_getInstanceInfo _ _). apply respond_outcome.
Qed.

Lemma pool_info_spec b i :
  respond_with_hash (get_pool_info_v2 b i)
  = response_of (b ← b; b ← block_of b; i ← i;
      let '(h, s) := Q_getPoolStatus b (Some i) in
      Some (Some h, match s with Some (inl m) => Message m | _ => Missing end)).
Proof.
  unfold get_pool_info_v2. destruct b as [b|]; [|done]. simpl. marshal_block b.
  destruct i as [i|]; [|done]. simpl. unfold Exported.getPoolInfoV2, baker_id_to_ffi.
  erewrite call_decode_block by done. destruct (Q_getPoolStatus _ _) as [h s].
  rewrite <-respond_outcome. f_equal.
  destruct s as [[m|m]|]; [apply (call_message_with_block (h, Some m))|done|done].
Qed.

Lemma invoker_marshalled i :
  match invoker_to_ffi i with
  | Value (t, p, x, y) => ∃ a, invoker_of i = Some a
      ∧ match t with
        | 0%Z => Ok None
        | 1%Z => a ← Hs.decodeAccountAddress p; Ok (Some (Hs.AddressAccount a))
        | _ => Ok (Some (Hs.AddressContract (MkContractAddress x y)))
        end = Ok a
  | r => r = Status InvalidArgument ∧ invoker_of i = None
  end.
Proof.
  destruct i as [[[a|[x y]]|]|]; [|by simpl; eauto..].
  unfold invoker_to_ffi, invoker_of, account_address_to_ffi, of_hash.
  cbn [require mbind Reply_bind option_bind]. case_decide; [|done].
  cbn [require mbind Reply_bind option_bind]. eexists. split; [done|].
  unfold Hs.decodeAccountAddress. by rewrite read_bytes_whole.
Qed.

(** The last steps of an invocation, when all fields are well formed. *)
Lemma invoke_call t p blk it ip ix iy inv c amount np nl name parameter energy :
  Hs.decodeBlockHashInput t p = Ok blk →
  match it with
  | 0%Z => Ok None
  | 1%Z => a ← Hs.decodeAccountAddress ip; Ok (Some (Hs.AddressAccount a))
  | _ => Ok (Some (Hs.AddressContract (MkContractAddress ix iy)))
  end = Ok inv →
  Hs.decodeReceiveName np nl = Ok name →
  call_with_hash (Exported.invokeInstanceV2 t p (ca_index c) (ca_subindex c) it ip ix iy amount np nl
    (ToBytes parameter) (Z.of_nat (length parameter)) energy)
  = let '(h, m) := Q_invokeContract blk
      (Hs.MkContractContext inv c amount name parameter energy) in
    outcome_of h (converted m).
Proof.
  intros Hb Hi Hn. unfold Exported.invokeInstanceV2. erewrite call_decode_block by done.
  erewrite call_with_hash_lift by exact Hi. erewrite call_with_hash_lift by exact Hn.
  erewrite call_with_hash_lift by by apply read_bytes_whole; rewrite Nat2Z.id.
  destruct c as [x y]. cbv zeta. cbn [ca_index ca_subindex].
  destruct (Q_invokeContract blk _) as [h m]. apply call_converted.
Qed.

Lemma invoke_instance_spec r :
  respond_with_hash (invoke_instance_v2 r)
  = response_of ('(b, c) ← context_of r;
                 let '(h, m) := Q_invokeContract b c in Some (Some h, converted m)).
Proof.
  destruct r as [b i c a n p e]. unfold invoke_instance_v2, context_of.
  cbn [ii_block_hash ii_invoker ii_instance ii_amount ii_entrypoint ii_parameter ii_energy].
  destruct b as [b|]; [|done]. simpl. marshal_block b.
  pose proof (invoker_marshalled i) as Hi. destruct (invoker_to_ffi i) as [[[[it ip] ix] iy]|c'| |];
    [destruct Hi as (inv & -> & Hi)|by destruct Hi as [[= ->] ->]|by destruct Hi..]. simpl.
  destruct a as [amount|]; [|done]. destruct n as [name|]; [|done]. simpl.
  pose proof (receive_name_marshalled name) as Hn.
  unfold name_of, receive_name_to_ffi in *. case_match; [|done]. simpl in Hn |- *.
  specialize (Hn _ _ eq_refl). destruct p as [parameter|]; [|done]. simpl.
  unfold parameter_to_ffi, guard. destruct (decide (fits 32 _)); [|done]. simpl.
  destruct e as [energy|]; [|done]. destruct c as [c|]; [|done]. simpl.
  erewrite invoke_call by done. destruct (Q_invokeContract _ _). apply respond_outcome.
Qed.

Lemma block_item_status_spec h :
  respond (get_block_item_status_v2 h)
  = response_of (h ← of_hash h; Some (None, converted (Q_getTransactionStatus h))).
Proof.
  unfold get_block_item_status_v2, transaction_hash_to_ffi, of_hash. case_decide; [|done].
  cbn [require mbind Reply_bind option_bind]. unfold call, Exported.getBlockItemStatusV2.
  erewrite bind_lift by by apply read_bytes_whole.
  destruct (Q_getTransactionStatus h) as [[m|]|]; [|done..]. cbn [Exported.return_converted].
  by rewrite (ST_bind_ok _ _ _ _ _ (copier_appends _ _)).
Qed.

Lemma next_sequence_number_spec a :
  respond (get_next_account_sequence_number_v2 a)
  = response_of (a ← of_hash a; Some (None, Message (Q_getNextAccountNonce a))).
Proof.
  unfold get_next_account_sequence_number_v2, account_address_to_ffi, of_hash.
  case_decide; [|done]. cbn [require mbind Reply_bind option_bind].
  unfold Exported.getNextAccountSequenceNumberV2.
  erewrite call_unchecked_lift by by apply read_bytes_whole.
  cbn [Exported.returnMessage]. by rewrite call_message.
Qed.

Lemma blocks_at_height_spec h :
  respond (get_blocks_at_height_v2 h)
  = response_of ('(h, g, r) ← height_of h; Some (None, Message (Q_getBlocksAtHeight h g r))).
Proof.
  unfold get_blocks_at_height_v2, Exported.getBlocksAtHeightV2.
  destruct h as [[[h|]|[g|] [h|] r]|]; [|done| |done..].
  all: cbn [blocks_at_height_request_to_ffi height_of require mbind option_bind Reply_bind].
  all: rewrite call_message; try destruct r; done.
Qed.

(** Each endpoint against its specification *)
Lemma answers_specified cfg q : answer cfg q = spec cfg q.
Proof.
  unfold spec, answer. destruct q as [[b|] [a|]|[b|] [m|]|[b|] [a|]|a| |h|r|b|b i|b|h|b| |b|b|b|b];
    unfold get_account_info, get_module_source, get_instance_info,
      get_next_account_sequence_number, get_consensus_info, get_block_item_status, invoke_instance,
      get_block_info, get_pool_info, get_passive_delegation_info, get_blocks_at_height,
      get_tokenomics_info, get_branches, get_election_info, get_next_update_sequence_numbers,
      get_block_chain_parameters, get_block_finalization_summary, enabled, flag_of;
    case_match; try done; cbn [energy_ok require mbind Reply_bind].
  - apply account_info_spec.
  - apply module_source_spec.
  - apply instance_info_spec.
  - apply next_sequence_number_spec.
  - unfold get_consensus_info_v2, Exported.getConsensusInfoV2. cbn [Exported.returnMessage].
    by rewrite call_message.
  - apply block_item_status_spec.
  - destruct (ii_energy r); [case_bool_decide; [|done]|done]. apply invoke_instance_spec.
  - apply (message_query_spec Q_getBlockInfo).
  - apply pool_info_spec.
  - apply passive_delegation_spec.
  - apply blocks_at_height_spec.
  - apply (message_query_spec Q_getRewardStatus).
  - unfold get_branches_v2, Exported.getBranchesV2. cbn [Exported.returnMessage].
    by rewrite call_message.
  - apply election_info_spec.
  - apply (message_query_spec Q_getNextUpdateSequenceNumbers).
  - apply (message_query_spec Q_getBlockChainParameters).
  - apply (message_query_spec Q_getBlockFinalizationSummary).
Qed.

(** C5: every query of the second interface that has a single answer is answered
    as specified: the tags, pointers, response codes and out-parameters between
    the endpoint and the library neither lose nor mix up anything.  A disabled
    endpoint is refused, a malformed request is an invalid argument, what the
    library does not have is not found, and otherwise the reply is the message of
    the library, with the hash of the block it belongs to.  The one request at which
    the library gives up names an account by 48 octets that it can not decode. *)
Theorem query_refinement cfg q : answer cfg q = spec cfg q.
Proof. apply answers_specified. Qed.
End answers.

(** ** Queries that are answered by values of Rust *)

(** [V1ContractStateReceiver], and [None] before the callback has been called. *)
Inductive ContractStateResponse `{!QueryExt} := StateV0 (state : bytes) | StateV1 (state : v1_state).

(** The fields [genesis_string], [bulletproof_generators] and
    [on_chain_commitment_key]. *)
Abbreviation CryptographicParameters := (bytes * bytes * bytes)%type (only parsing).

Section rust_values.
Context `{!QueryExt}.

(** The out-parameters of these calls: a value of Rust beside hash and data. *)
Definition with_out {T A} (f : ST Out A) : ST (Out * option T) A := λ '(o, t),
  let '(r, o) := f o in (r, (o, t)).

(** [copy_v1_contract_state_callback] and [copy_cryptographic_parameters_callback] *)
Definition copy_value_callback {T} (value : T) : ST (Out * option T) unit :=
  st_modify (λ '(o, _), (o, Some value)).

Definition getInstanceStateV2 (blockType : u8) (blockHashPtr : ptr) (addrIndex addrSubindex : u64) :
    ST (Out * option v1_state) i64 :=
  bhi ← with_out (Exported.decode_block blockType blockHashPtr);
  let '(bh, res) := Q_getInstanceState bhi (MkContractAddress addrIndex addrSubindex) in
  match res with
  | None => with_out (Exported.return_code Exported.QRNotFound)
  | Some iState =>
    with_out (Exported.copyHashTo bh) ;;
    match iState with
    | inl v0State => with_out (Exported.copier v0State)
    | inr ps => copy_value_callback ps
    end ;;
    with_out (Exported.return_code Exported.QRSuccess)
  end.

Definition getCryptographicParametersV2 (blockType : u8) (blockHashPtr : ptr) :
    ST (Out * option crypto_parameters) i64 :=
  bhi ← with_out (Exported.decode_block blockType blockHashPtr);
  let '(bh, maybeCryptographicParameters) := Q_getCryptographicParameters bhi in
  with_out (Exported.copyHashTo bh) ;;
  match maybeCryptographicParameters with
  | None => with_out (Exported.return_code Exported.QRNotFound)
  | Some cryptographicParameters =>
    copy_value_callback cryptographicParameters ;;
    with_out (Exported.return_code Exported.QRSuccess)
  end.

Definition call_value {T} (f : ST (Out * option T) i64) : Reply (Out * option T) :=
  match f (Out_new, None) with
  | (Ok code, r) =>
    response ← query_response code;
    ConsensusQueryResponse_ensure_ok response ;; Value r
  | _ => Crashed
  end.

Definition get_instance_state_v2 (block_hash : BlockHashInput) (address : ContractAddress) :
    Reply (bytes * ContractStateResponse) :=
  '(block_id_type, block_hash) ← require_block block_hash;
  '(o, v1) ← call_value (getInstanceStateV2 block_id_type block_hash (ca_index address)
                           (ca_subindex address));
  match v1 with
  | None => Value (out_hash o, StateV0 (out_data o))
  | Some data => Value (out_hash o, StateV1 data)
  end.

Definition get_cryptographic_parameters_v2 (block_hash : BlockHashInput) :
    Reply (bytes * CryptographicParameters) :=
  '(block_id_type, block_hash) ← require_block block_hash;
  '(o, parameters) ← call_value (getCryptographicParametersV2 block_id_type block_hash);
  match parameters with
  | None => Status Internal
  | Some parameters => Value (out_hash o, crypto_fields parameters)
  end.

Context (cfg : ServiceConfig).

(** The stream is given by the pairs a client receives who reads to its end. *)
Definition get_instance_state (block_hash : option BlockHashInput) (address : option ContractAddress) :
    Reply (Response (list (bytes * bytes))) :=
  enabled cfg en_get_instance_state (
    block_hash ← require block_hash;
    contract_address ← require address;
    '(hash, response) ← get_instance_state_v2 block_hash contract_address;
    match response with
    | StateV0 state => add_hash [([], state)] hash
    | StateV1 state => add_hash (v1_entries state) hash
    end).

Definition instance_state_lookup (block_hash : option BlockHashInput)
    (address : option ContractAddress) (key : bytes) : Reply (Response bytes) :=
  enabled cfg en_instance_state_lookup (
    block_hash ← require block_hash;
    contract_address ← require address;
    '(hash, response) ← get_instance_state_v2 block_hash contract_address;
    match response with
    | StateV0 state => add_hash state hash
    | StateV1 state =>
      match v1_lookup state key with
      | Some value => add_hash value hash
      | None => Status NotFound
      end
    end).

Definition get_cryptographic_parameters (block_hash : BlockHashInput) :
    Reply (Response CryptographicParameters) :=
  enabled cfg en_get_cryptographic_parameters (
    '(hash, response) ← get_cryptographic_parameters_v2 block_hash;
    add_hash response hash).

(** The state of a contract as the endpoints see it: either version reaches them
    unchanged. *)
Lemma instance_state_v2_spec b a :
  get_instance_state_v2 b a
  = match block_of b with
    | None => Status InvalidArgument
    | Some blk =>
      match Q_getInstanceState blk a with
      | (_, None) => Status NotFound
      | (h, Some (inl m)) => Value (h, StateV0 (msg_bytes m))
      | (h, Some (inr v)) => Value (h, StateV1 v)
      end
    end.
Proof.
  unfold get_instance_state_v2. pose proof (block_marshalled b) as Hb. unfold require_block.
  destruct (block_hash_input_to_ffi b) as [[t p]|]; [|by rewrite Hb].
  destruct Hb as (blk & -> & Hd). cbn [require mbind Reply_bind]. destruct a as [x y].
  unfold call_value, getInstanceStateV2, mbind at 2, ST_bind, with_out at 1, Exported.decode_block,
    st_lift. rewrite Hd. cbn [ca_index ca_subindex].
  destruct (Q_getInstanceState blk _) as [h [[m|v]|]]; [|done..].
  unfold mbind, ST_bind, with_out. simpl. by rewrite copier_appends.
Qed.
End rust_values.

(** *** Witness: a library that knows one account *)

Module QueryExample.
Definition note : message := MkMessage [7%Z] eq_refl.
Definition genesis : bytes := replicate 32 1%Z.

Definition lib : QueryExt := {|
  valid_cred _ := true;
  Q_getAccountInfo _ a :=
    (genesis, match a with Hs.AccIndex 3%Z => Some note | _ => None end);
  Q_getModuleSource _ _ := (genesis, None);
  Q_getInstanceInfo _ _ := (genesis, None);
  Q_getNextAccountNonce _ := note;
  Q_getConsensusStatus := note;
  Q_getTransactionStatus _ := None;
  Q_invokeContract _ _ := (genesis, None);
  Q_getBlockInfo _ := (genesis, Some note);
  Q_getPoolStatus _ _ := (genesis, None);
  Q_getBlocksAtHeight _ _ _ := note;
  Q_getRewardStatus _ := (genesis, None);
  Q_getBranches := note;
  Q_getBlockBirkParameters _ := (genesis, None);
  Q_getNextUpdateSequenceNumbers _ := (genesis, None);
  Q_getBlockChainParameters _ := (genesis, None);
  Q_getBlockFinalizationSummary _ := (genesis, None);
  v1_state := unit;
  v1_lookup _ _ := None;
  v1_entries _ := [];
  Q_getInstanceState _ _ := (genesis, None);
  crypto_parameters := unit;
  crypto_fields _ := ([], [], []);
  Q_getCryptographicParameters _ := (genesis, None);
  hash_metadata h := Some (replicate (length h) "0"%char);
|}.
#[local] Existing Instance lib.

Definition request : Query := AccountInfo (Some (Some Best)) (Some (Some (AccountIndex 3))).

Lemma query_refinement_witness :
  answer new_all_enabled request = Value (MkResponse [7%Z] (Some (replicate 32 "0"%char))).
Proof. rewrite query_refinement. reflexivity. Defined.
End QueryExample.
