(* ===== verification/QueriesV1.v ===== *)
(** * Queries of the first interface

    Models the queries of [concordium-node/src/rpc.rs] that are passed on to the
    consensus library as strings: the endpoints, the methods and macros of
    [consensus_ffi/ffi.rs] and [consensus_ffi/mod.rs], and the functions of
    [concordium-consensus/src/Concordium/External.hs] on the other side.  The memory of
    the strings that the library allocates and the node frees is part of the state.
    How hashes and addresses are read and what the library knows are parameters. *)
From S2P Require Import Prelude.
From S2P Require Import Status.
From S2P Require Import NetTypes.
From S2P Require Import Foreign.
From Stdlib Require Import Ascii.

(** ** Strings *)

(** A JSON text: UTF-8 without null characters. *)
Definition is_json (bs : bytes) : bool :=
  bool_decide ((0%Z) ∉ bs) && match from_utf8 bs with Ok _ => true | _ => false end.

Record json := MkJson { json_bytes : bytes; json_ok : is_json json_bytes = true }.

(** [CString::new] *)
Definition CString_new (s : bytes) : outcome ptr :=
  if decide ((0%Z) ∈ s) then Err (Other "nul byte found in provided data") else Ok (ToBytes (s ++ [0%Z])).

(** The octets before the first null. *)
Fixpoint until_null (bs : bytes) : outcome bytes :=
  match bs with
  | [] => Panic "undefined behaviour"
  | x :: bs => if decide (x = 0%Z) then Ok [] else r ← until_null bs; Ok (x :: r)
  end.

(** [BS.packCString], [CStr::from_ptr] *)
Definition packCString (p : ptr) : outcome bytes :=
  match p with
  | ToBytes bs => until_null bs
  | _ => Panic "undefined behaviour"
  end.

(** ** What the library knows *)

Class StringExt := {
  contract_context : Type;
  readBlockHash : bytes → option bytes;
  readModuleRef : bytes → option bytes;
  readTransactionHash : bytes → option bytes;
  addressFromBytes : bytes → option bytes;
  decodeAccountIdentifier : bytes → option Hs.AccountIdentifier;
  decodeAddressJson : bytes → option ContractAddress;
  decodeContextJson : bytes → option contract_context;
  json_null : json;
  S_getConsensusStatus : json;
  S_getBranches : json;
  S_getBlocksAtHeight : u64 → u32 → bool → json;
  S_getAncestors : bytes → u64 → json;
  S_getAccountInfo : bytes → Hs.AccountIdentifier → json;
  S_getInstanceInfo : bytes → ContractAddress → json;
  S_invokeContract : bytes → contract_context → json;
  S_getPoolStatus : bytes → option u64 → json;
  S_getModuleSource : bytes → bytes → option bytes;
  S_getTransactionStatus : bytes → json;
  S_getTransactionStatusInBlock : bytes → bytes → json;
  S_getLastFinalizedBlockHeight : u64;
  S_getBlockInfo : bytes → json;
  S_getBlockSummary : bytes → json;
  S_getRewardStatus : bytes → json;
  S_getBirkParameters : bytes → json;
  S_getCryptographicParameters : bytes → json;
  S_getAllIdentityProviders : bytes → json;
  S_getAllAnonymityRevokers : bytes → json;
  S_getAccountList : bytes → json;
  S_getInstanceList : bytes → json;
  S_getModuleList : bytes → json;
  S_getRegisteredBakers : bytes → json;
  S_getAccountNonFinalizedTransactions : bytes → json;
  S_getNextAccountNonce : bytes → json;
}.

(** ** Memory *)

Abbreviation Heap := (gmap positive bytes).

Definition malloc (bs : bytes) : RS Heap positive := λ h,
  let l := fresh (dom h) in (Value l, <[l := bs]> h).
Definition peek (l : positive) : RS Heap ptr := λ h,
  match h !! l with Some bs => (Value (ToBytes bs), h) | None => (Crashed, h) end.
Definition freeCStr (l : positive) : RS Heap unit := λ h,
  match h !! l with Some _ => (Value tt, delete l h) | None => (Crashed, h) end.

(** [toCString] of the octets of a JSON text *)
Definition jsonCString (j : json) : RS Heap positive := malloc (json_bytes j ++ [0%Z]).

(** [byteStringToCString]: the length, as 32 bits, is written before the octets. *)
Definition byteStringToCString (bs : bytes) : RS Heap positive :=
  malloc (to_be_bytes 4 (as_u32 (Z.of_nat (length bs))) ++ bs).

(** ** The functions the library exports *)

Module StringExports.
Section exports.
Context `{!StringExt}.

Definition decodeBlockHash (p : ptr) : RS Heap (option bytes) :=
  s ← rs_lift (packCString p); mret (readBlockHash s).
Definition decodeModuleRef (p : ptr) : RS Heap (option bytes) :=
  s ← rs_lift (packCString p); mret (readModuleRef s).
Definition decodeTransactionHash (p : ptr) : RS Heap (option bytes) :=
  s ← rs_lift (packCString p); mret (readTransactionHash s).
Definition decodeAccountAddress (p : ptr) : RS Heap (option bytes) :=
  s ← rs_lift (packCString p); mret (addressFromBytes s).
Definition decodeInstanceAddress (p : ptr) : RS Heap (option ContractAddress) :=
  s ← rs_lift (packCString p); mret (decodeAddressJson s).
Definition decodeContractContext (p : ptr) : RS Heap (option contract_context) :=
  s ← rs_lift (packCString p); mret (decodeContextJson s).

(** An argument that cannot be decoded gives the JSON null value. *)
Definition one {A} (a : option A) (k : A → json) : RS Heap positive :=
  jsonCString (match a with Some a => k a | None => json_null end).
Definition two {A B} (a : option A) (b : option B) (k : A → B → json) : RS Heap positive :=
  jsonCString (match a, b with Some a, Some b => k a b | _, _ => json_null end).

Definition getConsensusStatus : RS Heap positive := jsonCString S_getConsensusStatus.
Definition getBranches : RS Heap positive := jsonCString S_getBranches.
Definition getBlocksAtHeight (height : u64) (genIndex : u32) (restrict : u8) : RS Heap positive :=
  jsonCString (S_getBlocksAtHeight height genIndex (bool_decide (restrict ≠ 0%Z))).

Definition getBlockInfo (blockcstr : ptr) : RS Heap positive :=
  bh ← decodeBlockHash blockcstr; one bh S_getBlockInfo.
Definition getBlockSummary (blockcstr : ptr) : RS Heap positive :=
  bh ← decodeBlockHash blockcstr; one bh S_getBlockSummary.
Definition getRewardStatus (blockcstr : ptr) : RS Heap positive :=
  bh ← decodeBlockHash blockcstr; one bh S_getRewardStatus.
Definition getBirkParameters (blockcstr : ptr) : RS Heap positive :=
  bh ← decodeBlockHash blockcstr; one bh S_getBirkParameters.
Definition getCryptographicParameters (blockcstr : ptr) : RS Heap positive :=
  bh ← decodeBlockHash blockcstr; one bh S_getCryptographicParameters.
Definition getAllIdentityProviders (blockcstr : ptr) : RS Heap positive :=
  bh ← decodeBlockHash blockcstr; one bh S_getAllIdentityProviders.
Definition getAllAnonymityRevokers (blockcstr : ptr) : RS Heap positive :=
  bh ← decodeBlockHash blockcstr; one bh S_getAllAnonymityRevokers.
Definition getAccountList (blockcstr : ptr) : RS Heap positive :=
  bh ← decodeBlockHash blockcstr; one bh S_getAccountList.
Definition getInstances (blockcstr : ptr) : RS Heap positive :=
  bh ← decodeBlockHash blockcstr; one bh S_getInstanceList.
Definition getModuleList (blockcstr : ptr) : RS Heap positive :=
  bh ← decodeBlockHash blockcstr; one bh S_getModuleList.
Definition getBakerList (blockcstr : ptr) : RS Heap positive :=
  bh ← decodeBlockHash blockcstr; one bh S_getRegisteredBakers.
Definition getAncestors (blockcstr : ptr) (depth : u64) : RS Heap positive :=
  bh ← decodeBlockHash blockcstr; one bh (λ bh, S_getAncestors bh depth).
Definition getAccountInfo (blockcstr acctcstr : ptr) : RS Heap positive :=
  mblock ← decodeBlockHash blockcstr;
  acctbs ← rs_lift (packCString acctcstr);
  two mblock (decodeAccountIdentifier acctbs) S_getAccountInfo.
Definition getInstanceInfo (blockcstr instcstr : ptr) : RS Heap positive :=
  mblock ← decodeBlockHash blockcstr;
  minst ← decodeInstanceAddress instcstr;
  two mblock minst S_getInstanceInfo.
Definition invokeContract (blockcstr ctxcstr : ptr) : RS Heap positive :=
  mblock ← decodeBlockHash blockcstr;
  mctx ← decodeContractContext ctxcstr;
  two mblock mctx S_invokeContract.
Definition getModuleSource (blockcstr modcstr : ptr) : RS Heap positive :=
  mblock ← decodeBlockHash blockcstr;
  mmod ← decodeModuleRef modcstr;
  match mblock, mmod with
  | Some bh, Some modref => byteStringToCString (default [] (S_getModuleSource bh modref))
  | _, _ => byteStringToCString []
  end.
Definition getPoolStatus (blockcstr : ptr) (passive : bool) (bid : u64) : RS Heap positive :=
  bh ← decodeBlockHash blockcstr;
  one bh (λ bh, S_getPoolStatus bh (if passive then None else Some bid)).
Definition getTransactionStatus (trcstr : ptr) : RS Heap positive :=
  tr ← decodeTransactionHash trcstr; one tr S_getTransactionStatus.
Definition getTransactionStatusInBlock (trcstr bhcstr : ptr) : RS Heap positive :=
  mtr ← decodeTransactionHash trcstr;
  mblock ← decodeBlockHash bhcstr;
  two mtr mblock S_getTransactionStatusInBlock.
Definition getAccountNonFinalizedTransactions (addrcstr : ptr) : RS Heap positive :=
  acct ← decodeAccountAddress addrcstr; one acct S_getAccountNonFinalizedTransactions.
Definition getNextAccountNonce (addrcstr : ptr) : RS Heap positive :=
  acct ← decodeAccountAddress addrcstr; one acct S_getNextAccountNonce.
End exports.
End StringExports.
Import StringExports.

(** ** The methods of [ConsensusContainer] *)

(** [wrap_c_call_string!] *)
Definition wrap_c_call_string (c_call : RS Heap positive) : RS Heap bytes :=
  c_string ← c_call;
  p ← peek c_string;
  s ← rs_lift (packCString p);
  r ← rs_lift (from_utf8 s);
  freeCStr c_string ;;
  mret r.

(** [wrap_c_call_bytes!] *)
Definition wrap_c_call_bytes (c_call : RS Heap positive) : RS Heap bytes :=
  res ← c_call;
  p ← peek res;
  raw_size ← rs_lift (from_raw_parts p 4);
  ret ← rs_lift (from_raw_parts p (4 + from_be_bytes raw_size));
  freeCStr res ;;
  mret (drop 4 ret).

Module Strings.
Section methods.
Context `{!StringExt}.

(** A method may fail before the call, on a string with a null character. *)
Abbreviation Method := (outcome (RS Heap bytes)) (only parsing).

Definition with_one (a : bytes) (f : ptr → RS Heap positive) : Method :=
  a ← CString_new a; Ok (wrap_c_call_string (f a)).
Definition with_two (a b : bytes) (f : ptr → ptr → RS Heap positive) : Method :=
  a ← CString_new a; b ← CString_new b; Ok (wrap_c_call_string (f a b)).

Definition get_consensus_status : RS Heap bytes := wrap_c_call_string getConsensusStatus.
Definition get_branches : RS Heap bytes := wrap_c_call_string getBranches.
Definition get_blocks_at_height (block_height : u64) (genesis_index : u32) (restrict : bool) :
    RS Heap bytes :=
  wrap_c_call_string (getBlocksAtHeight block_height genesis_index (if restrict then 1 else 0)).
Definition get_last_finalized_block_height : u64 := S_getLastFinalizedBlockHeight.
Definition get_block_info (block_hash : bytes) : Method := with_one block_hash getBlockInfo.
Definition get_block_summary (block_hash : bytes) : Method := with_one block_hash getBlockSummary.
Definition get_reward_status (block_hash : bytes) : Method := with_one block_hash getRewardStatus.
Definition get_birk_parameters (block_hash : bytes) : Method := with_one block_hash getBirkParameters.
Definition get_cryptographic_parameters (block_hash : bytes) : Method := with_one block_hash getCryptographicParameters.
Definition get_identity_providers (block_hash : bytes) : Method := with_one block_hash getAllIdentityProviders.
Definition get_anonymity_revokers (block_hash : bytes) : Method := with_one block_hash getAllAnonymityRevokers.
Definition get_account_list (block_hash : bytes) : Method := with_one block_hash getAccountList.
Definition get_instances (block_hash : bytes) : Method := with_one block_hash getInstances.
Definition get_module_list (block_hash : bytes) : Method := with_one block_hash getModuleList.
Definition get_baker_list (block_hash : bytes) : Method := with_one block_hash getBakerList.
Definition get_ancestors (block_hash : bytes) (amount : u64) : Method :=
  with_one block_hash (λ b, getAncestors b amount).
Definition get_account_info (block_hash account_address : bytes) : Method :=
  with_two block_hash account_address getAccountInfo.
Definition get_instance_info (block_hash contract_address : bytes) : Method :=
  with_two block_hash contract_address getInstanceInfo.
Definition invoke_contract (block_hash context : bytes) : Method :=
  with_two block_hash context invokeContract.
Definition get_module_source (block_hash module_ref : bytes) : Method :=
  block_hash ← CString_new block_hash;
  module_ref ← CString_new module_ref;
  Ok (wrap_c_call_bytes (getModuleSource block_hash module_ref)).
Definition get_pool_status (block_hash : bytes) (passive_delegation : bool) (baker_id : u64) : Method :=
  with_one block_hash (λ b, getPoolStatus b passive_delegation baker_id).
Definition get_transaction_status (transaction_hash : bytes) : Method :=
  with_one transaction_hash getTransactionStatus.
Definition get_transaction_status_in_block (transaction_hash block_hash : bytes) : Method :=
  with_two transaction_hash block_hash getTransactionStatusInBlock.
Definition get_account_non_finalized_transactions (account_address : bytes) : Method :=
  with_one account_address getAccountNonFinalizedTransactions.
Definition get_next_account_nonce (account_address : bytes) : Method :=
  with_one account_address getNextAccountNonce.
End methods.
End Strings.

(** ** The endpoints *)

Inductive StringQuery :=
  | ConsensusStatus1
  | Branches1
  | BlocksAtHeight1 (block_height : u64) (from_genesis_index : u32) (restrict : bool)
  | BlockInfo1 (block_hash : bytes)
  | BlockSummary (block_hash : bytes)
  | RewardStatus (block_hash : bytes)
  | BirkParameters (block_hash : bytes)
  | CryptographicParameters1 (block_hash : bytes)
  | IdentityProviders1 (block_hash : bytes)
  | AnonymityRevokers1 (block_hash : bytes)
  | AccountList1 (block_hash : bytes)
  | Instances (block_hash : bytes)
  | ModuleList1 (block_hash : bytes)
  | BakerList1 (block_hash : bytes)
  | Ancestors1 (block_hash : bytes) (amount : u64)
  | AccountInfo1 (block_hash address : bytes)
  | InstanceInfo1 (block_hash address : bytes)
  | InvokeContract (block_hash context : bytes)
  | ModuleSource1 (block_hash module_ref : bytes)
  | PoolStatus (block_hash : bytes) (passive_delegation : bool) (baker_id : u64)
  | TransactionStatus (transaction_hash : bytes)
  | TransactionStatusInBlock (transaction_hash block_hash : bytes)
  | NonFinalized1 (account_address : bytes)
  | NextAccountNonce (account_address : bytes).

Section endpoints.
Context `{!StringExt}.

(** [call_consensus!], with the container if there is one, and whether its pointer to
    consensus is null. *)
Definition call_consensus (container : option bool) (consensus_call : outcome (RS Heap bytes)) :
    RS Heap bytes :=
  match container with
  | Some null =>
    if null then rs_reply (Status Internal)
    else match consensus_call with
         | Ok call => call
         | Err _ => rs_reply (Status InvalidArgument)
         | Panic _ => undefined
         end
  | None => rs_reply (Status FailedPrecondition)
  end.

(** [authenticate!]; the token in the metadata has to be UTF-8. *)
Definition authenticated {A} (access_token : bytes) (token : option bytes) (k : RS Heap A) :
    RS Heap A :=
  match token with
  | Some val =>
    match from_utf8 val with
    | Ok at' => if decide (at' = access_token) then k else rs_reply (Status Unauthenticated)
    | _ => rs_reply (Status Unauthenticated)
    end
  | None => rs_reply (Status Unauthenticated)
  end.

(** The call that an endpoint makes: the endpoints from that of the status of a
    transaction on, and all of them *)
Definition later_call (q : StringQuery) : outcome (RS Heap bytes) :=
  match q with
  | TransactionStatus t => Strings.get_transaction_status t
  | TransactionStatusInBlock t b => Strings.get_transaction_status_in_block t b
  | NonFinalized1 a => Strings.get_account_non_finalized_transactions a
  | NextAccountNonce a => Strings.get_next_account_nonce a
  | IdentityProviders1 b => Strings.get_identity_providers b
  | AnonymityRevokers1 b => Strings.get_anonymity_revokers b
  | CryptographicParameters1 b => Strings.get_cryptographic_parameters b
  | BlockSummary b => Strings.get_block_summary b
  | ModuleSource1 b m => Strings.get_module_source b m
  | _ => Panic "an endpoint of the first group"
  end.

Definition consensus_call (q : StringQuery) : outcome (RS Heap bytes) :=
  match q with
  | ConsensusStatus1 => Ok Strings.get_consensus_status
  | Branches1 => Ok Strings.get_branches
  | BlocksAtHeight1 h g r => Ok (Strings.get_blocks_at_height h g r)
  | BlockInfo1 b => Strings.get_block_info b
  | RewardStatus b => Strings.get_reward_status b
  | BirkParameters b => Strings.get_birk_parameters b
  | AccountList1 b => Strings.get_account_list b
  | Instances b => Strings.get_instances b
  | ModuleList1 b => Strings.get_module_list b
  | BakerList1 b => Strings.get_baker_list b
  | Ancestors1 b n => Strings.get_ancestors b n
  | AccountInfo1 b a => Strings.get_account_info b a
  | InstanceInfo1 b a => Strings.get_instance_info b a
  | InvokeContract b c => Strings.invoke_contract b c
  | PoolStatus b p i => Strings.get_pool_status b p i
  | _ => later_call q
  end.

Definition endpoint (access_token : bytes) (container : option bool) (token : option bytes)
    (q : StringQuery) : RS Heap bytes :=
  authenticated access_token token (call_consensus container (consensus_call q)).

(** ** What a query denotes *)

Definition json1 {A} (a : option A) (k : A → json) : bytes :=
  json_bytes (match a with Some a => k a | None => json_null end).
Definition json2 {A B} (a : option A) (b : option B) (k : A → B → json) : bytes :=
  json_bytes (match a, b with Some a, Some b => k a b | _, _ => json_null end).

(** The strings of a query. *)
Definition strings_of (q : StringQuery) : list bytes :=
  match q with
  | ConsensusStatus1 | Branches1 | BlocksAtHeight1 _ _ _ => []
  | BlockInfo1 b | BlockSummary b | RewardStatus b | BirkParameters b
  | CryptographicParameters1 b | IdentityProviders1 b | AnonymityRevokers1 b
  | AccountList1 b | Instances b | ModuleList1 b | BakerList1 b
  | Ancestors1 b _ | PoolStatus b _ _ | TransactionStatus b
  | NonFinalized1 b | NextAccountNonce b => [b]
  | AccountInfo1 b a | InstanceInfo1 b a | InvokeContract b a | ModuleSource1 b a
  | TransactionStatusInBlock b a => [b; a]
  end.

Definition source_of (b m : bytes) : bytes :=
  match readBlockHash b, readModuleRef m with
  | Some b, Some m => default [] (S_getModuleSource b m)
  | _, _ => []
  end.

Definition denoted (q : StringQuery) : bytes :=
  match q with
  | ConsensusStatus1 => json_bytes S_getConsensusStatus
  | Branches1 => json_bytes S_getBranches
  | BlocksAtHeight1 h g r => json_bytes (S_getBlocksAtHeight h g r)
  | BlockInfo1 b => json1 (readBlockHash b) S_getBlockInfo
  | BlockSummary b => json1 (readBlockHash b) S_getBlockSummary
  | RewardStatus b => json1 (readBlockHash b) S_getRewardStatus
  | BirkParameters b => json1 (readBlockHash b) S_getBirkParameters
  | CryptographicParameters1 b => json1 (readBlockHash b) S_getCryptographicParameters
  | IdentityProviders1 b => json1 (readBlockHash b) S_getAllIdentityProviders
  | AnonymityRevokers1 b => json1 (readBlockHash b) S_getAllAnonymityRevokers
  | AccountList1 b => json1 (readBlockHash b) S_getAccountList
  | Instances b => json1 (readBlockHash b) S_getInstanceList
  | ModuleList1 b => json1 (readBlockHash b) S_getModuleList
  | BakerList1 b => json1 (readBlockHash b) S_getRegisteredBakers
  | Ancestors1 b n => json1 (readBlockHash b) (λ b, S_getAncestors b n)
  | AccountInfo1 b a => json2 (readBlockHash b) (decodeAccountIdentifier a) S_getAccountInfo
  | InstanceInfo1 b a => json2 (readBlockHash b) (decodeAddressJson a) S_getInstanceInfo
  | InvokeContract b c => json2 (readBlockHash b) (decodeContextJson c) S_invokeContract
  | ModuleSource1 b m => source_of b m
  | PoolStatus b p i => json1 (readBlockHash b) (λ b, S_getPoolStatus b (if p then None else Some i))
  | TransactionStatus t => json1 (readTransactionHash t) S_getTransactionStatus
  | TransactionStatusInBlock t b =>
    json2 (readTransactionHash t) (readBlockHash b) S_getTransactionStatusInBlock
  | NonFinalized1 a => json1 (addressFromBytes a) S_getAccountNonFinalizedTransactions
  | NextAccountNonce a => json1 (addressFromBytes a) S_getNextAccountNonce
  end.
End endpoints.

(** ** One lemma per layer *)

Lemma until_null_app s r : (0%Z) ∉ s → until_null (s ++ 0%Z :: r) = Ok s.
Proof.
  induction s as [|x s IH]; intros Hs; [done|]. cbn. rewrite decide_False by set_solver.
  by rewrite IH by set_solver.
Qed.

Lemma CString_packed s p : CString_new s = Ok p → packCString p = Ok s.
Proof. unfold CString_new. case_decide; [done|]. intros [= <-]. by apply until_null_app. Qed.

Lemma CString_cases s :
  if decide ((0%Z) ∈ s) then ∃ e, CString_new s = Err e
  else ∃ p, CString_new s = Ok p ∧ packCString p = Ok s.
Proof.
  unfold CString_new. case_decide; [by eauto|]. eexists. split; [done|]. by apply until_null_app.
Qed.

Lemma json_no_null j : (0%Z) ∉ json_bytes j.
Proof. pose proof (json_ok j) as [H _]%andb_true_iff. by apply bool_decide_eq_true in H. Qed.

Lemma json_utf8 j : from_utf8 (json_bytes j) = Ok (json_bytes j).
Proof.
  pose proof (json_ok j) as [_ H]%andb_true_iff. revert H. unfold from_utf8. by destruct (utf8_valid_fuel _ _).
Qed.

Lemma fresh_lookup {A} (h : gmap positive A) : h !! fresh (dom h) = None.
Proof. apply not_elem_of_dom, is_fresh. Qed.

Lemma malloc_eq bs h : malloc bs h = (Value (fresh (dom h)), <[fresh (dom h) := bs]> h).
Proof. done. Qed.
Lemma peek_new l bs (h : Heap) : peek l (<[l := bs]> h) = (Value (ToBytes bs), <[l := bs]> h).
Proof. unfold peek. by rewrite lookup_insert_eq. Qed.
Lemma free_new bs (h : Heap) :
  freeCStr (fresh (dom h)) (<[fresh (dom h) := bs]> h) = (Value tt, h).
Proof. unfold freeCStr. by rewrite lookup_insert_eq, delete_insert_id by apply fresh_lookup. Qed.

(** A string that is allocated, read and freed. *)
Lemma wrap_json j h : wrap_c_call_string (jsonCString j) h = (Value (json_bytes j), h).
Proof.
  unfold wrap_c_call_string, jsonCString. rewrite (rs_bind_value _ _ _ _ _ (malloc_eq _ _)).
  rewrite (rs_bind_value _ _ _ _ _ (peek_new _ _ _)).
  cbn [packCString]. rewrite until_null_app by apply json_no_null. erewrite rs_bind_value by done.
  rewrite json_utf8. erewrite rs_bind_value by done.
  by rewrite (rs_bind_value _ _ _ _ _ (free_new _ _)).
Qed.

Lemma wrap_bytes bs h :
  fits 32 (Z.of_nat (length bs)) → wrap_c_call_bytes (byteStringToCString bs) h = (Value bs, h).
Proof.
  intros Hl. unfold wrap_c_call_bytes, byteStringToCString, as_u32. rewrite wrap_small by done.
  set (head := to_be_bytes 4 _). assert (length head = 4) as Hh by apply length_to_be_bytes.
  rewrite (rs_bind_value _ _ _ _ _ (malloc_eq _ _)), (rs_bind_value _ _ _ _ _ (peek_new _ _ _)).
  assert (from_raw_parts (ToBytes (head ++ bs)) 4 = Ok head) as ->.
  { unfold from_raw_parts. rewrite length_app, Hh, decide_True by (vm_compute as_u64; lia).
    change (Z.to_nat (as_u64 4)) with 4. by rewrite take_app_length'. }
  erewrite rs_bind_value by done. subst head. rewrite from_to_be_bytes_small by done.
  replace (4 + Z.of_nat (length bs))%Z with
    (Z.of_nat (length (to_be_bytes 4 (Z.of_nat (length bs)) ++ bs))) by (rewrite length_app, Hh; lia).
  rewrite from_raw_parts_whole by (unfold fits in *; rewrite length_app, Hh; lia).
  erewrite rs_bind_value by done. rewrite (rs_bind_value _ _ _ _ _ (free_new _ _)).
  unfold mret, RS_ret.
  by rewrite drop_app_length' by done.
Qed.

Section queries.
Context `{!StringExt}.

(** A call that is made with the strings of the query gives its answer and leaves the
    memory as it was. *)
Definition answers (strings : list bytes) (m : outcome (RS Heap bytes)) (r : bytes) : Prop :=
  if existsb (λ s, bool_decide ((0%Z) ∈ s)) strings then ∃ e, m = Err e
  else ∃ call, m = Ok call ∧ ∀ h, call h = (Value r, h).

Lemma wrap_call (m : RS Heap positive) j :
  (∀ h, m h = jsonCString j h) → ∀ h, wrap_c_call_string m h = (Value (json_bytes j), h).
Proof. intros Hm h. rewrite <- wrap_json. unfold wrap_c_call_string. unfold mbind, RS_bind. by rewrite Hm. Qed.

Lemma with_one_answers a f j :
  (∀ p h, packCString p = Ok a → f p h = jsonCString j h) →
  answers [a] (Strings.with_one a f) (json_bytes j).
Proof.
  intros Hf. unfold answers, Strings.with_one. cbn. pose proof (CString_cases a) as Ha.
  case_bool_decide; rewrite ?decide_True, ?decide_False in Ha by done; cbn.
  - destruct Ha as [e ->]. by eexists.
  - destruct Ha as (p & -> & Hp). eexists. split; [done|]. apply wrap_call. eauto.
Qed.

Lemma with_two_answers a b f j :
  (∀ p q h, packCString p = Ok a → packCString q = Ok b → f p q h = jsonCString j h) →
  answers [a; b] (Strings.with_two a b f) (json_bytes j).
Proof.
  intros Hf. unfold answers, Strings.with_two. cbn.
  pose proof (CString_cases a) as Ha. pose proof (CString_cases b) as Hb.
  case_bool_decide; rewrite ?decide_True, ?decide_False in Ha by done; cbn.
  { destruct Ha as [e ->]. by eexists. }
  destruct Ha as (p & -> & Hp). rewrite bind_Ok.
  case_bool_decide; rewrite ?decide_True, ?decide_False in Hb by done; cbn.
  - destruct Hb as [e ->]. by eexists.
  - destruct Hb as (p' & -> & Hp'). eexists. split; [done|]. apply wrap_call. eauto.
Qed.

Lemma getModuleSource_eq b m p q h :
  packCString p = Ok b → packCString q = Ok m →
  getModuleSource p q h = byteStringToCString (source_of b m) h.
Proof.
  intros Hp Hq. unfold getModuleSource, decodeBlockHash, decodeModuleRef. rewrite Hp, Hq.
  erewrite rs_bind_value by done. erewrite rs_bind_value by done. unfold source_of.
  by destruct (readBlockHash b), (readModuleRef m).
Qed.

Lemma module_source_answers b m :
  fits 32 (Z.of_nat (length (source_of b m))) →
  answers [b; m] (Strings.get_module_source b m) (source_of b m).
Proof.
  intros Hl. unfold answers, Strings.get_module_source. cbn.
  pose proof (CString_cases b) as Ha. pose proof (CString_cases m) as Hb.
  case_bool_decide; rewrite ?decide_True, ?decide_False in Ha by done; cbn.
  { destruct Ha as [e ->]. by eexists. }
  destruct Ha as (p & -> & Hp). rewrite bind_Ok.
  case_bool_decide; rewrite ?decide_True, ?decide_False in Hb by done; cbn.
  { destruct Hb as [e ->]. by eexists. }
  destruct Hb as (p' & -> & Hp'). rewrite bind_Ok. eexists. split; [done|]. intros h.
  rewrite <- wrap_bytes by done. unfold wrap_c_call_bytes. unfold mbind, RS_bind.
  by rewrite (getModuleSource_eq b m).
Qed.

Lemma consensus_call_answers q :
  match q with ModuleSource1 b m => fits 32 (Z.of_nat (length (source_of b m))) | _ => True end →
  answers (strings_of q) (consensus_call q) (denoted q).
Proof.
  intros Hq. destruct q; cbn [consensus_call later_call strings_of denoted];
    first [ by apply module_source_answers
          | apply with_one_answers; intros p h Hp
          | apply with_two_answers; intros p q h Hp Hp'
          | eexists; split; [done|]; intros h; apply wrap_call; intros h' ].
  all: try (by destruct restrict); try done.
  all: unfold getBlockInfo, getBlockSummary, getRewardStatus, getBirkParameters,
    getCryptographicParameters, getAllIdentityProviders, getAllAnonymityRevokers, getAccountList,
    getInstances, getModuleList, getBakerList, getAncestors, getAccountInfo, getInstanceInfo,
    invokeContract, getPoolStatus, getTransactionStatus, getTransactionStatusInBlock,
    getAccountNonFinalizedTransactions, getNextAccountNonce, decodeBlockHash, decodeModuleRef,
    decodeTransactionHash, decodeAccountAddress, decodeInstanceAddress, decodeContractContext.
  all: rewrite ?Hp, ?Hp'; done.
Qed.

(** C27: Every query of the first interface is answered with what it denotes on the side
    of the library, JSON null where an argument cannot be read there; without the access
    token, without consensus, or with a null character in a string the request is
    refused.  In all cases every string that the library allocated has been freed, and
    no string is used after that. *)
Theorem string_query_refinement access_token container token q h :
  from_utf8 access_token = Ok access_token →
  match q with ModuleSource1 b m => fits 32 (Z.of_nat (length (source_of b m))) | _ => True end →
  endpoint access_token container token q h =
    (if decide (token = Some access_token) then
       match container with
       | Some false => if existsb (λ s, bool_decide ((0%Z) ∈ s)) (strings_of q)
                       then Status InvalidArgument else Value (denoted q)
       | Some true => Status Internal
       | None => Status FailedPrecondition
       end
     else Status Unauthenticated, h).
Proof.
  intros Hu Hq. unfold endpoint, authenticated. destruct token as [t|]; [|by rewrite decide_False].
  destruct (decide (Some t = Some access_token)) as [[= ->]|Hne]; cycle 1.
  { unfold from_utf8. destruct (utf8_valid_fuel _ _); [|done]. by rewrite decide_False by congruence. }
  rewrite Hu, decide_True by done. unfold call_consensus.
  destruct container as [[]|]; [done| |done].
  pose proof (consensus_call_answers q Hq) as Ha. unfold answers in Ha.
  destruct (existsb _ _).
  - destruct Ha as [e ->]. done.
  - destruct Ha as (call & -> & Hc). apply Hc.
Qed.
End queries.

(** ** An example *)
Module StringExample.
Definition null : json := MkJson [110%Z; 117%Z; 108%Z; 108%Z] eq_refl.
Definition empty_list : json := MkJson [91%Z; 93%Z] eq_refl.

#[local] Instance lib : StringExt := {|
  contract_context := unit;
  readBlockHash b := if decide (length b = 64) then Some b else None;
  readModuleRef b := if decide (length b = 64) then Some b else None;
  readTransactionHash b := if decide (length b = 64) then Some b else None;
  addressFromBytes b := if decide (length b = 50) then Some b else None;
  decodeAccountIdentifier b := if decide (length b = 50) then Some (Hs.AccAddress b) else None;
  decodeAddressJson _ := None;
  decodeContextJson _ := None;
  json_null := null;
  S_getConsensusStatus := empty_list;
  S_getBranches := empty_list;
  S_getBlocksAtHeight _ _ _ := empty_list;
  S_getAncestors _ _ := empty_list;
  S_getAccountInfo _ _ := null;
  S_getInstanceInfo _ _ := null;
  S_invokeContract _ _ := null;
  S_getPoolStatus _ _ := null;
  S_getModuleSource _ _ := Some [1%Z; 2%Z; 0%Z; 3%Z];
  S_getTransactionStatus _ := null;
  S_getTransactionStatusInBlock _ _ := null;
  S_getLastFinalizedBlockHeight := 0%Z;
  S_getBlockInfo _ := empty_list;
  S_getBlockSummary _ := empty_list;
  S_getRewardStatus _ := empty_list;
  S_getBirkParameters _ := empty_list;
  S_getCryptographicParameters _ := empty_list;
  S_getAllIdentityProviders _ := empty_list;
  S_getAllAnonymityRevokers _ := empty_list;
  S_getAccountList _ := empty_list;
  S_getInstanceList _ := empty_list;
  S_getModuleList _ := empty_list;
  S_getRegisteredBakers _ := empty_list;
  S_getAccountNonFinalizedTransactions _ := empty_list;
  S_getNextAccountNonce _ := empty_list;
|}.

Definition hex : bytes := replicate 64 97%Z.

(** The source of a module, which has a null octet in it. *)
Lemma string_query_refinement_witness :
  endpoint [112%Z] (Some false) (Some [112%Z]) (ModuleSource1 hex hex) ∅
  = (Value [1%Z; 2%Z; 0%Z; 3%Z], ∅).
Proof.
  rewrite string_query_refinement; [vm_compute; reflexivity|vm_compute; reflexivity|].
  vm_compute. intuition discriminate.
Defined.
End StringExample.
