(* ===== verification/Streams.v ===== *)
(** * Queries with a stream of answers

    Models the queries of the second interface whose answer is a stream: the
    endpoints of [concordium-node/src/grpc2.rs], the methods and the callback of
    [consensus_ffi/ffi.rs] that hand the sending end of a channel to the
    consensus library as a raw pointer, and the threads of
    [concordium-consensus/src/Concordium/External/GRPC2.hs] that send through it
    and retry while the channel is full.  The memory that is owned through raw
    pointers is part of the state; using a pointer that is not allocated is
    undefined behaviour and ends the program.  The channel of the [futures] crate
    and the answers of the library are parameters. *)
From S2P Require Import Prelude.
From S2P Require Import Status.
From S2P Require Import ServiceConfig.
From S2P Require Import FfiHelpers.
From S2P Require Import Foreign.
From S2P Require Import Queries.
From Stdlib Require Import Ascii.

(** [futures::channel::mpsc] with one sender: whether a channel made with a buffer of
    some size is full depends on how many messages are queued; there is always room
    for the first. *)
Class ChannelExt := {
  chan_full : nat → nat → bool;
  chan_full_empty b : chan_full b 0 = false;
}.

(** What the library knows, at the time of the query. *)
Inductive DelegatorsError := GDEUnsupportedProtocolVersion | GDEPoolNotFound | GDEBlockNotFound.

Class StreamExt := {
  Q_getAccountList : Hs.BlockHashInput → bytes * option (list message);
  Q_getModuleList : Hs.BlockHashInput → bytes * option (list message);
  Q_getInstanceList : Hs.BlockHashInput → bytes * option (list message);
  Q_getAncestors : Hs.BlockHashInput → u64 → bytes * option (list message);
  Q_getRegisteredBakers : Hs.BlockHashInput → bytes * option (list message);
  Q_getDelegators : Hs.BlockHashInput → option u64 → bytes * (DelegatorsError + list message);
  Q_getDelegatorsRewardPeriod :
    Hs.BlockHashInput → option u64 → bytes * (DelegatorsError + list message);
  Q_getAllIdentityProviders : Hs.BlockHashInput → bytes * option (list message);
  Q_getAllAnonymityRevokers : Hs.BlockHashInput → bytes * option (list message);
  Q_getAccountNonFinalizedTransactions : bytes → list message;
  Q_getBlockItems : Hs.BlockHashInput → bytes * option (list message);
  Q_getBlockTransactionSummaries : Hs.BlockHashInput → bytes * option (option (list message));
  Q_getBlockSpecialEvents : Hs.BlockHashInput → bytes * option (list message);
  Q_getBlockPendingUpdates : Hs.BlockHashInput → bytes * option (list message);
}.

(** ** The state *)

Record Channel := MkChannel {
  ch_buffer : nat;
  ch_queue : list bytes;
  ch_received : list bytes;   (** what the client has read *)
  ch_receiver : bool;         (** the receiver has not been dropped *)
  ch_sender : bool;           (** the sender has not been dropped *)
}.

(** A thread of [enqueueProtoMessages], with the pointer it was given, the exponent of
    the next delay and the messages that remain.  The channel and the list of all
    messages are recorded for the theorems. *)
Inductive Progress := Trying (n : nat) (msgs : list message) | Finished.

Record Thread := MkThread {
  th_sender : positive;
  th_progress : Progress;
  th_channel : positive;
  th_messages : list message;
}.

Record World := MkWorld {
  boxes : gmap positive positive;
  chans : gmap positive Channel;
  threads : gmap positive Thread;
}.

Definition with_boxes b w := MkWorld b (chans w) (threads w).
Definition with_chans c w := MkWorld (boxes w) c (threads w).
Definition with_threads t w := MkWorld (boxes w) (chans w) t.

Abbreviation W := (RS World) (only parsing).

(** ** Channels and boxes *)

Definition set_chan (c : positive) (ch : Channel) (w : World) : World :=
  with_chans (<[c := ch]> (chans w)) w.

Definition on_chan (c : positive) (f : Channel → Channel) (w : World) : World :=
  with_chans (alter f c (chans w)) w.

(** [futures::channel::mpsc::channel(buffer)] *)
Definition new_channel (buffer : nat) : W positive := λ w,
  let c := fresh (dom (chans w)) in
  (Value c, set_chan c (MkChannel buffer [] [] true true) w).

Definition drop_sender (c : positive) : World → World :=
  on_chan c (λ ch, MkChannel (ch_buffer ch) (ch_queue ch) (ch_received ch) (ch_receiver ch) false).

(** The messages of a channel without a receiver are dropped. *)
Definition drop_receiver (c : positive) : World → World :=
  on_chan c (λ ch, MkChannel (ch_buffer ch) [] (ch_received ch) false (ch_sender ch)).

(** [Box::into_raw(Box::new(sender))] *)
Definition box_into_raw (c : positive) : W positive := λ w,
  let l := fresh (dom (boxes w)) in (Value l, with_boxes (<[l := c]> (boxes w)) w).

(** [Box::from_raw] takes the box out of the memory that is owned by pointers, and
    [Box::into_raw] of the same box puts it back in its place. *)
Definition box_from_raw (l : positive) : W positive := λ w,
  match boxes w !! l with
  | Some c => (Value c, with_boxes (delete l (boxes w)) w)
  | None => (Crashed, w)
  end.
Definition box_put_back (l c : positive) : W unit :=
  rs_modify (λ w, with_boxes (<[l := c]> (boxes w)) w).

Inductive SendResult := Sent | Full | Disconnected.

Section streams.
Context `{!ChannelExt}.

Definition try_send (c : positive) (data : bytes) : W SendResult := λ w,
  match chans w !! c with
  | Some ch =>
    if ch_receiver ch then
      if chan_full (ch_buffer ch) (length (ch_queue ch)) then (Value Full, w)
      else (Value Sent, set_chan c (MkChannel (ch_buffer ch) (ch_queue ch ++ [data])
              (ch_received ch) (ch_receiver ch) (ch_sender ch)) w)
    else (Value Disconnected, w)
  | None => (Crashed, w)
  end.

(** ** The callback *)

Definition enqueue_bytearray_callback (sender : positive) (msg : ptr) (msg_length : i64) : W Z :=
  c ← box_from_raw sender;
  if decide (msg_length ≠ 0%Z ∧ msg = Null) then rs_modify (drop_sender c) ;; mret (-2)%Z
  else
    data ← (if decide (msg_length = 0%Z) then mret [] else rs_lift (from_raw_parts msg msg_length));
    res ← try_send c data;
    match res with
    | Sent => box_put_back sender c ;; mret 0%Z
    | Full => box_put_back sender c ;; mret (-1)%Z
    | Disconnected => rs_modify (drop_sender c) ;; mret (-2)%Z
    end.

(** ** The threads of the library *)

(** [threadDelay], in microseconds *)
Definition delay (n : nat) : Z := 2 ^ Z.of_nat n * 10000.

(** One round of [go]. *)
Definition go (l : positive) (p : Progress) : W Progress :=
  match p with
  | Finished => mret Finished
  | Trying _ [] => enqueue_bytearray_callback l Null (2 ^ 63 - 1) ;; mret Finished
  | Trying n (msg :: msgs) =>
    res ← enqueue_bytearray_callback l (ToBytes (msg_bytes msg)) (Z.of_nat (length (msg_bytes msg)));
    if decide (res = 0%Z) then mret (Trying 0 msgs)
    else if decide (res = (-1)%Z) then mret (Trying (Nat.min (n + 1) 10) (msg :: msgs))
    else mret Finished
  end.

Definition set_progress (p : Progress) (th : Thread) : Thread :=
  MkThread (th_sender th) p (th_channel th) (th_messages th).

Definition run_thread (t : positive) (th : Thread) : W unit :=
  p ← go (th_sender th) (th_progress th);
  rs_modify (λ w, with_threads (<[t := set_progress p th]> (threads w)) w).

(** [enqueueMessages]: a new thread. *)
Definition enqueueMessages (l : positive) (msgs : list message) : W unit :=
  rs_modify (λ w,
    with_threads (<[fresh (dom (threads w)) :=
      MkThread l (Trying 0 msgs) (default 1%positive (boxes w !! l)) msgs]> (threads w)) w).

(** ** The functions the library exports

    The result is the code and what has been written to [outHash]. *)

Abbreviation Export := (positive → W (i64 * bytes)) (only parsing).

Definition no_hash : bytes := replicate 32 0%Z.

(** The hash is only written when there is an answer. *)
Definition hash_with_answer (r : bytes * option (list message)) : Export := λ channel,
  match r with
  | (_, None) => mret (Exported.queryResultCode Exported.QRNotFound, no_hash)
  | (bh, Some msgs) =>
    enqueueMessages channel msgs ;; mret (Exported.queryResultCode Exported.QRSuccess, bh)
  end.

(** The hash is written first. *)
Definition hash_before_answer (r : bytes * option (list message)) : Export := λ channel,
  match r with
  | (bh, None) => mret (Exported.queryResultCode Exported.QRNotFound, bh)
  | (bh, Some msgs) =>
    enqueueMessages channel msgs ;; mret (Exported.queryResultCode Exported.QRSuccess, bh)
  end.

Definition delegators_answer (r : bytes * (DelegatorsError + list message)) : Export := λ channel,
  match r with
  | (_, inl GDEUnsupportedProtocolVersion) =>
    mret (Exported.queryResultCode Exported.QRInvalidArgument, no_hash)
  | (_, inl GDEPoolNotFound) => mret (Exported.queryResultCode Exported.QRNotFound, no_hash)
  | (_, inl GDEBlockNotFound) => mret (Exported.queryResultCode Exported.QRNotFound, no_hash)
  | (bh, inr delegators) =>
    enqueueMessages channel delegators ;; mret (Exported.queryResultCode Exported.QRSuccess, bh)
  end.

Section exports.
Context `{!StreamExt}.

(** The common first step. *)
Definition for_block (k : Hs.BlockHashInput → Export) (blockType : u8) (blockHashPtr : ptr) : Export :=
  λ channel, bhi ← rs_lift (Hs.decodeBlockHashInput blockType blockHashPtr); k bhi channel.

Definition getAccountListV2 := for_block (λ bhi, hash_with_answer (Q_getAccountList bhi)).
Definition getModuleListV2 := for_block (λ bhi, hash_with_answer (Q_getModuleList bhi)).
Definition getInstanceListV2 := for_block (λ bhi, hash_with_answer (Q_getInstanceList bhi)).
Definition getAncestorsV2 (depth : u64) :=
  for_block (λ bhi, hash_with_answer (Q_getAncestors bhi depth)).
Definition getBakerListV2 := for_block (λ bhi, hash_with_answer (Q_getRegisteredBakers bhi)).
Definition getPoolDelegatorsV2 (bakerId : u64) :=
  for_block (λ bhi, delegators_answer (Q_getDelegators bhi (Some bakerId))).
Definition getPoolDelegatorsRewardPeriodV2 (bakerId : u64) :=
  for_block (λ bhi, delegators_answer (Q_getDelegatorsRewardPeriod bhi (Some bakerId))).
Definition getPassiveDelegatorsV2 := for_block (λ bhi, delegators_answer (Q_getDelegators bhi None)).
Definition getPassiveDelegatorsRewardPeriodV2 :=
  for_block (λ bhi, delegators_answer (Q_getDelegatorsRewardPeriod bhi None)).
Definition getIdentityProvidersV2 :=
  for_block (λ bhi, hash_before_answer (Q_getAllIdentityProviders bhi)).
Definition getAnonymityRevokersV2 :=
  for_block (λ bhi, hash_before_answer (Q_getAllAnonymityRevokers bhi)).
Definition getAccountNonFinalizedTransactionsV2 (accPtr : ptr) : Export := λ channel,
  accountAddress ← rs_lift (Hs.decodeAccountAddress accPtr);
  enqueueMessages channel (Q_getAccountNonFinalizedTransactions accountAddress) ;;
  mret (Exported.queryResultCode Exported.QRSuccess, no_hash).
Definition getBlockItemsV2 := for_block (λ bhi, hash_with_answer (Q_getBlockItems bhi)).
Definition getBlockTransactionEventsV2 := for_block (λ bhi channel,
  match Q_getBlockTransactionSummaries bhi with
  | (bh, None) => mret (Exported.queryResultCode Exported.QRNotFound, bh)
  | (bh, Some None) => mret (Exported.queryResultCode Exported.QRInternalError, bh)
  | (bh, Some (Some proto)) =>
    enqueueMessages channel proto ;; mret (Exported.queryResultCode Exported.QRSuccess, bh)
  end).
Definition getBlockSpecialEventsV2 :=
  for_block (λ bhi, hash_before_answer (Q_getBlockSpecialEvents bhi)).
Definition getBlockPendingUpdatesV2 :=
  for_block (λ bhi, hash_before_answer (Q_getBlockPendingUpdates bhi)).

(** ** The methods of [ConsensusContainer] *)

(** Call an exported function with the sender of channel [c].  The sender is not
    taken back when the call fails. *)
Definition stream_call (export : Export) (c : positive) : W bytes :=
  sender_ptr ← box_into_raw c;
  '(code, buf) ← export sender_ptr;
  response ← rs_reply (query_response code);
  rs_reply (ConsensusQueryResponse_ensure_ok response) ;;
  mret buf.

(** In a method that fails before the call the sender is still a value of Rust and is
    dropped. *)
Definition or_drop_sender {A} (c : positive) (r : Reply A) : W A := λ w,
  match r with
  | Value a => (Value a, w)
  | r => (r, drop_sender c w)
  end.

(** A stream query that takes nothing but a block. *)
Definition block_stream (f : u8 → ptr → Export) (block_hash : BlockHashInput) (c : positive) :
    W bytes :=
  '(block_id_type, block_hash) ← or_drop_sender c (require_block block_hash);
  stream_call (f block_id_type block_hash) c.

Definition get_account_list_v2 (block_hash : BlockHashInput) (c : positive) : W bytes :=
  '(block_id_type, block_hash) ← or_drop_sender c (require_block block_hash);
  sender_ptr ← box_into_raw c;
  '(code, buf) ← getAccountListV2 block_id_type block_hash sender_ptr;
  response ← rs_reply (query_response code);
  match ConsensusQueryResponse_ensure_ok response with
  | Value _ => mret buf
  | e =>
    (** the sender is deallocated *)
    c ← box_from_raw sender_ptr;
    rs_modify (drop_sender c) ;;
    rs_reply (a ← e; Value buf)
  end.

Definition get_module_list_v2 := block_stream getModuleListV2.
Definition get_instance_list_v2 := block_stream getInstanceListV2.
Definition get_ancestors_v2 (block_hash : BlockHashInput) (amount : u64) :=
  block_stream (getAncestorsV2 amount) block_hash.
Definition get_baker_list_v2 := block_stream getBakerListV2.

Definition pool_stream (f : u64 → u8 → ptr → Export) (block_hash : option BlockHashInput)
    (baker : option u64) (c : positive) : W bytes :=
  '(block_id_type, block_hash) ← or_drop_sender c (b ← require block_hash; require_block b);
  baker ← or_drop_sender c (require baker);
  stream_call (f (baker_id_to_ffi baker) block_id_type block_hash) c.

Definition get_pool_delegators_v2 := pool_stream getPoolDelegatorsV2.
Definition get_pool_delegators_reward_period_v2 := pool_stream getPoolDelegatorsRewardPeriodV2.
Definition get_passive_delegators_v2 := block_stream getPassiveDelegatorsV2.
Definition get_passive_delegators_reward_period_v2 := block_stream getPassiveDelegatorsRewardPeriodV2.
Definition get_identity_providers_v2 := block_stream getIdentityProvidersV2.
Definition get_anonymity_revokers_v2 := block_stream getAnonymityRevokersV2.

Definition get_account_non_finalized_transactions_v2 (address : bytes) (c : positive) : W bytes :=
  account_address_ptr ← or_drop_sender c (require (account_address_to_ffi address));
  stream_call (getAccountNonFinalizedTransactionsV2 account_address_ptr) c.

Definition get_block_items_v2 := block_stream getBlockItemsV2.
Definition get_block_transaction_events_v2 := block_stream getBlockTransactionEventsV2.
Definition get_block_special_events_v2 := block_stream getBlockSpecialEventsV2.
Definition get_block_pending_updates_v2 := block_stream getBlockPendingUpdatesV2.
End exports.
End streams.

(** ** The endpoints *)

Inductive StreamQuery :=
  | AccountList (block : BlockHashInput)
  | ModuleList (block : BlockHashInput)
  | InstanceList (block : BlockHashInput)
  | Ancestors (block : option BlockHashInput) (amount : u64)
  | BakerList (block : BlockHashInput)
  | PoolDelegators (block : option BlockHashInput) (baker : option u64)
  | PoolDelegatorsRewardPeriod (block : option BlockHashInput) (baker : option u64)
  | PassiveDelegators (block : BlockHashInput)
  | PassiveDelegatorsRewardPeriod (block : BlockHashInput)
  | IdentityProviders (block : BlockHashInput)
  | AnonymityRevokers (block : BlockHashInput)
  | AccountNonFinalizedTransactions (address : bytes)
  | BlockItems (block : BlockHashInput)
  | BlockTransactionEvents (block : BlockHashInput)
  | BlockSpecialEvents (block : BlockHashInput)
  | BlockPendingUpdates (block : BlockHashInput).

Section endpoints.
Context `{!ChannelExt, !StreamExt, !QueryExt} (cfg : ServiceConfig).

(** The receiver is dropped when the request fails. *)
Definition or_drop_receiver {A} (c : positive) (m : W A) : W A := λ w,
  match m w with
  | (Value a, w) => (Value a, w)
  | (r, w) => (r, drop_receiver c w)
  end.

Definition stream_endpoint (flag : ServiceConfig → bool) (buffer : nat) (method : positive → W bytes) :
    W (Response positive) :=
  if flag cfg then
    c ← new_channel buffer;
    or_drop_receiver c (hash ← method c; rs_reply (add_hash c hash))
  else rs_reply (Status Unimplemented).

Definition get_account_list b := stream_endpoint en_get_account_list 100 (get_account_list_v2 b).
Definition get_module_list b := stream_endpoint en_get_module_list 100 (get_module_list_v2 b).
Definition get_instance_list b := stream_endpoint en_get_instance_list 100 (get_instance_list_v2 b).
Definition get_ancestors (block_hash : option BlockHashInput) (amount : u64) :=
  stream_endpoint en_get_ancestors 100 (λ c,
    block_hash ← or_drop_sender c (require block_hash); get_ancestors_v2 block_hash amount c).
Definition get_baker_list b := stream_endpoint en_get_baker_list 100 (get_baker_list_v2 b).
Definition get_pool_delegators b i :=
  stream_endpoint en_get_pool_delegators 100 (get_pool_delegators_v2 b i).
Definition get_pool_delegators_reward_period b i :=
  stream_endpoint en_get_pool_delegators_reward_period 100 (get_pool_delegators_reward_period_v2 b i).
Definition get_passive_delegators b :=
  stream_endpoint en_get_passive_delegators 100 (get_passive_delegators_v2 b).
Definition get_passive_delegators_reward_period b :=
  stream_endpoint en_get_passive_delegators_reward_period 100
    (get_passive_delegators_reward_period_v2 b).
Definition get_identity_providers b :=
  stream_endpoint en_get_identity_providers 10 (get_identity_providers_v2 b).
Definition get_anonymity_revokers b :=
  stream_endpoint en_get_anonymity_revokers 10 (get_anonymity_revokers_v2 b).

(** The response has no hash. *)
Definition get_account_non_finalized_transactions (address : bytes) : W (Response positive) :=
  if en_get_account_non_finalized_transactions cfg then
    c ← new_channel 10;
    or_drop_receiver c (
      get_account_non_finalized_transactions_v2 address c ;; mret (MkResponse c None))
  else rs_reply (Status Unimplemented).

Definition get_block_items b := stream_endpoint en_get_block_items 100 (get_block_items_v2 b).
Definition get_block_transaction_events b :=
  stream_endpoint en_get_block_transaction_events 10 (get_block_transaction_events_v2 b).
Definition get_block_special_events b :=
  stream_endpoint en_get_block_special_events 10 (get_block_special_events_v2 b).
Definition get_block_pending_updates b :=
  stream_endpoint en_get_block_pending_updates 10 (get_block_pending_updates_v2 b).

Definition run_query (q : StreamQuery) : W (Response positive) :=
  match q with
  | AccountList b => get_account_list b
  | ModuleList b => get_module_list b
  | InstanceList b => get_instance_list b
  | Ancestors b n => get_ancestors b n
  | BakerList b => get_baker_list b
  | PoolDelegators b i => get_pool_delegators b i
  | PoolDelegatorsRewardPeriod b i => get_pool_delegators_reward_period b i
  | PassiveDelegators b => get_passive_delegators b
  | PassiveDelegatorsRewardPeriod b => get_passive_delegators_reward_period b
  | IdentityProviders b => get_identity_providers b
  | AnonymityRevokers b => get_anonymity_revokers b
  | AccountNonFinalizedTransactions a => get_account_non_finalized_transactions a
  | BlockItems b => get_block_items b
  | BlockTransactionEvents b => get_block_transaction_events b
  | BlockSpecialEvents b => get_block_special_events b
  | BlockPendingUpdates b => get_block_pending_updates b
  end.
End endpoints.

(** ** The system

    Requests arrive, the threads of the library run, and clients read from their
    streams or go away, in any order. *)

(** The client, while it is there, takes the next message off the channel. *)
Definition receive (c : positive) : World → World :=
  on_chan c (λ ch,
    match ch_receiver ch, ch_queue ch with
    | true, x :: q => MkChannel (ch_buffer ch) q (ch_received ch ++ [x]) true (ch_sender ch)
    | _, _ => ch
    end).

Section system.
Context `{!ChannelExt, !StreamExt, !QueryExt}.

Inductive step (w : World) : World → Prop :=
  | step_query cfg q : step w (run_query cfg q w).2
  | step_thread t th : threads w !! t = Some th → step w (run_thread t th w).2
  | step_receive c : step w (receive c w)
  | step_disconnect c : step w (drop_receiver c w).

Definition World_new : World := MkWorld ∅ ∅ ∅.
End system.
