(* ===== verification/StreamProofs.v ===== *)
(** * Streams are delivered in order and in full

    What the requests of [Streams] do to the state, the invariant of the system of
    endpoints, threads and clients, and what follows from it. *)
From S2P Require Import Prelude.
From S2P Require Import Status.
From S2P Require Import ServiceConfig.
From S2P Require Import FfiHelpers.
From S2P Require Import Foreign.
From S2P Require Import Queries.
From S2P Require Import Streams.
From Stdlib Require Import Ascii.

(** ** What a request denotes

    A malformed request is rejected before the library is called; the library may
    refuse it, or answer with a hash and the messages of the stream. *)

Inductive Stream :=
  | Rejected
  | Refused (e : Code)
  | Streaming (hash : option bytes) (msgs : list message).

Abbreviation Answer := (bytes * (Code + list message))%type (only parsing).

Definition stream_of_answer (r : Answer) : Stream :=
  match r with
  | (_, inl e) => Refused e
  | (h, inr msgs) => Streaming (Some h) msgs
  end.

Definition listed (r : bytes * option (list message)) : Answer :=
  (r.1, match r.2 with Some msgs => inr msgs | None => inl NotFound end).

Definition delegators (r : bytes * (DelegatorsError + list message)) : Answer :=
  (r.1, match r.2 with
        | inl GDEUnsupportedProtocolVersion => inl InvalidArgument
        | inl _ => inl NotFound
        | inr msgs => inr msgs
        end).

Definition summaries (r : bytes * option (option (list message))) : Answer :=
  (r.1, match r.2 with
        | Some (Some msgs) => inr msgs
        | Some None => inl Internal
        | None => inl NotFound
        end).

Definition of_block (f : Hs.BlockHashInput → Answer) (b : BlockHashInput) : Stream :=
  match block_of b with
  | Some b => stream_of_answer (f b)
  | None => Rejected
  end.

Definition of_pool (f : Hs.BlockHashInput → u64 → Answer) (b : option BlockHashInput)
    (i : option u64) : Stream :=
  match b ≫= block_of, i with
  | Some b, Some i => stream_of_answer (f b i)
  | _, _ => Rejected
  end.

Section spec.
Context `{!ChannelExt, !StreamExt, !QueryExt}.

Definition stream_of (q : StreamQuery) : Stream :=
  match q with
  | AccountList b => of_block (λ b, listed (Q_getAccountList b)) b
  | ModuleList b => of_block (λ b, listed (Q_getModuleList b)) b
  | InstanceList b => of_block (λ b, listed (Q_getInstanceList b)) b
  | Ancestors b n =>
    match b with
    | Some b => of_block (λ b, listed (Q_getAncestors b n)) b
    | None => Rejected
    end
  | BakerList b => of_block (λ b, listed (Q_getRegisteredBakers b)) b
  | PoolDelegators b i => of_pool (λ b i, delegators (Q_getDelegators b (Some i))) b i
  | PoolDelegatorsRewardPeriod b i =>
    of_pool (λ b i, delegators (Q_getDelegatorsRewardPeriod b (Some i))) b i
  | PassiveDelegators b => of_block (λ b, delegators (Q_getDelegators b None)) b
  | PassiveDelegatorsRewardPeriod b =>
    of_block (λ b, delegators (Q_getDelegatorsRewardPeriod b None)) b
  | IdentityProviders b => of_block (λ b, listed (Q_getAllIdentityProviders b)) b
  | AnonymityRevokers b => of_block (λ b, listed (Q_getAllAnonymityRevokers b)) b
  | AccountNonFinalizedTransactions a =>
    match of_hash a with
    | Some a => Streaming None (Q_getAccountNonFinalizedTransactions a)
    | None => Rejected
    end
  | BlockItems b => of_block (λ b, listed (Q_getBlockItems b)) b
  | BlockTransactionEvents b => of_block (λ b, summaries (Q_getBlockTransactionSummaries b)) b
  | BlockSpecialEvents b => of_block (λ b, listed (Q_getBlockSpecialEvents b)) b
  | BlockPendingUpdates b => of_block (λ b, listed (Q_getBlockPendingUpdates b)) b
  end.
End spec.

(** The switch of the endpoint and the buffer of its channel. *)
Definition stream_flag (q : StreamQuery) : ServiceConfig → bool :=
  match q with
  | AccountList _ => en_get_account_list
  | ModuleList _ => en_get_module_list
  | InstanceList _ => en_get_instance_list
  | Ancestors _ _ => en_get_ancestors
  | BakerList _ => en_get_baker_list
  | PoolDelegators _ _ => en_get_pool_delegators
  | PoolDelegatorsRewardPeriod _ _ => en_get_pool_delegators_reward_period
  | PassiveDelegators _ => en_get_passive_delegators
  | PassiveDelegatorsRewardPeriod _ => en_get_passive_delegators_reward_period
  | IdentityProviders _ => en_get_identity_providers
  | AnonymityRevokers _ => en_get_anonymity_revokers
  | AccountNonFinalizedTransactions _ => en_get_account_non_finalized_transactions
  | BlockItems _ => en_get_block_items
  | BlockTransactionEvents _ => en_get_block_transaction_events
  | BlockSpecialEvents _ => en_get_block_special_events
  | BlockPendingUpdates _ => en_get_block_pending_updates
  end.

Definition stream_buffer (q : StreamQuery) : nat :=
  match q with
  | IdentityProviders _ | AnonymityRevokers _ | AccountNonFinalizedTransactions _
  | BlockTransactionEvents _ | BlockSpecialEvents _ | BlockPendingUpdates _ => 10
  | _ => 100
  end.

Definition is_account_list (q : StreamQuery) : bool :=
  match q with AccountList _ => true | _ => false end.

(** What the request does: a channel without ends when it is rejected, a stream that
    is fed by a new thread when it is answered, and, when it is refused, a sender that
    is still allocated, except for the list of accounts. *)
Section spec_query.
Context `{!QueryExt}.

Definition chan_loc (w : World) : positive := fresh (dom (chans w)).
Definition box_loc (w : World) : positive := fresh (dom (boxes w)).
Definition thread_loc (w : World) : positive := fresh (dom (threads w)).

Definition stream_response (c : positive) (hash : option bytes) : Reply (Response positive) :=
  match hash with
  | Some h => add_hash c h
  | None => Value (MkResponse c None)
  end.

Definition is_value {A} (r : Reply A) : bool := match r with Value _ => true | _ => false end.

Definition with_box (c : positive) (w : World) : World :=
  with_boxes (<[box_loc w := c]> (boxes w)) w.
Definition with_thread (c : positive) (msgs : list message) (w : World) : World :=
  with_threads (<[thread_loc w := MkThread (box_loc w) (Trying 0 msgs) c msgs]> (threads w))
    (with_box c w).

Definition outcome_of_stream (frees : bool) (buffer : nat) (s : Stream) (w : World) :
    Reply (Response positive) * World :=
  let c := chan_loc w in
  let channel rcv snd := set_chan c (MkChannel buffer [] [] rcv snd) w in
  match s with
  | Rejected => (Status InvalidArgument, channel false false)
  | Refused e => (Status e, if frees then channel false false else with_box c (channel false true))
  | Streaming hash msgs =>
    let r := stream_response c hash in
    (r, with_thread c msgs (channel (is_value r) true))
  end.

Definition spec_query `{!ChannelExt, !StreamExt} (cfg : ServiceConfig) (q : StreamQuery) :
    W (Response positive) := λ w,
  if stream_flag q cfg then
    outcome_of_stream (is_account_list q) (stream_buffer q) (stream_of q) w
  else (Status Unimplemented, w).
End spec_query.

(** ** One lemma per layer *)

Lemma box_into_raw_eq c w : box_into_raw c w = (Value (box_loc w), with_box c w).
Proof. done. Qed.

Section layers.
Context `{!ChannelExt, !StreamExt, !QueryExt}.

(** An exported function that has decoded its arguments gives the answer [r]. *)
Definition gives (ex : positive → W (i64 * bytes)) (r : Answer) : Prop :=
  ∀ l w,
    match r with
    | (_, inl e) => ∃ code buf response,
        ex l w = (Value (code, buf), w) ∧ query_response code = Value response
        ∧ ConsensusQueryResponse_ensure_ok response = Status e
    | (h, inr msgs) =>
        ex l w = (Value (0%Z, h), (enqueueMessages l msgs w).2)
    end.

Lemma gives_listed r : gives (hash_with_answer r) (listed r) ∧ gives (hash_before_answer r) (listed r).
Proof.
  destruct r as [h [msgs|]]; (split; intros l w); [done..| |].
  - by exists 1%Z, no_hash, QueryNotFound.
  - by exists 1%Z, h, QueryNotFound.
Qed.

Lemma gives_delegators r : gives (delegators_answer r) (delegators r).
Proof.
  destruct r as [h [[]|msgs]]; intros l w; [..|done];
    [by exists (-2)%Z, no_hash, QueryInvalidArgument|by exists 1%Z, no_hash, QueryNotFound..].
Qed.

Lemma gives_summaries t p b :
  Hs.decodeBlockHashInput t p = Ok b →
  gives (getBlockTransactionEventsV2 t p) (summaries (Q_getBlockTransactionSummaries b)).
Proof.
  intros Hb l w. unfold getBlockTransactionEventsV2, for_block. rewrite Hb.
  unfold rs_lift, mbind, RS_bind, mret, RS_ret.
  destruct (Q_getBlockTransactionSummaries b) as [h [[msgs|]|]]; [done| |].
  - by exists (-1)%Z, h, QueryInternalError.
  - by exists 1%Z, h, QueryNotFound.
Qed.

Lemma gives_for_block k t p b r :
  Hs.decodeBlockHashInput t p = Ok b → gives (k b) r → gives (for_block k t p) r.
Proof. intros Hb Hk l w. unfold for_block. rewrite Hb. apply Hk. Qed.

(** What a method that has been given the sender of [c] returns. *)
Definition method_outcome (frees : bool) (s : Stream) (c : positive) (w : World) : Reply bytes * World :=
  match s with
  | Rejected => (Status InvalidArgument, drop_sender c w)
  | Refused e => (Status e, if frees then drop_sender c w else with_box c w)
  | Streaming h msgs => (Value (default no_hash h), with_thread c msgs w)
  end.

Lemma with_box_lookup c w : boxes (with_box c w) !! box_loc w = Some c.
Proof. apply lookup_insert_eq. Qed.

Lemma enqueue_with_box c msgs w :
  (enqueueMessages (box_loc w) msgs (with_box c w)).2 = with_thread c msgs w.
Proof. unfold enqueueMessages, rs_modify, snd. by rewrite with_box_lookup. Qed.

Lemma stream_call_spec ex r c w :
  gives ex r → stream_call ex c w = method_outcome false (stream_of_answer r) c w.
Proof.
  intros Hex. specialize (Hex (box_loc w) (with_box c w)).
  unfold stream_call. rewrite (rs_bind_value _ _ _ _ _ (box_into_raw_eq _ _)).
  destruct r as [h [e|msgs]].
  - destruct Hex as (code & buf & resp & Hx & Hr & He). rewrite (rs_bind_value _ _ _ _ _ Hx).
    unfold rs_reply. rewrite Hr. erewrite rs_bind_value by done. by rewrite He.
  - rewrite (rs_bind_value _ _ _ _ _ Hex). by rewrite enqueue_with_box.
Qed.

Lemma box_loc_new w : boxes w !! box_loc w = None.
Proof. apply not_elem_of_dom. unfold box_loc. apply is_fresh. Qed.
Lemma chan_loc_new w : chans w !! chan_loc w = None.
Proof. apply not_elem_of_dom. unfold chan_loc. apply is_fresh. Qed.
Lemma thread_loc_new w : threads w !! thread_loc w = None.
Proof. apply not_elem_of_dom. unfold thread_loc. apply is_fresh. Qed.

Lemma remove_box c w :
  with_boxes (delete (box_loc w) (boxes (with_box c w))) (with_box c w) = w.
Proof.
  unfold with_box, with_boxes. simpl. rewrite delete_insert_id; [by destruct w|apply box_loc_new].
Qed.

Lemma account_list_method b c w :
  get_account_list_v2 b c w
  = method_outcome true (of_block (λ b, listed (Q_getAccountList b)) b) c w.
Proof.
  unfold get_account_list_v2, require_block, of_block. pose proof (block_marshalled b) as Hb.
  destruct (block_hash_input_to_ffi b) as [[t p]|]; [|by rewrite Hb].
  destruct Hb as (blk & -> & Hd).
  pose proof (gives_for_block (λ bhi, hash_with_answer (Q_getAccountList bhi)) t p blk _ Hd
    (proj1 (gives_listed _)) (box_loc w) (with_box c w)) as Hex.
  fold getAccountListV2 in Hex. erewrite rs_bind_value by done. cbn beta match.
  rewrite (rs_bind_value _ _ _ _ _ (box_into_raw_eq _ _)).
  destruct (listed (Q_getAccountList blk)) as [h [e|msgs]].
  - destruct Hex as (code & buf & resp & Hx & Hr & He). rewrite (rs_bind_value _ _ _ _ _ Hx).
    unfold rs_reply at 1. rewrite Hr. erewrite rs_bind_value by done. rewrite He.
    erewrite rs_bind_value; [|unfold box_from_raw; by rewrite with_box_lookup].
    by rewrite remove_box.
  - rewrite (rs_bind_value _ _ _ _ _ Hex). by rewrite enqueue_with_box.
Qed.

Lemma block_stream_spec f d b c w :
  (∀ t p b, Hs.decodeBlockHashInput t p = Ok b → gives (f t p) (d b)) →
  block_stream f b c w = method_outcome false (of_block d b) c w.
Proof.
  intros Hf. unfold block_stream, require_block, of_block. pose proof (block_marshalled b) as Hb.
  destruct (block_hash_input_to_ffi b) as [[t p]|]; [|by rewrite Hb].
  destruct Hb as (blk & -> & Hd). apply stream_call_spec; auto.
Qed.

Lemma pool_stream_spec f d b i c w :
  (∀ i t p b, Hs.decodeBlockHashInput t p = Ok b → gives (f i t p) (d b i)) →
  pool_stream f b i c w = method_outcome false (of_pool d b i) c w.
Proof.
  intros Hf. unfold pool_stream, require_block, of_pool.
  destruct b as [b|]; [|done]. pose proof (block_marshalled b) as Hb. cbn.
  destruct (block_hash_input_to_ffi b) as [[t p]|]; [|by rewrite Hb].
  destruct Hb as (blk & -> & Hd). destruct i as [i|]; [|done]. apply stream_call_spec; auto.
Qed.

Lemma on_chan_set f c ch w : on_chan c f (set_chan c ch w) = set_chan c (f ch) w.
Proof. unfold on_chan, set_chan, with_chans. simpl. by rewrite alter_insert_eq. Qed.
Lemma on_chan_with_box f c c' w : on_chan c f (with_box c' w) = with_box c' (on_chan c f w).
Proof. done. Qed.
Lemma on_chan_with_thread f c c' msgs w :
  on_chan c f (with_thread c' msgs w) = with_thread c' msgs (on_chan c f w).
Proof. done. Qed.

Lemma new_channel_eq n w :
  new_channel n w = (Value (chan_loc w), set_chan (chan_loc w) (MkChannel n [] [] true true) w).
Proof. done. Qed.

(** An endpoint, from what its method does. *)
Lemma stream_endpoint_spec cfg flag buffer method frees s w :
  (∀ c w, method c w = method_outcome frees s c w) →
  match s with Streaming None _ => False | _ => True end →
  stream_endpoint cfg flag buffer method w
  = if flag cfg then outcome_of_stream frees buffer s w else (Status Unimplemented, w).
Proof.
  intros Hm Hs. unfold stream_endpoint. destruct (flag cfg); [|done].
  rewrite (rs_bind_value _ _ _ _ _ (new_channel_eq _ _)). unfold or_drop_receiver.
  unfold mbind, RS_bind. rewrite Hm. destruct s as [|e|[h|] msgs]; cbn; [..|done].
  - unfold drop_receiver, drop_sender. by rewrite !on_chan_set.
  - unfold drop_receiver, drop_sender.
    destruct frees; [by rewrite !on_chan_set|by rewrite on_chan_with_box, on_chan_set].
  - unfold rs_reply, add_hash. destruct (hash_metadata h); [done|].
    unfold drop_receiver. cbn. by rewrite on_chan_with_thread, on_chan_set.
Qed.

Lemma non_finalized_endpoint_spec cfg a w :
  get_account_non_finalized_transactions cfg a w = spec_query cfg (AccountNonFinalizedTransactions a) w.
Proof.
  unfold get_account_non_finalized_transactions, spec_query, stream_flag, stream_of, stream_buffer.
  destruct (en_get_account_non_finalized_transactions cfg); [|done].
  rewrite (rs_bind_value _ _ _ _ _ (new_channel_eq _ _)).
  unfold get_account_non_finalized_transactions_v2, account_address_to_ffi, of_hash, or_drop_receiver.
  case_decide as Ha; cycle 1.
  { erewrite rs_bind_status by done. unfold drop_receiver, drop_sender. by rewrite !on_chan_set. }
  erewrite rs_bind_value; [done|]. erewrite rs_bind_value by done.
  rewrite (stream_call_spec _ (no_hash, inr (Q_getAccountNonFinalizedTransactions a))); [done|].
  intros l w'. unfold getAccountNonFinalizedTransactionsV2, Hs.decodeAccountAddress.
  by rewrite read_bytes_whole.
Qed.

Lemma of_block_hash d b : match of_block d b with Streaming None _ => False | _ => True end.
Proof. unfold of_block. destruct (block_of b) as [b'|]; [|done]. by destruct (d b') as [h [e|m]]. Qed.
Lemma of_pool_hash d b i : match of_pool d b i with Streaming None _ => False | _ => True end.
Proof.
  unfold of_pool. destruct (b ≫= block_of) as [b'|], i as [i|]; try done.
  by destruct (d b' i) as [h [e|m]].
Qed.

Lemma ancestors_method b n c w :
  (block_hash ← or_drop_sender c (require b); get_ancestors_v2 block_hash n c) w
  = method_outcome false (stream_of (Ancestors b n)) c w.
Proof.
  destruct b as [b|]; [|done]. erewrite rs_bind_value by done. apply block_stream_spec.
  intros t p b' Hb. eapply gives_for_block; [done|]. apply gives_listed.
Qed.

Lemma ancestors_hash b n :
  match stream_of (Ancestors b n) with Streaming None _ => False | _ => True end.
Proof. destruct b; [apply of_block_hash|done]. Qed.
End layers.


(** A query for a stream that belongs to a block, or to a pool in a block. *)
Lemma block_endpoint_spec `{!ChannelExt, !StreamExt, !QueryExt} cfg q f d b w :
  (∀ t p b, Hs.decodeBlockHashInput t p = Ok b → gives (f t p) (d b)) →
  is_account_list q = false → stream_of q = of_block d b →
  stream_endpoint cfg (stream_flag q) (stream_buffer q) (block_stream f b) w = spec_query cfg q w.
Proof.
  intros Hf Hq Hs. unfold spec_query. rewrite Hq, Hs. apply stream_endpoint_spec.
  - intros c w'. by apply block_stream_spec.
  - apply of_block_hash.
Qed.

Lemma pool_endpoint_spec `{!ChannelExt, !StreamExt, !QueryExt} cfg q f d b i w :
  (∀ i t p b, Hs.decodeBlockHashInput t p = Ok b → gives (f i t p) (d b i)) →
  is_account_list q = false → stream_of q = of_pool d b i →
  stream_endpoint cfg (stream_flag q) (stream_buffer q) (pool_stream f b i) w = spec_query cfg q w.
Proof.
  intros Hf Hq Hs. unfold spec_query. rewrite Hq, Hs. apply stream_endpoint_spec.
  - intros c w'. by apply pool_stream_spec.
  - apply of_pool_hash.
Qed.

Lemma account_list_endpoint_spec `{!ChannelExt, !StreamExt, !QueryExt} cfg b w :
  get_account_list cfg b w = spec_query cfg (AccountList b) w.
Proof.
  apply (stream_endpoint_spec cfg _ _ _ true (stream_of (AccountList b))).
  - apply account_list_method.
  - apply of_block_hash.
Qed.

Lemma ancestors_endpoint_spec `{!ChannelExt, !StreamExt, !QueryExt} cfg b n w :
  get_ancestors cfg b n w = spec_query cfg (Ancestors b n) w.
Proof.
  apply (stream_endpoint_spec cfg _ _ _ false (stream_of (Ancestors b n))).
  - apply ancestors_method.
  - apply ancestors_hash.
Qed.

Lemma run_query_spec `{!ChannelExt, !StreamExt, !QueryExt} cfg q w :
  run_query cfg q w = spec_query cfg q w.
Proof.
  pose (q' := q). destruct q;
    first [ apply account_list_endpoint_spec | apply ancestors_endpoint_spec
          | apply non_finalized_endpoint_spec
          | eapply (block_endpoint_spec _ q' _ _ block); [|done..]; intros
          | eapply (pool_endpoint_spec _ q' _ _ block baker); [|done..]; intros ];
    first [ by apply gives_summaries
          | eapply gives_for_block; [done|];
            first [apply gives_listed | apply gives_delegators] ].
Qed.

(** ** The invariant *)

(** A channel and the thread that feeds it: the messages that have been read, that are
    queued and that remain are the messages of the stream, until the client goes away. *)
Definition fed (bx : gmap positive positive) (th : Thread) (ch : Channel) : Prop :=
  let all := map msg_bytes (th_messages th) in
  match th_progress th with
  | Trying _ rest =>
    bx !! th_sender th = Some (th_channel th)
    ∧ (ch_receiver ch = true → ch_received ch ++ ch_queue ch ++ map msg_bytes rest = all)
  | Finished =>
    (∀ l, bx !! l ≠ Some (th_channel th)) ∧ ch_sender ch = false
    ∧ (ch_receiver ch = true → ch_received ch ++ ch_queue ch = all)
  end ∧ ch_received ch `prefix_of` all.

(** Every allocated sender is the only one of an open channel, and every channel is
    fed by at most one thread. *)
Record inv (w : World) : Prop := {
  inv_box l c : boxes w !! l = Some c → ∃ ch, chans w !! c = Some ch ∧ ch_sender ch = true;
  inv_box_inj l l' c : boxes w !! l = Some c → boxes w !! l' = Some c → l = l';
  inv_thread_inj t t' th th' : threads w !! t = Some th → threads w !! t' = Some th' →
    th_channel th = th_channel th' → t = t';
  inv_thread t th : threads w !! t = Some th →
    ∃ ch, chans w !! th_channel th = Some ch ∧ fed (boxes w) th ch;
}.

Lemma inv_new : inv World_new.
Proof. split; intros *; cbn; rewrite ?lookup_empty; discriminate. Qed.

(** A channel that neither a sender nor a thread refers to. *)
Definition unused (c : positive) (w : World) : Prop :=
  (∀ l, boxes w !! l ≠ Some c) ∧ (∀ t th, threads w !! t = Some th → th_channel th ≠ c).

Lemma unused_new w : inv w → unused (chan_loc w) w.
Proof.
  intros I. split.
  - intros l Hl. destruct (inv_box _ I _ _ Hl) as (ch & Hc & _). by rewrite chan_loc_new in Hc.
  - intros t th Ht E. destruct (inv_thread _ I _ _ Ht) as (ch & Hc & _).
    rewrite E in Hc. by rewrite chan_loc_new in Hc.
Qed.

Lemma inv_set_unused c ch w : inv w → unused c w → inv (set_chan c ch w).
Proof.
  intros I [Hb Ht]. split; cbn; [|apply (inv_box_inj _ I)|apply (inv_thread_inj _ I)|].
  - intros l c' Hl. rewrite lookup_insert_ne by (intros ->; by eapply Hb). by apply (inv_box _ I) in Hl.
  - intros t th Hth. rewrite lookup_insert_ne by (intros ->; by eapply Ht).
    by apply (inv_thread _ I) in Hth.
Qed.

(** Putting the sender of an unused channel into a box. *)
Lemma fed_insert_box bx l c th ch :
  bx !! l = None → th_channel th ≠ c → fed bx th ch → fed (<[l := c]> bx) th ch.
Proof.
  intros Hl Hc [Hp Hr]. split; [|done]. destruct (th_progress th).
  - destruct Hp as [Hb ?]. split; [|done]. rewrite lookup_insert_ne; [done|]. intros ->. congruence.
  - destruct Hp as (Hb & ? & ?). split_and!; [|done..]. intros l' [[? ?]|[? ?]]%lookup_insert_Some;
      [done|]. by eapply Hb.
Qed.

Lemma inv_with_box c ch w :
  inv w → unused c w → chans w !! c = Some ch → ch_sender ch = true → inv (with_box c w).
Proof.
  intros I [Hb Ht] Hc Hs. pose proof (box_loc_new w). split; cbn; [| |apply (inv_thread_inj _ I)|].
  - intros l c' [[? <-]|[? Hl]]%lookup_insert_Some; [by eauto|]. by apply (inv_box _ I) in Hl.
  - intros l l' c' [[? <-]|[? Hl]]%lookup_insert_Some [[? E]|[? Hl']]%lookup_insert_Some.
    + congruence.
    + by destruct (Hb l').
    + subst. by destruct (Hb l).
    + by eapply (inv_box_inj _ I).
  - intros t th Hth. destruct (inv_thread _ I _ _ Hth) as (ch' & ? & ?). exists ch'. split; [done|].
    apply fed_insert_box; eauto.
Qed.

Lemma inv_with_thread c buffer rcv msgs w :
  inv w → unused c w → chans w !! c = Some (MkChannel buffer [] [] rcv true) →
  inv (with_thread c msgs w).
Proof.
  intros I [Hb Ht] Hc. pose proof (inv_with_box _ _ _ I (conj Hb Ht) Hc eq_refl) as I'.
  split; cbn; [apply (inv_box _ I')|apply (inv_box_inj _ I')| |].
  - intros t t' th th' [[? <-]|[? Hl]]%lookup_insert_Some [[? <-]|[? Hl']]%lookup_insert_Some E;
      [congruence|by edestruct Ht|by edestruct Ht|by eapply (inv_thread_inj _ I)].
  - intros t th [[? <-]|[? Hl]]%lookup_insert_Some; [|by apply (inv_thread _ I' t)].
    eexists. split; [done|]. split; cbn; [|apply prefix_nil]. by rewrite lookup_insert_eq.
Qed.

Section steps.
Context `{!ChannelExt, !StreamExt, !QueryExt}.

Lemma unused_set_chan c c' ch w : unused c w → unused c (set_chan c' ch w).
Proof. done. Qed.

Lemma inv_query cfg q w : inv w → inv (run_query cfg q w).2.
Proof.
  intros I. rewrite run_query_spec. unfold spec_query. destruct (stream_flag q cfg); [|done].
  pose proof (unused_new _ I) as Hu.
  destruct (stream_of q) as [|e|h msgs]; cbn.
  - by apply inv_set_unused.
  - destruct (is_account_list q); [by apply inv_set_unused|].
    eapply inv_with_box; [by apply inv_set_unused|done|apply lookup_insert_eq|done].
  - eapply inv_with_thread; [by apply inv_set_unused|done|apply lookup_insert_eq].
Qed.

(** *** A round of a thread *)

(** The sender is taken out of its box and dropped. *)
Definition closed (l c : positive) (w : World) : World :=
  drop_sender c (with_boxes (delete l (boxes w)) w).

Definition push (x : bytes) (ch : Channel) : Channel :=
  MkChannel (ch_buffer ch) (ch_queue ch ++ [x]) (ch_received ch) (ch_receiver ch) (ch_sender ch).

Definition go_outcome (l c : positive) (ch : Channel) (n : nat) (msgs : list message) (w : World) :
    Progress * World :=
  match msgs with
  | [] => (Finished, closed l c w)
  | m :: msgs' =>
    if ch_receiver ch then
      if chan_full (ch_buffer ch) (length (ch_queue ch)) then (Trying (Nat.min (n + 1) 10) msgs, w)
      else (Trying 0 msgs', set_chan c (push (msg_bytes m) ch) w)
    else (Finished, closed l c w)
  end.

Lemma with_boxes_id l c w :
  boxes w !! l = Some c →
  with_boxes (<[l := c]> (delete l (boxes w))) (with_boxes (delete l (boxes w)) w) = w.
Proof. intros Hl. unfold with_boxes. cbn. rewrite insert_delete_id by done. by destruct w. Qed.

Lemma box_from_raw_eq l c w :
  boxes w !! l = Some c → box_from_raw l w = (Value c, with_boxes (delete l (boxes w)) w).
Proof. unfold box_from_raw. by intros ->. Qed.

Lemma box_put_back_eq l c (z : Z) w :
  (box_put_back l c ;; mret z) w = (Value z, with_boxes (<[l := c]> (boxes w)) w).
Proof. done. Qed.

Lemma message_data m :
  (if decide (Z.of_nat (length (msg_bytes m)) = 0%Z) then mret []
   else rs_lift (from_raw_parts (ToBytes (msg_bytes m)) (Z.of_nat (length (msg_bytes m)))))
  = (mret (msg_bytes m) : W bytes).
Proof.
  case_decide as E.
  - by rewrite (nil_length_inv (msg_bytes m)) by lia.
  - by rewrite from_raw_parts_whole by apply (bool_decide_eq_true_1 _ (msg_size m)).
Qed.

Lemma go_spec l c ch n msgs w :
  boxes w !! l = Some c → chans w !! c = Some ch →
  go l (Trying n msgs) w = let r := go_outcome l c ch n msgs w in (Value r.1, r.2).
Proof.
  intros Hl Hc. destruct msgs as [|m msgs]; unfold go, enqueue_bytearray_callback.
  { erewrite rs_bind_value; [done|]. by rewrite (rs_bind_value _ _ _ _ _ (box_from_raw_eq _ _ _ Hl)). }
  unfold mbind at 1, RS_bind at 1. rewrite (rs_bind_value _ _ _ _ _ (box_from_raw_eq _ _ _ Hl)).
  rewrite decide_False by naive_solver. rewrite message_data. erewrite rs_bind_value by done.
  unfold mbind at 1, RS_bind at 1, try_send. cbn [with_boxes chans]. rewrite Hc. unfold go_outcome.
  destruct (ch_receiver ch) eqn:Hrcv; [|done].
  destruct (chan_full _ _); cbn; rewrite box_put_back_eq; cbn.
  - f_equal. by apply (with_boxes_id l c w).
  - f_equal. unfold set_chan, with_chans, with_boxes, push. cbn. rewrite Hrcv.
    by rewrite insert_delete_id.
Qed.

(** A thread makes progress on its channel, and gives up its sender when it ends. *)
Lemma inv_progress w t th ch p bx ch' :
  inv w → threads w !! t = Some th → chans w !! th_channel th = Some ch →
  (∀ l c, bx !! l = Some c → boxes w !! l = Some c ∧ (c = th_channel th → ch_sender ch' = true)) →
  (∀ th' ch0, th_channel th' ≠ th_channel th → fed (boxes w) th' ch0 → fed bx th' ch0) →
  fed bx (set_progress p th) ch' →
  inv (MkWorld bx (<[th_channel th := ch']> (chans w)) (<[t := set_progress p th]> (threads w))).
Proof.
  intros I Ht Hc Hb Hothers Hfed. split; cbn.
  - intros l c Hl. destruct (Hb _ _ Hl) as [Hl' Hs]. destruct (decide (c = th_channel th)) as [->|].
    + exists ch'. split; [apply lookup_insert_eq|by apply Hs].
    + rewrite lookup_insert_ne by done. by apply (inv_box _ I l).
  - intros l l' c [Hl _]%Hb [Hl' _]%Hb. by eapply (inv_box_inj _ I).
  - intros t1 t2 th1 th2 [[? <-]|[? H1']]%lookup_insert_Some [[? <-]|[? H2']]%lookup_insert_Some E;
      cbn in E; [congruence|..].
    + by eapply (inv_thread_inj _ I); subst.
    + by eapply (inv_thread_inj _ I); subst.
    + by eapply (inv_thread_inj _ I).
  - intros t' th' [[? <-]|[? Hth']]%lookup_insert_Some.
    + exists ch'. split; [apply lookup_insert_eq|done].
    + assert (th_channel th' ≠ th_channel th) as Hne.
      { intros E. assert (t' = t) by by eapply (inv_thread_inj _ I). done. }
      destruct (inv_thread _ I _ _ Hth') as (ch0 & Hc0 & Hf). exists ch0.
      rewrite lookup_insert_ne by done. auto.
Qed.

Lemma alter_as_insert (f : Channel → Channel) c ch (m : gmap positive Channel) :
  m !! c = Some ch → alter f c m = <[c := f ch]> m.
Proof. intros Hc. rewrite <- (insert_id m c ch) at 1 by done. apply alter_insert_eq. Qed.

(** Removing the box of a thread does not affect the others. *)
Lemma fed_delete bx l c th ch :
  bx !! l = Some c → th_channel th ≠ c → fed bx th ch → fed (delete l bx) th ch.
Proof.
  intros Hl Hne [Hp Hr]. split; [|done]. destruct (th_progress th).
  - destruct Hp as [Hb ?]. split; [|done]. rewrite lookup_delete_ne; [done|]. intros ->. congruence.
  - destruct Hp as (Hb & ? & ?). split_and!; [|done..]. intros l' [? ?]%lookup_delete_Some.
    by eapply Hb.
Qed.

Lemma closed_eq l c ch w :
  chans w !! c = Some ch →
  closed l c w = MkWorld (delete l (boxes w)) (<[c := MkChannel (ch_buffer ch) (ch_queue ch)
    (ch_received ch) (ch_receiver ch) false]> (chans w)) (threads w).
Proof.
  intros Hc. unfold closed, drop_sender, on_chan, with_chans, with_boxes. cbn.
  by erewrite alter_as_insert by done.
Qed.

Lemma inv_closed w t th ch :
  inv w → threads w !! t = Some th → chans w !! th_channel th = Some ch →
  boxes w !! th_sender th = Some (th_channel th) →
  (ch_receiver ch = true →
   ch_received ch ++ ch_queue ch = map msg_bytes (th_messages th)) →
  ch_received ch `prefix_of` map msg_bytes (th_messages th) →
  let w' := closed (th_sender th) (th_channel th) w in
  inv (with_threads (<[t := set_progress Finished th]> (threads w')) w').
Proof.
  intros I Ht Hc Hl Hall Hpre w'. subst w'. rewrite (closed_eq _ _ ch) by done. unfold with_threads. cbn.
  eapply (inv_progress w t th ch Finished); [done..| | |].
  - intros l c [Hne Hl']%lookup_delete_Some. split; [done|]. intros ->.
    destruct Hne. by eapply (inv_box_inj _ I).
  - intros th' ch0 Hne. by eapply fed_delete.
  - split; [|done]. cbn. split_and!; [|done..]. intros l [Hne Hl']%lookup_delete_Some.
    destruct Hne. by eapply (inv_box_inj _ I).
Qed.

(** The outcome of a round, for a thread that has not finished. *)
Lemma run_thread_spec w t th ch n msgs :
  boxes w !! th_sender th = Some (th_channel th) → chans w !! th_channel th = Some ch →
  th_progress th = Trying n msgs →
  run_thread t th w =
    let r := go_outcome (th_sender th) (th_channel th) ch n msgs w in
    (Value tt, with_threads (<[t := set_progress r.1 th]> (threads r.2)) r.2).
Proof.
  intros Hb Hc Hp. unfold run_thread. rewrite Hp. by erewrite rs_bind_value by by apply go_spec.
Qed.

Lemma run_finished w t th :
  th_progress th = Finished →
  run_thread t th w
  = (Value tt, with_threads (<[t := set_progress Finished th]> (threads w)) w).
Proof. unfold run_thread. by intros ->. Qed.

Lemma inv_run_thread w t th :
  inv w → threads w !! t = Some th →
  (run_thread t th w).1 = Value tt ∧ inv (run_thread t th w).2.
Proof.
  intros I Ht. destruct (inv_thread _ I _ _ Ht) as (ch & Hc & Hf). pose proof Hf as [Hp Hpre].
  destruct (th_progress th) as [n msgs|] eqn:E; cycle 1.
  { rewrite run_finished by done. split; [done|]. unfold with_threads, snd.
    assert (set_progress Finished th = th) as -> by (destruct th; cbn in *; by subst).
    rewrite insert_id by done. by destruct w. }
  destruct Hp as [Hb Hall]. rewrite (run_thread_spec _ _ _ _ _ _ Hb Hc E). cbn. split; [done|].
  destruct msgs as [|m msgs]; cbn.
  { apply (inv_closed w t th ch); try done. intros Hr. specialize (Hall Hr).
    by rewrite app_nil_r in Hall. }
  destruct (ch_receiver ch) eqn:Hr; [destruct (chan_full _ _)|]; unfold fst, snd, with_threads.
  - rewrite <- (insert_id (chans w) (th_channel th) ch) by done.
    eapply (inv_progress w t th ch (Trying _ _) (boxes w) ch); try done.
    + intros l c Hl. split; [done|]. intros ->. destruct (inv_box _ I _ _ Hl). naive_solver.
    + split; [|done]. split; [done|]. intros _. by apply Hall.
  - eapply (inv_progress w t th ch (Trying _ _) (boxes w)); try done.
    + intros l c Hl. split; [done|]. intros ->. destruct (inv_box _ I _ _ Hl). naive_solver.
    + split; [|done]. cbn. split; [done|]. intros _. rewrite <- (Hall eq_refl). cbn.
      by rewrite <- app_assoc.
  - apply (inv_closed w t th ch); [done..| |done]. congruence.
Qed.

(** *** The clients *)

Lemma inv_on_chan c f w :
  (∀ ch, ch_sender (f ch) = ch_sender ch) →
  (∀ bx th ch, fed bx th ch → fed bx th (f ch)) →
  inv w → inv (on_chan c f w).
Proof.
  intros Hs Hf I. split; cbn; [|apply (inv_box_inj _ I)|apply (inv_thread_inj _ I)|].
  - intros l c' Hl. destruct (inv_box _ I _ _ Hl) as (ch & Hc & Hsnd).
    destruct (decide (c = c')) as [<-|].
    + exists (f ch). rewrite lookup_alter_eq, Hc, Hs. done.
    + exists ch. by rewrite lookup_alter_ne by done.
  - intros t th Ht. destruct (inv_thread _ I _ _ Ht) as (ch & Hc & Hfed).
    destruct (decide (c = th_channel th)) as [->|].
    + exists (f ch). rewrite lookup_alter_eq, Hc. auto.
    + exists ch. by rewrite lookup_alter_ne by done.
Qed.

(** What has been read is a part of what was read, queued and remained. *)
Lemma fed_prefix bx th ch :
  fed bx th ch → ch_receiver ch = true →
  ch_received ch ++ ch_queue ch `prefix_of` map msg_bytes (th_messages th).
Proof.
  intros [Hp _] Hr. destruct (th_progress th).
  - destruct Hp as [_ Hall]. rewrite <- (Hall Hr). rewrite app_assoc. by apply prefix_app_r.
  - destruct Hp as (_ & _ & Hall). by rewrite (Hall Hr).
Qed.

Lemma inv_drop_receiver c w : inv w → inv (drop_receiver c w).
Proof.
  apply inv_on_chan; [done|]. intros bx th ch [Hp Hr]. split; [|done]. cbn.
  destruct (th_progress th); naive_solver.
Qed.

Lemma inv_receive c w : inv w → inv (receive c w).
Proof.
  apply inv_on_chan.
  - intros ch. by destruct (ch_receiver ch), (ch_queue ch).
  - intros bx th ch Hf. destruct (ch_receiver ch) eqn:Hr, (ch_queue ch) as [|x q] eqn:Hq; try done.
    pose proof (fed_prefix _ _ _ Hf Hr) as Hpre. destruct Hf as [Hp _]. rewrite Hq in Hpre, Hp.
    split; cbn; [destruct (th_progress th)|].
    + destruct Hp as [Hb Hall]. split; [done|]. intros _. rewrite <- (Hall Hr). by rewrite <- app_assoc.
    + destruct Hp as (Hb & Hs & Hall). split_and!; [done..|]. intros _. rewrite <- (Hall Hr).
      by rewrite <- app_assoc.
    + etrans; [|done]. apply prefix_app, prefix_cons, prefix_nil.
Qed.

Lemma inv_step w w' : inv w → step w w' → inv w'.
Proof.
  intros I Hs. destruct Hs as [cfg q|t th Ht|c|c].
  - by apply inv_query.
  - by apply inv_run_thread.
  - by apply inv_receive.
  - by apply inv_drop_receiver.
Qed.

Lemma inv_steps w w' : inv w → rtc step w w' → inv w'.
Proof. intros I Hs. induction Hs; eauto using inv_step. Qed.

Definition reachable : World → Prop := rtc step World_new.

Lemma reachable_inv w : reachable w → inv w.
Proof. apply inv_steps, inv_new. Qed.

(** *** What lasts *)

(** A thread keeps its channel and its messages. *)
Definition feeds (c : positive) (msgs : list message) (w : World) : Prop :=
  ∃ t th, threads w !! t = Some th ∧ th_channel th = c ∧ th_messages th = msgs.

Lemma threads_query cfg q w :
  threads (run_query cfg q w).2 = threads w
  ∨ ∃ msgs, threads (run_query cfg q w).2
            = <[thread_loc w := MkThread (box_loc w) (Trying 0 msgs) (chan_loc w) msgs]> (threads w).
Proof.
  rewrite run_query_spec. unfold spec_query, outcome_of_stream.
  destruct (stream_flag q cfg), (stream_of q), (is_account_list q); eauto.
Qed.

Lemma threads_run t th w : threads w !! t = Some th → inv w →
  ∃ p, threads (run_thread t th w).2 = <[t := set_progress p th]> (threads w).
Proof.
  intros Ht I. destruct (inv_thread _ I _ _ Ht) as (ch & Hc & [Hp _]).
  destruct (th_progress th) as [n msgs|] eqn:E.
  - rewrite (run_thread_spec _ _ _ _ _ _ (proj1 Hp) Hc E). eexists. cbn. f_equal.
    unfold go_outcome. destruct msgs; [done|]. by destruct (ch_receiver ch); [destruct (chan_full _ _)|].
  - exists Finished. by rewrite run_finished.
Qed.

Lemma feeds_step c msgs w w' : inv w → feeds c msgs w → step w w' → feeds c msgs w'.
Proof.
  intros I (t & th & Ht & Hc & Hm) Hs. destruct Hs as [cfg q|t' th' Ht'|c'|c']; [| |by exists t, th..].
  - exists t, th. destruct (threads_query cfg q w) as [->|[msgs' ->]]; [done|].
    rewrite lookup_insert_ne; [done|]. intros E. rewrite <- E in Ht. by rewrite thread_loc_new in Ht.
  - destruct (threads_run _ _ _ Ht' I) as [p Hp]. unfold feeds. rewrite Hp.
    destruct (decide (t = t')) as [->|Hne].
    + exists t', (set_progress p th'). simplify_eq. by rewrite lookup_insert_eq.
    + exists t, th. by rewrite lookup_insert_ne.
Qed.

Lemma feeds_steps c msgs w w' : inv w → feeds c msgs w → rtc step w w' → feeds c msgs w'.
Proof. intros I Hf Hs. induction Hs; eauto using inv_step, feeds_step. Qed.

(** *** A client that keeps reading *)

(** The client reads, then the thread makes an attempt, if it has not ended. *)
Definition round (t c : positive) : W unit := λ w,
  match threads w !! t with
  | Some th => run_thread t th (receive c w)
  | None => (Value tt, w)
  end.

(** A crash ends the sequence. *)
Fixpoint rounds (k : nat) (t c : positive) : W unit :=
  match k with
  | O => mret tt
  | S k => rounds k t c ;; round t c
  end.

(** How many rounds may be needed. *)
Definition work (p : Progress) (ch : Channel) : nat :=
  match p with
  | Trying _ rest => S (2 * length rest + length (ch_queue ch))
  | Finished => length (ch_queue ch)
  end.

(** The state while the client of thread [th] is served. *)
Definition serving (bx : gmap positive positive) (t : positive) (th : Thread) (μ : nat) (w : World) :
    Prop :=
  ∃ p ch, threads w !! t = Some (set_progress p th) ∧ chans w !! th_channel th = Some ch
    ∧ ch_receiver ch = true ∧ work p ch ≤ μ
    ∧ boxes w = match p with Trying _ _ => bx | Finished => delete (th_sender th) bx end.

(** A message is taken off the queue. *)
Lemma receive_spec c ch w :
  chans w !! c = Some ch → ch_receiver ch = true →
  ∃ ch', receive c w = set_chan c ch' w ∧ ch_receiver ch' = true
    ∧ length (ch_queue ch') = pred (length (ch_queue ch)).
Proof.
  intros Hc Hr. unfold receive, on_chan. erewrite alter_as_insert by done. rewrite Hr.
  eexists. split; [done|]. destruct (ch_queue ch) eqn:Hq; rewrite ?Hq; done.
Qed.

Lemma serving_round bx t th μ w :
  inv w → serving bx t th μ w → serving bx t th (pred μ) (round t (th_channel th) w).2.
Proof.
  intros I (p & ch & Ht & Hc & Hr & Hw & Hb). unfold round. rewrite Ht.
  destruct (receive_spec _ _ _ Hc Hr) as (ch1 & E1 & Hr1 & Hq1).
  pose proof (inv_receive (th_channel th) _ I) as I1. rewrite E1 in I1 |- *.
  assert (chans (set_chan (th_channel th) ch1 w) !! th_channel th = Some ch1) as Hc1
    by apply lookup_insert_eq.
  destruct (inv_thread _ I1 t _ Ht) as (ch1' & Hc1' & [Hp _]). simplify_eq.
  destruct p as [n rest|]; cycle 1.
  { rewrite run_finished by done. exists Finished, ch1. cbn in *. rewrite !lookup_insert_eq.
    split_and!; [done..|lia|done]. }
  rewrite (run_thread_spec _ _ _ _ _ _ (proj1 Hp) Hc1 eq_refl). unfold serving.
  destruct rest as [|m rest]; cbn -[work]; [|rewrite Hr1; destruct (chan_full _ _) eqn:Hf];
    eexists _, _; rewrite lookup_insert_eq; (split; [done|]); cbn.
  - rewrite lookup_alter_eq, lookup_insert_eq. split_and!; [done..|cbn in *; lia|by rewrite Hb].
  - rewrite lookup_insert_eq. split_and!; [done..| |done].
    destruct (ch_queue ch) eqn:Hq; cbn in *; rewrite Hq in Hw; cbn in *; [|lia].
    apply nil_length_inv in Hq1.
    rewrite Hq1 in Hf. by rewrite chan_full_empty in Hf.
  - rewrite lookup_insert_eq. split_and!; [done..| |done]. cbn. rewrite length_app. cbn in *. lia.
Qed.

Lemma inv_round t c w : inv w → (round t c w).1 = Value tt ∧ inv (round t c w).2.
Proof.
  intros I. unfold round. destruct (threads w !! t) as [th|] eqn:Ht; [|done].
  apply inv_run_thread; [by apply inv_receive|done].
Qed.

Lemma serving_rounds bx t th k μ w :
  inv w → serving bx t th μ w →
  ∃ w', rounds k t (th_channel th) w = (Value tt, w') ∧ inv w' ∧ serving bx t th (μ - k) w'.
Proof.
  intros I Hs. induction k as [|k (w' & E & IHi & IHs)].
  - exists w. by rewrite Nat.sub_0_r.
  - destruct (inv_round t (th_channel th) w' IHi) as [Hv Hi]. apply serving_round in IHs; [|done].
    exists (round t (th_channel th) w').2. replace (μ - S k) with (pred (μ - k)) by lia.
    split; [|done]. cbn [rounds]. erewrite rs_bind_value by exact E.
    by destruct (round t (th_channel th) w'); cbn in Hv; subst.
Qed.

(** *** A request that is answered, and one that is refused *)

Lemma answered_query cfg q w resp w' :
  run_query cfg q w = (Value resp, w') →
  ∃ hash msgs, stream_of q = Streaming hash msgs ∧ resp_body resp = chan_loc w
    ∧ w' = with_thread (chan_loc w) msgs
             (set_chan (chan_loc w) (MkChannel (stream_buffer q) [] [] true true) w).
Proof.
  rewrite run_query_spec. unfold spec_query. destruct (stream_flag q cfg); [|done].
  destruct (stream_of q) as [|e|hash msgs]; [done..|]. intros [= Hr Hw]. exists hash, msgs.
  rewrite <- Hw, Hr. split_and!; [done| |done].
  destruct hash as [h|]; [|by injection Hr as <-]. cbn in Hr. unfold add_hash in Hr.
  destruct (hash_metadata h); [|done]. by injection Hr as <-.
Qed.

Lemma feeds_answered c msgs w : feeds c msgs (with_thread c msgs w).
Proof. eexists _, _. split; [apply lookup_insert_eq|done]. Qed.

Lemma serving_answered c buffer msgs w :
  serving (<[box_loc w := c]> (boxes w)) (thread_loc w)
    (MkThread (box_loc w) (Trying 0 msgs) c msgs) (2 * length msgs + 1)
    (with_thread c msgs (set_chan c (MkChannel buffer [] [] true true) w)).
Proof.
  eexists (Trying 0 msgs), _. cbn. rewrite !lookup_insert_eq. split_and!; [done..| |done]. cbn. lia.
Qed.

(** The sender of a channel that no thread feeds is never freed. *)
Definition leaked (l c : positive) (w : World) : Prop :=
  boxes w !! l = Some c ∧ ∀ t th, threads w !! t = Some th → th_channel th ≠ c.

Lemma boxes_query cfg q w :
  boxes (run_query cfg q w).2 = boxes w
  ∨ boxes (run_query cfg q w).2 = <[box_loc w := chan_loc w]> (boxes w).
Proof.
  rewrite run_query_spec. unfold spec_query, outcome_of_stream.
  destruct (stream_flag q cfg), (stream_of q), (is_account_list q); eauto.
Qed.

Lemma boxes_run t th w : threads w !! t = Some th → inv w →
  boxes (run_thread t th w).2 = boxes w
  ∨ boxes (run_thread t th w).2 = delete (th_sender th) (boxes w)
    ∧ boxes w !! th_sender th = Some (th_channel th).
Proof.
  intros Ht I. destruct (inv_thread _ I _ _ Ht) as (ch & Hc & [Hp _]).
  destruct (th_progress th) as [n msgs|] eqn:E.
  - destruct Hp as [Hb _]. rewrite (run_thread_spec _ _ _ _ _ _ Hb Hc E). unfold go_outcome.
    destruct msgs; [by right|]. destruct (ch_receiver ch); [left|by right].
    by destruct (chan_full _ _).
  - left. by rewrite run_finished.
Qed.

Lemma leaked_step l c w w' : inv w → leaked l c w → step w w' → leaked l c w'.
Proof.
  intros I [Hl Ht] Hs. destruct Hs as [cfg q|t' th' Ht'|c'|c']; [| |done..]; split.
  - destruct (boxes_query cfg q w) as [->| ->]; [done|]. rewrite lookup_insert_ne; [done|].
    intros E. rewrite <- E in Hl. by rewrite box_loc_new in Hl.
  - intros t th Hth. destruct (threads_query cfg q w) as [E|[msgs E]]; rewrite E in Hth; [by eauto|].
    apply lookup_insert_Some in Hth as [[_ <-]|[_ Hth]]; [|by eauto]. intros <-.
    by apply (proj1 (unused_new _ I)) in Hl.
  - destruct (boxes_run _ _ _ Ht' I) as [->|[-> Hb]]; [done|]. rewrite lookup_delete_ne; [done|].
    intros E. rewrite E in Hb. apply (Ht _ _ Ht'). congruence.
  - intros t th Hth. destruct (threads_run _ _ _ Ht' I) as [p E]. rewrite E in Hth.
    apply lookup_insert_Some in Hth as [[_ <-]|[_ Hth]]; [|by eauto]. by apply (Ht _ _ Ht').
Qed.

Lemma leaked_steps l c w w' : inv w → leaked l c w → rtc step w w' → leaked l c w'.
Proof. intros I Hl Hs. induction Hs; eauto using inv_step, leaked_step. Qed.
End steps.

(** ** The theorems *)

Section theorems.
Context `{!ChannelExt, !StreamExt, !QueryExt}.

(** C6: Each of the sixteen requests for a stream does what its specification says:
    the arguments that cross the foreign interface are the ones of the request, an
    answer of the library becomes a thread that owns the sender of the channel the
    client reads from, and an error becomes the status of the reply.  No request
    reads from an invalid pointer. *)
Theorem stream_refinement cfg q w : run_query cfg q w = spec_query cfg q w.
Proof. apply run_query_spec. Qed.

(** C4: In every reachable state, whatever the interleaving of requests, threads and
    clients, no thread uses a sender that has been freed: a request is answered or
    refused with a status, and a round of a thread ends normally. *)
Theorem streams_memory_safe w :
  reachable w →
  (∀ cfg q, settled (run_query cfg q w).1)
  ∧ ∀ t th, threads w !! t = Some th → (run_thread t th w).1 = Value tt.
Proof.
  intros I%reachable_inv. split; [|intros t th Ht; by apply inv_run_thread].
  intros cfg q. rewrite run_query_spec. unfold spec_query.
  destruct (stream_flag q cfg); [|done]. destruct (stream_of q) as [|e|[h|] msgs]; try done.
  cbn. unfold add_hash. by destruct (hash_metadata h).
Qed.

(** C9: The client of an answered request reads the messages of the library in their
    order: at any later time, what it has read is an initial part of them, and when it
    is still there and the sender has been dropped, what it has read and what is
    queued is all of them. *)
Theorem stream_delivery w0 cfg q resp w1 w2 :
  reachable w0 → run_query cfg q w0 = (Value resp, w1) → rtc step w1 w2 →
  ∃ hash msgs ch, stream_of q = Streaming hash msgs ∧ chans w2 !! resp_body resp = Some ch
    ∧ ch_received ch `prefix_of` map msg_bytes msgs
    ∧ (ch_receiver ch = true → ch_sender ch = false →
       ch_received ch ++ ch_queue ch = map msg_bytes msgs).
Proof.
  intros I0%reachable_inv Hq Hs. pose proof (inv_query cfg q _ I0) as I1. rewrite Hq in I1.
  destruct (answered_query _ _ _ _ _ Hq) as (hash & msgs & Hm & -> & E). exists hash, msgs.
  assert (feeds (chan_loc w0) msgs w2) as (t & th & Ht & Hc & Hms).
  { eapply feeds_steps; [done| |done]. rewrite E. apply feeds_answered. }
  pose proof (inv_steps _ _ I1 Hs) as I2.
  destruct (inv_thread _ I2 _ _ Ht) as (ch & Hch & [Hp Hpre]). exists ch. rewrite <- Hc, <- Hms.
  split_and!; [by rewrite Hms|done..|]. intros Hr Hsnd.
  destruct (th_progress th); [|by apply Hp].
  destruct Hp as [Hb _]. destruct (inv_box _ I2 _ _ Hb) as (ch' & ? & ?). simplify_eq. congruence.
Qed.

(** C10: A client that keeps reading gets everything: after [2 * n + 1] rounds or more,
    in each of which it reads and the thread makes an attempt, none of them has crashed,
    the client has read all [n] messages, the stream has ended, the memory of the sender
    has been freed and the thread has ended. *)
Theorem stream_completes w0 cfg q resp w1 k :
  reachable w0 → run_query cfg q w0 = (Value resp, w1) →
  ∃ hash msgs, stream_of q = Streaming hash msgs ∧ (2 * length msgs < k →
    ∃ w th ch, rounds k (thread_loc w0) (resp_body resp) w1 = (Value tt, w)
    ∧ threads w !! thread_loc w0 = Some th ∧ th_channel th = resp_body resp
    ∧ th_progress th = Finished
    ∧ boxes w = boxes w0 ∧ chans w !! resp_body resp = Some ch
    ∧ ch_received ch = map msg_bytes msgs ∧ ch_queue ch = [] ∧ ch_sender ch = false).
Proof.
  intros I0%reachable_inv Hq. pose proof (inv_query cfg q _ I0) as I1. rewrite Hq in I1.
  destruct (answered_query _ _ _ _ _ Hq) as (hash & msgs & Hm & -> & E). exists hash, msgs.
  split; [done|]. intros Hk. cbn in I1. rewrite E in I1 |- *.
  destruct (serving_rounds _ _ _ k _ _ I1 (serving_answered _ _ _ _)) as
    (w & Ew & I & p & ch & Ht & Hch & Hr & Hw & Hb).
  replace (2 * length msgs + 1 - k) with 0 in Hw by lia.
  destruct p as [n rest|]; cbn in Hw; [lia|]. apply Nat.le_0_r, nil_length_inv in Hw.
  destruct (inv_thread _ I _ _ Ht) as (ch' & Hch' & [(_ & Hs & Hall) _]). cbn in Hch', Hall.
  cbn in Hch, Hb. eexists w, _, ch. split; [exact Ew|]. split; [exact Ht|]. do 2 (split; [done|]).
  split; [by rewrite Hb, delete_insert_id by apply box_loc_new|].
  simplify_eq. rewrite Hw, app_nil_r in Hall. by auto.
Qed.

(** Except for the list of accounts, a request that the library refuses leaves the
    memory of the sender allocated for ever; the list of accounts frees it. *)
Theorem refused_sender_leaks w0 cfg q e w :
  reachable w0 → stream_flag q cfg = true → stream_of q = Refused e →
  rtc step (run_query cfg q w0).2 w →
  (run_query cfg q w0).1 = Status e
  ∧ if is_account_list q then boxes (run_query cfg q w0).2 = boxes w0
    else boxes w0 !! box_loc w0 = None ∧ boxes w !! box_loc w0 = Some (chan_loc w0).
Proof.
  intros I%reachable_inv Hf Hq Hs. pose proof (inv_query cfg q _ I) as I1.
  rewrite run_query_spec in I1, Hs |- *. unfold spec_query in I1, Hs |- *. rewrite Hf, Hq in I1, Hs |- *.
  cbn in I1, Hs |- *. split; [done|]. destruct (is_account_list q); [done|].
  split; [apply box_loc_new|]. eapply leaked_steps; [exact I1| |exact Hs].
  split; [apply lookup_insert_eq|]. apply unused_new in I as [_ Ht]. apply Ht.
Qed.
End theorems.

(** ** An example

    A library that knows three instances and no modules. *)
Module StreamExample.
Definition channels : ChannelExt.
Proof. refine {| chan_full b n := bool_decide (b < n) |}. intros b. by apply bool_decide_eq_false_2; lia. Defined.

Definition item (x : Z) : message := MkMessage [x] eq_refl.
Definition items : list message := [item 1; item 2; item 3].

Definition lib : StreamExt := {|
  Q_getAccountList _ := (QueryExample.genesis, None);
  Q_getModuleList _ := (QueryExample.genesis, None);
  Q_getInstanceList _ := (QueryExample.genesis, Some items);
  Q_getAncestors _ _ := (QueryExample.genesis, None);
  Q_getRegisteredBakers _ := (QueryExample.genesis, None);
  Q_getDelegators _ _ := (QueryExample.genesis, inl GDEPoolNotFound);
  Q_getDelegatorsRewardPeriod _ _ := (QueryExample.genesis, inl GDEPoolNotFound);
  Q_getAllIdentityProviders _ := (QueryExample.genesis, None);
  Q_getAllAnonymityRevokers _ := (QueryExample.genesis, None);
  Q_getAccountNonFinalizedTransactions _ := [];
  Q_getBlockItems _ := (QueryExample.genesis, None);
  Q_getBlockTransactionSummaries _ := (QueryExample.genesis, None);
  Q_getBlockSpecialEvents _ := (QueryExample.genesis, None);
  Q_getBlockPendingUpdates _ := (QueryExample.genesis, None);
|}.
#[local] Existing Instance channels.
#[local] Existing Instance lib.
#[local] Existing Instance QueryExample.lib.

Definition ask (q : StreamQuery) : Reply (Response positive) * World :=
  run_query new_all_enabled q World_new.

Lemma asked q : reachable (ask q).2.
Proof. apply rtc_once. constructor. Qed.

(** The thread for the instances can run. *)
Lemma streams_memory_safe_witness :
  (run_thread 1 (MkThread 1 (Trying 0 items) 1 items) (ask (InstanceList (Some Best))).2).1 = Value tt.
Proof. eapply (streams_memory_safe _ (asked _)). vm_compute. reflexivity. Defined.

Lemma stream_delivery_witness :
  ∃ resp ch, (ask (InstanceList (Some Best))).1 = Value resp
    ∧ chans (ask (InstanceList (Some Best))).2 !! resp_body resp = Some ch
    ∧ ch_received ch `prefix_of` map msg_bytes items.
Proof.
  destruct (stream_delivery World_new new_all_enabled (InstanceList (Some Best))
              (MkResponse 1%positive (Some (replicate 32 "0"%char))) (ask (InstanceList (Some Best))).2
              (ask (InstanceList (Some Best))).2) as (hash & msgs & ch & Hs & Hc & Hp & _).
  - apply rtc_refl.
  - vm_compute. reflexivity.
  - apply rtc_refl.
  - eexists _, ch. split; [vm_compute; reflexivity|]. split; [exact Hc|].
    injection Hs as _ <-. exact Hp.
Defined.

Lemma stream_completes_witness :
  ∃ w th ch, rounds 7 1 1 (ask (InstanceList (Some Best))).2 = (Value tt, w)
    ∧ threads w !! 1%positive = Some th ∧ th_progress th = Finished
    ∧ chans w !! 1%positive = Some ch ∧ ch_received ch = [[1%Z]; [2%Z]; [3%Z]].
Proof.
  destruct (stream_completes World_new new_all_enabled (InstanceList (Some Best))
              (MkResponse 1%positive (Some (replicate 32 "0"%char)))
              (ask (InstanceList (Some Best))).2 7) as (hash & msgs & Hs & Hk).
  - apply rtc_refl.
  - vm_compute. reflexivity.
  - injection Hs as _ <-. destruct Hk as (w & th & ch & Hw & Ht & _ & Hf & _ & Hc & Hr & _); [simpl; lia|].
    exists w, th, ch. split; [exact Hw|]. split; [exact Ht|]. split; [exact Hf|].
    split; [exact Hc|exact Hr].
Defined.

(** The request for the modules of a block that is not there leaks. *)
Lemma refused_sender_leaks_witness :
  boxes (ask (ModuleList (Some Best))).2 !! 1%positive = Some 1%positive.
Proof.
  eapply (refused_sender_leaks World_new new_all_enabled (ModuleList (Some Best)) NotFound).
  - apply rtc_refl.
  - reflexivity.
  - reflexivity.
  - apply rtc_refl.
Defined.
End StreamExample.
