(* ===== verification/Relay.v ===== *)
(** * Blocks as they arrive

    Models how the node tells the clients of the second interface about new and newly
    finalized blocks: [notify_callback] of [consensus_ffi/ffi.rs] queues the block the
    consensus library reports, the two relay tasks of [GRPC2Server::new] in
    [concordium-node/src/grpc2.rs] pass each queued block on to the clients, and
    [get_blocks] and [get_finalized_blocks] add a client.  Also the health check of
    [concordium-node/src/health.rs].  A client that is too slow misses blocks, one that has gone
    away is removed. *)
From S2P Require Import Prelude.
From S2P Require Import Status.
From S2P Require Import ServiceConfig.
From S2P Require Import Foreign.

(** [tokio::sync::mpsc]: a channel is full when as many messages as it was made for are
    queued. *)
Class BoundedExt := {
  bounded_full : nat → nat → bool;
  bounded_full_spec b n : bounded_full b n = true ↔ b ≤ n;
}.

Inductive Kind := Arrived | Finalized.
#[global] Instance Kind_eq_dec : EqDecision Kind.
Proof. solve_decision. Defined.

(** The channel of a client.  When it was added, in blocks that had been relayed, and
    how many blocks it missed is recorded for the theorems. *)
Record Client := MkClient {
  cl_kind : Kind;
  cl_queue : list bytes;
  cl_received : list bytes;
  cl_open : bool;
  cl_since : nat;
  cl_missed : nat;
}.

(** The unbounded channel a relay task reads, and the list of its clients; what has been
    reported and what has been relayed is recorded for the theorems. *)
Record Relay := MkRelay {
  rl_queue : list bytes;
  rl_running : bool;
  rl_senders : list positive;
  rl_reported : list bytes;
  rl_relayed : list bytes;
}.

Record Relays := MkRelays {
  relay : Kind → Relay;
  clients : gmap positive Client;
}.

Definition Relay_new : Relay := MkRelay [] true [] [] [].
Definition Relays_new : Relays := MkRelays (λ _, Relay_new) ∅.

Definition set_relay (k : Kind) (r : Relay) (s : Relays) : Relays :=
  MkRelays (λ k', if decide (k = k') then r else relay s k') (clients s).
Definition set_clients (c : gmap positive Client) (s : Relays) : Relays := MkRelays (relay s) c.

(** ** The callback *)

(** [unbounded_send] fails when the relay task has gone. *)
Definition report (k : Kind) (block : bytes) (s : Relays) : Relays :=
  let r := relay s k in
  if rl_running r then
    set_relay k (MkRelay (rl_queue r ++ [block]) true (rl_senders r) (rl_reported r ++ [block])
                   (rl_relayed r)) s
  else s.

Definition notify_callback (ty : u8) (data_ptr : ptr) (data_len : u64) : ST Relays unit :=
  if decide (ty = 0%Z) then
    data ← st_lift (from_raw_parts data_ptr data_len); st_modify (report Arrived data)
  else if decide (ty = 1%Z) then
    data ← st_lift (from_raw_parts data_ptr data_len); st_modify (report Finalized data)
  else mret tt.

(** ** The relay tasks *)

Section relays.
Context `{!BoundedExt}.

Definition CHANNEL_SIZE : nat := 100.

(** [sender.try_send(Ok(v.clone()))]: whether the client stays in the list, and its
    channel afterwards. *)
Definition try_send (v : bytes) (cl : Client) : bool * Client :=
  if cl_open cl then
    if bounded_full CHANNEL_SIZE (length (cl_queue cl)) then
      (true, MkClient (cl_kind cl) (cl_queue cl) (cl_received cl) true (cl_since cl) (S (cl_missed cl)))
    else (true, MkClient (cl_kind cl) (cl_queue cl ++ [v]) (cl_received cl) true (cl_since cl)
                  (cl_missed cl))
  else (false, cl).

(** [senders.retain(..)] *)
Fixpoint retain (v : bytes) (senders : list positive) (cs : gmap positive Client) :
    list positive * gmap positive Client :=
  match senders with
  | [] => ([], cs)
  | sender :: senders =>
    match cs !! sender with
    | Some cl =>
      let '(keep, cl) := try_send v cl in
      let '(rest, cs) := retain v senders (<[sender := cl]> cs) in
      (if keep then sender :: rest else rest, cs)
    | None => retain v senders cs
    end
  end.

(** One turn of the loop of a relay task. *)
Definition relay_next (k : Kind) (s : Relays) : Relays :=
  let r := relay s k in
  match rl_queue r with
  | v :: queue =>
    if rl_running r then
      let '(senders, cs) := retain v (rl_senders r) (clients s) in
      set_clients cs (set_relay k (MkRelay queue true senders (rl_reported r) (rl_relayed r ++ [v])) s)
    else s
  | [] => s
  end.

(** ** The endpoints *)

Definition subscribe (k : Kind) (s : Relays) : positive * Relays :=
  let r := relay s k in
  let c := fresh (dom (clients s)) in
  (c, set_clients (<[c := MkClient k [] [] true (length (rl_relayed r)) 0]> (clients s))
        (set_relay k (MkRelay (rl_queue r) (rl_running r) (rl_senders r ++ [c]) (rl_reported r)
                        (rl_relayed r)) s)).

Definition get_blocks (cfg : ServiceConfig) (s : Relays) : Reply positive * Relays :=
  if en_get_blocks cfg then let '(c, s) := subscribe Arrived s in (Value c, s)
  else (Status Unimplemented, s).

Definition get_finalized_blocks (cfg : ServiceConfig) (s : Relays) : Reply positive * Relays :=
  if en_get_finalized_blocks cfg then let '(c, s) := subscribe Finalized s in (Value c, s)
  else (Status Unimplemented, s).

(** The client reads a message, or goes away. *)
Definition client_read (cl : Client) : Client :=
  match cl_open cl, cl_queue cl with
  | true, x :: q =>
    MkClient (cl_kind cl) q (cl_received cl ++ [x]) true (cl_since cl) (cl_missed cl)
  | _, _ => cl
  end.
Definition client_close (cl : Client) : Client :=
  MkClient (cl_kind cl) [] (cl_received cl) false (cl_since cl) (cl_missed cl).
Definition on_client (f : Client → Client) (c : positive) (s : Relays) : Relays :=
  set_clients (alter f c (clients s)) s.

(** [GRPC2Server::shutdown] aborts the relay tasks, which drops the ends of the
    channels that they read. *)
Definition abort (k : Kind) (s : Relays) : Relays :=
  let r := relay s k in
  set_relay k (MkRelay [] false (rl_senders r) (rl_reported r) (rl_relayed r)) s.
Definition abort_relays (s : Relays) : Relays := abort Finalized (abort Arrived s).

(** ** What happens *)

Inductive step (s : Relays) : Relays → Prop :=
  | step_notify ty data len : (notify_callback ty data len s).1 = Ok tt →
      step s (notify_callback ty data len s).2
  | step_relay k : step s (relay_next k s)
  | step_get_blocks cfg : step s (get_blocks cfg s).2
  | step_get_finalized_blocks cfg : step s (get_finalized_blocks cfg s).2
  | step_read c : step s (on_client client_read c s)
  | step_close c : step s (on_client client_close c s)
  | step_abort : step s (abort_relays s).

Definition reachable : Relays → Prop := rtc step Relays_new.
End relays.

(** ** The health check *)

Inductive Health := Healthy.

(** [health::check], with the time of the last finalized block and the time now in
    milliseconds since the epoch; [now] is [None] before it. *)
Definition check (running : bool) (last_fin_slot_time : u64) (now : option u64)
    (max_delay_seconds : u64) : Reply Health :=
  if running then
    match now with
    | None => Status Internal
    | Some current_time =>
      let delta := Z.max 0 (current_time - last_fin_slot_time) in
      if decide (delta > (1000 * max_delay_seconds) mod 2 ^ 64)%Z then Status Unavailable
      else Value Healthy
    end
  else Status Unavailable.

(** ** The invariant *)

Section invariant.
Context `{!BoundedExt}.

(** What a client has got, with what is queued for it, is a part of what was relayed
    since it was added, and all of it but for the blocks it missed. *)
Record client_ok (r : Relay) (c : positive) (cl : Client) : Prop := {
  ok_order : cl_received cl ++ cl_queue cl `sublist_of` drop (cl_since cl) (rl_relayed r);
  ok_queue : length (cl_queue cl) ≤ CHANNEL_SIZE;
  ok_since : cl_since cl ≤ length (rl_relayed r);
  ok_open : cl_open cl = true → c ∈ rl_senders r
    ∧ length (cl_received cl ++ cl_queue cl) + cl_missed cl = length (rl_relayed r) - cl_since cl;
}.

Record relay_ok (r : Relay) : Prop := {
  ok_nodup : NoDup (rl_senders r);
  ok_reported : if rl_running r then rl_relayed r ++ rl_queue r = rl_reported r
                else rl_queue r = [] ∧ rl_relayed r `prefix_of` rl_reported r;
}.

Record inv (s : Relays) : Prop := {
  inv_relay k : relay_ok (relay s k);
  inv_sender k c : c ∈ rl_senders (relay s k) →
    ∃ cl, clients s !! c = Some cl ∧ cl_kind cl = k;
  inv_client c cl : clients s !! c = Some cl → client_ok (relay s (cl_kind cl)) c cl;
}.

Lemma relays_inv_new : inv Relays_new.
Proof.
  split.
  - intros k. split; [apply NoDup_nil_2|done].
  - intros k c Hc. by apply not_elem_of_nil in Hc.
  - intros c cl Hc. cbn in Hc. by rewrite lookup_empty in Hc.
Qed.

Lemma relay_set k k' r s : relay (set_relay k r s) k' = if decide (k = k') then r else relay s k'.
Proof. done. Qed.

(** Replacing a relay by one with the same senders and relayed blocks. *)
Lemma inv_set_relay k r s :
  inv s → relay_ok r → rl_senders r = rl_senders (relay s k) → rl_relayed r = rl_relayed (relay s k) →
  inv (set_relay k r s).
Proof.
  intros I Hr Hs Hrel. split.
  - intros k'. rewrite relay_set. case_decide; [done|apply (inv_relay _ I)].
  - intros k' c. rewrite relay_set. case_decide as E; [subst; rewrite Hs|]; apply (inv_sender _ I).
  - intros c cl Hc. apply (inv_client _ I) in Hc as [? ? ? ?]. rewrite relay_set.
    case_decide as E; [subst|by split]. split; rewrite ?Hs, ?Hrel; done.
Qed.

Lemma inv_report k v s : inv s → inv (report k v s).
Proof.
  intros I. unfold report. destruct (rl_running (relay s k)) eqn:E; [|done].
  destruct (inv_relay _ I k) as [Hn Hr]. rewrite E in Hr.
  apply inv_set_relay; [done| |done..]. split; [done|]. cbn. by rewrite <- Hr, app_assoc.
Qed.

Lemma inv_abort k s : inv s → inv (abort k s).
Proof.
  intros I. destruct (inv_relay _ I k) as [Hn Hr]. apply inv_set_relay; [done| |done..].
  split; [done|]. split; [done|]. cbn.
  destruct (rl_running (relay s k)); [|by apply Hr]. rewrite <- Hr. by apply prefix_app_r.
Qed.

(** A step of a client alone. *)
Lemma inv_on_client f c s :
  (∀ cl, cl_kind (f cl) = cl_kind cl) → (∀ r cl, client_ok r c cl → client_ok r c (f cl)) →
  inv s → inv (on_client f c s).
Proof.
  intros Hk Hf I. split.
  - apply (inv_relay _ I).
  - intros k c' Hc. destruct (inv_sender _ I k c' Hc) as (cl & Hcl & Hkind).
    cbn. destruct (decide (c = c')) as [->|].
    + exists (f cl). rewrite lookup_alter_eq, Hcl. cbn. by rewrite Hk.
    + exists cl. by rewrite lookup_alter_ne.
  - intros c' cl Hc. cbn in Hc. destruct (decide (c = c')) as [->|].
    + rewrite lookup_alter_eq in Hc. apply fmap_Some in Hc as (cl' & Hc & ->). cbn. rewrite Hk.
      by apply Hf, (inv_client _ I).
    + rewrite lookup_alter_ne in Hc by done. by apply (inv_client _ I).
Qed.

Lemma client_ok_read r c cl : client_ok r c cl → client_ok r c (client_read cl).
Proof.
  intros [Ho Hq Hs Hop]. unfold client_read.
  destruct (cl_open cl) eqn:E, (cl_queue cl) as [|x q] eqn:Eq; try by (split; rewrite ?E, ?Eq).
  assert (∀ l, (l ++ [x]) ++ q = l ++ x :: q) as Ha by (intros l; by rewrite <- app_assoc).
  split; cbn; rewrite ?Ha; [done|cbn in Hq; lia|done..].
Qed.

Lemma client_ok_close r c cl : client_ok r c cl → client_ok r c (client_close cl).
Proof.
  intros [Ho Hq Hs Hop]. split; cbn; [|lia|done..]. rewrite app_nil_r. etrans; [|done].
  by apply sublist_inserts_r.
Qed.

(** *** A block is relayed *)

Definition is_open (cs : gmap positive Client) (c : positive) : bool :=
  match cs !! c with Some cl => cl_open cl | None => false end.

Lemma try_send_keep v cl : (try_send v cl).1 = cl_open cl.
Proof. unfold try_send. by destruct (cl_open cl); [destruct (bounded_full _ _)|]. Qed.

Lemma filter_ext_in {A} (P Q : A → Prop) `{!∀ x, Decision (P x), !∀ x, Decision (Q x)} (l : list A) :
  (∀ x, x ∈ l → P x ↔ Q x) → filter P l = filter Q l.
Proof.
  induction l as [|a l IH]; intros E; [done|]. rewrite !filter_cons.
  rewrite IH by (intros x ?; apply E; by right).
  destruct (decide (P a)) as [Ha|Ha]; rewrite (E a) in Ha by left;
    [by rewrite decide_True|by rewrite decide_False].
Qed.

Lemma retain_spec v senders cs :
  NoDup senders → (∀ c, c ∈ senders → is_Some (cs !! c)) →
  (retain v senders cs).1 = filter (λ c, is_open cs c = true) senders
  ∧ ∀ c, (retain v senders cs).2 !! c =
      if decide (c ∈ senders) then (λ cl, (try_send v cl).2) <$> cs !! c else cs !! c.
Proof.
  revert cs. induction senders as [|a senders IH]; intros cs Hn Hs; [done|].
  apply NoDup_cons in Hn as [Ha Hn]. destruct (Hs a) as [cl Hcl]; [by left|].
  assert (∀ c, c ∈ senders → is_Some (<[a := (try_send v cl).2]> cs !! c)) as Hs'.
  { intros c Hc. rewrite lookup_insert_ne by congruence. apply Hs. by right. }
  specialize (IH _ Hn Hs') as [IH1 IH2]. cbn [retain]. rewrite Hcl.
  rewrite (surjective_pairing (try_send v cl)), try_send_keep.
  destruct (retain v senders _) as [rest cs']; cbn [fst snd] in *. split.
  - assert (is_open cs a = cl_open cl) as Ho by (unfold is_open; by rewrite Hcl).
    rewrite filter_cons, Ho.
    assert (rest = filter (λ c, is_open cs c = true) senders) as <-.
    { rewrite IH1. apply filter_ext_in. intros c Hc. unfold is_open.
      rewrite lookup_insert_ne by congruence. done. }
    by destruct (cl_open cl).
  - intros c. rewrite IH2. destruct (decide (c = a)) as [->|Hne].
    + rewrite decide_False, decide_True by set_solver. by rewrite lookup_insert_eq, Hcl.
    + rewrite lookup_insert_ne by done. destruct (decide (c ∈ senders)).
      * by rewrite decide_True by set_solver.
      * by rewrite decide_False by set_solver.
Qed.

Lemma client_ok_sent r r' c v cl :
  rl_relayed r' = rl_relayed r ++ [v] →
  (cl_open cl = true → c ∈ rl_senders r → c ∈ rl_senders r') →
  client_ok r c cl → client_ok r' c (try_send v cl).2.
Proof.
  intros Hrel Hin [Ho Hq Hs Hop]. unfold try_send.
  assert (drop (cl_since cl) (rl_relayed r') = drop (cl_since cl) (rl_relayed r) ++ [v]) as Hd
    by (rewrite Hrel; by apply drop_app_le).
  assert (length (rl_relayed r') = S (length (rl_relayed r))) as Hl
    by (rewrite Hrel, length_app; simpl; lia).
  assert (cl_received cl ++ cl_queue cl `sublist_of` drop (cl_since cl) (rl_relayed r')) as Ho'
    by (rewrite Hd; by apply sublist_inserts_r).
  destruct (cl_open cl) eqn:E; [destruct (bounded_full _ _) eqn:Hf|]; cbn.
  - destruct (Hop eq_refl) as [Hc Hn]. split; cbn; [done..|lia|]. intros _. split; [auto|lia].
  - destruct (Hop eq_refl) as [Hc Hn].
    assert (¬ CHANNEL_SIZE ≤ length (cl_queue cl)) by (rewrite <- bounded_full_spec; by rewrite Hf).
    split; cbn; rewrite ?app_assoc, ?length_app, ?Hd; cbn; [by apply sublist_app|lia..|].
    intros _. rewrite length_app in Hn. split; [auto|lia].
  - split; [done..|lia|]. by rewrite E.
Qed.

Lemma client_ok_later r r' c v cl :
  rl_relayed r' = rl_relayed r ++ [v] → c ∉ rl_senders r →
  client_ok r c cl → client_ok r' c cl.
Proof.
  intros Hrel Hc [Ho Hq Hs Hop]. split; [|done| |].
  - rewrite Hrel, drop_app_le by done. by apply sublist_inserts_r.
  - rewrite Hrel, length_app. lia.
  - intros [? _]%Hop. done.
Qed.

(** The state after a block has been relayed. *)
Lemma relay_next_state k s v q :
  inv s → rl_running (relay s k) = true → rl_queue (relay s k) = v :: q →
  ∃ r cs, relay_next k s = set_clients cs (set_relay k r s)
    ∧ rl_queue r = q ∧ rl_running r = true ∧ rl_reported r = rl_reported (relay s k)
    ∧ rl_relayed r = rl_relayed (relay s k) ++ [v]
    ∧ rl_senders r = filter (λ c, is_open (clients s) c = true) (rl_senders (relay s k))
    ∧ ∀ c, cs !! c = if decide (c ∈ rl_senders (relay s k))
                     then (λ cl, (try_send v cl).2) <$> clients s !! c else clients s !! c.
Proof.
  intros I Hrun Hq. unfold relay_next. rewrite Hq, Hrun.
  destruct (retain_spec v (rl_senders (relay s k)) (clients s)) as [H1 H2].
  - apply (inv_relay _ I).
  - intros c Hc. destruct (inv_sender _ I _ _ Hc) as (cl & Hcl & _). by eauto.
  - destruct (retain v _ _) as [senders cs]. by eexists _, _.
Qed.

Lemma try_send_kind v cl : cl_kind (try_send v cl).2 = cl_kind cl.
Proof. unfold try_send. by destruct (cl_open cl); [destruct (bounded_full _ _)|]. Qed.

Lemma inv_relay_next k s : inv s → inv (relay_next k s).
Proof.
  intros I. destruct (rl_queue (relay s k)) as [|v q] eqn:Hq; [unfold relay_next; by rewrite Hq|].
  destruct (rl_running (relay s k)) eqn:Hrun; [|unfold relay_next; by rewrite Hq, Hrun].
  destruct (relay_next_state k s v q) as (r & cs & -> & Hq' & Hrun' & Hrep & Hrel & Hsnd & Hcs);
    [done..|]. destruct (inv_relay _ I k) as [Hn Hr]. rewrite Hrun, Hq in Hr. split.
  - intros k'. cbn. case_decide; [|apply (inv_relay _ I)]. split.
    + rewrite Hsnd. by apply NoDup_filter.
    + rewrite Hrun', Hrel, Hq', Hrep. by rewrite <- app_assoc.
  - intros k' c. cbn. rewrite Hcs. case_decide as E; [subst k'|].
    + rewrite Hsnd. intros [_ Hc]%list_elem_of_filter. rewrite decide_True by done.
      destruct (inv_sender _ I _ _ Hc) as (cl & Hcl & Hk). rewrite Hcl. eexists. split; [done|].
      by rewrite try_send_kind.
    + intros Hc. destruct (inv_sender _ I _ _ Hc) as (cl & Hcl & Hk). rewrite Hcl.
      rewrite decide_False; [by eauto|]. intros (cl' & ? & ?)%(inv_sender _ I). congruence.
  - intros c cl. cbn. rewrite Hcs. intros Hc. destruct (decide (c ∈ _)) as [Hin|Hin].
    + apply fmap_Some in Hc as (cl' & Hcl & ->). rewrite try_send_kind.
      destruct (inv_sender _ I _ _ Hin) as (cl'' & ? & Hk). simplify_eq. rewrite decide_True by done.
      eapply client_ok_sent; [done| |by apply (inv_client _ I)].
      intros Ho _. rewrite Hsnd. apply list_elem_of_filter. split; [|done].
      unfold is_open. by rewrite Hcl.
    + pose proof (inv_client _ I _ _ Hc). case_decide; [subst k|done]. by eapply client_ok_later.
Qed.

Lemma inv_subscribe k s : inv s → inv (subscribe k s).2.
Proof.
  intros I. assert (clients s !! fresh (dom (clients s)) = None) as Hnew
    by (apply not_elem_of_dom, is_fresh).
  unfold subscribe. set (c0 := fresh _) in *. cbn.
  assert (∀ k', c0 ∉ rl_senders (relay s k')) as Hno.
  { intros k' (cl & ? & _)%(inv_sender _ I). congruence. }
  split.
  - intros k'. cbn. case_decide; [|apply (inv_relay _ I)]. destruct (inv_relay _ I k) as [Hn Hr].
    split; [|done]. apply NoDup_app. split_and!; [done| |apply NoDup_singleton].
    intros c Hc ->%list_elem_of_singleton. by apply (Hno k).
  - intros k' c Hc. cbn. assert (c ∈ rl_senders (relay s k') ∨ k' = k ∧ c = c0) as [Hc'|[-> ->]].
    { cbn in Hc. case_decide; [subst|by left]. cbn in Hc. set_solver. }
    + rewrite lookup_insert_ne by (intros <-; by eapply Hno). by apply (inv_sender _ I).
    + rewrite lookup_insert_eq. by eauto.
  - intros c cl. cbn. intros [[<- <-]|[Hne Hc]]%lookup_insert_Some; cbn.
    + rewrite decide_True by done. split; cbn; [apply sublist_nil_l|unfold CHANNEL_SIZE; lia|done|].
      intros _. split; [set_solver|lia].
    + apply (inv_client _ I) in Hc as [? ? ? Hop]. case_decide; [subst|by split].
      split; cbn; [done..|]. intros [? ?]%Hop. split; [set_solver|done].
Qed.

Lemma relays_inv_step s s' : inv s → step s s' → inv s'.
Proof.
  intros I Hs. destruct Hs as [ty data len Hok|k|cfg|cfg|c|c|].
  - unfold notify_callback in *. repeat case_decide; [| |done];
      destruct (from_raw_parts data len); try done; by apply inv_report.
  - by apply inv_relay_next.
  - unfold get_blocks. destruct (en_get_blocks cfg); [by apply (inv_subscribe Arrived)|done].
  - unfold get_finalized_blocks.
    destruct (en_get_finalized_blocks cfg); [by apply (inv_subscribe Finalized)|done].
  - apply inv_on_client; [|intros r cl; apply client_ok_read|done].
    intros cl. unfold client_read. by destruct (cl_open cl), (cl_queue cl).
  - apply inv_on_client; [done|intros r cl; apply client_ok_close|done].
  - by apply inv_abort, inv_abort.
Qed.

Lemma relays_reachable_inv s : reachable s → inv s.
Proof.
  unfold reachable. generalize relays_inv_new. intros I Hs. induction Hs; eauto using relays_inv_step.
Qed.

Lemma sublist_same_length {A} (l k : list A) : l `sublist_of` k → length k ≤ length l → l = k.
Proof.
  induction 1 as [|x l k Hs IH|x l k Hs IH]; cbn; intros Hl; [done|f_equal; apply IH; lia|].
  apply sublist_length in Hs. lia.
Qed.

(** ** The theorems *)

(** *** A client over time *)

(** The client [c] keeps its kind and the place in the blocks from which it is served. *)
Definition serves (c : positive) (k : Kind) (n : nat) (s : Relays) : Prop :=
  ∃ cl, clients s !! c = Some cl ∧ cl_kind cl = k ∧ cl_since cl = n.

Lemma serves_subscribe c k n k' s : serves c k n s → serves c k n (subscribe k' s).2.
Proof.
  intros (cl & Hc & ?). exists cl. cbn. rewrite lookup_insert_ne; [done|].
  intros <-. by apply (is_fresh (dom (clients s))), elem_of_dom.
Qed.

Lemma serves_report c k n k' v s : serves c k n s → serves c k n (report k' v s).
Proof. unfold report. by destruct (rl_running (relay s k')). Qed.

Lemma serves_on_client f c c' k n s :
  (∀ cl, cl_kind (f cl) = cl_kind cl ∧ cl_since (f cl) = cl_since cl) →
  serves c k n s → serves c k n (on_client f c' s).
Proof.
  intros Hf (cl & Hc & <- & <-). unfold serves, on_client. cbn. destruct (decide (c = c')) as [->|].
  - exists (f cl). rewrite lookup_alter_eq, Hc. by destruct (Hf cl).
  - exists cl. by rewrite lookup_alter_ne.
Qed.

Lemma serves_step c k n s s' : inv s → step s s' → serves c k n s → serves c k n s'.
Proof.
  intros I [ty data len Hok|k'|cfg|cfg|c'|c'|] Hc.
  - revert Hok. unfold notify_callback. repeat case_decide; [| |done];
      destruct (from_raw_parts data len) as [d| |]; try done; intros _; by apply serves_report.
  - unfold relay_next. destruct (rl_queue (relay s k')) as [|v q] eqn:Hq; [done|].
    destruct (rl_running (relay s k')) eqn:Hrun; [|done].
    pose proof (relay_next_state k' s v q I Hrun Hq) as (r & cs & E & _ & _ & _ & _ & _ & Hcs).
    unfold relay_next in E. rewrite Hq, Hrun in E. rewrite E. destruct Hc as (cl & Hc & Hk & Hn).
    unfold serves. cbn. rewrite Hcs, Hc. case_decide; [|by exists cl].
    exists (try_send v cl).2. split; [done|]. rewrite try_send_kind. split; [done|].
    unfold try_send. by destruct (cl_open cl); [destruct (bounded_full _ _)|].
  - unfold get_blocks. destruct (en_get_blocks cfg); [by apply (serves_subscribe _ _ _ Arrived)|done].
  - unfold get_finalized_blocks.
    destruct (en_get_finalized_blocks cfg); [by apply (serves_subscribe _ _ _ Finalized)|done].
  - apply serves_on_client; [|done]. intros cl. unfold client_read. by destruct (cl_open cl), (cl_queue cl).
  - by apply serves_on_client.
  - done.
Qed.

(** A relay only reports and relays more, and a relay that was aborted nothing. *)
Definition relay_grows (r r' : Relay) : Prop :=
  rl_reported r `prefix_of` rl_reported r'
  ∧ (rl_running r = false → rl_running r' = false ∧ rl_relayed r' = rl_relayed r).

#[local] Instance relay_grows_preorder : PreOrder relay_grows.
Proof.
  split; [done|]. intros r1 r2 r3 [H1 H2] [H3 H4]. split; [by etrans|]. intros Hr.
  destruct (H2 Hr) as [Hr2 <-]. by apply H4.
Qed.

Lemma relay_set_grows k k' r s : relay_grows (relay s k) r → relay_grows (relay s k') (relay (set_relay k r s) k').
Proof. intros Hr. rewrite relay_set. by case_decide; [subst|]. Qed.

Lemma subscribe_grows k k' s : relay_grows (relay s k') (relay (subscribe k s).2 k').
Proof. apply (relay_set_grows k k'). by split. Qed.

Lemma report_grows k v k' s : relay_grows (relay s k') (relay (report k v s) k').
Proof.
  unfold report. destruct (rl_running (relay s k)) eqn:E; [|done]. apply relay_set_grows.
  split; [by apply prefix_app_r|congruence].
Qed.

Lemma step_grows s s' k : step s s' → relay_grows (relay s k) (relay s' k).
Proof.
  intros [ty data len Hok|k'|cfg|cfg|c|c|]; try done.
  - revert Hok. unfold notify_callback. repeat case_decide; [| |done];
      destruct (from_raw_parts data len) as [d| |]; try done; intros _; apply report_grows.
  - unfold relay_next. destruct (rl_queue (relay s k')) as [|v q]; [done|].
    destruct (rl_running (relay s k')) eqn:E; [|done]. destruct (retain _ _ _) as [senders cs].
    apply (relay_set_grows k' k). split; [done|]. cbn. congruence.
  - unfold get_blocks. destruct (en_get_blocks cfg); [apply (subscribe_grows Arrived)|done].
  - unfold get_finalized_blocks. destruct (en_get_finalized_blocks cfg); [apply (subscribe_grows Finalized)|done].
  - unfold abort_relays. etrans; [apply (relay_set_grows Arrived k)|apply (relay_set_grows Finalized k)]; by split.
Qed.

Lemma steps_serve c k n s s' :
  inv s → rtc step s s' → serves c k n s →
  inv s' ∧ serves c k n s' ∧ relay_grows (relay s k) (relay s' k).
Proof.
  intros I Hs. induction Hs as [s|s1 s2 s3 Hstep _ IH]; [done|]. intros Hc.
  destruct IH as (? & ? & Hg); [by eapply relays_inv_step|by eapply serves_step|].
  split; [done|]. split; [done|]. etrans; [by apply step_grows|done].
Qed.

(** What the client [c] has got in the state [s] when it asked in the state [s0] for the
    blocks of kind [k]: of the blocks that were reported and not yet relayed then, and of
    those that have been reported since, a part in their order; and if it is still there
    and was never too slow, all of those that have been relayed. *)
Definition delivered (k : Kind) (c : positive) (s0 s : Relays) : Prop :=
  let r0 := relay s0 k in
  let r := relay s k in
  ∃ cl, clients s !! c = Some cl
    ∧ cl_received cl ++ cl_queue cl
      `sublist_of` rl_queue r0 ++ drop (length (rl_reported r0)) (rl_reported r)
    ∧ length (cl_queue cl) ≤ CHANNEL_SIZE
    ∧ (cl_open cl = true → cl_missed cl = 0 →
       cl_received cl ++ cl_queue cl = drop (length (rl_relayed r0)) (rl_relayed r)).

Lemma subscribe_delivered k s0 s :
  inv s0 → rtc step (subscribe k s0).2 s → delivered k (subscribe k s0).1 s0 s.
Proof.
  intros I Hs. pose proof (subscribe_grows k k s0) as Hg1.
  destruct (steps_serve (subscribe k s0).1 k (length (rl_relayed (relay s0 k))) _ s
    (inv_subscribe k s0 I) Hs) as (I' & (cl & Hc & Hk & Hn) & Hg2).
  { eexists. split; [apply lookup_insert_eq|done]. }
  assert (relay_grows (relay s0 k) (relay s k)) as [[l Hrep] Hstop] by (by etrans).
  destruct (inv_client _ I' _ _ Hc) as [Ho Hq Hsn Hop]. rewrite Hk, Hn in *.
  destruct (inv_relay _ I k) as [_ Hr0]. destruct (inv_relay _ I' k) as [_ Hr].
  exists cl. split_and!; [done| |done|].
  - etrans; [exact Ho|]. destruct (rl_running (relay s0 k)) eqn:Hrun.
    + assert (rl_relayed (relay s k) `prefix_of` rl_reported (relay s k)) as [l' Hl'].
      { destruct (rl_running (relay s k)); [rewrite <- Hr; by apply prefix_app_r|by apply Hr]. }
      assert (rl_queue (relay s0 k) ++ drop (length (rl_reported (relay s0 k))) (rl_reported (relay s k))
        = drop (length (rl_relayed (relay s0 k))) (rl_reported (relay s k))) as ->.
      { rewrite Hrep, <- Hr0. by rewrite drop_app_length, <- app_assoc, drop_app_length. }
      rewrite Hl', drop_app_le by done. by apply sublist_inserts_r.
    + destruct (Hstop eq_refl) as [_ ->]. rewrite drop_all. apply sublist_nil_l.
  - intros [_ Hlen]%Hop Hm. apply sublist_same_length; [done|]. rewrite length_drop. lia.
Qed.

(** C28: A client that asks for blocks gets blocks that arrived, and one that asks for
    finalized blocks gets finalized ones: in the order in which the library reported them,
    each of them reported after the client asked or still queued for the relay then, with
    at most 100 that wait for it.  It gets all of them that have been relayed unless it was
    too slow for some.  The code 0 of the library reports a block that arrived, the code 1
    one that was finalized. *)
Theorem relayed_in_order cfg s0 c s1 s :
  reachable s0 → rtc step s1 s →
  (get_blocks cfg s0 = (Value c, s1) → delivered Arrived c s0 s)
  ∧ (get_finalized_blocks cfg s0 = (Value c, s1) → delivered Finalized c s0 s)
  ∧ ∀ data, fits 63 (Z.of_nat (length data)) →
      let notified ty := (notify_callback ty (ToBytes data) (Z.of_nat (length data)) s).2 in
      (rl_running (relay s Arrived) = true →
       rl_reported (relay (notified 0%Z) Arrived) = rl_reported (relay s Arrived) ++ [data])
      ∧ (rl_running (relay s Finalized) = true →
         rl_reported (relay (notified 1%Z) Finalized) = rl_reported (relay s Finalized) ++ [data]).
Proof.
  intros I%relays_reachable_inv Hs. split_and!.
  - unfold get_blocks. destruct (en_get_blocks cfg); [|done].
    rewrite (surjective_pairing (subscribe Arrived s0)). intros [= <- <-]. by apply subscribe_delivered.
  - unfold get_finalized_blocks. destruct (en_get_finalized_blocks cfg); [|done].
    rewrite (surjective_pairing (subscribe Finalized s0)). intros [= <- <-]. by apply subscribe_delivered.
  - intros data Hd notified. unfold notified, notify_callback. cbn -[from_raw_parts].
    rewrite from_raw_parts_whole by done. unfold mbind, ST_bind, st_lift, st_modify, report. cbn.
    split; intros Hrun.
    + rewrite decide_True by done. cbn. by rewrite Hrun.
    + rewrite decide_False, decide_True by done. cbn. by rewrite Hrun.
Qed.

(** When a relay task passes on a block, each client of it that is there and whose
    channel has room gets the block after those it already has, one whose channel is
    full keeps what it has, one that has gone away is removed from the list, and the
    clients of the other relay are not affected. *)
Theorem relay_delivers k s v q :
  reachable s → rl_running (relay s k) = true → rl_queue (relay s k) = v :: q →
  let s' := relay_next k s in
  rl_queue (relay s' k) = q
  ∧ (∀ c, c ∈ rl_senders (relay s' k) → is_open (clients s) c = true)
  ∧ ∀ c cl, clients s !! c = Some cl →
      (cl_kind cl = k → cl_open cl = true → c ∈ rl_senders (relay s' k))
      ∧ ∃ cl', clients s' !! c = Some cl' ∧ cl_queue cl' =
          if bool_decide (cl_kind cl = k) && cl_open cl
             && bool_decide (length (cl_queue cl) < CHANNEL_SIZE)
          then cl_queue cl ++ [v] else cl_queue cl.
Proof.
  intros I%relays_reachable_inv Hrun Hq.
  destruct (relay_next_state k s v q) as (r & cs & -> & Hq' & Hrun' & Hrep & Hrel & Hsnd & Hcs);
    [done..|]. cbn. rewrite decide_True, Hsnd by done.
  split_and!; [done|by intros c [? _]%list_elem_of_filter|]. intros c cl Hc.
  pose proof (inv_client _ I _ _ Hc) as [_ _ _ Hop]. split.
  { intros <- Ho. apply list_elem_of_filter. split; [unfold is_open; by rewrite Hc|by apply Hop]. }
  rewrite Hcs, Hc. destruct (decide (c ∈ _)) as [Hin|Hin].
  - eexists. split; [done|]. destruct (inv_sender _ I _ _ Hin) as (? & ? & Hk). simplify_eq.
    rewrite bool_decide_eq_true_2 by done. unfold try_send.
    destruct (cl_open cl); [|done]. destruct (bounded_full _ _) eqn:Hf; cbn.
    + apply bounded_full_spec in Hf. by rewrite bool_decide_eq_false_2 by lia.
    + rewrite bool_decide_eq_true_2; [done|].
      destruct (decide (length (cl_queue cl) < CHANNEL_SIZE)) as [|Hge]; [done|].
      assert (CHANNEL_SIZE ≤ length (cl_queue cl)) as Hle%bounded_full_spec by lia. congruence.
  - exists cl. split; [done|]. case_bool_decide as Hk; [|done]. cbn. destruct (cl_open cl); [|done].
    destruct Hin. rewrite <- Hk. by apply Hop.
Qed.
End invariant.

(** A node reports that it is healthy exactly when consensus runs and the last
    finalized block is no older than the configured number of seconds, as long as that
    many milliseconds fit in 64 bits. *)
Theorem health_check_iff running last now delay :
  (0 ≤ delay)%Z → (1000 * delay < 2 ^ 64)%Z →
  check running last now delay = Value Healthy
  ↔ running = true ∧ ∃ t, now = Some t ∧ (t - last ≤ 1000 * delay)%Z.
Proof.
  intros H0 H1. unfold check. rewrite Z.mod_small by lia.
  destruct running; [|naive_solver]. destruct now as [t|]; [|naive_solver].
  case_decide; split; naive_solver lia.
Qed.

(** ** An example *)
Module RelayExample.
Definition bounded : BoundedExt.
Proof. refine {| bounded_full b n := bool_decide (b ≤ n) |}. intros. apply bool_decide_eq_true. Defined.
#[local] Existing Instance bounded.

(** A client asks for blocks, and the library reports one. *)
Definition asked : Relays := (get_blocks new_all_enabled Relays_new).2.
Definition reported : Relays := (notify_callback 0 (ToBytes [7%Z; 8%Z]) 2 asked).2.
Definition relayed : Relays := relay_next Arrived reported.

Lemma reported_reachable : reachable reported.
Proof.
  eapply rtc_l; [apply (step_get_blocks _ new_all_enabled)|].
  eapply rtc_once, (step_notify _ 0%Z (ToBytes [7%Z; 8%Z]) 2%Z). vm_compute. reflexivity.
Defined.

Lemma relayed_reachable : reachable relayed.
Proof. eapply rtc_r; [apply reported_reachable|apply (step_relay _ Arrived)]. Defined.

Lemma relayed_in_order_witness :
  ∃ cl, clients relayed !! 1%positive = Some cl ∧ cl_received cl ++ cl_queue cl = [[7%Z; 8%Z]].
Proof.
  destruct (relayed_in_order new_all_enabled Relays_new 1 asked relayed) as [Hb _].
  - apply rtc_refl.
  - eapply rtc_l; [|apply rtc_once, (step_relay _ Arrived)].
    apply (step_notify _ 0%Z (ToBytes [7%Z; 8%Z]) 2%Z). vm_compute. reflexivity.
  - destruct Hb as (cl & Hc & _ & _ & Hall); [reflexivity|].
    vm_compute in Hc. injection Hc as <-. eexists. split; [vm_compute; reflexivity|].
    rewrite Hall; [|reflexivity..]. vm_compute. reflexivity.
Defined.

Lemma relay_delivers_witness :
  ∃ cl', clients relayed !! 1%positive = Some cl' ∧ cl_queue cl' = [[7%Z; 8%Z]].
Proof.
  refine (proj2 (proj2 (proj2 (relay_delivers Arrived reported [7%Z; 8%Z] []
    reported_reachable _ _)) 1%positive (MkClient Arrived [] [] true 0 0) _)); vm_compute; reflexivity.
Defined.

Lemma health_check_iff_witness : check true 1000 (Some 300000%Z) 300 = Value Healthy.
Proof. apply health_check_iff; [lia..|]. split; [reflexivity|]. eexists. split; [reflexivity|lia]. Defined.
End RelayExample.
