(* ===== verification/Runner.v ===== *)
(** * Messages to and from the consensus library

    Models the part of [concordium-node/src/consensus_ffi/ffi.rs] that exchanges
    consensus messages with the library, with the macros of [consensus_ffi/mod.rs], and
    the functions of [concordium-consensus/src/Concordium/External.hs] on the other side:
    the calls that pass a received message to the library, with their return codes, and
    the callbacks by which the library sends messages.  What the library does with a
    message is a parameter. *)
From S2P Require Import Prelude.
From S2P Require Import Status.
From S2P Require Import PeerTypes.
From S2P Require Import NetTypes.
From S2P Require Import FfiHelpers.
From S2P Require Import CatchUp.
From S2P Require Import Config.
From S2P Require Import NodeState.
From S2P Require Import ConnMethods.
From S2P Require Import Connectivity.
From S2P Require Import ConsensusPlugin.
From S2P Require Import NodeExample.
From S2P Require Import QueueThreads.
From S2P Require Import Foreign.

(** ** The types of the library *)
Module HsTypes.
Inductive MessageType :=
  | MessageBlock | MessageFinalization | MessageFinalizationRecord | MessageCatchUpStatus.

Definition mti (mt : MessageType) : i64 :=
  match mt with
  | MessageBlock => 0
  | MessageFinalization => 1
  | MessageFinalizationRecord => 2
  | MessageCatchUpStatus => 3
  end.

Inductive UpdateResult :=
  | ResultSuccess | ResultSerializationFail | ResultInvalid | ResultPendingBlock
  | ResultPendingFinalization | ResultAsync | ResultDuplicate | ResultStale
  | ResultIncorrectFinalizationSession | ResultUnverifiable | ResultContinueCatchUp
  | ResultEarlyBlock | ResultMissingImportFile | ResultConsensusShutDown | ResultExpiryTooLate
  | ResultVerificationFailed | ResultNonexistingSenderAccount | ResultDuplicateNonce
  | ResultNonceTooLarge | ResultTooLowEnergy | ResultInvalidGenesisIndex
  | ResultDuplicateAccountRegistrationID | ResultCredentialDeploymentInvalidSignatures
  | ResultCredentialDeploymentInvalidIP | ResultCredentialDeploymentInvalidAR
  | ResultCredentialDeploymentExpired | ResultChainUpdateInvalidEffectiveTime
  | ResultChainUpdateSequenceNumberTooOld | ResultChainUpdateInvalidSignatures
  | ResultEnergyExceeded | ResultInsufficientFunds.

Definition toReceiveResult (r : UpdateResult) : i64 :=
  match r with
  | ResultSuccess => 0
  | ResultSerializationFail => 1
  | ResultInvalid => 2
  | ResultPendingBlock => 3
  | ResultPendingFinalization => 4
  | ResultAsync => 5
  | ResultDuplicate => 6
  | ResultStale => 7
  | ResultIncorrectFinalizationSession => 8
  | ResultUnverifiable => 9
  | ResultContinueCatchUp => 10
  | ResultEarlyBlock => 11
  | ResultMissingImportFile => 12
  | ResultConsensusShutDown => 13
  | ResultExpiryTooLate => 14
  | ResultVerificationFailed => 15
  | ResultNonexistingSenderAccount => 16
  | ResultDuplicateNonce => 17
  | ResultNonceTooLarge => 18
  | ResultTooLowEnergy => 19
  | ResultInvalidGenesisIndex => 20
  | ResultDuplicateAccountRegistrationID => 21
  | ResultCredentialDeploymentInvalidSignatures => 22
  | ResultCredentialDeploymentInvalidIP => 23
  | ResultCredentialDeploymentInvalidAR => 24
  | ResultCredentialDeploymentExpired => 25
  | ResultChainUpdateInvalidEffectiveTime => 26
  | ResultChainUpdateSequenceNumberTooOld => 27
  | ResultChainUpdateInvalidSignatures => 28
  | ResultEnergyExceeded => 29
  | ResultInsufficientFunds => 30
  end.

Inductive BakerStatus :=
  ActiveInComittee | NotInCommittee | AddedButNotActiveInCommittee | AddedButWrongKeys.

Definition getBakerStatusCode (bs : BakerStatus) : u8 :=
  match bs with
  | ActiveInComittee => 0
  | NotInCommittee => 1
  | AddedButNotActiveInCommittee => 2
  | AddedButWrongKeys => 3
  end.

Inductive StartResult :=
  | StartSuccess | StartGenesisFailure | StartBakerIdentityFailure | StartIOException
  | BlockStatePathDir | BlockStatePermissionError | TreeStatePermissionError
  | DatabaseOpeningError | GenesisBlockNotInDataBaseError | GenesisBlockIncorrect
  | DatabaseInvariantViolation | IncorrectDatabaseVersion.

Definition toStartResult (r : StartResult) : i64 :=
  match r with
  | StartSuccess => 0
  | StartGenesisFailure => 1
  | StartBakerIdentityFailure => 2
  | StartIOException => 3
  | BlockStatePathDir => 4
  | BlockStatePermissionError => 5
  | TreeStatePermissionError => 6
  | DatabaseOpeningError => 7
  | GenesisBlockNotInDataBaseError => 8
  | GenesisBlockIncorrect => 9
  | DatabaseInvariantViolation => 10
  | IncorrectDatabaseVersion => 11
  end.
End HsTypes.
Import HsTypes.

(** What the library answers, at the time of the call: [MV.receiveBlock] and the other
    operations of the multi-version runner. *)
Class RunnerExt := {
  MV_receiveBlock : u32 → bytes → UpdateResult * bool;
  MV_runBlock : UpdateResult;
  MV_receiveFinalizationMessage : u32 → bytes → UpdateResult;
  MV_receiveFinalizationRecord : u32 → bytes → UpdateResult;
  MV_receiveTransaction : bytes → option bytes * UpdateResult;
  (** The result, and the messages that are sent back. *)
  MV_receiveCatchUpStatus : u32 → bytes → i64 → UpdateResult * list (MessageType * bytes);
  MV_getCatchUpRequest : u32 * bytes;
  MV_importBlocks : bytes → UpdateResult;
  Q_getBakerStatusBestBlock : BakerStatus * option u64;
  Q_checkIsCurrentFinalizer : bool;
  Q_checkIsShutDown : bool;
}.

(** The hash of a transaction has 32 octets, and messages are in memory. *)
Class RunnerLaws `{!RunnerExt} := {
  transaction_hash_size t h r : MV_receiveTransaction t = (Some h, r) → length h = 32;
  catch_up_in_memory : fits 63 (Z.of_nat (length (MV_getCatchUpRequest).2));
  replies_in_memory i bs l : Forall (λ '(_, m), fits 63 (Z.of_nat (length m)))
                               (MV_receiveCatchUpStatus i bs l).2;
}.

(** [concordium_base::common::{Serial, Deserial}] for [u32]. *)
Class SerialU32 `{!NodeExt} := {
  serial_u32 : u32 → bytes;
  serial_u32_be x : serial_u32 x = to_be_bytes 4 x;
  deserial_u32_be x : fits 32 x → deserial_u32 (to_be_bytes 4 x) = Ok (x, []);
}.

(** ** The functions the library exports *)
Module Exports.
Section exports.
Context `{!RunnerExt}.

(** [BS.packCStringLen] *)
Definition packCStringLen (p : ptr) (len : i64) : outcome bytes :=
  if decide (len < 0)%Z then Panic "negative length" else read_bytes p (Z.to_nat len).

(** The code, and whether a continuation has been written. *)
Definition receiveBlock (genIndex : u32) (msg : ptr) (msgLen : u64) : outcome (i64 * bool) :=
  blockBS ← packCStringLen msg (as_i64 msgLen);
  let '(receiveResult, mExecuteBlock) := MV_receiveBlock genIndex blockBS in
  Ok (toReceiveResult receiveResult, mExecuteBlock).

Definition executeBlock : outcome i64 := Ok (toReceiveResult MV_runBlock).

Definition receiveFinalizationMessage (genIndex : u32) (msg : ptr) (msgLen : i64) : outcome i64 :=
  finMsgBS ← packCStringLen msg msgLen;
  Ok (toReceiveResult (MV_receiveFinalizationMessage genIndex finMsgBS)).

Definition receiveFinalizationRecord (genIndex : u32) (msg : ptr) (msgLen : i64) : outcome i64 :=
  finRecBS ← packCStringLen msg msgLen;
  Ok (toReceiveResult (MV_receiveFinalizationRecord genIndex finRecBS)).

(** The code, and what has been written to the 32 octets of [outPtr]. *)
Definition receiveTransaction (transactionData : ptr) (transactionLen : i64) (out : bytes) :
    outcome (i64 * bytes) :=
  transactionBS ← packCStringLen transactionData transactionLen;
  match MV_receiveTransaction transactionBS with
  | (None, ur) => Ok (toReceiveResult ur, out)
  | (Some h, ur) => Ok (toReceiveResult ur, take 32 h)
  end.

(** The callback is run for each message that is sent back. *)
Definition receiveCatchUpStatus {S} (genIndex : u32) (cstr : ptr) (len limit : i64)
    (catchUpCallback : MessageType → bytes → S → Reply unit * S) (s : S) : Reply i64 * S :=
  if decide (limit ≤ 0)%Z then (Value (toReceiveResult ResultSuccess), s)
  else
    match packCStringLen cstr len with
    | Ok bs =>
      let '(result, msgs) := MV_receiveCatchUpStatus genIndex bs limit in
      (fix send msgs s :=
         match msgs with
         | [] => (Value (toReceiveResult result), s)
         | (mt, m) :: msgs =>
           match catchUpCallback mt m s with
           | (Value _, s) => send msgs s
           | (Status c, s) => (Status c, s)
           | (Crashed, s) => (Crashed, s)
           | (NoReply, s) => (NoReply, s)
           end
         end) msgs s
    | _ => (Crashed, s)
    end.

(** The genesis index and the string that have been written, and its length; there is
    a null octet after the string. *)
Definition getCatchUpStatus : u32 * ptr * i64 :=
  let '(genIndex, resBS) := MV_getCatchUpRequest in
  (genIndex, ToBytes (resBS ++ [0%Z]), Z.of_nat (length resBS)).

Definition importBlocks (fname : ptr) (fnameLen : i64) : outcome i64 :=
  theFile ← packCStringLen fname fnameLen;
  Ok (toReceiveResult (MV_importBlocks theFile)).

(** The code, and what has been written to [bakerIdPtr] and [hasBakerIdPtr]. *)
Definition bakerStatusBestBlock (bakerId : u64) : u8 * u64 * u8 :=
  match Q_getBakerStatusBestBlock with
  | (bs, None) => (getBakerStatusCode bs, bakerId, 0%Z)
  | (bs, Some bid) => (getBakerStatusCode bs, bid, 1%Z)
  end.

Definition checkIfWeAreFinalizer : u8 := if Q_checkIsCurrentFinalizer then 1 else 0.
Definition checkIfRunning : u8 := if Q_checkIsShutDown then 0 else 1.
End exports.
End Exports.

(** ** The methods of [ConsensusContainer] *)

(** [ConsensusFfiResponse::try_from(result).unwrap_or_else(|code| panic!(..))] *)
Definition response_or_panic (result : i64) : outcome ConsensusFfiResponse :=
  match ConsensusFfiResponse_try_from result with
  | Ok r => Ok r
  | _ => Panic "Unknown FFI return code"
  end.

(** [wrap_send_data_to_c!] *)
Definition wrap_send_data_to_c (c_call : u32 → ptr → i64 → outcome i64) (genesis_index : u32)
    (data : bytes) : outcome ConsensusFfiResponse :=
  result ← c_call genesis_index (ToBytes data) (as_i64 (Z.of_nat (length data)));
  response_or_panic result.

(** [wrap_c_bool_call!] *)
Definition wrap_c_bool_call (code : u8) : outcome bool :=
  match code with
  | 0%Z => Ok false
  | 1%Z => Ok true
  | _ => Panic "FFI call didn't return 0 or 1"
  end.

Module Container.
Section methods.
Context `{!RunnerExt}.

Definition receive_block (genesis_index : u32) (block : bytes) :
    outcome (ConsensusFfiResponse * bool) :=
  '(result, callback) ← Exports.receiveBlock genesis_index (ToBytes block) (Z.of_nat (length block));
  r ← response_or_panic result;
  Ok (r, callback).

Definition execute_block : outcome ConsensusFfiResponse :=
  result ← Exports.executeBlock; response_or_panic result.

Definition send_finalization := wrap_send_data_to_c Exports.receiveFinalizationMessage.
Definition send_finalization_record := wrap_send_data_to_c Exports.receiveFinalizationRecord.

Definition send_transaction (data : bytes) : outcome (option bytes * ConsensusFfiResponse) :=
  '(result, out_hash) ← Exports.receiveTransaction (ToBytes data) (as_i64 (Z.of_nat (length data)))
                          (replicate 32 0%Z);
  return_code ← response_or_panic result;
  if decide (return_code = Success) then Ok (Some out_hash, return_code)
  else Ok (None, return_code).

Definition get_catch_up_status : outcome bytes :=
  let '(genesis_index, message_bytes, message_length) := Exports.getCatchUpStatus in
  slice ← from_raw_parts message_bytes message_length;
  Ok ([PacketType_code CatchUpStatus] ++ to_be_bytes 4 genesis_index ++ slice).

Definition import_blocks (import_file_path : option bytes) : outcome unit :=
  path_bytes ← match import_file_path with
               | Some p => Ok p
               | None => bail "Cannot decode path."
               end;
  response ← Exports.importBlocks (ToBytes path_bytes) (as_i64 (Z.of_nat (length path_bytes)));
  r ← ConsensusFfiResponse_try_from response;
  match r with
  | Success => Ok tt
  | _ => bail "Error during block import"
  end.

Definition in_baking_committee : outcome (BakingCommitteeResponse * bool * u64) :=
  let '(result, baker_id, has_baker_id) := Exports.bakerStatusBestBlock 0 in
  match BakingCommitteeResponse_try_from result with
  | Ok status => Ok (status, bool_decide (has_baker_id ≠ 0%Z), baker_id)
  | _ => Panic "An error occured when trying to convert FFI return code"
  end.

Definition in_finalization_committee : outcome bool :=
  wrap_c_bool_call Exports.checkIfWeAreFinalizer.
Definition is_consensus_running : outcome bool := wrap_c_bool_call Exports.checkIfRunning.
End methods.
End Container.

(** [get_consensus_ptr], from the code of [startConsensus] or [startConsensusPassive]. *)
Definition get_consensus_ptr (ret_code : i64) : outcome unit :=
  match ret_code with
  | 0%Z => Ok tt
  | 1%Z => bail "Cannot decode given genesis data."
  | 2%Z => bail "Cannot decode baker keys."
  | 3%Z => bail "Error reading database files."
  | 4%Z => bail "Given block state path is a directory, not a file."
  | 5%Z => bail "Cannot read block state database due to incorrect permissions."
  | 6%Z => bail "Cannot read tree state database due to incorrect permissions."
  | 7%Z => bail "Cannot open supplied tree state database."
  | 8%Z => bail "Genesis block is not in the supplied tree state database."
  | 9%Z => bail "Database genesis block does not align with the supplied genesis data."
  | 10%Z => bail "Database invariant violation. See logs for details."
  | 11%Z => bail "Block state database has incorrect version information."
  | _ => bail "Unknown error code"
  end.

(** ** The callbacks *)

Inductive CallbackType := CbBlock | CbFinalizationMessage | CbFinalizationRecord | CbCatchUpStatus.

Definition CallbackType_try_from (byte : u8) : outcome CallbackType :=
  match byte with
  | 0%Z => Ok CbBlock
  | 1%Z => Ok CbFinalizationMessage
  | 2%Z => Ok CbFinalizationRecord
  | 3%Z => Ok CbCatchUpStatus
  | _ => bail "Received invalid callback type"
  end.

Definition packet_type_of (c : CallbackType) : PacketType :=
  match c with
  | CbBlock => Block
  | CbFinalizationMessage => FinalizationMessage
  | CbFinalizationRecord => FinalizationRecord
  | CbCatchUpStatus => CatchUpStatus
  end.

Section callbacks.
Context `{!NodeExt, !SerialU32}.

(** The node after the callback; the thread of the library waits when the queue of
    outgoing messages is full. *)
Abbreviation Callback := (P2PNode → Reply unit * P2PNode) (only parsing).

Definition queue_out (m : ConsensusMessage) : Callback := λ n,
  match send_out_blocking_msg m (callback_queue n) with
  | Some q => (Value tt, with_callback_queue q n)
  | None => (NoReply, n)
  end.

(** [sending_callback!] *)
Definition sending_callback (target : option RemotePeerId) (msg_type : i64) (genesis_index : u32)
    (msg : ptr) (msg_length : i64) (omit_status : option PeerStatus) : Callback := λ n,
  match CallbackType_try_from (wrap 8 msg_type) with
  | Ok callback_type =>
    let msg_variant := packet_type_of callback_type in
    match from_raw_parts msg msg_length with
    | Ok payload =>
      let full_payload := [PacketType_code msg_variant] ++ serial_u32 genesis_index ++ payload in
      queue_out (MkConsensusMessage (Outbound target) msg_variant full_payload [] omit_status) n
    | _ => (Crashed, n)
    end
  | _ => (Value tt, n)
  end.

Definition broadcast_callback (msg_type : i64) (genesis_index : u32) (msg : ptr) (msg_length : i64) :
    Callback := sending_callback None msg_type genesis_index msg msg_length None.

Definition direct_callback (peer_id : u64) (msg_type : i64) (genesis_index : u32) (msg : ptr)
    (msg_length : i64) : Callback :=
  sending_callback (Some (MkRemotePeerId peer_id)) msg_type genesis_index msg msg_length None.

Definition catchup_status_callback (genesis_index : u32) (msg : ptr) (msg_length : i64) : Callback :=
  sending_callback None 3 genesis_index msg msg_length (Some Pending).

(** Not in use: the payload has no genesis index. *)
Definition on_finalization_message_catchup_out (peer_id : u64) (data : ptr) (len : i64) : Callback :=
  λ n,
  match from_raw_parts data len with
  | Ok payload =>
    queue_out (MkConsensusMessage (Outbound (Some (MkRemotePeerId peer_id))) FinalizationMessage
                 ([PacketType_code FinalizationMessage] ++ payload) [] None) n
  | _ => (Crashed, n)
  end.

(** [regenesis_callback] *)
Definition regenesis_callback (block_hash : ptr) : Callback := λ n,
  let r := regenesis n in
  match block_hash with
  | Null =>
    (Value tt, with_regenesis (MkRegenesis _ (genesis_blocks_known r) (trigger_catchup r) true) n)
  | _ =>
    match (bs ← read_bytes block_hash 32; BlockHash_try_from bs) with
    | Ok h =>
      (Value tt, with_regenesis (MkRegenesis _ (genesis_blocks_known r ++ [h]) true (stop_network r)) n)
    | _ => (Crashed, n)
    end
  end.

(** *** The calls that the library makes *)

Definition callBroadcastCallback (mt : MessageType) (gi : u32) (bs : bytes) : Callback :=
  broadcast_callback (mti mt) gi (ToBytes bs) (Z.of_nat (length bs)).
Definition callDirectMessageCallback (peer : u64) (mt : MessageType) (genIndex : u32) (bs : bytes) :
    Callback := direct_callback peer (mti mt) genIndex (ToBytes bs) (Z.of_nat (length bs)).
Definition callCatchUpStatusCallback (gi : u32) (bs : bytes) : Callback :=
  catchup_status_callback gi (ToBytes bs) (Z.of_nat (length bs)).
Definition callRegenesisCallback (h : option BlockHash) : Callback :=
  regenesis_callback (match h with Some h => ToBytes (hash_bytes h) | None => Null end).

(** [ConsensusContainer::receive_catch_up_status], with the messages that the library
    sends back to the peer through the direct callback. *)
Definition container_receive_catch_up_status `{!RunnerExt} (genesis_index : u32) (request : bytes)
    (peer_id : RemotePeerId) (object_limit : i64) (n : P2PNode) :
    Reply ConsensusFfiResponse * P2PNode :=
  let '(r, n) := Exports.receiveCatchUpStatus genesis_index (ToBytes request)
                   (as_i64 (Z.of_nat (length request))) object_limit
                   (λ mt m, callDirectMessageCallback (remote_peer_id peer_id) mt genesis_index m) n in
  (code ← r; match response_or_panic code with Ok r => Value r | _ => Crashed end, n).
End callbacks.

(** ** What the calls amount to *)

(** The response that stands for a result of the library. *)
Definition response_of (r : UpdateResult) : ConsensusFfiResponse :=
  match r with
  | ResultSuccess => Success
  | ResultSerializationFail => DeserializationError
  | ResultInvalid => InvalidResult
  | ResultPendingBlock => PendingBlock
  | ResultPendingFinalization => PendingFinalization
  | ResultAsync => Asynchronous
  | ResultDuplicate => DuplicateEntry
  | ResultStale => Stale
  | ResultIncorrectFinalizationSession => IncorrectFinalizationSession
  | ResultUnverifiable => Unverifiable
  | ResultContinueCatchUp => ContinueCatchUp
  | ResultEarlyBlock => BlockTooEarly
  | ResultMissingImportFile => MissingImportFile
  | ResultConsensusShutDown => ConsensusShutDown
  | ResultExpiryTooLate => ExpiryTooLate
  | ResultVerificationFailed => VerificationFailed
  | ResultNonexistingSenderAccount => NonexistingSenderAccount
  | ResultDuplicateNonce => DuplicateNonce
  | ResultNonceTooLarge => NonceTooLarge
  | ResultTooLowEnergy => TooLowEnergy
  | ResultInvalidGenesisIndex => InvalidGenesisIndex
  | ResultDuplicateAccountRegistrationID => DuplicateAccountRegistrationID
  | ResultCredentialDeploymentInvalidSignatures => CredentialDeploymentInvalidSignatures
  | ResultCredentialDeploymentInvalidIP => CredentialDeploymentInvalidIP
  | ResultCredentialDeploymentInvalidAR => CredentialDeploymentInvalidAR
  | ResultCredentialDeploymentExpired => CredentialDeploymentExpired
  | ResultChainUpdateInvalidEffectiveTime => ChainUpdateInvalidEffectiveTime
  | ResultChainUpdateSequenceNumberTooOld => ChainUpdateSequenceNumberTooOld
  | ResultChainUpdateInvalidSignatures => ChainUpdateInvalidSignatures
  | ResultEnergyExceeded => MaxBlockEnergyExceeded
  | ResultInsufficientFunds => InsufficientFunds
  end.

Definition committee_of (bs : BakerStatus) : BakingCommitteeResponse :=
  match bs with
  | ActiveInComittee => ActiveInBakingCommittee
  | NotInCommittee => NotInBakingCommittee
  | AddedButNotActiveInCommittee => AddedButNotActiveInBakingCommittee
  | AddedButWrongKeys => FfiHelpers.AddedButWrongKeys
  end.

Section spec.
Context `{!RunnerExt}.

(** Consensus as the plugin sees it. *)
Definition library_consensus : Consensus := {|
  receive_block gi b := let '(r, callback) := MV_receiveBlock gi b in (response_of r, callback);
  send_finalization gi b := response_of (MV_receiveFinalizationMessage gi b);
  send_finalization_record gi b := response_of (MV_receiveFinalizationRecord gi b);
  receive_catch_up_status gi b _ limit :=
    if decide (limit ≤ 0)%Z then Success else response_of (MV_receiveCatchUpStatus gi b limit).1;
  send_transaction t := response_of (MV_receiveTransaction t).2;
  get_catch_up_status :=
    [PacketType_code CatchUpStatus] ++ to_be_bytes 4 (MV_getCatchUpRequest).1
      ++ (MV_getCatchUpRequest).2;
|}.
End spec.

(** *** The methods of the container *)

Section container.
Context `{!RunnerExt}.

Lemma response_code r : response_or_panic (toReceiveResult r) = Ok (response_of r).
Proof. by destruct r. Qed.

Lemma slice_length_i64 (bs : bytes) :
  fits 63 (Z.of_nat (length bs)) → as_i64 (Z.of_nat (length bs)) = Z.of_nat (length bs).
Proof. unfold fits, as_i64. intros. rewrite Z.mod_small by lia. lia. Qed.

Lemma pack_slice bs :
  fits 63 (Z.of_nat (length bs)) →
  Exports.packCStringLen (ToBytes bs) (as_i64 (Z.of_nat (length bs))) = Ok bs.
Proof.
  intros Hl. rewrite slice_length_i64 by done. unfold Exports.packCStringLen.
  rewrite decide_False by lia. by rewrite Nat2Z.id, read_bytes_whole.
Qed.

Lemma from_raw_parts_null_terminated bs :
  fits 63 (Z.of_nat (length bs)) → from_raw_parts (ToBytes (bs ++ [0%Z])) (Z.of_nat (length bs)) = Ok bs.
Proof.
  intros Hl. unfold from_raw_parts, as_u64. rewrite wrap_small by (unfold fits in *; lia).
  rewrite length_app, decide_True by (simpl; lia). rewrite Nat2Z.id. by rewrite take_app_length.
Qed.

Lemma in_baking_committee_eq :
  Container.in_baking_committee
  = Ok (committee_of (Q_getBakerStatusBestBlock).1, bool_decide (is_Some (Q_getBakerStatusBestBlock).2),
        default 0%Z (Q_getBakerStatusBestBlock).2).
Proof.
  unfold Container.in_baking_committee, Exports.bakerStatusBestBlock.
  by destruct Q_getBakerStatusBestBlock as [[] [b|]].
Qed.
Lemma in_finalization_committee_eq : Container.in_finalization_committee = Ok Q_checkIsCurrentFinalizer.
Proof.
  unfold Container.in_finalization_committee, Exports.checkIfWeAreFinalizer.
  by destruct Q_checkIsCurrentFinalizer.
Qed.
Lemma is_consensus_running_eq : Container.is_consensus_running = Ok (negb Q_checkIsShutDown).
Proof. unfold Container.is_consensus_running, Exports.checkIfRunning. by destruct Q_checkIsShutDown. Qed.

Lemma container_send_transaction `{!RunnerLaws} bs :
  fits 63 (Z.of_nat (length bs)) →
  ∃ h, Container.send_transaction bs = Ok (h, send_transaction library_consensus bs)
    ∧ (is_Some h ↔ send_transaction library_consensus bs = Success)
    ∧ ∀ h', h = Some h' → length h' = 32.
Proof.
  intros Hl. unfold Container.send_transaction, Exports.receiveTransaction. rewrite pack_slice by done. simpl.
  destruct (MV_receiveTransaction bs) as [h r] eqn:E.
  assert (length (match h with Some h => take 32 h | None => replicate 32 0%Z end) = 32) as Hh.
  { destruct h as [h|]; [|done]. rewrite length_take, (transaction_hash_size _ _ _ E). done. }
  destruct h; simpl; rewrite response_code; simpl; case_decide as Hs;
    (eexists; split; [done|]; split; [naive_solver|]); intros h' [= <-]; exact Hh.
Qed.
End container.

(** Starting consensus succeeds exactly when the library reports success, and every
    failure has a message of its own. *)
Lemma start_result_ok r : get_consensus_ptr (toStartResult r) = Ok tt ↔ r = StartSuccess.
Proof. destruct r; naive_solver. Qed.
Lemma start_result_inj r r' :
  get_consensus_ptr (toStartResult r) = get_consensus_ptr (toStartResult r') → r = r'.
Proof. by destruct r, r'. Qed.

(** *** Messages of the library reach the library of a peer *)

Definition packet_of (mt : MessageType) : PacketType :=
  match mt with
  | MessageBlock => Block
  | MessageFinalization => FinalizationMessage
  | MessageFinalizationRecord => FinalizationRecord
  | MessageCatchUpStatus => CatchUpStatus
  end.

Section messages.
Context `{!NodeExt, !SerialU32}.

(** What goes over the network for a message. *)
Definition wire (mt : MessageType) (gi : u32) (bs : bytes) : bytes :=
  [PacketType_code (packet_of mt)] ++ to_be_bytes 4 gi ++ bs.

Definition outgoing (target : option RemotePeerId) (omit : option PeerStatus) (mt : MessageType)
    (gi : u32) (bs : bytes) : ConsensusMessage :=
  MkConsensusMessage (Outbound target) (packet_of mt) (wire mt gi bs) [] omit.

Lemma sending_callback_spec target omit mt gi bs n :
  fits 63 (Z.of_nat (length bs)) →
  sending_callback target (mti mt) gi (ToBytes bs) (Z.of_nat (length bs)) omit n
  = queue_out (outgoing target omit mt gi bs) n.
Proof.
  intros Hl. unfold sending_callback, outgoing, wire.
  rewrite from_raw_parts_whole, serial_u32_be by done. by destruct mt.
Qed.

Lemma queue_out_value m n n' :
  queue_out m n = (Value tt, n') →
  n' = with_callback_queue (lane_set outbound (outbound_high (callback_queue n) ++ [Relay m])
         (outbound_low (callback_queue n)) (callback_queue n)) n.
Proof.
  unfold queue_out, send_out_blocking_msg, send_high, send. simpl.
  case_decide; simpl; [|done]. by intros [= <-].
Qed.

(** The operation of consensus for a message. *)
Definition deliver (consensus : Consensus) (id : RemotePeerId) (limit : i64) (mt : MessageType)
    (gi : u32) (bs : bytes) : ConsensusFfiResponse * bool :=
  match mt with
  | MessageBlock => receive_block consensus gi bs
  | MessageFinalization => (send_finalization consensus gi bs, false)
  | MessageFinalizationRecord => (send_finalization_record consensus gi bs, false)
  | MessageCatchUpStatus => (receive_catch_up_status consensus gi bs id limit, false)
  end.

Lemma split_wire gi bs :
  fits 32 gi → split_genesis_index (to_be_bytes 4 gi ++ bs) = Ok (gi, bs).
Proof.
  intros Hg. unfold split_genesis_index.
  rewrite slice_to_ok by (rewrite length_app, length_to_be_bytes; lia).
  rewrite take_app_length' by (by rewrite length_to_be_bytes).
  rewrite bind_Ok, deserial_u32_be, bind_Ok by done.
  rewrite slice_from_ok by (rewrite length_app, length_to_be_bytes; lia).
  by rewrite drop_app_length' by (by rewrite length_to_be_bytes).
Qed.

(** A packet with a message of the library is queued for consensus with the type and
    the octets of the message. *)
Lemma handle_pkt_out_wire ex id mt gi bs b n :
  length (inbound_high (callback_queue n)) < Z.to_nat CONSENSUS_QUEUE_DEPTH_IN_HI →
  let mode := if b : bool then DistBroadcast else DistDirect in
  let request := MkConsensusMessage (Inbound id mode) (packet_of mt) (wire mt gi bs) ex None in
  (handle_pkt_out ex id (wire mt gi bs) b n).1 = Ok tt
  ∧ inbound_high (callback_queue (handle_pkt_out ex id (wire mt gi bs) b n).2)
    = inbound_high (callback_queue n) ++ [Relay request].
Proof.
  intros Hq. unfold handle_pkt_out, wire, send_in_high_priority_message, try_send.
  destruct mt; simpl; unfold st_modify, mbind, ST_bind, st_lift; simpl;
    by rewrite decide_True by done.
Qed.

Lemma send_msg_to_consensus_wire consensus id mode ex mt gi bs n :
  fits 32 gi →
  (send_msg_to_consensus consensus id
     (MkConsensusMessage (Inbound id mode) (packet_of mt) (wire mt gi bs) ex None) n).1
  = Ok (deliver consensus id (catch_up_batch_limit (config n)) mt gi bs).
Proof.
  intros Hg. unfold send_msg_to_consensus, wire. pose proof (split_wire gi bs Hg) as Hs. revert Hs.
  generalize (to_be_bytes 4 gi ++ bs). intros body Hs. rewrite bind_get. cbn [payload variant].
  rewrite slice_from_ok by (simpl; lia). cbn [app drop]. unfold mbind at 1, ST_bind at 1, st_lift at 1.
  destruct mt; cbn [packet_of]; rewrite drop_0, Hs, bind_Ok; unfold mbind, ST_bind, st_lift;
    by destruct (is_acceptable _).
Qed.

(** The library sends a message to one peer or to all. *)
Definition library_sends (target : option u64) (mt : MessageType) (gi : u32) (bs : bytes) :
    P2PNode → Reply unit * P2PNode :=
  match target with
  | None => callBroadcastCallback mt gi bs
  | Some peer => callDirectMessageCallback peer mt gi bs
  end.

Lemma library_sends_spec target mt gi bs n :
  fits 63 (Z.of_nat (length bs)) →
  library_sends target mt gi bs n = queue_out (outgoing (MkRemotePeerId <$> target) None mt gi bs) n.
Proof. intros. destruct target; by apply sending_callback_spec. Qed.

(** C11: A message that the consensus library of a node sends to a peer or broadcasts
    is queued for exactly that target, and when its payload arrives in a packet at
    another node with room in its queue, the library of that node is given the same
    message, of the same type and for the same genesis. *)
Theorem consensus_message_round_trip target mt gi bs n n' :
  fits 32 gi → fits 63 (Z.of_nat (length bs)) → library_sends target mt gi bs n = (Value tt, n') →
  ∃ m, outbound_high (callback_queue n') = outbound_high (callback_queue n) ++ [Relay m]
    ∧ target_peer m = Ok (MkRemotePeerId <$> target)
    ∧ ∀ ex id b consensus p,
        length (inbound_high (callback_queue p)) < Z.to_nat CONSENSUS_QUEUE_DEPTH_IN_HI →
        ∃ request, (handle_pkt_out ex id (payload m) b p).1 = Ok tt
          ∧ inbound_high (callback_queue (handle_pkt_out ex id (payload m) b p).2)
            = inbound_high (callback_queue p) ++ [Relay request]
          ∧ source_peer request = Ok id
          ∧ ∀ p', (send_msg_to_consensus consensus id request p').1
                  = Ok (deliver consensus id (catch_up_batch_limit (config p')) mt gi bs).
Proof.
  intros Hg Hl. rewrite library_sends_spec by done. intros ->%queue_out_value.
  eexists. split; [done|]. split; [done|]. intros ex id b consensus p Hq.
  destruct (handle_pkt_out_wire ex id mt gi bs b p Hq) as [H1 H2].
  eexists. split; [exact H1|]. split; [exact H2|]. split; [done|]. intros p'.
  by apply send_msg_to_consensus_wire.
Qed.

(** A catch-up status message of the library is sent directly to every peer that is not
    pending, and to no other peer. *)
Lemma catch_up_status_sent_directly gi bs n n' :
  fits 63 (Z.of_nat (length bs)) → callCatchUpStatusCallback gi bs n = (Value tt, n') →
  ∃ m, outbound_high (callback_queue n') = outbound_high (callback_queue n) ++ [Relay m]
    ∧ ∀ now k, handle_consensus_outbound_msg now m k
        = st_for (peers_with (λ _ state, bool_decide (state ≠ Pending)) (peers k))
            (λ peer, send_consensus_msg_to_net now [] (Some peer) (wire MessageCatchUpStatus gi bs)) k.
Proof.
  intros Hl. unfold callCatchUpStatusCallback, catchup_status_callback.
  rewrite (sending_callback_spec None (Some Pending) MessageCatchUpStatus) by done.
  intros ->%queue_out_value. eexists. split; [done|]. intros now k.
  unfold handle_consensus_outbound_msg. cbn [outgoing omit_status]. by rewrite bind_get.
Qed.

(** *** Answers to a request for catch-up *)

Fixpoint queue_all (ms : list ConsensusMessage) (n : P2PNode) : Reply unit * P2PNode :=
  match ms with
  | [] => (Value tt, n)
  | m :: ms =>
    match queue_out m n with
    | (Value _, n) => queue_all ms n
    | r => r
    end
  end.

(** When a peer asks for catch-up, the messages with which the library answers are
    queued for that peer, in their order and all for the genesis the peer asked about,
    and the response is the one the plugin expects; when the queue of outgoing messages
    fills up the call waits. *)
Theorem catch_up_answers_queued `{!RunnerExt, !RunnerLaws} gi request id limit n :
  fits 63 (Z.of_nat (length request)) → (0 < limit)%Z →
  let answers := (MV_receiveCatchUpStatus gi request limit).2 in
  let '(r, n') := queue_all ((λ '(mt, m), outgoing (Some id) None mt gi m) <$> answers) n in
  container_receive_catch_up_status gi request id limit n
  = (match r with
     | Value _ => Value (receive_catch_up_status library_consensus gi request id limit)
     | Status c => Status c
     | Crashed => Crashed
     | NoReply => NoReply
     end, n').
Proof.
  intros Hl Hlim. unfold container_receive_catch_up_status, Exports.receiveCatchUpStatus.
  rewrite decide_False by lia. rewrite pack_slice by done.
  simpl receive_catch_up_status. rewrite decide_False by lia.
  pose proof (replies_in_memory gi request limit) as Hm.
  destruct (MV_receiveCatchUpStatus gi request limit) as [result msgs]. simpl in Hm |- *.
  revert n. induction msgs as [|[mt m] msgs IH]; intros n.
  { simpl. by rewrite response_code. }
  apply Forall_cons in Hm as [Hm Hms]. simpl fmap. cbn [queue_all].
  unfold callDirectMessageCallback, direct_callback at 1. rewrite sending_callback_spec by done.
  destruct id as [id]. simpl remote_peer_id.
  destruct (queue_out _ n) as [[[]|c| |] n'] eqn:E; [|done..]. by apply IH.
Qed.

(** Queueing messages as long as there is room. *)
Lemma queue_all_spec ms n :
  let queued := outbound_high (callback_queue n) in
  let '(r, n') := queue_all ms n in
  if decide (length ms ≤ Z.to_nat CONSENSUS_QUEUE_DEPTH_OUT_HI - length queued)
  then r = Value tt ∧ outbound_high (callback_queue n') = queued ++ (Relay <$> ms)
  else r = NoReply.
Proof.
  revert n. induction ms as [|m ms IH]; intros n; cbn [queue_all length].
  { rewrite decide_True by lia. by rewrite fmap_nil, app_nil_r. }
  pose proof (queue_out_value m n) as Hv. unfold queue_out, send_out_blocking_msg, send_high, send in *.
  cbn [lane_high lane_depth_high outbound] in *.
  destruct (decide (length (outbound_high (callback_queue n)) < Z.to_nat CONSENSUS_QUEUE_DEPTH_OUT_HI))
    as [Hlt|Hge]; simpl; [|by rewrite decide_False by lia].
  specialize (IH (with_callback_queue (lane_set outbound (outbound_high (callback_queue n) ++ [Relay m])
    (outbound_low (callback_queue n)) (callback_queue n)) n)).
  simpl in IH. destruct (queue_all ms _) as [r n']. rewrite length_app in IH. simpl in IH.
  destruct (decide (S (length ms) ≤ _)) as [Hle|Hgt];
    [rewrite decide_True in IH by lia|by rewrite decide_False in IH by lia].
  destruct IH as [-> ->]. split; [done|]. by rewrite <-app_assoc.
Qed.

Lemma catch_up_call `{!RunnerExt, !RunnerLaws} gi bs id limit n :
  fits 63 (Z.of_nat (length bs)) →
  let answers := if decide (limit ≤ 0)%Z then [] else (MV_receiveCatchUpStatus gi bs limit).2 in
  let queued := outbound_high (callback_queue n) in
  let '(r, n') := container_receive_catch_up_status gi bs id limit n in
  if decide (length answers ≤ Z.to_nat CONSENSUS_QUEUE_DEPTH_OUT_HI - length queued)
  then r = Value (receive_catch_up_status library_consensus gi bs id limit)
    ∧ outbound_high (callback_queue n')
      = queued ++ ((λ '(mt, m), Relay (outgoing (Some id) None mt gi m)) <$> answers)
  else r = NoReply.
Proof.
  intros Hl. cbv zeta. destruct (decide (limit ≤ 0)%Z) as [Hlim|Hlim].
  { unfold container_receive_catch_up_status, Exports.receiveCatchUpStatus. rewrite decide_True by done.
    simpl. rewrite !decide_True by (done || lia). by rewrite app_nil_r. }
  pose proof (catch_up_answers_queued gi bs id limit n Hl ltac:(lia)) as Hc. cbv zeta in Hc.
  set (ms := _ <$> (MV_receiveCatchUpStatus gi bs limit).2) in Hc.
  pose proof (queue_all_spec ms n) as Hq. cbv zeta in Hq.
  destruct (queue_all ms n) as [r n']. rewrite Hc. unfold ms in Hq. rewrite length_fmap in Hq.
  case_decide; [|by rewrite Hq]. destruct Hq as [-> ->]. split; [done|]. f_equal.
  rewrite <-list_fmap_compose. apply list_fmap_ext. by intros i [mt m] _.
Qed.

(** C26: The calls that pass a message to the consensus library and read its state do
    what the plugin takes them to do: the octets arrive unchanged, every code that the
    library returns is one the node knows, and no call panics.  For a catch-up status the
    messages with which the library answers are queued for the peer, in their order and for
    the genesis it asked about, when the outbound queue has room for all of them, and the
    response is the one the plugin expects; otherwise the call waits. *)
Theorem container_refines `{!RunnerExt, !RunnerLaws} gi bs :
  fits 63 (Z.of_nat (length bs)) →
  Container.receive_block gi bs = Ok (receive_block library_consensus gi bs)
  ∧ Container.execute_block = Ok (response_of MV_runBlock)
  ∧ Container.send_finalization gi bs = Ok (send_finalization library_consensus gi bs)
  ∧ Container.send_finalization_record gi bs = Ok (send_finalization_record library_consensus gi bs)
  ∧ (∃ h, Container.send_transaction bs = Ok (h, send_transaction library_consensus bs)
     ∧ (is_Some h ↔ send_transaction library_consensus bs = Success)
     ∧ ∀ h', h = Some h' → length h' = 32)
  ∧ Container.get_catch_up_status = Ok (get_catch_up_status library_consensus)
  ∧ (Container.import_blocks (Some bs) = Ok tt ↔ MV_importBlocks bs = ResultSuccess)
  ∧ Container.in_baking_committee = Ok (committee_of (Q_getBakerStatusBestBlock).1,
      bool_decide (is_Some (Q_getBakerStatusBestBlock).2), default 0%Z (Q_getBakerStatusBestBlock).2)
  ∧ Container.in_finalization_committee = Ok Q_checkIsCurrentFinalizer
  ∧ Container.is_consensus_running = Ok (negb Q_checkIsShutDown)
  ∧ ∀ id limit n,
      let answers := if decide (limit ≤ 0)%Z then [] else (MV_receiveCatchUpStatus gi bs limit).2 in
      let queued := outbound_high (callback_queue n) in
      let '(r, n') := container_receive_catch_up_status gi bs id limit n in
      if decide (length answers ≤ Z.to_nat CONSENSUS_QUEUE_DEPTH_OUT_HI - length queued)
      then r = Value (receive_catch_up_status library_consensus gi bs id limit)
        ∧ outbound_high (callback_queue n')
          = queued ++ ((λ '(mt, m), Relay (outgoing (Some id) None mt gi m)) <$> answers)
      else r = NoReply.
Proof.
  intros Hl. split_and!.
  - unfold Container.receive_block, Exports.receiveBlock. rewrite pack_slice by done. simpl.
    destruct (MV_receiveBlock gi bs) as [r cb]. simpl. by rewrite response_code.
  - unfold Container.execute_block, Exports.executeBlock. simpl. apply response_code.
  - unfold Container.send_finalization, wrap_send_data_to_c, Exports.receiveFinalizationMessage.
    rewrite pack_slice by done. simpl. apply response_code.
  - unfold Container.send_finalization_record, wrap_send_data_to_c, Exports.receiveFinalizationRecord.
    rewrite pack_slice by done. simpl. apply response_code.
  - by apply container_send_transaction.
  - unfold Container.get_catch_up_status, Exports.getCatchUpStatus.
    pose proof catch_up_in_memory as Hm. simpl. destruct MV_getCatchUpRequest as [i m]. simpl in Hm.
    by rewrite from_raw_parts_null_terminated.
  - unfold Container.import_blocks, Exports.importBlocks. simpl. rewrite pack_slice by done. simpl.
    by destruct (MV_importBlocks bs).
  - apply in_baking_committee_eq.
  - apply in_finalization_committee_eq.
  - apply is_consensus_running_eq.
  - intros id limit n. cbv zeta. by apply catch_up_call.
Qed.
End messages.

(** ** An example *)
Module RunnerExample.
Import NodeExample.

#[global] Instance serial : SerialU32.
Proof.
  refine {| serial_u32 := to_be_bytes 4 |}; [done|]. intros x Hx.
  pose proof (be_serial_laws 4 x [] Hx) as Hd. rewrite app_nil_r in Hd. exact Hd.
Defined.

Definition hash : bytes := replicate 32 9%Z.

#[global] Instance runner : RunnerExt := {|
  MV_receiveBlock _ _ := (ResultSuccess, true);
  MV_runBlock := ResultSuccess;
  MV_receiveFinalizationMessage _ _ := ResultStale;
  MV_receiveFinalizationRecord _ _ := ResultDuplicate;
  MV_receiveTransaction _ := (Some hash, ResultSuccess);
  MV_receiveCatchUpStatus _ _ _ :=
    (ResultContinueCatchUp, [(MessageBlock, [1%Z]); (MessageCatchUpStatus, [2%Z])]);
  MV_getCatchUpRequest := (1%Z, [5%Z]);
  MV_importBlocks _ := ResultMissingImportFile;
  Q_getBakerStatusBestBlock := (AddedButNotActiveInCommittee, Some 7%Z);
  Q_checkIsCurrentFinalizer := false;
  Q_checkIsShutDown := false;
|}.

#[global] Instance runner_laws : RunnerLaws.
Proof.
  split.
  - intros t h r [= <- _]. done.
  - vm_compute. intuition discriminate.
  - intros i bs l. repeat constructor; vm_compute; intuition discriminate.
Qed.

Lemma container_refines_witness :
  Container.receive_block 1 [4%Z] = Ok (Success, true)
  ∧ Container.get_catch_up_status = Ok [4%Z; 0%Z; 0%Z; 0%Z; 1%Z; 5%Z]
  ∧ (container_receive_catch_up_status 1 [4%Z] (MkRemotePeerId 3) 50 node3).1 = Value ContinueCatchUp.
Proof.
  destruct (container_refines 1 [4%Z]) as (Hb & _ & _ & _ & _ & Hc & _ & _ & _ & _ & Hs);
    [vm_compute; intuition discriminate|]. split; [exact Hb|]. split; [exact Hc|].
  specialize (Hs (MkRemotePeerId 3) 50%Z node3). cbv zeta in Hs.
  destruct (container_receive_catch_up_status _ _ _ _ _) as [r n'].
  rewrite decide_True in Hs by (apply Nat.leb_le; vm_compute; reflexivity). exact (proj1 Hs).
Defined.

(** A block is broadcast by one node and received by another. *)
Lemma consensus_message_round_trip_witness :
  ∃ m, outbound_high (callback_queue (library_sends None MessageBlock 2 [8%Z; 9%Z] node3).2)
       = outbound_high (callback_queue node3) ++ [Relay m]
    ∧ (handle_pkt_out [] (MkRemotePeerId 3) (payload m) true node3).1 = Ok tt.
Proof.
  destruct (consensus_message_round_trip None MessageBlock 2%Z [8%Z; 9%Z] node3
    (library_sends None MessageBlock 2 [8%Z; 9%Z] node3).2) as (m & H1 & _ & H2).
  - vm_compute. intuition discriminate.
  - vm_compute. intuition discriminate.
  - apply injective_projections; [vm_compute|]; reflexivity.
  - exists m. split; [exact H1|].
    destruct (H2 [] (MkRemotePeerId 3) true library_consensus node3) as (? & H3 & _); [|exact H3].
    apply Nat.ltb_lt. vm_compute. reflexivity.
Defined.

Lemma catch_up_answers_queued_witness :
  (container_receive_catch_up_status 2 [0%Z] (MkRemotePeerId 3) 50 node3).1 = Value ContinueCatchUp.
Proof.
  pose proof (catch_up_answers_queued 2%Z [0%Z] (MkRemotePeerId 3) 50%Z node3) as Hc.
  cbv zeta in Hc. destruct (queue_all _ node3) as [r n'] eqn:E.
  rewrite Hc; [|vm_compute; intuition discriminate|lia].
  assert ((r, n').1 = Value tt) as Hr by (rewrite <- E; vm_compute; reflexivity).
  simpl in Hr. rewrite Hr. reflexivity.
Defined.
End RunnerExample.
