(* ===== verification/NodeStatus.v ===== *)
(** * What a node says about itself

    Models the endpoints that report the state of the node: [peer_version],
    [peer_uptime] and [node_info] of [concordium-node/src/rpc.rs], and [get_node_info] of
    [concordium-node/src/grpc2.rs].  They read the network layer and ask the consensus
    library.  With them all endpoints for operators are there, so that the file also has
    the theorem on who may use them. *)
From S2P Require Import Prelude.
From S2P Require Import Status.
From S2P Require Import ServiceConfig.
From S2P Require Import NetTypes.
From S2P Require Import QueriesV1.
From S2P Require Import PeerTypes.
From S2P Require Import FfiHelpers.
From S2P Require Import Config.
From S2P Require Import NodeState.
From S2P Require Import NodeExample.
From S2P Require Import ConsensusPlugin.
From S2P Require Import Container.
From S2P Require Import Rpc.
From S2P Require Import Runner.
From Stdlib Require Import Ascii.

(** A result of the container; a panic ends the task that handles the request. *)
Definition from_container {A} (o : outcome A) : Reply A :=
  match o with Ok a => Value a | _ => Crashed end.

(** [P2PNode::get_uptime] in milliseconds, as it is cast to [u64]. *)
Definition get_uptime (start_time now : i64) : u64 := as_u64 (now - start_time).

(** [SystemTime::now().duration_since(UNIX_EPOCH).expect(..)], with [None] for a time
    before the epoch. *)
Definition local_time (now : option u64) : Reply u64 :=
  match now with Some t => Value t | None => Crashed end.

(** ** The first interface *)

Module Status1.
Record NodeInfoResponse := MkNodeInfoResponse {
  node_id : option (list ascii);
  current_localtime : u64;
  peer_type : PeerType;
  consensus_baker_running : bool;
  consensus_running : bool;
  consensus_type_name : option ConsensusType;   (** [None] for "Inactive" *)
  consensus_baker_committee : BakingCommitteeResponse;
  consensus_finalizer_committee : bool;
  consensus_baker_id : option u64;
}.

Section endpoints.
Context `{!NodeExt, !RunnerExt} (srv : V1.RpcServerImpl).

(** Read the server and the container without changing them. *)
Definition reading {A} (f : Server → Reply A) : Rpc A := λ s, (f s, s).

Definition peer_version {A} (version : A) (token : option (list ascii)) : Rpc A :=
  V1.node_endpoint srv token (reply version).

Definition peer_uptime (start_time now : i64) (token : option (list ascii)) : Rpc u64 :=
  V1.node_endpoint srv token (reply (get_uptime start_time now)).

Definition node_info (now : option u64) (token : option (list ascii)) : Rpc NodeInfoResponse :=
  V1.node_endpoint srv token (reading (λ s,
    let n := srv_node s in
    let node_id := Some (P2PNodeId_fmt (p2p_id (self_peer n))) in
    let peer_type := node_peer_type n in
    current_localtime ← local_time now;
    match srv_consensus s with
    | Some consensus =>
      '(status, has_baker_id, pre_baker_id) ← from_container Container.in_baking_committee;
      let baker_id := if has_baker_id : bool then Some pre_baker_id else None in
      consensus_running ← from_container Container.is_consensus_running;
      let consensus_baker_running := (consensus_running : bool) && baking consensus in
      finalizer ← from_container Container.in_finalization_committee;
      Value (MkNodeInfoResponse node_id current_localtime peer_type consensus_baker_running
               consensus_running (Some (consensus_type consensus)) status finalizer baker_id)
    | None =>
      Value (MkNodeInfoResponse node_id current_localtime peer_type false false None
               NotInBakingCommittee false None)
    end)).
End endpoints.
End Status1.

(** ** The second interface *)

Module Status2.
Inductive PassiveCommitteeInfo := PciNotInCommittee | PciAddedButNotActive | PciAddedButWrongKeys.

Inductive BakerStatus :=
  | ActiveFinalizerCommitteeInfo
  | ActiveBakerCommitteeInfo
  | PassiveCommittee (i : PassiveCommitteeInfo).

Inductive ConsensusStatus := NotRunning | PassiveConsensus | ActiveConsensus (id : u64) (s : BakerStatus).

Inductive Details := DBootstrapper | DNode (s : ConsensusStatus).

Record NetworkInfo := MkNetworkInfo {
  ni_node_id : list ascii;
  peer_total_sent : u64;
  peer_total_received : u64;
  ni_avg_bps_in : u64;
  ni_avg_bps_out : u64;
}.

Record NodeInfo (A : Type) := MkNodeInfo {
  ni_peer_version : A;
  ni_local_time : u64;
  ni_peer_uptime : u64;
  network_info : NetworkInfo;
  details : Details;
}.
Arguments MkNodeInfo {_} _ _ _ _ _.
Arguments details {_} _.

Section endpoints.
Context `{!NodeExt, !RunnerExt} (cfg : ServiceConfig).

Definition consensus_status (container : ConsensusContainer) : Reply ConsensusStatus :=
  running ← from_container Container.is_consensus_running;
  if running : bool then
    if decide (consensus_type container = Active) then
      '(in_baking_committee, _, bid) ← from_container Container.in_baking_committee;
      match in_baking_committee with
      | ActiveInBakingCommittee =>
        finalizer ← from_container Container.in_finalization_committee;
        Value (ActiveConsensus bid (if finalizer : bool then ActiveFinalizerCommitteeInfo
                                    else ActiveBakerCommitteeInfo))
      | NotInBakingCommittee => Value (ActiveConsensus bid (PassiveCommittee PciNotInCommittee))
      | AddedButNotActiveInBakingCommittee =>
        Value (ActiveConsensus bid (PassiveCommittee PciAddedButNotActive))
      | AddedButWrongKeys => Value (ActiveConsensus bid (PassiveCommittee PciAddedButWrongKeys))
      end
    else Value PassiveConsensus
  else Value NotRunning.

Definition get_node_info {A} (version : A) (start_time now_millis : i64) (now : option u64)
    (container : ConsensusContainer) : Rpc (NodeInfo A) :=
  V2.enabled cfg en_get_node_info (λ s,
    let n := srv_node s in
    (local_time ← local_time now;
     let network_info := MkNetworkInfo (P2PNodeId_fmt (p2p_id (self_peer n))) (total_sent (handler n))
       (total_received (handler n)) (avg_bps_in (stats n)) (avg_bps_out (stats n)) in
     details ← match node_peer_type n with
               | Bootstrapper => Value DBootstrapper
               | Node => status ← consensus_status container; Value (DNode status)
               end;
     Value (MkNodeInfo version local_time (get_uptime start_time now_millis) network_info details), s)).
End endpoints.
End Status2.

(** ** Both interfaces say the same *)

(** The status of consensus in the reply of the first interface, in the terms of the
    second. *)
Definition status_of (r : Status1.NodeInfoResponse) : Status2.ConsensusStatus :=
  if Status1.consensus_running r then
    match Status1.consensus_type_name r with
    | Some Active =>
      Status2.ActiveConsensus (default 0%Z (Status1.consensus_baker_id r))
        (match Status1.consensus_baker_committee r with
         | ActiveInBakingCommittee =>
           if Status1.consensus_finalizer_committee r then Status2.ActiveFinalizerCommitteeInfo
           else Status2.ActiveBakerCommitteeInfo
         | NotInBakingCommittee => Status2.PassiveCommittee Status2.PciNotInCommittee
         | AddedButNotActiveInBakingCommittee =>
           Status2.PassiveCommittee Status2.PciAddedButNotActive
         | AddedButWrongKeys => Status2.PassiveCommittee Status2.PciAddedButWrongKeys
         end)
    | _ => Status2.PassiveConsensus
    end
  else Status2.NotRunning.

Section agree.
Context `{!NodeExt, !RunnerExt}.

Lemma node_info_eq srv now s c :
  srv_consensus s = Some c → V1.disable_node_endpoints srv = false →
  Status1.node_info srv (Some now) (Some (V1.access_token srv)) s
  = (Value (Status1.MkNodeInfoResponse (Some (P2PNodeId_fmt (p2p_id (self_peer (srv_node s)))))
       now (node_peer_type (srv_node s)) (negb Q_checkIsShutDown && baking c)
       (negb Q_checkIsShutDown) (Some (consensus_type c)) (committee_of (Q_getBakerStatusBestBlock).1)
       Q_checkIsCurrentFinalizer (Q_getBakerStatusBestBlock).2), s).
Proof.
  intros Hc Hd. unfold Status1.node_info, V1.node_endpoint, V1.authenticate, Status1.reading.
  rewrite Hd, decide_True, Hc by done. simpl.
  rewrite in_baking_committee_eq, is_consensus_running_eq, in_finalization_committee_eq. simpl.
  by destruct Q_getBakerStatusBestBlock as [bs [b|]].
Qed.

Lemma consensus_status_eq c :
  Status2.consensus_status c = Value (
    if negb Q_checkIsShutDown then
      if decide (consensus_type c = Active) then
        Status2.ActiveConsensus (default 0%Z (Q_getBakerStatusBestBlock).2)
          (match committee_of (Q_getBakerStatusBestBlock).1 with
           | ActiveInBakingCommittee =>
             if Q_checkIsCurrentFinalizer then Status2.ActiveFinalizerCommitteeInfo
             else Status2.ActiveBakerCommitteeInfo
           | NotInBakingCommittee => Status2.PassiveCommittee Status2.PciNotInCommittee
           | AddedButNotActiveInBakingCommittee =>
             Status2.PassiveCommittee Status2.PciAddedButNotActive
           | AddedButWrongKeys => Status2.PassiveCommittee Status2.PciAddedButWrongKeys
           end)
      else Status2.PassiveConsensus
    else Status2.NotRunning).
Proof.
  unfold Status2.consensus_status. rewrite is_consensus_running_eq. simpl.
  destruct (negb Q_checkIsShutDown); [|done]. case_decide; [|done].
  rewrite in_baking_committee_eq. simpl. destruct (committee_of _); try done.
  by rewrite in_finalization_committee_eq.
Qed.

(** The two interfaces agree on the status of a node: asked at the same time with
    the right access, both answer, and what the second says about consensus is what the
    reply of the first means. *)
Theorem node_info_agree (A : Type) srv cfg (version : A) start now_millis now s c :
  srv_consensus s = Some c → V1.disable_node_endpoints srv = false → en_get_node_info cfg = true →
  ∃ r1 r2,
    Status1.node_info srv (Some now) (Some (V1.access_token srv)) s = (Value r1, s)
    ∧ Status2.get_node_info cfg version start now_millis (Some now) c s = (Value r2, s)
    ∧ Status2.details r2 = match Status1.peer_type r1 with
                           | Bootstrapper => Status2.DBootstrapper
                           | Node => Status2.DNode (status_of r1)
                           end.
Proof.
  intros Hc Hd He. rewrite (node_info_eq srv now s c) by done.
  unfold Status2.get_node_info, V2.enabled. rewrite He, consensus_status_eq. simpl.
  destruct (node_peer_type _) eqn:Hn; simpl;
    eexists _, _; (split; [done|]); (split; [done|]); [|done].
  simpl. f_equal. unfold status_of. simpl.
  destruct Q_checkIsShutDown; [done|]. simpl. by destruct (consensus_type c).
Qed.
End agree.

(** ** Access *)

Section access.
Context `{!NodeExt, !RunnerExt, !StringExt}.

Lemma query_unauthenticated access_token container token q h :
  token ≠ Some access_token →
  endpoint access_token container token q h = (Status Unauthenticated, h).
Proof.
  intros Ht. unfold endpoint, authenticated. destruct token as [t|]; [|done].
  destruct (from_utf8 t) as [t'| |] eqn:E; [|done..]. rewrite decide_False; [done|]. intros ->.
  unfold from_utf8 in E. case_match; naive_solver.
Qed.

(** C32: without the access token no request of the first interface gets through: every
    endpoint that reads or changes the node turns it away and leaves the node and the
    consensus container as they are, and every query is refused before consensus is asked.
    Each endpoint of the second interface by which the node is operated does nothing when
    its own entry of the configuration does not enable it. *)
Theorem rpc_access_control srv token cfg s :
  (token ≠ Some (V1.access_token srv) →
     (∀ ip port, refused s (V1.peer_connect srv token ip port s)
        ∧ refused s (V1.peer_disconnect srv token ip port s))
     ∧ refused s (V1.peer_total_received srv token s) ∧ refused s (V1.peer_total_sent srv token s)
     ∧ (∀ consensus tx, refused s (V1.send_transaction srv token consensus tx s))
     ∧ (∀ now id, refused s (V1.join_network srv now token id s)
        ∧ refused s (V1.leave_network srv now token id s))
     ∧ (∀ b, refused s (V1.peer_stats srv token b s) ∧ refused s (V1.peer_list srv token b s))
     ∧ (∀ id ip, refused s (V1.ban_node srv token id ip s))
     ∧ (∀ ip, refused s (V1.unban_node srv token ip s))
     ∧ refused s (V1.get_banned_peers srv token s)
     ∧ refused s (V1.rpc_start_baker srv token s) ∧ refused s (V1.rpc_stop_baker srv token s)
     ∧ refused s (V1.shutdown srv token s) ∧ refused s (V1.dump srv token s)
     ∧ (∀ version : list ascii, refused s (Status1.peer_version srv version token s))
     ∧ (∀ start now, refused s (Status1.peer_uptime srv start now token s))
     ∧ (∀ now, refused s (Status1.node_info srv now token s)))
  ∧ (∀ access_token container t q h, t ≠ Some access_token →
       endpoint access_token container t q h = (Status Unauthenticated, h))
  ∧ (en_shutdown cfg = false → refused s (V2.shutdown cfg s))
  ∧ (en_peer_connect cfg = false → ∀ ip port, refused s (V2.peer_connect cfg ip port s))
  ∧ (en_peer_disconnect cfg = false → ∀ ip port, refused s (V2.peer_disconnect cfg ip port s))
  ∧ (en_get_banned_peers cfg = false → refused s (V2.get_banned_peers cfg s))
  ∧ (en_ban_peer cfg = false → ∀ ip, refused s (V2.ban_peer cfg ip s))
  ∧ (en_unban_peer cfg = false → ∀ ip, refused s (V2.unban_peer cfg ip s))
  ∧ (en_dump_start cfg = false → refused s (V2.dump_start cfg s))
  ∧ (en_dump_stop cfg = false → refused s (V2.dump_stop cfg s))
  ∧ (en_get_peers_info cfg = false → refused s (V2.get_peers_info cfg s))
  ∧ (en_send_block_item cfg = false →
     ∀ consensus hash_of item, refused s (V2.send_block_item cfg consensus hash_of item s))
  ∧ (en_get_node_info cfg = false → ∀ (version : list ascii) start millis now container,
       refused s (Status2.get_node_info cfg version start millis now container s)).
Proof.
  split; [intros Ht|split; [intros *; apply query_unauthenticated|]].
  - repeat first [progress intros|match goal with |- _ ∧ _ => split end].
    all: try (by apply (node_endpoint_refused srv token)).
    unfold V1.send_transaction, V1.authenticate, refused.
    destruct token; [rewrite decide_False by congruence|]; by auto.
  - repeat match goal with |- _ ∧ _ => split end; intros; by apply enabled_refused.
Qed.
End access.

(** ** An example *)
Module NodeStatusExample.
Import NodeExample RunnerExample.

Definition server : Server := MkServer node3 (Some (MkContainer Active true [startBaker])).
Definition open : V1.RpcServerImpl := V1.MkRpcServerImpl false ["t"%char].

Lemma node_info_agree_witness :
  ∃ r2, (Status2.get_node_info new_all_enabled tt 0 60 (Some 99%Z) (MkContainer Active true [startBaker])
           server).1 = Value r2
    ∧ Status2.details r2 = Status2.DNode (Status2.ActiveConsensus 7
        (Status2.PassiveCommittee Status2.PciAddedButNotActive)).
Proof.
  destruct (node_info_agree unit open new_all_enabled tt 0%Z 60%Z 99%Z server
    (MkContainer Active true [startBaker]) eq_refl eq_refl eq_refl) as (r1 & r2 & H1 & H2 & H3).
  exists r2. rewrite H2, H3. split; [reflexivity|].
  apply (f_equal fst) in H1. injection H1 as <-. vm_compute. reflexivity.
Defined.

(** A ban request without the token, and one to an endpoint that is not enabled. *)
Lemma rpc_access_control_witness :
  refused server (V1.ban_node open None None (Some (IpText.Ipv4Addr_fmt 16909060)) server)
  ∧ refused server (V2.ban_peer (from_table (λ _, None)) (Some (IpText.Ipv4Addr_fmt 16909060)) server).
Proof.
  destruct (@rpc_access_control _ _ StringExample.lib open None (from_table (λ _, None)) server)
    as (H1 & _ & _ & _ & _ & _ & H2 & _). split.
  - destruct H1 as (_ & _ & _ & _ & _ & _ & Hban & _); [discriminate|apply Hban].
  - apply H2. reflexivity.
Defined.
End NodeStatusExample.
