(* ===== verification/BlockItems.v ===== *)
(** * Block items

    Models the conversions of [concordium-node/src/grpc2.rs] from the protocol buffers of
    a request to the block item that is sent to consensus, [get_v0_format], and the
    endpoints [get_account_transaction_sign_hash] and [send_block_item].  The types of
    the [concordium_base] library and their serialization are parameters. *)
From S2P Require Import Prelude.
From S2P Require Import Status.
From S2P Require Import ServiceConfig.
From S2P Require Import Foreign.
From S2P Require Import FfiHelpers.
From S2P Require Import Config.
From S2P Require Import NodeState.
From S2P Require Import ConsensusPlugin.
From S2P Require Import NodeExample.
From S2P Require Import Rpc.
From S2P Require Import Runner.

(** ** The types of the library *)

Inductive WasmVersion := WasmV0 | WasmV1.

Record InitContractPayload := MkInitContractPayload {
  icp_amount : u64; icp_mod_ref : bytes; icp_init_name : bytes; icp_param : bytes }.
Record UpdateContractPayload := MkUpdateContractPayload {
  ucp_amount : u64; ucp_address : ContractAddress; ucp_receive_name : bytes; ucp_message : bytes }.

Inductive Payload :=
  | DeployModule (version : WasmVersion) (source : bytes)
  | InitContract (payload : InitContractPayload)
  | UpdateContract (payload : UpdateContractPayload)
  | Transfer (to_address : bytes) (amount : u64)
  | TransferWithMemo (to_address : bytes) (amount : u64) (memo : bytes)
  | RegisterData (data : bytes).

Record TransactionHeader := MkTransactionHeader {
  th_sender : bytes;
  th_nonce : u64;
  th_energy_amount : u64;
  th_payload_size : u32;
  th_expiry : u64;
}.

Record UpdateHeader := MkUpdateHeader {
  uh_seq_number : u64; uh_effective_time : u64; uh_timeout : u64; uh_payload_size : u32 }.

Abbreviation CredentialSignatures := (gmap Z bytes) (only parsing).

Inductive BlockItem :=
  | AccountTransaction (signature : gmap Z CredentialSignatures) (header : TransactionHeader)
      (payload : bytes)
  | CredentialDeployment (message_expiry : u64) (raw : bytes)
  | UpdateInstruction (header : UpdateHeader) (raw : bytes) (signatures : gmap Z bytes).

(** [concordium_base] *)
Class BaseExt := {
  (** [Payload::encode] and the size of what it gives *)
  encode_payload : Payload → bytes;
  (** [EncodedPayload::try_from(Vec<u8>)] *)
  valid_encoded_payload : bytes → bool;
  valid_contract_name : bytes → bool;
  valid_receive_name : bytes → bool;
  valid_parameter : bytes → bool;
  valid_memo : bytes → bool;
  valid_registered_data : bytes → bool;
  payload_size : bytes → u32;
  (** [to_bytes(&Versioned::new(0, ..))] *)
  account_transaction_bytes : gmap Z CredentialSignatures → TransactionHeader → bytes → bytes;
  tagged_expiry_bytes : u8 → u64 → bytes;
  tagged_header_bytes : u8 → UpdateHeader → bytes;
  update_signatures_bytes : gmap Z bytes → bytes;
  compute_transaction_sign_hash : TransactionHeader → bytes → bytes;
}.

(** ** The requests *)

Inductive AccountTransactionPayload :=
  | RawPayload (raw : bytes)
  | PDeployModule (module : option (WasmVersion * bytes))
  | PInitContract (amount : option u64) (module_ref init_name parameter : option bytes)
  | PUpdateContract (amount : option u64) (address : option ContractAddress)
      (receive_name parameter : option bytes)
  | PTransfer (receiver : option bytes) (amount : option u64)
  | PTransferWithMemo (receiver : option bytes) (amount : option u64) (memo : option bytes)
  | PRegisterData (data : bytes).

Record AccountTransactionHeader := MkAccountTransactionHeader {
  ah_sender : option bytes;
  ah_sequence_number : option u64;
  ah_energy_amount : option u64;
  ah_expiry : option u64;
}.

Record PreAccountTransaction := MkPreAccountTransaction {
  pre_header : option AccountTransactionHeader;
  pre_payload : option (option AccountTransactionPayload);
}.

Record PreUpdateHeader := MkPreUpdateHeader {
  ph_sequence_number : option u64; ph_effective_time : option u64; ph_timeout : option u64 }.

Inductive SendBlockItemRequest :=
  | ReqAccountTransaction (pre : PreAccountTransaction)
      (signature : option (gmap Z CredentialSignatures))
  | ReqCredentialDeployment (message_expiry : option u64) (payload : option bytes)
  | ReqUpdateInstruction (header : option PreUpdateHeader) (payload : option (option bytes))
      (signatures : option (gmap Z bytes)).

Section conversions.
Context `{!BaseExt}.

(** A conversion that may fail with an invalid argument. *)
Definition checked {A} (valid : bool) (a : A) : Reply A :=
  if valid then Value a else Status InvalidArgument.

Definition ModuleRef_try_from (value : bytes) : Reply bytes :=
  checked (bool_decide (length value = 32)) value.
Definition OwnedContractName_try_from (value : bytes) : Reply bytes :=
  checked (valid_contract_name value) value.
Definition OwnedReceiveName_try_from (value : bytes) : Reply bytes :=
  checked (valid_receive_name value) value.
Definition Parameter_try_from (value : bytes) : Reply bytes := checked (valid_parameter value) value.
Definition Memo_try_from (value : bytes) : Reply bytes := checked (valid_memo value) value.
Definition RegisteredData_try_from (value : bytes) : Reply bytes :=
  checked (valid_registered_data value) value.
Definition AccountAddress_try_from (value : bytes) : Reply bytes :=
  checked (bool_decide (length value = 32)) value.

(** [TryFrom<AccountTransactionPayload> for EncodedPayload] *)
Definition EncodedPayload_try_from (value : option AccountTransactionPayload) : Reply bytes :=
  payload ← require value;
  match payload with
  | RawPayload rp => checked (valid_encoded_payload rp) rp
  | PDeployModule module =>
    '(version, source) ← require module;
    Value (encode_payload (DeployModule version source))
  | PInitContract amount module_ref init_name parameter =>
    amount ← require amount;
    mod_ref ← (m ← require module_ref; ModuleRef_try_from m);
    init_name ← (n ← require init_name; OwnedContractName_try_from n);
    param ← (p ← require parameter; Parameter_try_from p);
    Value (encode_payload (InitContract (MkInitContractPayload amount mod_ref init_name param)))
  | PUpdateContract amount address receive_name parameter =>
    amount ← require amount;
    address ← require address;
    receive_name ← (n ← require receive_name; OwnedReceiveName_try_from n);
    message ← (p ← require parameter; Parameter_try_from p);
    Value (encode_payload (UpdateContract (MkUpdateContractPayload amount address receive_name message)))
  | PTransfer receiver amount =>
    to_address ← (r ← require receiver; AccountAddress_try_from r);
    amount ← require amount;
    Value (encode_payload (Transfer to_address amount))
  | PTransferWithMemo receiver amount memo =>
    to_address ← (r ← require receiver; AccountAddress_try_from r);
    amount ← require amount;
    memo ← (m ← require memo; Memo_try_from m);
    Value (encode_payload (TransferWithMemo to_address amount memo))
  | PRegisterData data =>
    data ← RegisteredData_try_from data;
    Value (encode_payload (RegisterData data))
  end.

(** [TryFrom<PreAccountTransaction> for (TransactionHeader, EncodedPayload)] *)
Definition PreAccountTransaction_try_into (value : PreAccountTransaction) :
    Reply (TransactionHeader * bytes) :=
  header ← require (pre_header value);
  payload ← require (pre_payload value);
  sender ← (s ← require (ah_sender header); AccountAddress_try_from s);
  nonce ← require (ah_sequence_number header);
  energy_amount ← require (ah_energy_amount header);
  expiry ← require (ah_expiry header);
  payload ← EncodedPayload_try_from payload;
  Value (MkTransactionHeader sender nonce energy_amount (payload_size payload) expiry, payload).

Definition valid_signature (sig : bytes) : bool := bool_decide (length sig ≤ Z.to_nat 65535).

(** Signature maps: every index has to fit its width and every signature its size; all
    errors have the same code, so that the order in which the entries of a map are
    visited does not matter. *)
Definition Signatures_try_from (bits : Z) (sigs : gmap Z bytes) : Reply (gmap Z bytes) :=
  checked (bool_decide (map_Forall (λ k sig, fits bits k ∧ valid_signature sig = true) sigs)) sigs.

Definition TransactionSignature_try_from (value : gmap Z CredentialSignatures) :
    Reply (gmap Z CredentialSignatures) :=
  checked (bool_decide (map_Forall (λ ci m, fits 8 ci
    ∧ map_Forall (λ ki sig, fits 8 ki ∧ valid_signature sig = true) m) value)) value.

Definition UpdateInstructionSignature_try_from : gmap Z bytes → Reply (gmap Z bytes) :=
  Signatures_try_from 16.

(** [SendBlockItemRequest::get_v0_format] *)
Definition get_v0_format (block_item : option SendBlockItemRequest) : Reply bytes :=
  item ← require block_item;
  match item with
  | ReqAccountTransaction pat signature =>
    '(header, payload) ← PreAccountTransaction_try_into pat;
    signature ← (s ← require signature; TransactionSignature_try_from s);
    Value (account_transaction_bytes signature header payload)
  | ReqCredentialDeployment message_expiry payload =>
    message_expiry ← require message_expiry;
    rp ← require payload;
    Value (tagged_expiry_bytes 1 message_expiry ++ rp)
  | ReqUpdateInstruction header payload signatures =>
    header ← require header;
    payload ← (p ← require payload; require p);
    if decide (PROTOCOL_MAX_TRANSACTION_SIZE < Z.of_nat (length payload))%Z
    then Status InvalidArgument
    else
      seq_number ← require (ph_sequence_number header);
      effective_time ← require (ph_effective_time header);
      timeout ← require (ph_timeout header);
      let header := MkUpdateHeader seq_number effective_time timeout
                      (as_u32 (Z.of_nat (length payload))) in
      signatures ← (s ← require signatures; UpdateInstructionSignature_try_from s);
      Value (tagged_header_bytes 2 header ++ payload ++ update_signatures_bytes signatures)
  end.

(** ** The endpoints *)

Definition get_account_transaction_sign_hash (cfg : ServiceConfig) (request : PreAccountTransaction) :
    Reply bytes :=
  if en_get_account_transaction_sign_hash cfg then
    '(header, payload) ← PreAccountTransaction_try_into request;
    Value (compute_transaction_sign_hash header payload)
  else Status Unimplemented.

(** [send_block_item], with the library of the node as consensus. *)
Definition transaction_hash `{!RunnerExt} (transaction_bytes : bytes) : option bytes :=
  match Container.send_transaction transaction_bytes with
  | Ok (transaction_hash, _) => transaction_hash
  | _ => None
  end.

Definition send_item `{!NodeExt, !RunnerExt} (cfg : ServiceConfig)
    (request : option SendBlockItemRequest) : Rpc bytes :=
  V2.send_block_item cfg library_consensus transaction_hash (get_v0_format request).
End conversions.

(** ** Specification: the item that a request denotes *)

Section spec.
Context `{!BaseExt}.

Definition signatures_ok (bits : Z) (sigs : gmap Z bytes) : Prop :=
  map_Forall (λ k sig, fits bits k ∧ length sig ≤ Z.to_nat 65535) sigs.

Inductive payload_of : AccountTransactionPayload → bytes → Prop :=
  | of_raw rp : valid_encoded_payload rp = true → payload_of (RawPayload rp) rp
  | of_deploy_module v src :
      payload_of (PDeployModule (Some (v, src))) (encode_payload (DeployModule v src))
  | of_init_contract a m n p :
      length m = 32 → valid_contract_name n = true → valid_parameter p = true →
      payload_of (PInitContract (Some a) (Some m) (Some n) (Some p))
        (encode_payload (InitContract (MkInitContractPayload a m n p)))
  | of_update_contract a c n p :
      valid_receive_name n = true → valid_parameter p = true →
      payload_of (PUpdateContract (Some a) (Some c) (Some n) (Some p))
        (encode_payload (UpdateContract (MkUpdateContractPayload a c n p)))
  | of_transfer r a :
      length r = 32 → payload_of (PTransfer (Some r) (Some a)) (encode_payload (Transfer r a))
  | of_transfer_with_memo r a m :
      length r = 32 → valid_memo m = true →
      payload_of (PTransferWithMemo (Some r) (Some a) (Some m)) (encode_payload (TransferWithMemo r a m))
  | of_register_data d :
      valid_registered_data d = true → payload_of (PRegisterData d) (encode_payload (RegisterData d)).

Inductive transaction_of : PreAccountTransaction → TransactionHeader → bytes → Prop :=
  | of_pre sender nonce energy expiry p payload :
      length sender = 32 → payload_of p payload →
      transaction_of
        (MkPreAccountTransaction
          (Some (MkAccountTransactionHeader (Some sender) (Some nonce) (Some energy) (Some expiry)))
          (Some (Some p)))
        (MkTransactionHeader sender nonce energy (payload_size payload) expiry) payload.

Inductive item_of : option SendBlockItemRequest → BlockItem → Prop :=
  | of_account_transaction pre header payload sigs :
      transaction_of pre header payload →
      map_Forall (λ ci m, fits 8 ci ∧ signatures_ok 8 m) sigs →
      item_of (Some (ReqAccountTransaction pre (Some sigs))) (AccountTransaction sigs header payload)
  | of_credential_deployment expiry raw :
      item_of (Some (ReqCredentialDeployment (Some expiry) (Some raw))) (CredentialDeployment expiry raw)
  | of_update_instruction seq effective timeout raw sigs :
      (Z.of_nat (length raw) ≤ PROTOCOL_MAX_TRANSACTION_SIZE)%Z → signatures_ok 16 sigs →
      item_of
        (Some (ReqUpdateInstruction
          (Some (MkPreUpdateHeader (Some seq) (Some effective) (Some timeout)))
          (Some (Some raw)) (Some sigs)))
        (UpdateInstruction (MkUpdateHeader seq effective timeout (Z.of_nat (length raw))) raw sigs).

(** The versioned item: the tag, the header, and the payload as it is. *)
Definition item_bytes (i : BlockItem) : bytes :=
  match i with
  | AccountTransaction sigs header payload => account_transaction_bytes sigs header payload
  | CredentialDeployment expiry raw => tagged_expiry_bytes 1 expiry ++ raw
  | UpdateInstruction header raw sigs =>
    tagged_header_bytes 2 header ++ raw ++ update_signatures_bytes sigs
  end.

(** A conversion gives what the specification relates to its argument, or fails with an
    invalid argument when there is no such value. *)
Definition converts {A} (P : A → Prop) (r : Reply A) : Prop :=
  match r with
  | Value a => P a
  | Status c => c = InvalidArgument ∧ ∀ a, ¬ P a
  | _ => False
  end.
End spec.

Section proofs.
Context `{!BaseExt}.

(** Case analysis on the fields of a request and on the checks of a conversion. *)
Ltac fields :=
  unfold require, checked, mbind, Reply_bind;
  cbn [pre_header pre_payload ah_sender ah_sequence_number ah_energy_amount ah_expiry
       ph_sequence_number ph_effective_time ph_timeout];
  repeat (match goal with
  | |- context [match ?o with Some _ => _ | None => _ end] => is_var o; destruct o
  | |- context [if ?b then _ else _] => destruct b eqn:?
  end; cbn [converts]).
Ltac refute := split; [done|]; intros ? Hspec; inversion Hspec; subst; simplify_eq;
  try case_bool_decide; try congruence.

Lemma EncodedPayload_converts p : converts (payload_of p) (EncodedPayload_try_from (Some p)).
Proof.
  destruct p as [rp|[[v src]|]|a m n p|a c n p|r a|r a m|d]; unfold EncodedPayload_try_from,
    ModuleRef_try_from, OwnedContractName_try_from, OwnedReceiveName_try_from, Parameter_try_from,
    Memo_try_from, RegisteredData_try_from, AccountAddress_try_from; fields;
    cbn [converts]; try refute.
  all: constructor; try done; by eapply bool_decide_eq_true.
Qed.

Lemma PreAccountTransaction_converts pre :
  converts (λ x, transaction_of pre x.1 x.2) (PreAccountTransaction_try_into pre).
Proof.
  destruct pre as [[[sender nonce energy expiry]|] [[p|]|]];
    unfold PreAccountTransaction_try_into, AccountAddress_try_from; fields; try refute.
  pose proof (EncodedPayload_converts p) as Hp. destruct (EncodedPayload_try_from (Some p)); try done.
  - cbn. constructor; [by eapply bool_decide_eq_true|done].
  - destruct Hp as [-> Hp]. refute. naive_solver.
Qed.

Lemma signatures_ok_iff bits sigs :
  map_Forall (λ k sig, fits bits k ∧ valid_signature sig = true) sigs ↔ signatures_ok bits sigs.
Proof.
  unfold signatures_ok, valid_signature, map_Forall. setoid_rewrite bool_decide_eq_true. done.
Qed.

Lemma payload_size_exact n :
  (Z.of_nat n ≤ PROTOCOL_MAX_TRANSACTION_SIZE)%Z → as_u32 (Z.of_nat n) = Z.of_nat n.
Proof. unfold PROTOCOL_MAX_TRANSACTION_SIZE, as_u32, wrap. intros. apply Z.mod_small. lia. Qed.

Lemma get_v0_format_converts request :
  converts (λ b, ∃ item, item_of request item ∧ b = item_bytes item) (get_v0_format request).
Proof.
  destruct request as [[pre sigs|expiry raw|header raw sigs]|];
    unfold get_v0_format, mbind, Reply_bind; cbn [require].
  - pose proof (PreAccountTransaction_converts pre) as Hp.
    destruct (PreAccountTransaction_try_into pre) as [[header payload]|c| |]; try done.
    + unfold TransactionSignature_try_from. fields.
      * exists (AccountTransaction g header payload). split; [|done]. constructor; [done|].
        apply bool_decide_eq_true in Heqb. intros ci m Hm. destruct (Heqb ci m Hm).
        by rewrite <- signatures_ok_iff.
      * split; [done|]. intros ? (? & Hs & _). inversion Hs; subst.
        apply bool_decide_eq_false in Heqb. apply Heqb. intros ci m Hm.
        rewrite signatures_ok_iff. match goal with Hg : map_Forall _ g |- _ => exact (Hg ci m Hm) end.
      * split; [done|]. intros ? (? & Hs & _). inversion Hs.
    + destruct Hp as [-> Hp]. split; [done|]. intros ? (? & Hs & _). inversion Hs; subst.
      by apply (Hp (header, payload)).
  - fields; try (split; [done|]; intros ? (? & Hs & _); by inversion Hs). eexists. split; [constructor|done].
  - unfold UpdateInstructionSignature_try_from, Signatures_try_from.
    destruct header as [[seq effective timeout]|], raw as [[raw|]|]; 
      try (fields; split; [done|]; intros ? (? & Hs & _); by inversion Hs).
    cbn. case_decide as Hlen; [split; [done|]; intros ? (? & Hs & _); inversion Hs; lia|].
    fields; try (split; [done|]; intros ? (? & Hs & _); inversion Hs; subst).
    + match goal with |- context [as_u32 (Z.of_nat (length raw))] =>
        exists (UpdateInstruction (MkUpdateHeader z z0 z1 (Z.of_nat (length raw))) raw g) end.
      rewrite payload_size_exact by lia. split; [|done]. constructor; [lia|].
      apply signatures_ok_iff. by eapply bool_decide_eq_true.
    + eapply bool_decide_eq_false; [done|]. by apply signatures_ok_iff.
  - fields. split; [done|]. intros ? (? & Hs & _). inversion Hs.
Qed.
End proofs.

Section claims.
Context `{!NodeExt, !BaseExt, !RunnerExt, !RunnerLaws}.

(** The library and the node agree on a transaction that is within the size limit. *)
Lemma transaction_hash_spec tx :
  (Z.of_nat (length tx) ≤ PROTOCOL_MAX_TRANSACTION_SIZE)%Z →
  send_transaction library_consensus tx = Success →
  ∃ h, transaction_hash tx = Some h ∧ length h = 32.
Proof.
  intros Hlen Hok. unfold transaction_hash.
  destruct (container_send_transaction tx) as (h & -> & [Hsome Hlen']).
  { unfold fits, PROTOCOL_MAX_TRANSACTION_SIZE in *. lia. }
  destruct h as [h|]; [by eauto|]. apply Hsome in Hok. by destruct Hok.
Qed.

Lemma payload_of_functional p b b' : payload_of p b → payload_of p b' → b = b'.
Proof. destruct 1; by inversion 1. Qed.

Lemma item_of_functional request i i' : item_of request i → item_of request i' → i = i'.
Proof.
  destruct 1 as [? ? ? ? Hp| |]; inversion 1 as [? ? ? ? Hp'| |]; subst; try done.
  destruct Hp as [? ? ? ? p b _ Hb]; inversion Hp' as [? ? ? ? p' b' _ Hb']; subst.
  by rewrite (payload_of_functional p b _ Hb Hb').
Qed.

Lemma submit_library tx s :
  let q := callback_queue (srv_node s) in
  let r := submit library_consensus tx (transaction_hash tx) s in
  if bool_decide (Z.of_nat (length tx) ≤ PROTOCOL_MAX_TRANSACTION_SIZE)%Z
     && bool_decide (send_transaction library_consensus tx = Success)
     && bool_decide (Z.of_nat (length (outbound_low q)) < CONSENSUS_QUEUE_DEPTH_OUT_LO)%Z
  then r.2 = with_node (with_callback_queue (MkConsensusQueues (inbound_high q) (inbound_low q)
          (outbound_high q) (outbound_low q ++ [Relay (transaction_packet tx)])) (srv_node s)) s
    ∧ ∃ h, transaction_hash tx = Some h ∧ length h = 32 ∧ r.1 = Value h
  else r.2 = s ∧ ∃ c, r.1 = Status c.
Proof.
  intros q r. pose proof (transaction_submitted library_consensus tx (transaction_hash tx) s) as Hs.
  cbv zeta in Hs. fold q in Hs. fold r in Hs.
  destruct (bool_decide (_ ≤ _)%Z) eqn:Hlen, (bool_decide (_ = Success)) eqn:Hok; cbn [andb] in *;
    try (destruct Hs as [-> Hs]; split; [by destruct s as [[] ?]|done]).
  destruct (bool_decide (_ < _)%Z); destruct Hs as [-> Hs].
  - apply bool_decide_eq_true in Hlen, Hok.
    destruct (transaction_hash_spec tx Hlen Hok) as (h & Hh & Hsize). eauto 10.
  - split; [by destruct s as [[] ?]|done].
Qed.

(** C15: a request to send a block item is served as its meaning demands.  When the request
    denotes no item (a field is missing, an address does not have 32 octets, an index does
    not fit its width, a signature or a payload is too large, a name is not valid) the
    reply is an invalid argument and nothing changes.  Otherwise the item that it denotes
    is put into the queue to the peers, once, exactly when its serialization is within the
    size limit, consensus accepts it and the queue has room, and only then the reply is the
    hash of the item. *)
Theorem block_item_submitted cfg request s :
  en_send_block_item cfg = true → is_network_stopped s = false →
  let q := callback_queue (srv_node s) in
  let r := send_item cfg request s in
  ((∀ item, ¬ item_of request item) → r = (Status InvalidArgument, s))
  ∧ ∀ item, item_of request item →
    let tx := item_bytes item in
    if bool_decide (Z.of_nat (length tx) ≤ PROTOCOL_MAX_TRANSACTION_SIZE)%Z
       && bool_decide (send_transaction library_consensus tx = Success)
       && bool_decide (Z.of_nat (length (outbound_low q)) < CONSENSUS_QUEUE_DEPTH_OUT_LO)%Z
    then r.2 = with_node (with_callback_queue (MkConsensusQueues (inbound_high q) (inbound_low q)
            (outbound_high q) (outbound_low q ++ [Relay (transaction_packet tx)])) (srv_node s)) s
      ∧ ∃ h, transaction_hash tx = Some h ∧ length h = 32 ∧ r.1 = Value h
    else r.2 = s ∧ ∃ c, r.1 = Status c.
Proof.
  intros Hen Hrun q r.
  assert (r = match get_v0_format request with
              | Value tx => submit library_consensus tx (transaction_hash tx) s
              | Status c => (Status c, s)
              | Crashed => (Crashed, s)
              | NoReply => (NoReply, s)
              end) as Hr.
  { unfold r, send_item, V2.send_block_item, V2.enabled, unless_stopped. rewrite Hen, Hrun.
    by destruct (get_v0_format request). }
  pose proof (get_v0_format_converts request) as Hf. rewrite Hr. clear r Hr.
  destruct (get_v0_format request) as [b|c| |]; try done; cbn [converts] in Hf.
  - destruct Hf as (item & Hitem & ->). split; [intros Hno; by destruct (Hno item)|].
    intros item' Hitem' tx. rewrite (item_of_functional _ _ _ Hitem Hitem'). fold tx.
    by apply submit_library.
  - destruct Hf as [-> Hno]. split; [done|]. intros item Hitem tx. exfalso. apply (Hno tx). by exists item.
Qed.

(** What a client signs is what the node sends.  When the hash to sign is computed for
    the header and the payload of a transaction and the transaction is then submitted with
    signatures, the item holds the very header and payload that were hashed, whatever the
    signatures are; when the hash is refused, so is the transaction. *)
Theorem sign_hash_agrees cfg pre sigs :
  en_get_account_transaction_sign_hash cfg = true →
  match get_account_transaction_sign_hash cfg pre with
  | Value h => ∃ header payload,
      h = compute_transaction_sign_hash header payload ∧ transaction_of pre header payload
      ∧ ∀ b, get_v0_format (Some (ReqAccountTransaction pre sigs)) = Value b →
          ∃ s, sigs = Some s ∧ b = account_transaction_bytes s header payload
  | r => r = Status InvalidArgument
         ∧ get_v0_format (Some (ReqAccountTransaction pre sigs)) = Status InvalidArgument
  end.
Proof.
  intros Hen. unfold get_account_transaction_sign_hash, get_v0_format, mbind, Reply_bind.
  rewrite Hen. cbn [require]. pose proof (PreAccountTransaction_converts pre) as Hp.
  destruct (PreAccountTransaction_try_into pre) as [[header payload]|c| |]; try done;
    cbn [converts] in Hp.
  - exists header, payload. split; [done|]. split; [done|]. intros b.
    destruct sigs as [s|]; cbn [require]; [|done]. unfold TransactionSignature_try_from, checked.
    case_bool_decide; [|done]. intros [= <-]. by exists s.
  - by destruct Hp as [-> _].
Qed.
End claims.

(** *** Witnesses *)

Module BlockItemExample.
Import NodeExample.
Import RunnerExample.

(** A library with a simple serialization. *)
#[local] Instance base : BaseExt := {|
  encode_payload p := match p with Transfer r a => 3%Z :: r ++ to_be_bytes 8 a | _ => [] end;
  valid_encoded_payload p := bool_decide (length p ≤ 100);
  valid_contract_name _ := true;
  valid_receive_name _ := true;
  valid_parameter p := bool_decide (length p ≤ 1024);
  valid_memo m := bool_decide (length m ≤ 256);
  valid_registered_data d := bool_decide (length d ≤ 256);
  payload_size p := Z.of_nat (length p);
  account_transaction_bytes sigs header payload :=
    0%Z :: 0%Z :: th_sender header ++ to_be_bytes 8 (th_nonce header) ++ payload;
  tagged_expiry_bytes tag expiry := 0%Z :: tag :: to_be_bytes 8 expiry;
  tagged_header_bytes tag header := 0%Z :: tag :: to_be_bytes 8 (uh_seq_number header);
  update_signatures_bytes sigs := [Z.of_nat (size sigs)];
  compute_transaction_sign_hash header payload := th_sender header;
|}.

Definition sender : bytes := replicate 32 7%Z.
Definition transfer : PreAccountTransaction :=
  MkPreAccountTransaction
    (Some (MkAccountTransactionHeader (Some sender) (Some 1%Z) (Some 500%Z) (Some 99%Z)))
    (Some (Some (PTransfer (Some sender) (Some 10%Z)))).
Definition signed : SendBlockItemRequest :=
  ReqAccountTransaction transfer (Some {[0%Z := {[0%Z := [1%Z]]}]}).
Definition server : Server := MkServer node3 None.

(** A transfer goes out to the peers; a signature by credential 256 does not. *)
Lemma block_item_submitted_witness :
  (∃ h, (send_item new_all_enabled (Some signed) server).1 = Value h)
  ∧ (send_item new_all_enabled (Some (ReqAccountTransaction transfer
       (Some {[256%Z := {[0%Z := [1%Z]]}]}))) server).1 = Status InvalidArgument.
Proof.
  split.
  - destruct (block_item_submitted new_all_enabled (Some signed) server) as [_ Hs];
      [reflexivity|vm_compute; reflexivity|].
    assert (∃ i, item_of (Some signed) i) as [i Hi].
    { pose proof (get_v0_format_converts (Some signed)) as Hc.
      assert (∃ b, get_v0_format (Some signed) = Value b) as [b Hb] by (eexists; vm_compute; reflexivity).
      rewrite Hb in Hc. destruct Hc as (i & Hi & _). by exists i. }
    specialize (Hs i Hi).
    inversion Hi as [? ? ? ? Hp| |]; subst. inversion Hp as [? ? ? ? ? ? ? Hp']; subst.
    inversion Hp'; subst. cbv zeta in Hs. rewrite !bool_decide_true in Hs.
    + destruct Hs as (_ & h & _ & _ & Hh). exists h. exact Hh.
    + apply Z.ltb_lt. vm_compute. reflexivity.
    + reflexivity.
    + apply Z.leb_le. vm_compute. reflexivity.
  - destruct (block_item_submitted new_all_enabled (Some (ReqAccountTransaction transfer
      (Some {[256%Z := {[0%Z := [1%Z]]}]}))) server) as [Hs _]; [reflexivity|vm_compute; reflexivity|].
    rewrite Hs; [done|]. intros i Hi. inversion Hi as [? ? ? ? _ Hm| |]; subst.
    destruct (Hm 256%Z {[0%Z := [1%Z]]}) as [Hf _]; [by rewrite lookup_singleton_eq|].
    unfold fits in Hf. lia.
Defined.

Lemma sign_hash_agrees_witness :
  get_account_transaction_sign_hash new_all_enabled transfer = Value sender
  ∧ transaction_of transfer (MkTransactionHeader sender 1 500 41 99)
      (3%Z :: sender ++ to_be_bytes 8 10).
Proof.
  pose proof (sign_hash_agrees new_all_enabled transfer None eq_refl) as Hs.
  assert (get_account_transaction_sign_hash new_all_enabled transfer = Value sender) as Hh
    by (vm_compute; reflexivity).
  rewrite Hh in Hs. split; [exact Hh|]. destruct Hs as (header & payload & _ & Ht & _).
  inversion Ht as [? ? ? ? ? ? ? Hp]; subst. inversion Hp; subst. exact Ht.
Defined.
End BlockItemExample.
