(* ===== verification/WindowsConfig.v ===== *)
(** * The Windows node runner: configuration

    Models [service/windows/src/config.rs] and, of [service/windows/src/node.rs], the
    command lines and environments with which a node and its collector are started.  The
    [toml] parser, the registry and the file system are parameters.  Paths and formatted
    addresses are kept as terms: how the system resolves them is not modelled. *)
From S2P Require Import Prelude.
From S2P Require Import PeerTypes.
From S2P Require Import IpText.

(** ** TOML values *)

Inductive Value :=
  | VString (s : string)
  | VInteger (z : Z)
  | VFloat
  | VBoolean (b : bool)
  | VDatetime
  | VArray (vs : list Value)
  | VTable (t : list (string * Value)).

Abbreviation Table := (list (string * Value)) (only parsing).

Definition as_str (v : Value) : option string := match v with VString s => Some s | _ => None end.
Definition as_integer (v : Value) : option Z := match v with VInteger z => Some z | _ => None end.
Definition as_bool (v : Value) : option bool := match v with VBoolean b => Some b | _ => None end.
Definition as_array (v : Value) : option (list Value) :=
  match v with VArray vs => Some vs | _ => None end.
Definition as_table (v : Value) : option Table := match v with VTable t => Some t | _ => None end.

Fixpoint table_get (t : Table) (k : string) : option Value :=
  match t with
  | [] => None
  | (k', v) :: t => if decide (k = k') then Some v else table_get t k
  end.

Definition Value_get (v : Value) (k : string) : option Value :=
  match v with VTable t => table_get t k | _ => None end.

(** [toml_get_as!] *)
Definition toml_get_as {A} (as_ : Value → option A) (v : Value) (path : list string) : option A :=
  foldl (λ temp x, temp ≫= λ temp, Value_get temp x) (Some v) path ≫= as_.

(** ** The parsed configuration *)

Inductive PathBuf :=
  | ConfRoot
  | CurrentExe
  | Push (base : PathBuf) (component : string)
  | Pop (base : PathBuf)
  | WithExtension (base : PathBuf) (extension : string)
  | TempPath.

#[global] Instance PathBuf_eq_dec : EqDecision PathBuf.
Proof. solve_decision. Defined.

(** [log::Level] *)
Inductive Level := LError | LWarn | LInfo | LDebug | LTrace.
#[global] Instance Level_eq_dec : EqDecision Level.
Proof. solve_decision. Defined.

Record LogFileConfig := MkLogFileConfig {
  lf_path : PathBuf;
  lf_roll_size : option string;
  lf_roll_count : option u16;
  lf_roll_pattern : option PathBuf;
}.

Inductive LoggerConfig :=
  | LogNone
  | LogConfig (file : PathBuf)
  | LogFile (config : LogFileConfig).

Record NodeConfig := MkNodeConfig {
  nc_name : string;
  bootstrap_nodes : string;
  config_dir : PathBuf;
  data_dir : PathBuf;
  baker_credentials : option PathBuf;
  rpc_address : option IpAddr;
  rpc_port : option u16;
  grpc2_address : option IpAddr;
  grpc2_port : option u16;
  rpc_enabled : option bool;
  rpc_token : option string;
  listen_address : option IpAddr;
  listen_port : option u16;
  log_config : LoggerConfig;
  log_level : option Level;
  node_bin : option PathBuf;
  node_env : gmap string string;
  node_args : list string;
  collector_enabled : option bool;
  collector_url : option string;
  collector_node_name : option string;
  collector_interval : option u64;
  collector_log_file : option PathBuf;
  collector_bin : option PathBuf;
  collector_env : gmap string string;
  collector_args : list string;
}.

(** The [toml] parser and the [log] crate; the registry and the file system. *)
Class WinExt := {
  toml_from_str : string → outcome Value;
  Level_from_str : string → option Level;
  Level_fmt : Level → string;
  to_string_lossy : PathBuf → string;
  extension : PathBuf → option string;
  registry_config : outcome string;
  read_to_string : string → outcome string;
  parent_exists : string → bool;
}.

(** ** Loading *)

Fixpoint insert_env (env_table : Table) (env : gmap string string) : outcome (gmap string string) :=
  match env_table with
  | [] => Ok env
  | (k, v) :: env_table =>
    match as_str v with
    | Some value => insert_env env_table (<[k:=value]> env)
    | None => bail "environment variables must be strings"
    end
  end.

Definition get_env (env_table_opt : option Table) (env : gmap string string) :
    outcome (gmap string string) :=
  match env_table_opt with
  | Some env_table => insert_env env_table env
  | None => Ok env
  end.

Fixpoint push_args (vs : list Value) : outcome (list string) :=
  match vs with
  | [] => Ok []
  | arg :: vs =>
    match as_str arg with
    | Some arg_val => args ← push_args vs; Ok (arg_val :: args)
    | None => bail "non-string argument"
    end
  end.

Definition get_args (args_array_opt : option (list Value)) : outcome (option (list string)) :=
  match args_array_opt with
  | Some vs => args ← push_args vs; Ok (Some args)
  | None => Ok None
  end.

Definition make_relative_path (pb : string) : PathBuf := Push ConfRoot pb.

(** [if let Some(x) = o { Some(f(x)?) } else { None }] *)
Definition transpose {A B} (o : option A) (f : A → outcome B) : outcome (option B) :=
  match o with
  | Some a => b ← f a; Ok (Some b)
  | None => Ok None
  end.

Definition or_else {A} (o o' : option A) : option A := match o with Some a => Some a | None => o' end.

Definition parse_ip (s : string) : outcome IpAddr :=
  context "invalid IP address" (IpAddr_from_str (String.list_ascii_of_string s)).

(** [u16::try_from] and [u64::try_from] of an [i64] *)
Definition try_from (bits : Z) (x : Z) : outcome Z :=
  if decide (fits bits x) then Ok x else bail "out of range integral type conversion attempted".

Record Common := MkCommon {
  common : Value;
  common_node_env : gmap string string;
  common_node_args : option (list string);
  common_collector_env : gmap string string;
  common_collector_args : option (list string);
}.

Section load.
Context `{!WinExt}.

(** An entry of the node, or else the one of the common table. *)
Definition own_or_common {A} (as_ : Value → option A) (c : Common) (node : Value)
    (path : list string) : option A :=
  or_else (toml_get_as as_ node path) (toml_get_as as_ (common c) path).

Definition load_log_config (node : Value) : LoggerConfig :=
  match toml_get_as as_str node ["log"; "config"] with
  | Some config => LogConfig (make_relative_path config)
  | None =>
    match toml_get_as as_str node ["log"; "path"] with
    | Some log_path =>
      LogFile (MkLogFileConfig (make_relative_path log_path)
        (toml_get_as as_str node ["log"; "roll"; "size"])
        (c ← toml_get_as as_integer node ["log"; "roll"; "count"];
         match try_from 16 c with Ok c => Some c | _ => None end)
        (make_relative_path <$> toml_get_as as_str node ["log"; "roll"; "pattern"]))
    | None => LogNone
    end
  end.

(** The body of the loop of [load_config_file], for an enabled node *)
Definition load_node (c : Common) (nname : string) (node : Value) : outcome NodeConfig :=
  let name := default nname (toml_get_as as_str node ["name"]) in
  bootstrap_nodes ← context "missing bootstrap_nodes" (own_or_common as_str c node ["bootstrap_nodes"]);
  config_dir ← context "missing config_dir" (toml_get_as as_str node ["config_dir"]);
  data_dir ← context "missing data_dir" (toml_get_as as_str node ["data_dir"]);
  let baker_credentials := make_relative_path <$> toml_get_as as_str node ["baker_credentials"] in
  let log_config := load_log_config node in
  let log_level := own_or_common as_str c node ["log"; "level"] ≫= Level_from_str in
  rpc_address ← transpose (toml_get_as as_str node ["rpc"; "ip"]) parse_ip;
  rpc_port ← transpose (toml_get_as as_integer node ["rpc"; "port"]) (try_from 16);
  grpc2_address ← transpose (toml_get_as as_str node ["grpc2"; "ip"]) parse_ip;
  grpc2_port ← transpose (toml_get_as as_integer node ["grpc2"; "port"]) (try_from 16);
  let rpc_enabled := own_or_common as_bool c node ["rpc"; "enabled"] in
  let rpc_token := own_or_common as_str c node ["rpc"; "token"] in
  listen_address ← transpose (toml_get_as as_str node ["listen"; "ip"]) parse_ip;
  listen_port ← transpose (toml_get_as as_integer node ["listen"; "port"]) (try_from 16);
  let node_bin := make_relative_path <$> own_or_common as_str c node ["node"; "exe"] in
  let collector_enabled := own_or_common as_bool c node ["collector"; "enabled"] in
  let collector_url := own_or_common as_str c node ["collector"; "url"] in
  let collector_node_name := own_or_common as_str c node ["collector"; "node_name"] in
  collector_interval ← transpose (own_or_common as_integer c node ["collector"; "interval"]) (try_from 64);
  let collector_log_file := make_relative_path <$> toml_get_as as_str node ["collector"; "log_file"] in
  let collector_bin := make_relative_path <$> own_or_common as_str c node ["collector"; "exe"] in
  node_env ← get_env (toml_get_as as_table node ["node"; "env"]) (common_node_env c);
  node_args ← get_args (toml_get_as as_array node ["node"; "args"]);
  let node_args := default [] (or_else node_args (common_node_args c)) in
  collector_env ← get_env (toml_get_as as_table node ["collector"; "env"]) (common_collector_env c);
  collector_args ← get_args (toml_get_as as_array node ["collector"; "args"]);
  let collector_args := default [] (or_else collector_args (common_collector_args c)) in
  Ok (MkNodeConfig name bootstrap_nodes (make_relative_path config_dir) (make_relative_path data_dir)
    baker_credentials rpc_address rpc_port grpc2_address grpc2_port rpc_enabled rpc_token
    listen_address listen_port log_config log_level node_bin node_env node_args collector_enabled
    collector_url collector_node_name collector_interval collector_log_file collector_bin
    collector_env collector_args).

Definition node_enabled (node : Value) : bool := default true (toml_get_as as_bool node ["enabled"]).

Fixpoint load_nodes (c : Common) (node_table : Table) : outcome (list NodeConfig) :=
  match node_table with
  | [] => Ok []
  | (nname, node) :: node_table =>
    if node_enabled node then
      n ← load_node c nname node;
      nodes ← load_nodes c node_table;
      Ok (n :: nodes)
    else load_nodes c node_table
  end.

Definition load_common (conf_val : Value) : outcome Common :=
  let common := VTable (default [] (toml_get_as as_table conf_val ["common"])) in
  common_node_env ← get_env (toml_get_as as_table common ["node"; "env"]) ∅;
  common_node_args ← get_args (toml_get_as as_array common ["node"; "args"]);
  common_collector_env ← get_env (toml_get_as as_table common ["collector"; "env"]) ∅;
  common_collector_args ← get_args (toml_get_as as_array common ["collector"; "args"]);
  Ok (MkCommon common common_node_env common_node_args common_collector_env common_collector_args).

Definition load_config_file (conf_str : string) : outcome (list NodeConfig) :=
  conf_val ← toml_from_str conf_str;
  c ← load_common conf_val;
  load_nodes c (default [] (toml_get_as as_table conf_val ["node"])).

Definition load_config : outcome (list NodeConfig) :=
  conf_path ← registry_config;
  conf_str ← read_to_string conf_path;
  if parent_exists conf_path then load_config_file conf_str
  else bail "could not get parent path of configuration file".
End load.

(** ** Starting the processes *)

(** The value of an environment variable; addresses and numbers are formatted by the
    standard library. *)
Inductive OsValue :=
  | OsText (s : string)
  | OsPath (p : PathBuf)
  | OsAddr (ip : IpAddr)
  | OsInt (z : Z)
  | OsUrl (ip : IpAddr) (port : u16).

Inductive Stdio := StdioNull | StdioFile (p : PathBuf).

Record Command := MkCommand {
  program : PathBuf;
  cmd_env : gmap string OsValue;
  cmd_args : list string;
  cmd_stderr : Stdio;
  new_process_group : bool;
}.

(** Which of the calls to the system succeed *)
Record Os := MkOs {
  current_exe_ok : bool;
  log_file_ok : bool;
  stderr_file_ok : bool;
  node_spawn_ok : bool;
  collector_file_ok : bool;
  collector_spawn_ok : bool;
}.

Definition Command_new (p : PathBuf) (envs : gmap string string) : Command :=
  MkCommand p (OsText <$> envs) [] StdioNull false.
Definition with_env (k : string) (v : OsValue) (cmd : Command) : Command :=
  MkCommand (program cmd) (<[k:=v]> (cmd_env cmd)) (cmd_args cmd) (cmd_stderr cmd)
    (new_process_group cmd).
Definition with_env_opt {A} (k : string) (f : A → OsValue) (o : option A) (cmd : Command) : Command :=
  match o with Some a => with_env k (f a) cmd | None => cmd end.
Definition with_args (l : list string) (cmd : Command) : Command :=
  MkCommand (program cmd) (cmd_env cmd) (cmd_args cmd ++ l) (cmd_stderr cmd) (new_process_group cmd).
Definition with_stderr (f : Stdio) (cmd : Command) : Command :=
  MkCommand (program cmd) (cmd_env cmd) (cmd_args cmd) f (new_process_group cmd).
Definition with_new_process_group (cmd : Command) : Command :=
  MkCommand (program cmd) (cmd_env cmd) (cmd_args cmd) (cmd_stderr cmd) true.

Definition DEFAULT_RPC_PORT : u16 := 10000%Z.
Definition LOCALHOST_V4 : IpAddr := V4 2130706433%Z.
Definition LOCALHOST_V6 : IpAddr := V6 1%Z.

Definition is_unspecified (ip : IpAddr) : bool :=
  match ip with V4 a => bool_decide (a = 0%Z) | V6 a => bool_decide (a = 0%Z) end.
Definition is_ipv4 (ip : IpAddr) : bool := match ip with V4 _ => true | V6 _ => false end.

(** A binary next to the one of the service, unless the configuration names another. *)
Definition binary (os : Os) (path : option PathBuf) (file : string) : outcome PathBuf :=
  match path with
  | Some path => Ok path
  | None => if current_exe_ok os then Ok (Push (Pop CurrentExe) file) else bail "current_exe"
  end.

Definition run_collector (n : NodeConfig) : bool :=
  default true (collector_enabled n) && bool_decide (is_Some (collector_url n))
  && bool_decide (rpc_enabled n ≠ Some false).

Definition collector_rpc_ip (n : NodeConfig) : IpAddr :=
  let collector_rpc_ip := default LOCALHOST_V4 (rpc_address n) in
  if is_unspecified collector_rpc_ip then
    if is_ipv4 collector_rpc_ip then LOCALHOST_V4 else LOCALHOST_V6
  else collector_rpc_ip.

(** [NodeConfig::start_collector] *)
Definition start_collector (os : Os) (n : NodeConfig) : outcome (option Command) :=
  if bool_decide (collector_enabled n = Some true) && negb (run_collector n)
  then bail "the collector was enabled, but was not configured correctly"
  else if run_collector n then
    collector_bin_path ← binary os (collector_bin n) "node-collector.exe";
    let cmd := Command_new collector_bin_path (collector_env n) in
    let cmd := with_env_opt "CONCORDIUM_NODE_COLLECTOR_URL" OsText (collector_url n) cmd in
    let cmd := with_env "CONCORDIUM_NODE_COLLECTOR_GRPC_HOST"
                 (OsUrl (collector_rpc_ip n) (default DEFAULT_RPC_PORT (rpc_port n))) cmd in
    let cmd := with_env "CONCORDIUM_NODE_COLLECTOR_NODE_NAME"
                 (OsText (default (nc_name n) (collector_node_name n))) cmd in
    let cmd := with_env_opt "CONCORDIUM_NODE_COLLECTOR_COLLECT_INTERVAL" OsInt
                 (collector_interval n) cmd in
    let cmd := with_env_opt "CONCORDIUM_NODE_COLLECTOR_GRPC_AUTHENTICATION_TOKEN" OsText
                 (rpc_token n) cmd in
    let cmd := with_args (collector_args n) cmd in
    cmd ← match collector_log_file n with
          | Some lf => if collector_file_ok os then Ok (with_stderr (StdioFile lf) cmd) else bail "create"
          | None => Ok (with_stderr StdioNull cmd)
          end;
    if collector_spawn_ok os then Ok (Some cmd) else bail "spawn"
  else Ok None.

Section start.
Context `{!WinExt}.

(** The logging configuration of [make_log_config_file] *)
Definition roll_pattern (c : LogFileConfig) : string :=
  to_string_lossy (default (WithExtension (lf_path c)
    (match extension (lf_path c) with
     | Some old_extension => "{}." +:+ old_extension
     | None => "{}"
     end)) (lf_roll_pattern c)).

Definition roller_map (c : LogFileConfig) : Table :=
  let roll_count := default 0%Z (lf_roll_count c) in
  if decide (roll_count = 0%Z) then [("kind", VString "delete")]
  else [("kind", VString "fixed_window"); ("count", VInteger roll_count);
        ("pattern", VString (roll_pattern c))].

Definition appenders_file_map (c : LogFileConfig) : Table :=
  ("path", VString (to_string_lossy (lf_path c))) ::
  match lf_roll_size c with
  | Some roll_size =>
    [("kind", VString "rolling_file");
     ("policy", VTable [("kind", VString "compound");
        ("trigger", VTable [("kind", VString "size"); ("limit", VString roll_size)]);
        ("roller", VTable (roller_map c))])]
  | None => [("kind", VString "file")]
  end.

Definition log_toml (c : LogFileConfig) (level : option Level) : Value :=
  VTable [("root", VTable [("level", VString (Level_fmt (default LWarn level)));
                           ("appenders", VArray [VString "file"])]);
          ("appenders", VTable [("file", VTable (appenders_file_map c))])].

(** The content of the temporary file, if there is one, and the command *)
Definition make_log_config_file (os : Os) (n : NodeConfig) (cmd : Command) :
    outcome (option Value * Command) :=
  match log_config n with
  | LogNone =>
    if log_file_ok os then
      Ok (Some (VTable [("root", VTable [("level", VString "error"); ("appenders", VArray [])])]),
          with_env "CONCORDIUM_NODE_LOG_CONFIG" (OsPath TempPath) cmd)
    else bail "tempfile"
  | LogConfig log_config_file =>
    Ok (None, with_env "CONCORDIUM_NODE_LOG_CONFIG" (OsPath log_config_file) cmd)
  | LogFile c =>
    if log_file_ok os then
      Ok (Some (log_toml c (log_level n)),
          with_env "CONCORDIUM_NODE_LOG_CONFIG" (OsPath TempPath) cmd)
    else bail "tempfile"
  end.

Definition with_log_level (level : option Level) (cmd : Command) : Command :=
  match level with
  | Some LError => with_env "CONCORDIUM_NODE_NO_CONSENSUS_LOG" (OsText "true") cmd
  | Some LInfo => with_env "CONCORDIUM_NODE_LOG_LEVEL_INFO" (OsText "true") cmd
  | Some LDebug => with_env "CONCORDIUM_NODE_LOG_LEVEL_DEBUG" (OsText "true") cmd
  | Some LTrace => with_env "CONCORDIUM_NODE_LOG_LEVEL_TRACE" (OsText "true") cmd
  | _ => cmd
  end.

(** The command of [NodeConfig::start] *)
Definition node_command (n : NodeConfig) (bin_path : PathBuf) : Command :=
  let cmd := Command_new bin_path (node_env n) in
  let cmd := with_env "CONCORDIUM_NODE_CONFIG_DIR" (OsPath (config_dir n)) cmd in
  let cmd := with_env "CONCORDIUM_NODE_DATA_DIR" (OsPath (data_dir n)) cmd in
  let cmd := with_env "CONCORDIUM_NODE_CONNECTION_BOOTSTRAP_NODES" (OsText (bootstrap_nodes n)) cmd in
  let cmd := with_env_opt "CONCORDIUM_NODE_BAKER_CREDENTIALS_FILE" OsPath (baker_credentials n) cmd in
  let cmd := with_env_opt "CONCORDIUM_NODE_RPC_SERVER_ADDR" OsAddr (rpc_address n) cmd in
  let cmd := with_env_opt "CONCORDIUM_NODE_RPC_SERVER_PORT" OsInt (rpc_port n) cmd in
  let cmd := with_env_opt "CONCORDIUM_NODE_GRPC2_LISTEN_ADDRESS" OsAddr (grpc2_address n) cmd in
  let cmd := with_env_opt "CONCORDIUM_NODE_GRPC2_LISTEN_PORT" OsInt (grpc2_port n) cmd in
  let cmd := with_env_opt "CONCORDIUM_NODE_RPC_SERVER_TOKEN" OsText (rpc_token n) cmd in
  let cmd := if decide (rpc_enabled n = Some false)
             then with_env "CONCORDIUM_NODE_DISABLE_RPC_SERVER" (OsText "true") cmd else cmd in
  let cmd := with_env_opt "CONCORDIUM_NODE_LISTEN_ADDRESS" OsAddr (listen_address n) cmd in
  let cmd := with_env_opt "CONCORDIUM_NODE_LISTEN_PORT" OsInt (listen_port n) cmd in
  with_log_level (log_level n) cmd.

(** [NodeConfig::start]: the node that is spawned, its logging configuration, and its
    collector; a collector that does not start is only reported. *)
Definition start (os : Os) (n : NodeConfig) : outcome (Command * option Value * option Command) :=
  bin_path ← binary os (node_bin n) "concordium-node.exe";
  '(log, cmd) ← make_log_config_file os n (node_command n bin_path);
  let cmd := with_new_process_group (with_args (node_args n) cmd) in
  if stderr_file_ok os then
    let cmd := with_stderr (StdioFile TempPath) cmd in
    if node_spawn_ok os then
      let collector := match start_collector os n with Ok c => c | _ => None end in
      Ok (cmd, log, collector)
    else bail "spawn"
  else bail "tempfile".
End start.

(** ** What a configuration means *)

(** The parser gives tables with distinct keys. *)
Fixpoint distinct (v : Value) : Prop :=
  match v with
  | VTable t => NoDup t.*1 ∧ (fix all t := match t with [] => True | (_, v) :: t => distinct v ∧ all t end) t
  | _ => True
  end.

Class WinLaws `{!WinExt} := {
  parsed_distinct s v : toml_from_str s = Ok v → distinct v;
}.

Lemma distinct_get v k v' : distinct v → Value_get v k = Some v' → distinct v'.
Proof.
  destruct v as [| | | | | |t]; try done. simpl. intros [_ Hall].
  induction t as [|[k' x] t IH]; [done|]. destruct Hall as [Hx Hall]. simpl.
  case_decide; [by intros [= <-]|by apply IH].
Qed.

Lemma foldl_get_None path : foldl (λ temp x, temp ≫= λ temp, Value_get temp x) None path = None.
Proof. by induction path. Qed.

Lemma toml_get_cons {A} (as_ : Value → option A) v k path :
  toml_get_as as_ v (k :: path) = Value_get v k ≫= λ v, toml_get_as as_ v path.
Proof. unfold toml_get_as. simpl. destruct (Value_get v k); simpl; [done|by rewrite foldl_get_None]. Qed.

Lemma toml_get_app {A} (as_ : Value → option A) v path path' :
  toml_get_as as_ v (path ++ path') = toml_get_as Some v path ≫= λ v, toml_get_as as_ v path'.
Proof.
  revert v. induction path as [|k path IH]; intros v; [done|]. simpl. rewrite !toml_get_cons.
  by destruct (Value_get v k); simpl.
Qed.

Lemma toml_get_as_as {A} (as_ : Value → option A) v path :
  toml_get_as as_ v path = toml_get_as Some v path ≫= as_.
Proof. by rewrite <- (app_nil_r path) at 1; rewrite toml_get_app. Qed.

Lemma distinct_path v path v' : distinct v → toml_get_as Some v path = Some v' → distinct v'.
Proof.
  revert v. induction path as [|k path IH]; intros v Hv; [by intros [= <-]|]. rewrite toml_get_cons.
  destruct (Value_get v k) as [x|] eqn:E; simpl; [|done]. apply IH. by eapply distinct_get.
Qed.

(** The common table, where there is one. *)
Lemma common_get {A} (as_ : Value → option A) v k path :
  toml_get_as as_ (VTable (default [] (toml_get_as as_table v ["common"]))) (k :: path)
  = toml_get_as as_ v ("common" :: k :: path).
Proof.
  rewrite !(toml_get_cons _ v). destruct (Value_get v "common") as [c|]; simpl.
  - change (toml_get_as as_table c []) with (as_table c). rewrite !toml_get_cons. by destruct c.
  - by rewrite toml_get_cons.
Qed.

Lemma insert_env_lookup t env env' k :
  NoDup t.*1 → insert_env t env = Ok env' →
  env' !! k = or_else (table_get t k ≫= as_str) (env !! k).
Proof.
  revert env. induction t as [|[k' v] t IH]; intros env; [by intros _ [= ->]|].
  rewrite fmap_cons. intros [Hk Hnd]%NoDup_cons. simpl.
  destruct (as_str v) as [x|] eqn:Ev; [|done]. intros Hi. rewrite (IH _ Hnd Hi).
  case_decide as Hkk; [subst k'|by rewrite lookup_insert_ne by done].
  assert (table_get t k = None) as ->.
  { clear -Hk. simpl in Hk. induction t as [|[k' v'] t IH]; [done|]. simpl in *.
    apply not_elem_of_cons in Hk as [? ?]. rewrite decide_False by done. auto. }
  simpl. by rewrite Ev, lookup_insert_eq.
Qed.

(** A variable has the value of the table, or else the one it had. *)
Lemma get_env_lookup v path env env' k :
  distinct v → get_env (toml_get_as as_table v path) env = Ok env' →
  env' !! k = or_else (toml_get_as as_str v (path ++ [k])) (env !! k).
Proof.
  intros Hv. rewrite toml_get_app, toml_get_as_as.
  destruct (toml_get_as Some v path) as [t|] eqn:E; simpl; [|by intros [= ->]].
  pose proof (distinct_path _ _ _ Hv E) as Ht. rewrite toml_get_cons.
  destruct t as [| | | | | |t]; simpl; try by intros [= ->]. destruct Ht as [Ht _].
  intros Hi. rewrite (insert_env_lookup _ _ _ k Ht Hi). by destruct (table_get t k).
Qed.

Section meaning.
Context `{!WinExt, !WinLaws}.

Definition enabled_nodes (v : Value) : Table :=
  filter (λ e, node_enabled e.2 = true) (default [] (toml_get_as as_table v ["node"])).

(** An entry of a node, or else the one of the common table *)
Definition inherited {A} (as_ : Value → option A) (v node : Value) (path : list string) : option A :=
  or_else (toml_get_as as_ node path) (toml_get_as as_ v ("common" :: path)).

Definition strings (vs : list Value) : list string := omap as_str vs.

(** What the entry [nname] of the node table says of a node *)
Definition describes (v : Value) (e : string * Value) (n : NodeConfig) : Prop :=
  let '(nname, node) := e in
  nc_name n = default nname (toml_get_as as_str node ["name"])
  ∧ Some (bootstrap_nodes n) = inherited as_str v node ["bootstrap_nodes"]
  ∧ (∀ k, node_env n !! k = inherited as_str v node ["node"; "env"; k])
  ∧ (∀ k, collector_env n !! k = inherited as_str v node ["collector"; "env"; k])
  ∧ node_args n = default [] (strings <$> inherited as_array v node ["node"; "args"])
  ∧ collector_args n = default [] (strings <$> inherited as_array v node ["collector"; "args"])
  ∧ rpc_enabled n = inherited as_bool v node ["rpc"; "enabled"]
  ∧ rpc_token n = inherited as_str v node ["rpc"; "token"]
  ∧ rpc_port n = toml_get_as as_integer node ["rpc"; "port"]
  ∧ grpc2_port n = toml_get_as as_integer node ["grpc2"; "port"]
  ∧ listen_port n = toml_get_as as_integer node ["listen"; "port"]
  ∧ (∀ p, p ∈ [rpc_port n; grpc2_port n; listen_port n] → ∀ x, p = Some x → fits 16 x).

Lemma push_args_ok vs l : push_args vs = Ok l → l = strings vs.
Proof.
  revert l. induction vs as [|v vs IH]; intros l; [by intros [= <-]|]. simpl.
  destruct (as_str v) as [x|] eqn:E; [|done]. intros (l' & Hl' & [= <-])%outcome_bind_ok.
  destruct v; try discriminate E. injection E as ->. unfold strings. simpl. f_equal. by apply IH.
Qed.

Lemma get_args_ok o l : get_args o = Ok l → l = strings <$> o.
Proof.
  destruct o as [vs|]; simpl; [|by intros [= <-]].
  intros (l' & Hl' & [= <-])%outcome_bind_ok. by rewrite (push_args_ok vs l').
Qed.

Lemma transpose_port o p : transpose o (try_from 16) = Ok p → p = o ∧ ∀ x, p = Some x → fits 16 x.
Proof.
  destruct o as [x|]; simpl; [|by intros [= <-]]. intros (y & Hy & [= <-])%outcome_bind_ok.
  unfold try_from in Hy. case_decide; [|done]. injection Hy as <-. split; [done|]. by intros ? [= <-].
Qed.

(** The tables that all nodes share *)
Record common_of (v : Value) (c : Common) : Prop := {
  co_common : common c = VTable (default [] (toml_get_as as_table v ["common"]));
  co_node_env k : common_node_env c !! k = toml_get_as as_str v ["common"; "node"; "env"; k];
  co_node_args : common_node_args c = strings <$> toml_get_as as_array v ["common"; "node"; "args"];
  co_collector_env k :
    common_collector_env c !! k = toml_get_as as_str v ["common"; "collector"; "env"; k];
  co_collector_args :
    common_collector_args c = strings <$> toml_get_as as_array v ["common"; "collector"; "args"];
}.

Lemma load_common_ok v c : distinct v → load_common v = Ok c → common_of v c.
Proof.
  intros Hv. unfold load_common. set (t := VTable _).
  intros (env & He & (args & Ha & (env' & He' & (args' & Ha' & [= <-])%outcome_bind_ok)
    %outcome_bind_ok)%outcome_bind_ok)%outcome_bind_ok.
  assert (distinct t) as Ht.
  { unfold t. rewrite toml_get_as_as. destruct (toml_get_as Some v ["common"]) as [c|] eqn:E; simpl;
      [|split; constructor]. apply (distinct_path _ _ _ Hv) in E. destruct c; try (split; constructor). done. }
  split; simpl; [done| | | |].
  - intros k. rewrite (get_env_lookup _ _ _ _ k Ht He). unfold t. simpl. rewrite common_get, lookup_empty.
    by destruct (toml_get_as as_str v _).
  - rewrite (get_args_ok _ _ Ha). unfold t. by rewrite common_get.
  - intros k. rewrite (get_env_lookup _ _ _ _ k Ht He'). unfold t. simpl. rewrite common_get, lookup_empty.
    by destruct (toml_get_as as_str v _).
  - rewrite (get_args_ok _ _ Ha'). unfold t. by rewrite common_get.
Qed.

Lemma own_or_common_inherited {A} (as_ : Value → option A) v c node k path :
  common_of v c → own_or_common as_ c node (k :: path) = inherited as_ v node (k :: path).
Proof. intros Hc. unfold own_or_common, inherited. by rewrite (co_common _ _ Hc), common_get. Qed.

Lemma missing_ok {A} m (o : option A) a : context m o = Ok a → o = Some a.
Proof. destruct o; simpl; congruence. Qed.

Lemma load_node_ok v c nname node n :
  common_of v c → distinct node → load_node c nname node = Ok n → describes v (nname, node) n.
Proof.
  intros Hc Hd Hl. unfold load_node in Hl.
  repeat (apply outcome_bind_ok in Hl as (? & ? & Hl)). injection Hl as <-.
  repeat match goal with
  | H : transpose _ (try_from 16) = Ok _ |- _ => apply transpose_port in H as [? ?]
  | H : get_args _ = Ok _ |- _ => apply get_args_ok in H
  end. subst.
  unfold describes. cbn [nc_name bootstrap_nodes node_env collector_env node_args collector_args
    rpc_enabled rpc_token rpc_port grpc2_port listen_port].
  split_and!; try done.
  - rewrite <- (own_or_common_inherited _ v c) by done. symmetry. by eapply missing_ok.
  - intros k. match goal with H : get_env (toml_get_as _ _ ["node"; _]) _ = Ok _ |- _ =>
      rewrite (get_env_lookup _ _ _ _ k Hd H) end. by rewrite (co_node_env _ _ Hc).
  - intros k. match goal with H : get_env (toml_get_as _ _ ["collector"; _]) _ = Ok _ |- _ =>
      rewrite (get_env_lookup _ _ _ _ k Hd H) end. by rewrite (co_collector_env _ _ Hc).
  - unfold inherited. rewrite (co_node_args _ _ Hc). by destruct (toml_get_as as_array node _).
  - unfold inherited. rewrite (co_collector_args _ _ Hc). by destruct (toml_get_as as_array node _).
  - by apply own_or_common_inherited.
  - by apply own_or_common_inherited.
  - intros p Hp. set_unfold in Hp. naive_solver.
Qed.

Lemma load_nodes_ok v c t nodes :
  common_of v c → Forall distinct t.*2 → load_nodes c t = Ok nodes →
  Forall2 (describes v) (filter (λ e, node_enabled e.2 = true) t) nodes.
Proof.
  intros Hc. revert nodes. induction t as [|[nname node] t IH]; intros nodes Ht; [by intros [= <-]|].
  inversion Ht as [|? ? Hd Ht']; subst. simpl. destruct (node_enabled node) eqn:E.
  - rewrite filter_cons_True by done.
    intros (n & Hn & (ns & Hns & [= <-])%outcome_bind_ok)%outcome_bind_ok.
    constructor; [by apply (load_node_ok v c)|by apply IH].
  - rewrite filter_cons_False by (simpl; congruence). by apply IH.
Qed.

(** A configuration file that loads gives one node for every entry of the node table
    that is not disabled, in the order of the table, and nothing else.  The variables, the
    arguments and the settings of a node are those of its own tables, and those of the
    common table where its own are silent; ports are 16-bit numbers. *)
Theorem config_described s v nodes :
  toml_from_str s = Ok v → load_config_file s = Ok nodes →
  Forall2 (describes v) (enabled_nodes v) nodes.
Proof.
  intros Hs. unfold load_config_file. rewrite Hs, bind_Ok.
  intros (c & Hc & Hl)%outcome_bind_ok. pose proof (parsed_distinct _ _ Hs) as Hd.
  apply (load_nodes_ok v c); [by apply load_common_ok| |done].
  rewrite toml_get_as_as. destruct (toml_get_as Some v ["node"]) as [t|] eqn:E; [|constructor].
  apply (distinct_path _ _ _ Hd) in E. destruct t as [| | | | | |t]; try constructor. simpl.
  destruct E as [_ Hall]. induction t as [|[k x] t IH]; constructor; [apply Hall|by apply IH, Hall].
Qed.

(** A node that is disabled has no influence, whatever its entry contains. *)
Lemma disabled_ignored c t1 nname node t2 :
  node_enabled node = false → load_nodes c (t1 ++ (nname, node) :: t2) = load_nodes c (t1 ++ t2).
Proof.
  intros Hn. induction t1 as [|[k x] t1 IH]; simpl; [by rewrite Hn|]. by rewrite IH.
Qed.
End meaning.

(** ** A node and its collector *)

Lemma with_env_eq k v cmd : cmd_env (with_env k v cmd) !! k = Some v.
Proof. apply lookup_insert_eq. Qed.
Lemma with_env_ne k k' v cmd : k ≠ k' → cmd_env (with_env k v cmd) !! k' = cmd_env cmd !! k'.
Proof. apply lookup_insert_ne. Qed.
Lemma with_env_opt_eq {A} k (f : A → OsValue) o cmd :
  cmd_env (with_env_opt k f o cmd) !! k = or_else (f <$> o) (cmd_env cmd !! k).
Proof. destruct o; [apply with_env_eq|done]. Qed.
Lemma with_env_opt_ne {A} k k' (f : A → OsValue) o cmd :
  k ≠ k' → cmd_env (with_env_opt k f o cmd) !! k' = cmd_env cmd !! k'.
Proof. intros. destruct o; [by apply with_env_ne|done]. Qed.
Lemma with_log_level_ne level k cmd :
  k ∉ ["CONCORDIUM_NODE_NO_CONSENSUS_LOG"; "CONCORDIUM_NODE_LOG_LEVEL_INFO";
       "CONCORDIUM_NODE_LOG_LEVEL_DEBUG"; "CONCORDIUM_NODE_LOG_LEVEL_TRACE"] →
  cmd_env (with_log_level level cmd) !! k = cmd_env cmd !! k.
Proof. intros Hk. destruct level as [[]|]; try done; apply with_env_ne; set_solver. Qed.

(** The variables with which the service addresses the server of a node *)
Ltac env_lookup :=
  repeat first [rewrite with_env_eq | rewrite with_env_opt_eq | rewrite with_env_ne by done
               | rewrite with_env_opt_ne by done].

Section collector.
Context `{!WinExt}.

Lemma node_command_env n bin k :
  k ∈ ["CONCORDIUM_NODE_RPC_SERVER_ADDR"; "CONCORDIUM_NODE_RPC_SERVER_PORT";
       "CONCORDIUM_NODE_RPC_SERVER_TOKEN"; "CONCORDIUM_NODE_DISABLE_RPC_SERVER"] →
  node_env n !! k = None →
  cmd_env (node_command n bin) !! k =
    if decide (k = "CONCORDIUM_NODE_RPC_SERVER_ADDR") then OsAddr <$> rpc_address n
    else if decide (k = "CONCORDIUM_NODE_RPC_SERVER_PORT") then OsInt <$> rpc_port n
    else if decide (k = "CONCORDIUM_NODE_RPC_SERVER_TOKEN") then OsText <$> rpc_token n
    else if decide (rpc_enabled n = Some false) then Some (OsText "true") else None.
Proof.
  intros Hk Hn. unfold node_command. rewrite with_log_level_ne by set_solver.
  set_unfold in Hk. destruct (decide (rpc_enabled n = Some false));
    destruct Hk as [->|[->|[->|[->|[]]]]]; env_lookup; simpl;
    try (rewrite lookup_fmap, Hn; simpl);
    (done || by match goal with |- or_else (_ <$> ?o) _ = _ => destruct o end).
Qed.

Lemma start_env os n cmd log c k :
  start os n = Ok (cmd, log, c) → k ≠ "CONCORDIUM_NODE_LOG_CONFIG" →
  (∃ bin, cmd_env cmd !! k = cmd_env (node_command n bin) !! k)
  ∧ c = match start_collector os n with Ok c => c | _ => None end.
Proof.
  intros (bin & _ & ([log' cmd'] & Hm & Hs)%outcome_bind_ok)%outcome_bind_ok Hk. revert Hs.
  destruct (stderr_file_ok os), (node_spawn_ok os); try done. intros [= <- <- <-]. split; [|done].
  exists bin. simpl. unfold make_log_config_file in Hm.
  destruct (log_config n); [destruct (log_file_ok os)| |destruct (log_file_ok os)]; try done;
    injection Hm as <- <-; by rewrite with_env_ne.
Qed.

Lemma start_collector_env os n cmd :
  start_collector os n = Ok (Some cmd) →
  rpc_enabled n ≠ Some false
  ∧ cmd_env cmd !! "CONCORDIUM_NODE_COLLECTOR_GRPC_HOST"
    = Some (OsUrl (collector_rpc_ip n) (default DEFAULT_RPC_PORT (rpc_port n)))
  ∧ (collector_env n !! "CONCORDIUM_NODE_COLLECTOR_GRPC_AUTHENTICATION_TOKEN" = None →
     cmd_env cmd !! "CONCORDIUM_NODE_COLLECTOR_GRPC_AUTHENTICATION_TOKEN" = OsText <$> rpc_token n).
Proof.
  unfold start_collector. destruct (bool_decide _ && _); [done|].
  destruct (run_collector n) eqn:Hrun; [|done].
  intros (bin & _ & (cmd' & Hcmd & Hsp)%outcome_bind_ok)%outcome_bind_ok.
  destruct (collector_spawn_ok os); [|done]. injection Hsp as <-.
  unfold run_collector in Hrun. apply andb_prop in Hrun as [_ Hr%bool_decide_eq_true]. split; [done|].
  destruct (collector_log_file n); [destruct (collector_file_ok os); [|done]|];
    injection Hcmd as <-; cbn [with_stderr with_args cmd_env]; env_lookup;
    (split; [done|]); intros Hc; simpl; rewrite lookup_fmap, Hc; by destruct (rpc_token n).
Qed.

Lemma collector_rpc_ip_ok n :
  let bound := default LOCALHOST_V4 (rpc_address n) in
  is_unspecified (collector_rpc_ip n) = false ∧ is_ipv4 bound = is_ipv4 (collector_rpc_ip n)
  ∧ (is_unspecified bound = false → bound = collector_rpc_ip n).
Proof.
  unfold collector_rpc_ip. cbv zeta. set (b := default _ _).
  destruct (is_unspecified b) eqn:E; [|done]. by destruct b.
Qed.

(** A collector that is started with a node observes that node.  It is given the port
    and the token that the node is given (or their defaults), and the address on which the
    node listens, a loopback address of the same family when the node listens on all
    addresses; a collector never runs beside a node whose server is switched off. *)
Theorem collector_matches_node os n cmd log ccmd :
  start os n = Ok (cmd, log, Some ccmd) →
  (∀ k, k ∈ ["CONCORDIUM_NODE_RPC_SERVER_ADDR"; "CONCORDIUM_NODE_RPC_SERVER_PORT";
             "CONCORDIUM_NODE_RPC_SERVER_TOKEN"; "CONCORDIUM_NODE_DISABLE_RPC_SERVER"] →
        node_env n !! k = None) →
  collector_env n !! "CONCORDIUM_NODE_COLLECTOR_GRPC_AUTHENTICATION_TOKEN" = None →
  cmd_env cmd !! "CONCORDIUM_NODE_DISABLE_RPC_SERVER" = None
  ∧ cmd_env ccmd !! "CONCORDIUM_NODE_COLLECTOR_GRPC_AUTHENTICATION_TOKEN"
    = cmd_env cmd !! "CONCORDIUM_NODE_RPC_SERVER_TOKEN"
  ∧ ∃ ip port, cmd_env ccmd !! "CONCORDIUM_NODE_COLLECTOR_GRPC_HOST" = Some (OsUrl ip port)
    ∧ default (OsInt DEFAULT_RPC_PORT) (cmd_env cmd !! "CONCORDIUM_NODE_RPC_SERVER_PORT") = OsInt port
    ∧ is_unspecified ip = false
    ∧ ∃ bound, default (OsAddr LOCALHOST_V4) (cmd_env cmd !! "CONCORDIUM_NODE_RPC_SERVER_ADDR")
                 = OsAddr bound
      ∧ is_ipv4 bound = is_ipv4 ip ∧ (is_unspecified bound = false → bound = ip).
Proof.
  intros Hs Hn Hc.
  assert (∀ k, k ∈ ["CONCORDIUM_NODE_RPC_SERVER_ADDR"; "CONCORDIUM_NODE_RPC_SERVER_PORT";
             "CONCORDIUM_NODE_RPC_SERVER_TOKEN"; "CONCORDIUM_NODE_DISABLE_RPC_SERVER"] → ∃ bin,
            cmd_env cmd !! k = cmd_env (node_command n bin) !! k) as Henv.
  { intros k Hk. eapply start_env; [done|]. set_solver. }
  destruct (start_env _ _ _ _ _ "" Hs) as [_ Hcoll]; [done|].
  assert (start_collector os n = Ok (Some ccmd)) as Hsc.
  { destruct (start_collector os n); [by subst|done|done]. }
  apply start_collector_env in Hsc as (Hen & Hhost & Htok). rewrite Hhost, (Htok Hc).
  repeat match goal with |- context [cmd_env cmd !! ?k] =>
    let H := fresh in destruct (Henv k) as [? H]; [set_solver|]; rewrite H;
    rewrite node_command_env by (set_solver || apply Hn; set_solver); clear H
  end. simpl. rewrite decide_False by done. split; [done|]. split; [done|].
  destruct (collector_rpc_ip_ok n) as (H1 & H2 & H3).
  exists (collector_rpc_ip n), (default DEFAULT_RPC_PORT (rpc_port n)). split; [done|].
  split; [by destruct (rpc_port n)|]. split; [done|]. exists (default LOCALHOST_V4 (rpc_address n)).
  split; [by destruct (rpc_address n)|done].
Qed.
End collector.

(** *** Witnesses *)

Module WindowsExample.

(** Two nodes, one of them disabled and incomplete. *)
Definition conf : Value :=
  VTable
    [("common", VTable [("bootstrap_nodes", VString "boot:8888");
                        ("node", VTable [("env", VTable [("A", VString "1"); ("B", VString "2")])]);
                        ("collector", VTable [("url", VString "https://dashboard")])]);
     ("node", VTable
       [("mainnet", VTable [("config_dir", VString "c"); ("data_dir", VString "d");
                            ("node", VTable [("env", VTable [("B", VString "3")])]);
                            ("rpc", VTable [("ip", VString "0.0.0.0"); ("port", VInteger 10001)])]);
        ("testnet", VTable [("enabled", VBoolean false)])])].

#[local] Instance win : WinExt := {|
  toml_from_str s := if decide (s = "conf") then Ok conf else bail "expected an equals";
  Level_from_str _ := None;
  Level_fmt _ := "WARN";
  to_string_lossy _ := "";
  extension _ := None;
  registry_config := Ok "nodes.toml";
  read_to_string _ := Ok "conf";
  parent_exists _ := true;
|}.

#[local] Instance win_laws : WinLaws.
Proof.
  split. intros s v. simpl. case_decide; [|done]. intros [= <-].
  simpl. repeat split; repeat constructor; set_solver.
Qed.

Definition loaded : list NodeConfig := match load_config with Ok nodes => nodes | _ => [] end.
Definition mainnet : NodeConfig :=
  default (MkNodeConfig "" "" ConfRoot ConfRoot None None None None None None None None None LogNone
    None None ∅ [] None None None None None None ∅ []) (head loaded).

Lemma config_described_witness :
  length loaded = 1 ∧ node_env mainnet !! "A" = Some "1" ∧ node_env mainnet !! "B" = Some "3".
Proof.
  pose proof (config_described "conf" conf loaded) as Hd.
  specialize (Hd ltac:(reflexivity) ltac:(vm_compute; reflexivity)).
  assert (loaded = [mainnet]) as Hl by (vm_compute; reflexivity). rewrite Hl in Hd |- *.
  inversion Hd as [|? ? ? ? Hm _]; subst.
  destruct Hm as (_ & _ & Henv & _). rewrite !Henv. split; [done|]. split; vm_compute; reflexivity.
Defined.

Definition all_ok : Os := MkOs true true true true true true.

Lemma collector_matches_node_witness :
  ∃ cmd log ccmd, start all_ok mainnet = Ok (cmd, log, Some ccmd)
    ∧ cmd_env ccmd !! "CONCORDIUM_NODE_COLLECTOR_GRPC_HOST" = Some (OsUrl LOCALHOST_V4 10001).
Proof.
  destruct (start all_ok mainnet) as [[[cmd log] [ccmd|]]| |] eqn:E; try (vm_compute in E; discriminate E).
  exists cmd, log, ccmd. split; [reflexivity|].
  destruct (collector_matches_node all_ok mainnet cmd log ccmd E)
    as (_ & _ & ip & port & Hh & _).
  - intros k Hk. set_unfold in Hk. destruct Hk as [->|[->|[->|[->|[]]]]]; vm_compute; reflexivity.
  - vm_compute; reflexivity.
  - rewrite Hh. revert Hh. vm_compute in E. injection E as _ _ <-. vm_compute. intros [= <- <-]. reflexivity.
Defined.
End WindowsExample.
