(* ===== verification/WindowsService.v ===== *)
(** * The Windows node runner: the service

    Models [service/windows/src/main.rs] and the type [Node] of
    [service/windows/src/node.rs]: the service starts the nodes of the configuration,
    watches them, and shuts them down when it is told to.  The service is a state machine
    whose steps are interleaved with what the system does in the meantime: processes exit,
    a control event arrives, time passes.  Every call to the system may fail. *)
From S2P Require Import Prelude.
From S2P Require Import NetTypes.
From S2P Require Import WindowsConfig.

(** ** Processes *)

Abbreviation Pid := nat (only parsing).

(** Which calls to the system fail in a step *)
Record Faults := MkFaults {
  (** [create_console] or the registration of the handler *)
  setup_fails : bool;
  wait_fails : Pid → bool;
  kill_fails : Pid → bool;
  signal_fails : Pid → bool;
  status_fails : bool;
  start_os : Os;
}.

Record Node := MkNode {
  node_config : NodeConfig;
  node_process : Pid;
  collector_process : option Pid;
}.

Record Processes := MkProcesses {
  next_pid : Pid;
  alive : gset Pid;
  (** the processes of nodes, those that were sent a signal and those that were killed *)
  node_pids : gset Pid;
  signalled : gset Pid;
  killed : gset Pid;
}.

Definition Processes_new : Processes := MkProcesses 0 ∅ ∅ ∅ ∅.

Definition spawn (is_node : bool) (w : Processes) : Pid * Processes :=
  let p := next_pid w in
  (p, MkProcesses (S p) ({[p]} ∪ alive w) (if is_node then {[p]} ∪ node_pids w else node_pids w)
        (signalled w) (killed w)).

Definition exits (p : Pid) (w : Processes) : Processes :=
  MkProcesses (next_pid w) (alive w ∖ {[p]}) (node_pids w) (signalled w) (killed w).

(** [Child::try_wait]: whether the process has exited *)
Definition try_wait (f : Faults) (p : Pid) (w : Processes) : outcome bool :=
  if wait_fails f p then Err (IoError "try_wait") else Ok (bool_decide (p ∉ alive w)).

(** [Child::kill] *)
Definition kill (f : Faults) (p : Pid) (w : Processes) : outcome unit * Processes :=
  if kill_fails f p then (Err (IoError "kill"), w)
  else (Ok tt, MkProcesses (next_pid w) (alive w ∖ {[p]}) (node_pids w) (signalled w)
                 ({[p]} ∪ killed w)).

Definition send_child_ctrl_break (f : Faults) (p : Pid) (w : Processes) : outcome unit * Processes :=
  if signal_fails f p then (Err (IoError "GenerateConsoleCtrlEvent"), w)
  else (Ok tt, MkProcesses (next_pid w) (alive w) (node_pids w) ({[p]} ∪ signalled w) (killed w)).

(** ** Nodes *)

(** [NodeConfig::start] *)
Definition start_node `{!WinExt} (f : Faults) (n : NodeConfig) (w : Processes) :
    outcome Node * Processes :=
  match start (start_os f) n with
  | Ok (_, _, collector) =>
    let '(p, w) := spawn true w in
    match collector with
    | Some _ => let '(c, w) := spawn false w in (Ok (MkNode n p (Some c)), w)
    | None => (Ok (MkNode n p None), w)
    end
  | Err e => (Err e, w)
  | Panic m => (Panic m, w)
  end.

Definition without_collector (n : Node) : Node := MkNode (node_config n) (node_process n) None.

(** [Node::check_exit] *)
Definition check_exit (f : Faults) (n : Node) (w : Processes) : outcome bool * Node * Processes :=
  match try_wait f (node_process n) w with
  | Ok exit_status =>
    match collector_process n with
    | Some c =>
      if exit_status then
        if match try_wait f c w with Ok exited => negb exited | _ => false end
        then (Ok exit_status, n, (kill f c w).2)
        else (Ok exit_status, n, w)
      else
        match try_wait f c w with
        | Ok false => (Ok exit_status, n, w)
        | _ => (Ok exit_status, without_collector n, w)
        end
    | None => (Ok exit_status, n, w)
    end
  | Err e => (Err e, n, w)
  | Panic m => (Panic m, n, w)
  end.

(** [Node::shutdown] *)
Definition shutdown (f : Faults) (n : Node) (w : Processes) : outcome unit * Processes :=
  send_child_ctrl_break f (node_process n) w.

(** [Node::force_shutdown]: the collector is killed even when the node cannot be. *)
Definition force_shutdown (f : Faults) (n : Node) (w : Processes) : outcome unit * Processes :=
  let '(r1, w) := kill f (node_process n) w in
  match collector_process n with
  | Some cp => let '(r2, w) := kill f cp w in (_ ← r1; r2, w)
  | None => (r1, w)
  end.

Definition ERROR_MAX_LENGTH : nat := Z.to_nat 1000.

(** [str::split_once('\n')], what follows *)
Fixpoint after_newline (s : bytes) : option bytes :=
  match s with
  | [] => None
  | c :: s => if decide (c = 10%Z) then Some s else after_newline s
  end.

(** [Node::get_error_output], of the content of the file *)
Definition get_error_output (stderr : bytes) : outcome bytes :=
  let len := length stderr in
  if decide (len = 0) then Ok []
  else if decide (len ≤ ERROR_MAX_LENGTH) then from_utf8 stderr
  else
    buf ← from_utf8 (drop (len - ERROR_MAX_LENGTH) stderr);
    Ok (default buf (after_newline buf)).

(** ** The service *)

Inductive ServiceState := StartPending | Running | StopPending | SStopped.
#[global] Instance ServiceState_eq_dec : EqDecision ServiceState.
Proof. solve_decision. Defined.

Record ServiceStatus := MkServiceStatus {
  current_state : ServiceState;
  controls_accepted : bool;
  checkpoint : u32;
  wait_hint : Z;
}.

Definition simple_status (state : ServiceState) : ServiceStatus := MkServiceStatus state false 0 0.
Definition simple_status_with_controls (state : ServiceState) : ServiceStatus :=
  MkServiceStatus state true 0 0.
Definition pending_status (state : ServiceState) (checkpoint : u32) (wait_hint : Z) : ServiceStatus :=
  MkServiceStatus state false checkpoint wait_hint.

(** Where the service is in [run_service]; the lists of [Polling] and [Draining] are the
    nodes that [retain_mut] has kept and those it has yet to visit. *)
Inductive Phase :=
  | Initial
  | Starting (started : list Node) (todo : list NodeConfig)
  | Looping (nodes : list Node)
  | Polling (kept todo : list Node)
  | Stopping (nodes : list Node)
  | Signalling (shutdown_begin : Z) (done todo : list Node)
  | DrainHead (shutdown_begin t : Z) (cp : u32) (nodes : list Node)
  | Draining (shutdown_begin t : Z) (cp : u32) (kept todo : list Node)
  | Killing (todo : list Node)
  | Ended
  | Failed.

Record Service := MkService {
  phase : Phase;
  procs : Processes;
  is_shutdown : bool;
  (** [Instant::now()], in milliseconds *)
  clock : Z;
  statuses : list ServiceStatus;
}.

Inductive ServiceControl := CStop | CPreshutdown | CInterrogate | COther.
Inductive ServiceControlHandlerResult := NoError | NotImplemented.

(** The event handler *)
Definition event_handler (e : ServiceControl) (s : Service) : ServiceControlHandlerResult * Service :=
  match e with
  | CStop | CPreshutdown =>
    (NoError, MkService (phase s) (procs s) true (clock s) (statuses s))
  | CInterrogate => (NoError, s)
  | COther => (NotImplemented, s)
  end.

Definition goto (p : Phase) (s : Service) : Service :=
  MkService p (procs s) (is_shutdown s) (clock s) (statuses s).
Definition with_procs (w : Processes) (s : Service) : Service :=
  MkService (phase s) w (is_shutdown s) (clock s) (statuses s).

(** [status_handle.set_service_status(status)?], and the next phase *)
Definition set_service_status (f : Faults) (status : ServiceStatus) (p : Phase) (s : Service) : Service :=
  if status_fails f then goto Failed s
  else MkService p (procs s) (is_shutdown s) (clock s) (statuses s ++ [status]).

Definition expected_shutdown_duration : Z := 61000.

(** The closure of [retain_mut]: the nodes that stay *)
Definition retained (r : outcome bool) (n : Node) : list Node :=
  match r with Ok false => [n] | _ => [] end.

(** One step of [run_service] *)
Definition next `{!WinExt} (f : Faults) (s : Service) : Service :=
  match phase s with
  | Initial =>
    if setup_fails f then goto Failed s
    else set_service_status f (pending_status StartPending 0 1000)
           (match load_config with Ok nodes => Starting [] nodes | _ => Failed end) s
  | Starting started (c :: todo) =>
    let '(r, w) := start_node f c (procs s) in
    goto (Starting (started ++ match r with Ok n => [n] | _ => [] end) todo) (with_procs w s)
  | Starting started [] => set_service_status f (simple_status_with_controls Running) (Looping started) s
  | Looping nodes => if is_shutdown s then goto (Stopping nodes) s else goto (Polling [] nodes) s
  | Polling kept (n :: todo) =>
    let '(r, n, w) := check_exit f n (procs s) in
    goto (Polling (kept ++ retained r n) todo) (with_procs w s)
  | Polling kept [] => match kept with [] => goto (Stopping kept) s | _ => goto (Looping kept) s end
  | Stopping nodes =>
    set_service_status f (pending_status StopPending 0 expected_shutdown_duration)
      (Signalling (clock s) [] nodes) s
  | Signalling shutdown_begin done (n :: todo) =>
    match shutdown f n (procs s) with
    | (Ok _, w) => goto (Signalling shutdown_begin (done ++ [n]) todo) (with_procs w s)
    | (_, w) => goto Failed (with_procs w s)
    end
  | Signalling shutdown_begin done [] => goto (DrainHead shutdown_begin (clock s) 0 done) s
  | DrainHead shutdown_begin t cp nodes =>
    if decide (t < shutdown_begin + expected_shutdown_duration)%Z then
      let cp := as_u32 (cp + 1) in
      set_service_status f
        (pending_status StopPending cp (expected_shutdown_duration - (t - shutdown_begin)))
        (Draining shutdown_begin t cp [] nodes) s
    else goto (Killing nodes) s
  | Draining shutdown_begin t cp kept (n :: todo) =>
    let '(r, n, w) := check_exit f n (procs s) in
    goto (Draining shutdown_begin t cp (kept ++ retained r n) todo) (with_procs w s)
  | Draining shutdown_begin _ cp kept [] =>
    match kept with
    | [] => goto (Killing kept) s
    | _ => goto (DrainHead shutdown_begin (clock s) cp kept) s
    end
  | Killing (n :: todo) => goto (Killing todo) (with_procs (force_shutdown f n (procs s)).2 s)
  | Killing [] => set_service_status f (simple_status SStopped) Ended s
  | Ended => s
  | Failed => s
  end.

(** What the system does in the meantime *)
Inductive os_step (s : Service) : Service → Prop :=
  | os_exit p : os_step s (with_procs (exits p (procs s)) s)
  | os_control e : os_step s (event_handler e s).2
  | os_time d : (0 ≤ d)%Z →
      os_step s (MkService (phase s) (procs s) (is_shutdown s) (clock s + d) (statuses s)).

Inductive step `{!WinExt} (ok : Faults → Prop) (s : Service) : Service → Prop :=
  | step_os s' : os_step s s' → step ok s s'
  | step_next f : ok f → step ok s (next f s).

Definition Service_new : Service := MkService Initial Processes_new false 0 [].

(** Asking whether a process has exited and killing it succeed.  A node or a collector may
    fail to start, a signal or the report of a status may fail, and so may the setup. *)
Definition process_calls_work (f : Faults) : Prop :=
  ∀ p, wait_fails f p = false ∧ kill_fails f p = false.

(** Moreover no signal fails, to a process that runs or to one that has exited, and no
    report of a status. *)
Definition no_faults (f : Faults) : Prop :=
  process_calls_work f ∧ (∀ p, signal_fails f p = false) ∧ status_fails f = false.

(** ** No process is left behind *)

Definition owns (n : Node) (p : Pid) : Prop := p = node_process n ∨ collector_process n = Some p.

Definition phase_nodes (p : Phase) : list Node :=
  match p with
  | Initial | Ended | Failed => []
  | Starting nodes _ | Looping nodes | Stopping nodes | DrainHead _ _ _ nodes | Killing nodes => nodes
  | Polling kept todo | Signalling _ kept todo | Draining _ _ _ kept todo => kept ++ todo
  end.

(** Every process that runs belongs to a node that the service knows. *)
Definition tracked (s : Service) : Prop :=
  ∀ p, p ∈ alive (procs s) → ∃ n, n ∈ phase_nodes (phase s) ∧ owns n p.

Section no_orphans.
Context `{!WinExt}.
Implicit Types (f : Faults) (n : Node) (w : Processes) (s : Service).

Lemma start_node_alive f c w r w' p :
  start_node f c w = (r, w') → p ∈ alive w' → p ∈ alive w ∨ ∃ n, r = Ok n ∧ owns n p.
Proof.
  unfold start_node. destruct (start (start_os f) c) as [[[cmd log] [cc|]]| |]; intros [= <- <-]; simpl;
    rewrite ?elem_of_union, ?elem_of_singleton; unfold owns; naive_solver.
Qed.

Lemma check_exit_tracked f n w r n' w' p :
  process_calls_work f → check_exit f n w = (r, n', w') → p ∈ alive w' →
  p ∈ alive w ∧ (owns n p → ∃ n'', n'' ∈ retained r n' ∧ owns n'' p).
Proof.
  intros Hf. pose proof (λ p, proj1 (Hf p)) as Hw. pose proof (λ p, proj2 (Hf p)) as Hk.
  unfold check_exit, try_wait, kill, owns. rewrite Hw.
  destruct (collector_process n) as [c|] eqn:Ec; [rewrite Hw, Hk|];
    repeat (case_bool_decide; simpl); intros [= <- <- <-]; simpl;
    rewrite ?elem_of_difference, ?elem_of_singleton; intros Hp;
    (split; [naive_solver|]); intros Ho; set_unfold; naive_solver.
Qed.

Lemma force_shutdown_alive f n w p :
  process_calls_work f → p ∈ alive (force_shutdown f n w).2 → p ∈ alive w ∧ ¬ owns n p.
Proof.
  intros Hf. pose proof (λ p, proj2 (Hf p)) as Hk. unfold force_shutdown, kill, owns.
  rewrite Hk. destruct (collector_process n) as [c|]; [rewrite Hk|]; simpl; set_unfold; naive_solver.
Qed.

Lemma check_exit_pass f n w r n' w' kept todo p :
  process_calls_work f → check_exit f n w = (r, n', w') →
  (p ∈ alive w → ∃ m, m ∈ kept ++ n :: todo ∧ owns m p) →
  p ∈ alive w' → ∃ m, m ∈ (kept ++ retained r n') ++ todo ∧ owns m p.
Proof.
  intros Hf Hc Ht Hp. destruct (check_exit_tracked _ _ _ _ _ _ _ Hf Hc Hp) as [Hw Hn].
  destruct (Ht Hw) as (m & Hm & Ho). rewrite elem_of_app, elem_of_cons in Hm.
  destruct Hm as [Hm|[->|Hm]]; [| |exists m; set_solver].
  - exists m. set_solver.
  - destruct (Hn Ho) as (m' & ? & ?). exists m'. set_solver.
Qed.

(** The service gives up with processes running only when a report or a signal fails. *)
Definition gave_up f s : Prop :=
  phase s = Failed ∧ (status_fails f = true ∨ ∃ p, signal_fails f p = true).

Lemma tracked_status f status p s :
  phase_nodes p = phase_nodes (phase s) → tracked s →
  gave_up f (set_service_status f status p s) ∨ tracked (set_service_status f status p s).
Proof.
  intros Hp Ht. unfold set_service_status. destruct (status_fails f) eqn:Hs; [by left; split; auto|].
  right. intros q Hq. simpl in *. rewrite Hp. by apply Ht.
Qed.

Lemma tracked_next f s :
  process_calls_work f → tracked s → gave_up f (next f s) ∨ tracked (next f s).
Proof.
  intros Hf Ht. pose proof (λ st p Hp, tracked_status f st p s Hp Ht) as Hst. pose proof Ht as Ht0.
  revert Ht Hst. unfold next, tracked at 1.
  destruct (phase s) as [|started [|c todo]|nodes|kept [|n todo]|nodes|b done [|n todo]|b t cp nodes
    |b t cp kept [|n todo]|[|n todo]| |] eqn:Ep; simpl; intros Ht Hst.
  - destruct (setup_fails f); [by right|]. apply Hst. by destruct load_config.
  - by apply Hst.
  - right. intros p. destruct (start_node f c (procs s)) as [r w] eqn:E. simpl. intros Hp.
    destruct (start_node_alive _ _ _ _ _ _ E Hp) as [Hw|(n & -> & Hn)]; [|exists n; set_solver].
    destruct (Ht _ Hw) as (n & ? & ?). exists n. set_solver.
  - right. by destruct (is_shutdown s).
  - right. rewrite app_nil_r in Ht. by destruct kept.
  - right. intros p. destruct (check_exit f n (procs s)) as [[r n'] w] eqn:E. simpl.
    by apply (check_exit_pass _ _ _ _ _ _ _ _ _ Hf E (Ht p)).
  - by apply Hst.
  - right. by rewrite app_nil_r in Ht.
  - unfold shutdown, send_child_ctrl_break. destruct (signal_fails f _) eqn:Hs; simpl.
    + left. split; [done|]. right. by eexists.
    + right. unfold tracked. simpl. by rewrite <- app_assoc.
  - case_decide; [|by right]. by apply Hst.
  - right. rewrite app_nil_r in Ht. by destruct kept.
  - right. intros p. destruct (check_exit f n (procs s)) as [[r n'] w] eqn:E. simpl.
    by apply (check_exit_pass _ _ _ _ _ _ _ _ _ Hf E (Ht p)).
  - by apply Hst.
  - right. intros p Hp. apply (force_shutdown_alive _ _ _ _ Hf) in Hp as [Hp Hno].
    destruct (Ht _ Hp) as (m & Hm & Ho). exists m. set_solver.
  - by right.
  - by right.
Qed.

Lemma tracked_os s s' : os_step s s' → tracked s → tracked s'.
Proof.
  intros [p|e|d Hd] Ht; [|by destruct e|done]. intros q Hq. apply Ht. simpl in Hq. set_solver.
Qed.

Lemma os_phase s s' : os_step s s' → phase s' = phase s.
Proof. by intros [p|[]|d Hd]. Qed.

Lemma tracked_working s :
  rtc (step process_calls_work) Service_new s → phase s = Failed ∨ tracked s.
Proof.
  intros Hr. refine (rtc_ind_r (R:=step process_calls_work)
    (λ s, phase s = Failed ∨ tracked s) Service_new _ _ s Hr); [by right|].
  intros s1 s2 _ [s2' Hs|f Hf] [Hp|Ht].
  - left. by rewrite (os_phase _ _ Hs).
  - right. by eapply tracked_os.
  - left. unfold next. by rewrite Hp.
  - destruct (tracked_next f s1 Hf Ht) as [[? _]|?]; auto.
Qed.

Lemma tracked_reachable s : rtc (step no_faults) Service_new s → tracked s.
Proof.
  intros Hr. refine (rtc_ind_r (R:=step no_faults) tracked Service_new _ _ s Hr); [done|].
  intros s1 s2 _ [s2' Hs|f (Hf & Hsig & Hst)] Ht; [by eapply tracked_os|].
  destruct (tracked_next f s1 Hf Ht) as [[_ [Hs|[p Hs]]]|?]; [congruence| |done].
  by rewrite Hsig in Hs.
Qed.

Lemma tracked_none s : tracked s → phase_nodes (phase s) = [] → alive (procs s) = ∅.
Proof.
  intros Ht Hn. apply set_eq. intros p. split; [|set_solver]. intros Hp.
  destruct (Ht p Hp) as (n & Hin & _). rewrite Hn in Hin. set_solver.
Qed.

(** C16: the service leaves no process behind.  Whatever the configuration is, whichever
    nodes and collectors fail to start, whenever processes exit, and whenever and however
    often the service is told to stop, provided that asking for the state of a process and
    killing it never fail: when the service has ended with success, no node and no collector
    that it started is running, even if reports and signals fail on the way; when no signal
    and no report of a status fails, the same holds when it has ended with an error. *)
Theorem service_leaves_no_process :
  (∀ s, rtc (step process_calls_work) Service_new s → phase s = Ended → alive (procs s) = ∅)
  ∧ ∀ s, rtc (step no_faults) Service_new s → phase s = Ended ∨ phase s = Failed → alive (procs s) = ∅.
Proof.
  split; intros s Hr He.
  - destruct (tracked_working s Hr) as [Hf|Ht]; [congruence|]. apply tracked_none; [done|by rewrite He].
  - apply tracked_none; [by apply tracked_reachable|]. by destruct He as [-> | ->].
Qed.
End no_orphans.

(** ** The service stops *)

(** A round: the system acts, at least a millisecond passes, and the service makes a step. *)
Inductive round `{!WinExt} (s : Service) : Service → Prop :=
  | MkRound s' d f :
      rtc os_step s s' → (1 ≤ d)%Z →
      round s (next f (MkService (phase s') (procs s') (is_shutdown s') (clock s' + d) (statuses s'))).

Definition remaining (shutdown_begin t : Z) : nat :=
  Z.to_nat (shutdown_begin + expected_shutdown_duration - t).

(** The number of rounds in which [k] nodes are drained and killed when [r] milliseconds
    are left *)
Definition drain_budget (r k : nat) : nat := r * (k + 3) + (k + 3).

Definition stop_budget (k : nat) : nat := drain_budget (Z.to_nat expected_shutdown_duration) k + k + 3.

(** A bound on the rounds until the service has ended, once it is told to stop *)
Definition budget `{!WinExt} (s : Service) : nat :=
  match phase s with
  | Initial =>
    match load_config with Ok nodes => stop_budget (length nodes) + length nodes + 4 | _ => 1 end
  | Starting started todo => stop_budget (length started + length todo) + length todo + 3
  | Looping nodes => stop_budget (length nodes) + 1
  | Polling kept todo => stop_budget (length kept + length todo) + length todo + 2
  | Stopping nodes => stop_budget (length nodes)
  | Signalling b done todo =>
    drain_budget (Z.to_nat expected_shutdown_duration) (length done + length todo) + length todo + 1
  | DrainHead b t _ nodes => drain_budget (remaining b t) (length nodes)
  | Draining b t _ kept todo =>
    drain_budget (remaining b (t + 1)) (length kept + length todo) + length todo + 1
  | Killing todo => length todo + 1
  | Ended | Failed => 0
  end.

(** The readings of the clock that the service holds are not in the future. *)
Definition past (s : Service) : Prop :=
  match phase s with
  | Signalling b _ _ => (b ≤ clock s)%Z
  | DrainHead b t _ _ | Draining b t _ _ _ => (b ≤ t ≤ clock s)%Z
  | _ => True
  end.

Definition has_ended (s : Service) : Prop := phase s = Ended ∨ phase s = Failed.

Section liveness.
Context `{!WinExt}.
#[local] Opaque expected_shutdown_duration.
Implicit Types (f : Faults) (s : Service).

Lemma drain_budget_mono r r' k k' : r ≤ r' → k ≤ k' → drain_budget r k ≤ drain_budget r' k'.
Proof. unfold drain_budget. nia. Qed.

Lemma stop_budget_mono k k' : k ≤ k' → stop_budget k ≤ stop_budget k'.
Proof. intros. unfold stop_budget. pose proof (drain_budget_mono (Z.to_nat expected_shutdown_duration)
  (Z.to_nat expected_shutdown_duration) k k'). lia. Qed.

Lemma retained_length r n : length (retained r n) ≤ 1.
Proof. destruct r as [[]| |]; simpl; lia. Qed.

Lemma started_length (r : outcome Node) : length (match r with Ok n => [n] | _ => [] end) ≤ 1.
Proof. destruct r; simpl; lia. Qed.

Lemma past_next f s : past s → past (next f s).
Proof.
  unfold past, next, set_service_status.
  destruct (phase s) as [|started [|c todo]|nodes|kept [|n todo]|nodes|b done [|n todo]|b t cp nodes
    |b t cp kept [|n todo]|[|n todo]| |] eqn:Ep; simpl; rewrite ?Ep; try done;
    repeat first [ progress simpl | case_decide | case_match ]; simplify_eq/=; try done; lia.
Qed.

Lemma past_os s s' : os_step s s' → past s → past s'.
Proof. destruct 1 as [p|[]|d Hd]; unfold past; simpl; try done. destruct (phase s); done || lia. Qed.

(** The budget goes down with every step of the service. *)
Lemma budget_next f s t0 :
  past (MkService (phase s) (procs s) (is_shutdown s) t0 (statuses s)) → (t0 + 1 ≤ clock s)%Z →
  is_shutdown s = true → has_ended s ∨ budget (next f s) < budget s.
Proof.
  unfold past, budget, next, set_service_status, has_ended.
  destruct (phase s) as [|started [|c todo]|nodes|kept [|n todo]|nodes|b done [|n todo]|b t cp nodes
    |b t cp kept [|n todo]|[|n todo]| |] eqn:Ep; simpl; intros Hp Hc Hs; try by auto.
  all: right.
  - destruct (setup_fails f), (status_fails f); simpl; destruct load_config; simpl; lia.
  - destruct (status_fails f); simpl; rewrite ?Nat.add_0_r; lia.
  - destruct (start_node f c (procs s)) as [r w]. simpl. rewrite length_app.
    pose proof (started_length r).
    pose proof (stop_budget_mono (length started + length (match r with Ok n => [n] | _ => [] end)
      + length todo) (length started + S (length todo))). lia.
  - rewrite Hs. simpl. lia.
  - destruct kept; simpl; rewrite ?Nat.add_0_r; lia.
  - destruct (check_exit f n (procs s)) as [[r n'] w]. simpl. rewrite length_app.
    pose proof (retained_length r n').
    pose proof (stop_budget_mono (length kept + length (retained r n') + length todo)
      (length kept + S (length todo))). lia.
  - unfold stop_budget. destruct (status_fails f); simpl; lia.
  - rewrite ?Nat.add_0_r. rewrite Nat.add_1_r. apply le_n_S.
    apply drain_budget_mono; unfold remaining; lia.
  - unfold shutdown, send_child_ctrl_break. destruct (signal_fails f _); simpl; [lia|].
    rewrite length_app, <- (Nat.add_assoc (length done)). simpl. lia.
  - case_decide as Ht; simpl; [|unfold drain_budget; lia]. destruct (status_fails f); simpl;
      unfold drain_budget; [lia|].
    assert (remaining b t = S (remaining b (t + 1))) as -> by (unfold remaining; lia). lia.
  - rewrite ?Nat.add_0_r. destruct kept as [|n kept]; simpl; [unfold drain_budget; lia|].
    assert (drain_budget (remaining b (clock s)) (S (length kept))
            ≤ drain_budget (remaining b (t + 1)) (S (length kept)))
      by (apply drain_budget_mono; unfold remaining; lia). lia.
  - destruct (check_exit f n (procs s)) as [[r n'] w]. simpl. rewrite length_app.
    pose proof (retained_length r n').
    pose proof (drain_budget_mono (remaining b (t + 1)) (remaining b (t + 1))
      (length kept + length (retained r n') + length todo) (length kept + S (length todo))). lia.
  - destruct (status_fails f); simpl; lia.
Qed.

Lemma os_keeps s s' :
  rtc os_step s s' → past s → is_shutdown s = true →
  past s' ∧ is_shutdown s' = true ∧ budget s' = budget s ∧ (has_ended s → has_ended s').
Proof.
  induction 1 as [|s1 s2 s3 Hs _ IH]; [by auto|]. intros Hp Hf.
  destruct (IH (past_os _ _ Hs Hp)) as (? & ? & Hb & He).
  { by destruct Hs as [|[]|]. }
  split; [done|]. split; [done|]. rewrite Hb. split; [by destruct Hs as [|[]|]|].
  intros. apply He. by destruct Hs as [|[]|].
Qed.

Lemma ended_next f s : has_ended s → next f s = s.
Proof. unfold has_ended, next. by intros [-> | ->]. Qed.

Lemma next_shutdown f s : is_shutdown (next f s) = is_shutdown s.
Proof.
  unfold next, set_service_status, goto, with_procs.
  repeat first [ progress simpl | case_decide | case_match ]; done.
Qed.

Lemma round_budget s s' :
  round s s' → past s → is_shutdown s = true →
  past s' ∧ is_shutdown s' = true ∧ (has_ended s' ∨ budget s' < budget s).
Proof.
  intros [s1 d f Hos Hd] Hp Hf. destruct (os_keeps _ _ Hos Hp Hf) as (Hp1 & Hf1 & Hb & He).
  set (s2 := MkService _ _ _ _ _).
  assert (past s2) as Hp2 by (unfold past, s2 in *; simpl; destruct (phase s1); done || lia).
  split; [by apply past_next|]. split; [by rewrite next_shutdown|].
  destruct (budget_next f s2 (clock s1)) as [He2|Hlt]; [by destruct s1|simpl; lia|done| |].
  - left. by rewrite ended_next.
  - right. rewrite <- Hb. exact Hlt.
Qed.

Lemma past_reachable s : rtc (step (λ _, True)) Service_new s → past s.
Proof.
  intros Hr. refine (rtc_ind_r (R:=step (λ _, True)) past Service_new _ _ s Hr); [done|].
  intros s1 s2 _ [s2' Hs|f _]; [by apply past_os|by apply past_next].
Qed.

(** C17: the service stops.  Once it is told to stop, in whatever state it is, however the
    processes behave and whichever calls to the system fail, it ends within a number of
    steps that is known in advance, as long as time passes: [(61000 + 1)·(k + 3)] steps
    and a few more when it watches [k] nodes. *)
Theorem service_stops s n s' :
  rtc (step (λ _, True)) Service_new s → is_shutdown s = true →
  nsteps round n s s' → budget s ≤ n → has_ended s'.
Proof.
  intros Hr%past_reachable Hf Hn. revert Hr Hf. induction Hn as [s|n s s1 s' Hs _ IH]; intros Hp Hf Hb.
  - unfold budget in Hb. unfold has_ended. destruct (phase s); auto; exfalso; revert Hb;
      unfold stop_budget, drain_budget; try lia. destruct load_config; lia.
  - destruct (round_budget _ _ Hs Hp Hf) as (Hp1 & Hf1 & [He|Hlt]).
    + apply IH; [done|done|]. unfold budget. destruct He as [-> | ->]; lia.
    + apply IH; [done|done|]. lia.
Qed.
End liveness.

(** ** Failures *)

Section failures.
Context `{!WinExt}.

Lemma failed_frozen ok s s' :
  rtc (step ok) s s' → phase s = Failed →
  phase s' = Failed ∧ signalled (procs s') = signalled (procs s) ∧ killed (procs s') = killed (procs s).
Proof.
  induction 1 as [s|s1 s2 s3 Hs _ IH]; [by auto|]. intros Hp.
  assert (phase s2 = Failed ∧ signalled (procs s2) = signalled (procs s1)
          ∧ killed (procs s2) = killed (procs s1)) as (Hp2 & <- & <-); [|by apply IH].
  destruct Hs as [? [p|[]|d Hd]|f Hf]; simpl; try done.
  rewrite ended_next; [done|by right].
Qed.

(** When the signal to one node cannot be sent, the service gives up: the nodes that
    come after it are never sent a signal, no process is ever killed, and the service
    does not report that it has stopped. *)
Theorem failed_signal_abandons_nodes ok s b done n todo f s' :
  phase s = Signalling b done (n :: todo) → signal_fails f (node_process n) = true →
  rtc (step ok) (next f s) s' →
  phase s' = Failed ∧ signalled (procs s') = signalled (procs s) ∧ killed (procs s') = killed (procs s).
Proof.
  intros Hp Hf Hr. pose proof (failed_frozen _ _ _ Hr) as Hfr. revert Hfr.
  unfold next. rewrite Hp. unfold shutdown, send_child_ctrl_break. rewrite Hf. simpl. by auto.
Qed.
End failures.

(** What is reported of the output of a node is an end of it. *)
Lemma after_newline_suffix s r : after_newline s = Some r → r `suffix_of` s.
Proof.
  induction s as [|c s IH]; simpl; [done|]. case_decide; [intros [= <-]; by exists [c]|].
  intros Hr. by apply suffix_cons_r, IH.
Qed.

Lemma from_utf8_id bs out : from_utf8 bs = Ok out → out = bs.
Proof. unfold from_utf8. case_match; by intros [= <-]. Qed.

Lemma error_output_suffix c out :
  get_error_output c = Ok out →
  out `suffix_of` c ∧ length out ≤ ERROR_MAX_LENGTH ∧ (length c ≤ ERROR_MAX_LENGTH → out = c).
Proof.
  unfold get_error_output. case_decide as H0.
  { apply nil_length_inv in H0 as ->. intros [= <-]. split; [done|]. split; [simpl; lia|done]. }
  case_decide as H1; [by intros ->%from_utf8_id|].
  intros (buf & ->%from_utf8_id & [= <-])%outcome_bind_ok.
  set (t := drop _ c). assert (t `suffix_of` c) as Ht by apply suffix_drop.
  assert (length t = ERROR_MAX_LENGTH) as Hl by (unfold t; rewrite length_drop; lia).
  split; [|split; [|lia]].
  - destruct (after_newline t) eqn:E; simpl; [|done]. apply after_newline_suffix in E. by etrans.
  - destruct (after_newline t) eqn:E; simpl; [|lia]. apply after_newline_suffix, suffix_length in E. lia.
Qed.

(** The output of a node that has stopped is lost when it is longer than the limit and
    the limit falls within a character: reading fails, and the service reports no output
    at all. *)
Theorem error_output_lost pre c rest :
  pre ≠ [] → S (length rest) = ERROR_MAX_LENGTH → continuation c = true →
  ∃ e, get_error_output (pre ++ c :: rest) = Err e.
Proof.
  intros Hpre Hrest Hc. pose proof (length_pos _ Hpre). unfold get_error_output.
  rewrite length_app. simpl length. rewrite !decide_False by lia.
  rewrite drop_app_length' by lia. unfold from_utf8. exists (Other "invalid utf-8 sequence").
  unfold continuation in Hc. apply bool_decide_eq_true in Hc.
  cbn [utf8_valid_fuel length]. rewrite !bool_decide_false by lia. done.
Qed.

(** *** Witnesses *)

Module ServiceExample.
Import WindowsExample.

Definition fine : Faults := MkFaults false (λ _, false) (λ _, false) (λ _, false) false all_ok.

#[local] Instance win_example : WinExt := win.

Lemma fine_ok : no_faults fine.
Proof. by split_and!. Qed.

Definition run (n : nat) (s : Service) : Service := Nat.iter n (next fine) s.

Lemma run_reachable ok n s :
  ok fine → rtc (step ok) Service_new s → rtc (step ok) Service_new (run n s).
Proof.
  intros Hok Hs. induction n as [|n IH]; [done|]. eapply rtc_r; [exact IH|]. by apply step_next.
Qed.

(** The service has started one node and its collector, and is told to stop. *)
Definition watching : Service := run 4 Service_new.
Definition told : Service := (event_handler CStop watching).2.

Lemma told_reachable ok : ok fine → rtc (step ok) Service_new told.
Proof.
  intros Hok. eapply rtc_r; [|apply step_os, os_control]. apply run_reachable; [done|apply rtc_refl].
Defined.

(** The node exits after it was signalled; then its collector is killed. *)
Definition signalled_state : Service := run 5 told.
Definition exited_state : Service :=
  with_procs (exits 0 (procs signalled_state)) signalled_state.

Lemma service_leaves_no_process_witness :
  alive (procs watching) = {[0; 1]} ∧ alive (procs (run 6 exited_state)) = ∅.
Proof.
  split; [vm_compute; reflexivity|]. apply (proj2 service_leaves_no_process).
  - apply run_reachable; [exact fine_ok|]. eapply rtc_r; [|apply step_os, (os_exit _ 0)].
    apply run_reachable; [exact fine_ok|]. apply told_reachable. exact fine_ok.
  - left. vm_compute. reflexivity.
Defined.

(** The node ignores the signal: when the time is over it is killed. *)
Definition later (d : Z) (s : Service) : Service :=
  MkService (phase s) (procs s) (is_shutdown s) (clock s + d) (statuses s).
Definition overdue : Service := run 2 (later 61000 (run 3 signalled_state)).

Lemma later_round s : round s (next fine (later 1 s)).
Proof. by apply (MkRound s s 1 fine). Qed.

Lemma overdue_reachable : rtc (step (λ _, True)) Service_new overdue.
Proof.
  apply run_reachable; [done|]. eapply rtc_r; [|by apply step_os, (os_time _ 61000)].
  apply run_reachable; [done|]. apply run_reachable; [done|]. by apply told_reachable.
Qed.

Lemma service_stops_witness :
  alive (procs overdue) = {[0; 1]}
  ∧ has_ended (next fine (later 1 (next fine (later 1 overdue)))).
Proof.
  split; [vm_compute; reflexivity|].
  apply (service_stops overdue 2).
  - exact overdue_reachable.
  - vm_compute. reflexivity.
  - eapply nsteps_l; [apply later_round|]. eapply nsteps_l; [apply later_round|]. apply nsteps_O.
  - vm_compute. repeat constructor.
Defined.

(** A console that does not deliver signals *)
Definition mute : Faults := MkFaults false (λ _, false) (λ _, false) (λ _, true) false all_ok.
Definition signalling : Service := run 4 told.

Lemma failed_signal_abandons_nodes_witness :
  alive (procs (next mute signalling)) = {[0; 1]} ∧ killed (procs (next mute signalling)) = ∅.
Proof.
  split; [vm_compute; reflexivity|].
  destruct (phase signalling) as [| | | | |b done todo| | | | |] eqn:Ep; try (vm_compute in Ep; discriminate Ep).
  destruct todo as [|n todo]; [vm_compute in Ep; discriminate Ep|].
  destruct (failed_signal_abandons_nodes (λ _, True) signalling b done n todo mute
    (next mute signalling) Ep) as (_ & _ & Hk).
  - reflexivity.
  - apply rtc_refl.
  - rewrite Hk. vm_compute. reflexivity.
Defined.

(** The two octets of an accented letter, and 999 letters after it *)
Lemma error_output_lost_witness :
  (∃ e, get_error_output (195%Z :: 169%Z :: repeat 97%Z 999) = Err e)
  ∧ is_ok (from_utf8 (195%Z :: 169%Z :: repeat 97%Z 999)) = true.
Proof.
  split; [|vm_compute; reflexivity].
  apply (error_output_lost [195%Z] 169%Z (repeat 97%Z 999)); [discriminate| |]; vm_compute; reflexivity.
Defined.
End ServiceExample.
