(* ===== verification/Preferences.v ===== *)
(** * The persistent configuration

    Models [AppPreferences] of [concordium-node/src/configuration.rs] and
    [instantiate_node] of [concordium-node/src/bin/cli.rs], which keeps the identity of the
    node in it.  The format of the file is that of the [preferences] library, a
    parameter. *)
From S2P Require Import Prelude.
From S2P Require Import PeerTypes.
From Stdlib Require Import Ascii.

(** [PreferencesMap::save_to] and [load_from] *)
Class PrefExt := {
  save_to : gmap string (list ascii) → bytes;
  load_from : bytes → outcome (gmap string (list ascii));
}.

Class PrefLaws `{!PrefExt} := {
  load_save m : load_from (save_to m) = Ok m;
}.

(** What happens when the file is written: it cannot be opened, the library reports an
    error, or the last flush fails and leaves a part of the file behind. *)
Inductive WriteResult :=
  | Written
  | OpenFailed
  | SaveFailed (rest : bytes)
  | FlushFailed (rest : bytes).

(** The file of the preferences, if there is one *)
Abbreviation File := (option bytes) (only parsing).

Record AppPreferences := MkAppPreferences {
  preferences_map : gmap string (list ascii);
  main_config : File;
}.

Definition APP_PREFERENCES_KEY_VERSION : string := "VERSION".
Definition APP_PREFERENCES_PERSISTED_NODE_ID : string := "PERSISTED_NODE_ID".

Section preferences.
Context `{!PrefExt}.

(** [AppPreferences::set_config]; the value is already text. *)
Definition set_config (w : WriteResult) (key : string) (value : option (list ascii))
    (p : AppPreferences) : bool * AppPreferences :=
  let m := match value with
           | Some val => <[key:=val]> (preferences_map p)
           | None => delete key (preferences_map p)
           end in
  match main_config p, w with
  | None, _ | _, OpenFailed => (false, MkAppPreferences m (main_config p))
  | Some _, Written => (true, MkAppPreferences m (Some (save_to m)))
  | Some _, SaveFailed rest => (false, MkAppPreferences m (Some rest))
  | Some _, FlushFailed rest => (true, MkAppPreferences m (Some rest))
  end.

(** [AppPreferences::get_config] *)
Definition get_config {X} (from_str : list ascii → outcome X) (key : string) (p : AppPreferences) :
    outcome (option X) :=
  match preferences_map p !! key with
  | Some x_str => x ← from_str x_str; Ok (Some x)
  | None => Ok None
  end.

(** [AppPreferences::new]: [open_ok] and [create_ok] say whether the file can be opened
    and created. *)
Definition AppPreferences_new (open_ok create_ok : bool) (w : WriteResult) (version : list ascii)
    (file : File) : outcome AppPreferences :=
  new_prefs ←
    match file with
    | Some content =>
      if open_ok then
        Ok (MkAppPreferences (match load_from content with Ok prefs => prefs | _ => ∅ end) file)
      else bail "Could not open configuration file"
    | None =>
      if create_ok then Ok (MkAppPreferences ∅ (Some []))
      else bail "Could not create configuration file"
    end;
  Ok (set_config w APP_PREFERENCES_KEY_VERSION (Some version) new_prefs).2.

(** The identity of the node in [instantiate_node], and the preferences with which the
    node is created; [fresh] is a random identity. *)
Definition instantiate_node (id : option P2PNodeId) (fresh : P2PNodeId) (w : WriteResult)
    (app_prefs : AppPreferences) : outcome (P2PNodeId * AppPreferences) :=
  node_id ←
    match id with
    | None =>
      maybe_id ← get_config P2PNodeId_from_str APP_PREFERENCES_PERSISTED_NODE_ID app_prefs;
      Ok (default fresh maybe_id)
    | Some id => Ok id
    end;
  Ok (node_id, (set_config w APP_PREFERENCES_PERSISTED_NODE_ID (Some (P2PNodeId_fmt node_id))
                  app_prefs).2).

(** A start of the node, on the file that the last one left *)
Definition start_up (version : list ascii) (id : option P2PNodeId) (fresh : P2PNodeId)
    (w1 w2 : WriteResult) (file : File) : outcome (P2PNodeId * File) :=
  app_prefs ← AppPreferences_new true true w1 version file;
  '(node_id, app_prefs) ← instantiate_node id fresh w2 app_prefs;
  Ok (node_id, main_config app_prefs).

(** ** The node keeps its identity *)

Context `{!PrefLaws}.

Lemma node_id_round_trip id : fits 64 (as_raw id) → P2PNodeId_from_str (P2PNodeId_fmt id) = Ok id.
Proof.
  intros Hf. unfold P2PNodeId_from_str, P2PNodeId_fmt. rewrite Hex.from_str_format by done. by destruct id.
Qed.

Lemma get_set_config {X} (from_str : list ascii → outcome X) w key value p :
  get_config from_str key (set_config w key (Some value) p).2 = (x ← from_str value; Ok (Some x)).
Proof.
  unfold get_config, set_config.
  destruct (main_config p), w; simpl; by rewrite lookup_insert_eq.
Qed.

(** The file holds the preferences. *)
Definition in_sync (p : AppPreferences) : Prop := main_config p = Some (save_to (preferences_map p)).

Lemma AppPreferences_new_written version file :
  ∃ p, AppPreferences_new true true Written version file = Ok p ∧ in_sync p
    ∧ ∀ m, file = Some (save_to m) →
        preferences_map p = <[APP_PREFERENCES_KEY_VERSION:=version]> m.
Proof.
  unfold AppPreferences_new. destruct file as [content|]; rewrite bind_Ok; eexists; (split; [done|]);
    (split; [done|]); intros m [= ->]. simpl. by rewrite load_save.
Qed.

Lemma from_digits_fits s acc x : fits 64 acc → Hex.from_digits acc s = Ok x → fits 64 x.
Proof.
  revert acc. induction s as [|c s IH]; intros acc Hacc; simpl; [by intros [= <-]|].
  destruct (Hex.to_digit c); [|done]. case_decide; [|done]. by apply IH.
Qed.

Lemma node_id_from_str_fits s id : P2PNodeId_from_str s = Ok id → fits 64 (as_raw id).
Proof.
  unfold P2PNodeId_from_str, Hex.from_str_radix_16. intros Hs.
  destruct (match s with [] => _ | _ => _ end) as [x| |] eqn:E; simplify_eq/=.
  assert (fits 64 0) as Hz by (unfold fits; lia).
  destruct s as [|c [|c' s]]; [done| |]; case_decide; try done; by eapply from_digits_fits.
Qed.

Lemma instantiate_node_ok id fresh p node_id p' :
  fits 64 (as_raw fresh) → (∀ i, id = Some i → fits 64 (as_raw i)) →
  instantiate_node id fresh Written p = Ok (node_id, p') → in_sync p →
  fits 64 (as_raw node_id) ∧ in_sync p'
  ∧ preferences_map p' !! APP_PREFERENCES_PERSISTED_NODE_ID = Some (P2PNodeId_fmt node_id).
Proof.
  intros Hf Hi (i & Hid & [= <- <-])%outcome_bind_ok Hs. split.
  - destruct id as [j|]; [injection Hid as <-; by apply Hi|].
    apply outcome_bind_ok in Hid as ([j|] & Hj & [= <-]); [|done].
    unfold get_config in Hj. destruct (preferences_map p !! _); [|done].
    apply outcome_bind_ok in Hj as (? & Hj & [= <-]). by eapply node_id_from_str_fits.
  - unfold in_sync in *. unfold set_config. rewrite Hs. simpl. split; [done|apply lookup_insert_eq].
Qed.

(** A node keeps its identity.  Once it has started with the configuration file
    written, be it with an identity from the command line, one from the file or a fresh
    one, the next start without an identity on the command line gives it the same
    identity, whichever fresh one is drawn and whichever version runs. *)
Theorem node_id_stable version id fresh file node_id file' :
  fits 64 (as_raw fresh) → (∀ i, id = Some i → fits 64 (as_raw i)) →
  start_up version id fresh Written Written file = Ok (node_id, file') →
  ∀ version' fresh', ∃ file'', start_up version' None fresh' Written Written file' = Ok (node_id, file'').
Proof.
  intros Hf Hi Hs version' fresh'. unfold start_up in Hs.
  destruct (AppPreferences_new_written version file) as (p & Hp & Hsync & _).
  rewrite Hp, bind_Ok in Hs. apply outcome_bind_ok in Hs as ([i p'] & Hin & [= <- <-]).
  destruct (instantiate_node_ok _ _ _ _ _ Hf Hi Hin Hsync) as (Hfit & Hsync' & Hl).
  destruct (AppPreferences_new_written version' (main_config p')) as (p2 & Hp2 & Hs2 & Hm).
  unfold start_up. rewrite Hp2, bind_Ok. unfold instantiate_node, get_config.
  rewrite (Hm _ Hsync'), lookup_insert_ne, Hl by done. rewrite (node_id_round_trip _ Hfit).
  eexists. reflexivity.
Qed.

(** The result of [set_config] does not tell that the last flush failed: the preferences
    are reported as saved although the file may hold nothing of them. *)
Lemma set_config_flush_lost key value p rest content :
  main_config p = Some content →
  (set_config (FlushFailed rest) key value p).1 = true
  ∧ main_config (set_config (FlushFailed rest) key value p).2 = Some rest.
Proof. intros Hp. unfold set_config. by rewrite Hp. Qed.
End preferences.

(** *** Witnesses *)

Module PreferencesExample.

Definition first : P2PNodeId := MkP2PNodeId 2748.

(** Text as the octets of the encoded map *)
#[local] Instance prefs : PrefExt := {|
  save_to m := [Zpos (encode m)];
  load_from bs := match bs with [Zpos p] => context "json" (decode p) | _ => bail "json" end;
|}.

#[local] Instance prefs_laws : PrefLaws.
Proof. split. intros m. simpl. by rewrite decode_encode. Qed.

(** The first start draws an identity, the second one finds it. *)
Lemma node_id_stable_witness :
  ∃ file, start_up ["6"%char] None (MkP2PNodeId 1) Written Written
            (match start_up ["5"%char] None first Written Written None with Ok (_, f) => f | _ => None end)
          = Ok (first, file).
Proof.
  destruct (start_up ["5"%char] None first Written Written None) as [[i f]| |] eqn:E.
  - assert (i = first) as Hi by (vm_compute in E; injection E as <- _; reflexivity).
    rewrite <- Hi. apply (node_id_stable ["5"%char] None first None i f).
    + vm_compute. intuition discriminate.
    + discriminate.
    + exact E.
  - vm_compute in E. discriminate E.
  - vm_compute in E. discriminate E.
Defined.
End PreferencesExample.
