(* ===== verification/Metrics.v ===== *)
(** * Metrics

    Models how [concordium-node/src/stats_export_service.rs] registers the counters of the
    node and makes them known: the pages of the statistics server and the thread that
    pushes them to a gateway.  The [prometheus] library is a parameter where it encodes;
    its registry is the map of the registered names, and [gather] reads it. *)
From S2P Require Import Prelude.
From S2P Require Import PeerTypes.
From S2P Require Import NetTypes.
From S2P Require Import NodeState.

(** ** The registry *)

(** A metric that is registered: its name and where its value is kept *)
Definition Metric : Type := string * (StatsExportService → Z).

(** [Registry::register] refuses a name that is taken. *)
Definition register (m : Metric) (r : list Metric) : outcome (list Metric) :=
  if decide (m.1 ∈ r.*1) then bail "Duplicate metrics collector registration attempted"
  else Ok (r ++ [m]).

Fixpoint register_all (ms : list Metric) (r : list Metric) : outcome (list Metric) :=
  match ms with
  | [] => Ok r
  | m :: ms => r ← register m r; register_all ms r
  end.

(** A metric that is registered but not kept: nothing ever changes it. *)
Definition unused (name : string) : Metric := (name, λ _, 0%Z).

(** The registrations of [StatsExportService::new], in order *)
Definition metrics_of_new : list Metric :=
  [ ("peer_number", peers_gauge);
    unused "queue_size";
    unused "resend_queue_size";
    unused "packets_dropped";
    ("conn_received", connections_received);
    ("packets_received", pkts_received_counter);
    ("packets_sent", pkts_sent_counter);
    unused "invalid_packets_received";
    unused "unknown_packets_received";
    unused "invalid_network_packets_received";
    unused "packets_resend";
    ("inbound_high_priority_consensus_drops", inbound_high_priority_consensus_drops_counter);
    ("inbound_low_priority_consensus_drops", inbound_low_priority_consensus_drops_counter);
    ("inbound_high_priority_consensus_counter", inbound_high_priority_consensus_counter);
    ("inbound_low_priority_consensus_counter", inbound_low_priority_consensus_counter);
    ("inbound_high_priority_consensus_size", inbound_high_priority_consensus_size);
    ("inbound_low_priority_consensus_size", inbound_low_priority_consensus_size);
    ("outbound_high_priority_consensus_size", outbound_high_priority_consensus_size);
    ("outbound_low_priority_consensus_size", outbound_low_priority_consensus_size);
    ("last_throughput_measurement_timestamp", last_throughput_measurement_timestamp);
    ("bytes_received", st_bytes_received);
    ("bytes_sent", st_bytes_sent);
    ("avg_bps_in", avg_bps_in);
    ("avg_bps_out", avg_bps_out) ].

Definition registry_new : outcome (list Metric) := register_all metrics_of_new [].

(** [instantiate_stats_export_engine] *)
Definition instantiate_stats_export_engine : outcome (list Metric * StatsExportService) :=
  registry ← registry_new;
  Ok (registry, StatsExportService_new).

(** [Registry::gather]: the values at the time of the call *)
Definition gather (registry : list Metric) (s : StatsExportService) : gmap string Z :=
  list_to_map (prod_map id (λ f, f s) <$> registry).

(** ** The statistics server *)

Class MetricsExt := {
  (** [TextEncoder::encode] *)
  text_encode : gmap string Z → outcome bytes;
  index_page : bytes;
}.

Section metrics.
Context `{!MetricsExt}.

(** [StatsExportService::metrics] *)
Definition metrics (registry : list Metric) (s : StatsExportService) : outcome bytes :=
  match text_encode (gather registry s) with
  | Ok buffer => match from_utf8 buffer with Ok buf => Ok buf | _ => Ok [] end
  | _ => Panic "assertion failed: encoder.encode(&metric_families, &mut buffer).is_ok()"
  end.

Inductive Page := Found (body : bytes) | NotFound | Failed.

(** [StatsExportService::router] *)
Definition router (registry : list Metric) (path : string) (s : StatsExportService) : Page :=
  if decide (path = "/") then Found index_page
  else if decide (path = "/metrics") then
    match metrics registry s with Ok body => Found body | _ => Failed end
  else NotFound.
End metrics.

(** ** The push gateway *)

Record PrometheusConfig := MkPrometheusConfig {
  prometheus_listen_addr : string;
  prometheus_listen_port : option u16;
  prometheus_push_gateway : option string;
  prometheus_job_name : string;
  prometheus_instance_name : option (list Ascii.ascii);
  prometheus_push_username : option string;
  prometheus_push_password : option string;
  prometheus_push_interval : u64;
}.

Record Push := MkPush {
  job : string;
  instance : list Ascii.ascii;
  gateway : string;
  families : gmap string Z;
  authentication : option (string * string);
}.

(** The thread of [start_push_to_gateway]: the families are gathered once, when it is
    started, and the thread pushes them after every interval.  [states] are the counters
    at the times of the pushes. *)
Definition start_push_to_gateway (registry : list Metric) (s : StatsExportService)
    (gateway job : string) (instance : list Ascii.ascii) (username password : option string)
    (states : list StatsExportService) : list Push :=
  let metrics_families := gather registry s in
  (λ _, MkPush job instance gateway metrics_families
          (username ← username; password ← password; Some (username, password))) <$> states.

(** [start_push_gateway] *)
Definition start_push_gateway (conf : PrometheusConfig) (registry : list Metric)
    (s : StatsExportService) (id : P2PNodeId) (states : list StatsExportService) : list Push :=
  match prometheus_push_gateway conf with
  | Some prom_push_addy =>
    let instance_name := default (P2PNodeId_fmt id) (prometheus_instance_name conf) in
    start_push_to_gateway registry s prom_push_addy (prometheus_job_name conf) instance_name
      (prometheus_push_username conf) (prometheus_push_password conf) states
  | None => []
  end.

(** ** What is seen of the counters *)

(** The names are distinct: no registration of [StatsExportService::new] fails. *)
Lemma registry_new_ok : registry_new = Ok metrics_of_new.
Proof. reflexivity. Qed.

Lemma gather_lookup m s : m ∈ metrics_of_new → gather metrics_of_new s !! m.1 = Some (m.2 s).
Proof.
  intros Hm. apply elem_of_list_to_map_1.
  - rewrite <- list_fmap_compose. by apply (bool_decide_unpack _).
  - apply list_elem_of_fmap. exists m. by destruct m.
Qed.

(** The statistics server shows the counters as they are, while the push gateway is
    sent the values they had when the node was started, again and again: whatever the
    node counts, the [k]-th push holds the value of the start, and the page that is read
    at the same time holds the current one. *)
Theorem pushed_metrics_stale conf registry s0 id gateway states k s m :
  registry_new = Ok registry → m ∈ registry →
  prometheus_push_gateway conf = Some gateway → states !! k = Some s →
  ∃ p, start_push_gateway conf registry s0 id states !! k = Some p
    ∧ families p !! m.1 = Some (m.2 s0) ∧ gather registry s !! m.1 = Some (m.2 s).
Proof.
  rewrite registry_new_ok. intros [= <-] Hm Hg Hk. unfold start_push_gateway, start_push_to_gateway.
  rewrite Hg, list_lookup_fmap, Hk. eexists. split; [done|]. split; by apply gather_lookup.
Qed.

(** The instance is the identity of the node unless it is configured, and authentication
    is used when both a name and a password are given. *)
Lemma push_labels conf registry s0 id states p :
  p ∈ start_push_gateway conf registry s0 id states →
  instance p = default (P2PNodeId_fmt id) (prometheus_instance_name conf)
  ∧ (is_Some (authentication p) ↔
     is_Some (prometheus_push_username conf) ∧ is_Some (prometheus_push_password conf)).
Proof.
  unfold start_push_gateway, start_push_to_gateway.
  destruct (prometheus_push_gateway conf); [|set_solver]. intros (st & -> & _)%list_elem_of_fmap. simpl.
  split; [done|]. destruct (prometheus_push_username conf), (prometheus_push_password conf); simpl;
    unfold is_Some; naive_solver.
Qed.

(** *** Witnesses *)

Module MetricsExample.

Definition conf : PrometheusConfig :=
  MkPrometheusConfig "127.0.0.1" None (Some "http://gateway") "node" None None None 2.

(** A node that has sent a packet between the start and the first push *)
Lemma pushed_metrics_stale_witness :
  ∃ p, start_push_gateway conf metrics_of_new StatsExportService_new (MkP2PNodeId 1)
         [pkt_sent_inc StatsExportService_new] !! 0 = Some p
    ∧ families p !! "packets_sent" = Some 0%Z
    ∧ gather metrics_of_new (pkt_sent_inc StatsExportService_new) !! "packets_sent" = Some 1%Z.
Proof.
  apply (pushed_metrics_stale conf metrics_of_new StatsExportService_new (MkP2PNodeId 1)
    "http://gateway" [pkt_sent_inc StatsExportService_new] 0 (pkt_sent_inc StatsExportService_new)
    ("packets_sent", pkts_sent_counter)).
  - reflexivity.
  - unfold metrics_of_new. repeat (apply elem_of_cons; try (left; reflexivity); right).
  - reflexivity.
  - reflexivity.
Defined.
End MetricsExample.
