(* ===== verification/Dumper.v ===== *)
(** * The network dump

    Models [concordium-node/src/dumper.rs], the methods [activate_dump] and [stop_dump] of
    [concordium-node/src/p2p/maintenance.rs] and [send_to_dump] of
    [concordium-node/src/connection/mod.rs] (the feature [network_dump]), and the requests
    [dump_start] and [dump_stop] of [concordium-node/src/rpc.rs].  A thread waits
    at the head of its loop for a switch, which is handed over directly because the
    channel has no room, and then for a message.  Paths are opaque apart from the empty
    one; the formatted form of a message is not modelled, only the message. *)
From S2P Require Import Prelude.
From S2P Require Import Status.
From Stdlib Require Import Ascii.

Definition DUMP_QUEUE_DEPTH : nat := 100.

Section dumper.
Context {Path : Type} (is_empty : Path → bool).

(** Where the thread is in its loop *)
Inductive ThreadState := AtHead | AtRecv | ThreadEnded.

Record Dumper := MkDumper {
  thread : ThreadState;
  dir : option Path;
  count : nat;
  (** the messages in the channel *)
  rx : list bytes;
  (** the formatted file of the current directory, and all numbered raw files *)
  pretty : list bytes;
  raw : list (Path * nat * bytes);
  (** [log_dumper] of the connection handler *)
  log_dumper : bool;
}.

Definition Dumper_new : Dumper := MkDumper AtHead None 0 [] [] [] false.

Definition with_thread (t : ThreadState) (d : Dumper) : Dumper :=
  MkDumper t (dir d) (count d) (rx d) (pretty d) (raw d) (log_dumper d).
Definition with_log_dumper (b : bool) (d : Dumper) : Dumper :=
  MkDumper (thread d) (dir d) (count d) (rx d) (pretty d) (raw d) b.

(** The head of the loop; [io_ok] says whether the file can be created and written. *)
Definition loop_head (io_ok : bool) (switch : option (Path * bool)) (d : Dumper) : Dumper :=
  match switch with
  | Some (new_path, raw_flag) =>
    if is_empty new_path then with_thread ThreadEnded d
    else if io_ok then
      MkDumper AtRecv (Some new_path) (if raw_flag then 1 else count d) (rx d) [] (raw d) (log_dumper d)
    else with_thread ThreadEnded d
  | None => match dir d with Some _ => with_thread AtRecv d | None => d end
  end.

(** [rx.recv()?] and the rest of the loop; [None] while the channel is empty. *)
Definition loop_recv (io_ok : bool) (d : Dumper) : option Dumper :=
  match dir d, rx d with
  | Some p, msg :: rest =>
    Some (if io_ok then
            MkDumper AtHead (dir d) (if decide (0 < count d) then S (count d) else count d) rest
              (pretty d ++ [msg]) (if decide (0 < count d) then raw d ++ [(p, count d, msg)] else raw d)
              (log_dumper d)
          else MkDumper ThreadEnded (dir d) (count d) rest (pretty d) (raw d) (log_dumper d))
  | _, _ => None
  end.

(** [self.network_dumper.switch.send(..)?]: it waits until the thread is at the head of
    its loop ([None]) and fails when the thread has ended. *)
Definition switch_send (io_ok : bool) (path : Path) (raw_flag : bool) (d : Dumper) :
    option (outcome unit * Dumper) :=
  match thread d with
  | AtHead => Some (Ok tt, loop_head io_ok (Some (path, raw_flag)) d)
  | AtRecv => None
  | ThreadEnded => Some (bail "sending on a disconnected channel", d)
  end.

Definition activate_dump (io_ok : bool) (path : Path) (raw_flag : bool) (d : Dumper) :
    option (outcome unit * Dumper) :=
  '(r, d) ← switch_send io_ok path raw_flag d;
  Some (match r with Ok _ => (Ok tt, with_log_dumper true d) | r => (r, d) end).

Definition stop_dump (empty : Path) (d : Dumper) : option (outcome unit * Dumper) :=
  '(r, d) ← switch_send true empty false d;
  Some (match r with Ok _ => (Ok tt, with_log_dumper false d) | r => (r, d) end).

(** [Connection::send_to_dump]: it waits while the channel is full ([None]); nothing is
    sent to a thread that has ended. *)
Definition send_to_dump (msg : bytes) (d : Dumper) : option Dumper :=
  if log_dumper d then
    match thread d with
    | ThreadEnded => Some d
    | _ =>
      if decide (length (rx d) < DUMP_QUEUE_DEPTH)
      then Some (MkDumper (thread d) (dir d) (count d) (rx d ++ [msg]) (pretty d) (raw d) (log_dumper d))
      else None
    end
  else Some d.

(** ** The requests *)

(** [dump_start] and [dump_stop] of [concordium-node/src/rpc.rs], which exist twice, with
    and without the feature; [None] when the request waits for the thread. *)
Section requests.
Context (network_dump disable_node_endpoints : bool) (access_token : list ascii).
Context (empty default_path : Path).

Definition dump_endpoint (token : option (list ascii)) (k : Dumper → option (Reply bool * Dumper))
    (d : Dumper) : option (Reply bool * Dumper) :=
  if disable_node_endpoints then Some (Status Unimplemented, d)
  else if decide (token = Some access_token) then
    if network_dump then k d else Some (Status Unavailable, d)
  else Some (Status Unauthenticated, d).

Definition dump_start (token : option (list ascii)) (io_ok : bool) (file_path : Path) (raw_flag : bool) :
    Dumper → option (Reply bool * Dumper) :=
  dump_endpoint token (λ d,
    '(result, d) ← activate_dump io_ok (if is_empty file_path then default_path else file_path) raw_flag d;
    Some (Value (match result with Ok _ => true | _ => false end), d)).

Definition dump_stop (token : option (list ascii)) : Dumper → option (Reply bool * Dumper) :=
  dump_endpoint token (λ d,
    '(result, d) ← stop_dump empty d;
    Some (Value (match result with Ok _ => true | _ => false end), d)).

(** The same requests of the second server ([concordium-node/src/grpc2.rs]); [enabled] is
    the switch of the endpoint in the configuration. *)
Definition dump_start2 (enabled io_ok : bool) (file_path : Path) (raw_flag : bool) (d : Dumper) :
    option (Reply unit * Dumper) :=
  if negb enabled then Some (Status Unimplemented, d)
  else if network_dump then
    if is_empty file_path then Some (Status InvalidArgument, d)
    else
      '(result, d) ← activate_dump io_ok file_path raw_flag d;
      Some (match result with Ok _ => Value tt | _ => Status Internal end, d)
  else Some (Status FailedPrecondition, d).

Definition dump_stop2 (enabled : bool) (d : Dumper) : option (Reply unit * Dumper) :=
  if negb enabled then Some (Status Unimplemented, d)
  else if network_dump then
    '(result, d) ← stop_dump empty d;
    Some (match result with Ok _ => Value tt | _ => Status Internal end, d)
  else Some (Status FailedPrecondition, d).
End requests.

(** What happens to the dump *)
Inductive step (d : Dumper) : Dumper → Prop :=
  | step_head : thread d = AtHead → step d (loop_head true None d)
  | step_recv io_ok d' : thread d = AtRecv → loop_recv io_ok d = Some d' → step d d'
  | step_activate io_ok path raw_flag r d' :
      is_empty path = false → activate_dump io_ok path raw_flag d = Some (r, d') → step d d'
  | step_stop empty r d' : stop_dump empty d = Some (r, d') → step d d'
  | step_send msg d' : send_to_dump msg d = Some d' → step d d'.

(** ** Messages are dumped in order *)

(** Messages go to the file in the order in which they are sent: what is in the file
    and what is on its way make up what was there and the message. *)
Lemma send_to_dump_order msg d d' :
  send_to_dump msg d = Some d' → log_dumper d = true → thread d ≠ ThreadEnded →
  pretty d' ++ rx d' = (pretty d ++ rx d) ++ [msg].
Proof.
  unfold send_to_dump. intros Hs Hl Ht. rewrite Hl in Hs.
  destruct (thread d); try done; case_decide; simplify_eq/=; by rewrite app_assoc.
Qed.

Lemma loop_recv_order d d' : loop_recv true d = Some d' → pretty d' ++ rx d' = pretty d ++ rx d.
Proof.
  unfold loop_recv. destruct (dir d), (rx d) as [|m l]; try done. intros [= <-]. simpl.
  by rewrite <- app_assoc.
Qed.

(** ** A dump that was stopped cannot be started again *)

Lemma ended_stays d d' : rtc step d d' → thread d = ThreadEnded → thread d' = ThreadEnded.
Proof.
  induction 1 as [|d1 d2 d3 Hs _ IH]; [done|]. intros He. apply IH. clear IH.
  destruct Hs as [Ht|io_ok d' Ht|io_ok path f r d' _ Ha|empty r d' Ha|msg d' Hs]; try congruence.
  - unfold activate_dump, switch_send in Ha. rewrite He in Ha. by injection Ha as _ <-.
  - unfold stop_dump, switch_send in Ha. rewrite He in Ha. by injection Ha as _ <-.
  - unfold send_to_dump in Hs. rewrite He in Hs. destruct (log_dumper d1); by simplify_eq.
Qed.

(** Stopping the network dump is final.  Stopping it ends the thread, so that every
    later request to start a dump fails, in every state that the node may get to. *)
Theorem dump_not_restartable empty d d1 d2 io_ok path raw_flag :
  is_empty empty = true → stop_dump empty d = Some (Ok tt, d1) → rtc step d1 d2 →
  activate_dump io_ok path raw_flag d2 = Some (bail "sending on a disconnected channel", d2).
Proof.
  intros He Hs Hr. assert (thread d1 = ThreadEnded) as Ht.
  { unfold stop_dump, switch_send, loop_head in Hs. rewrite He in Hs.
    destruct (thread d); simplify_eq/=; done. }
  unfold activate_dump, switch_send. by rewrite (ended_stays _ _ Hr Ht).
Qed.

(** A request to start a dump never ends the thread, as a switch without a name would: the
    first server replaces a missing name, the second one refuses it. *)
Lemma start_never_stops feature disable access default_path token enabled file_path raw_flag d :
  is_empty default_path = false → thread d ≠ ThreadEnded →
  (∀ r d', dump_start feature disable access default_path token true file_path raw_flag d = Some (r, d') →
           thread d' ≠ ThreadEnded)
  ∧ (∀ r d', dump_start2 feature enabled true file_path raw_flag d = Some (r, d') → thread d' ≠ ThreadEnded).
Proof.
  intros Hd Ht. unfold dump_start, dump_start2, dump_endpoint, activate_dump, switch_send, loop_head. split.
  - destruct disable, (decide (token = Some access)), feature; try by intros r d' [= <- <-].
    destruct (is_empty file_path) eqn:Hp, (thread d); rewrite ?Hd, ?Hp; simpl; intros; by simplify_eq/=.
  - destruct enabled, feature, (is_empty file_path) eqn:Hp; simpl; try by intros r d' [= <- <-].
    destruct (thread d); simpl; intros; by simplify_eq/=.
Qed.
End dumper.

(** *** Witnesses *)

Module DumperExample.

Definition no_name (p : string) : bool := bool_decide (p = "").

Definition started : Dumper := match activate_dump no_name true "dump" true Dumper_new with
                               | Some (_, d) => d | None => Dumper_new end.
Definition dumped : Dumper :=
  default started (send_to_dump [1%Z] started ≫= loop_recv true).
Definition stopped : Dumper := match stop_dump no_name "" dumped with
                               | Some (_, d) => d | None => dumped end.

Lemma dump_not_restartable_witness :
  raw dumped = [("dump", 1, [1%Z])]
  ∧ ∃ e, activate_dump no_name true "dump2" false stopped = Some (Err e, stopped).
Proof.
  split; [vm_compute; reflexivity|]. eexists.
  apply (dump_not_restartable no_name "" dumped stopped stopped true "dump2" false).
  - vm_compute. reflexivity.
  - vm_compute. reflexivity.
  - apply rtc_refl.
Defined.
End DumperExample.
