(* ===== verification/Lifecycle.v ===== *)
(** * Starting and stopping the node

    Models how [main] of [concordium-node/src/bin/cli.rs] shuts the node down: the servers
    ([RpcServerImpl::start_server] of [concordium-node/src/rpc.rs] and [GRPC2Server::new]
    and [shutdown] of [concordium-node/src/grpc2.rs]), the threads of the node, the
    consensus library and the Haskell runtime ([start_haskell], [stop_haskell] of
    [concordium-node/src/consensus_ffi/ffi.rs]; [get_baker_data], [start_consensus_layer]
    of [concordium-node/src/plugins/consensus.rs]).  Main and the other tasks run
    concurrently; the pointer to consensus is not valid once the library was stopped. *)
From S2P Require Import Prelude.
From S2P Require Import Text.
From S2P Require Import PeerTypes.
From S2P Require Import ServiceConfig.
From S2P Require Import Container.

(** ** The second server *)

(** [GRPC2Config]; of the certificate and the key, whether the files can be read, and of
    the endpoint configuration, what the file parses to *)
Record GRPC2Config := MkGRPC2Config {
  listen_addr : option IpAddr;
  listen_port : option u16;
  x509_cert : option bool;
  cert_private_key : option bool;
  enable_grpc_web : bool;
  endpoint_config : option (option (string → option bool));
  health_max_finalized_delay : u64;
}.

Definition is_enabled (c : GRPC2Config) : bool :=
  bool_decide (is_Some (listen_addr c)) && bool_decide (is_Some (listen_port c)).

(** The server as it is configured *)
Record Setup := MkSetup {
  serve_on : SocketAddr;
  service_config : ServiceConfig;
  tls : bool;
  accept_http1 : bool;
  grpc_web : bool;
  health_max_finalization_delay : u64;
}.

(** [GRPC2Server::new], of which [Relay] models the two tasks that relay blocks; [tls_ok]
    says whether the certificate is accepted, and [reflection_ok] whether the descriptors
    of the reflection service are. *)
Definition GRPC2Server_new (tls_ok reflection_ok : bool) (config : GRPC2Config) : outcome (option Setup) :=
  match listen_addr config with
  | Some addr =>
    port ← context "Missing GRPC port" (listen_port config);
    service_config ← match endpoint_config config with
                     | Some source => from_file source
                     | None => Ok new_all_enabled
                     end;
    identity ← match x509_cert config, cert_private_key config with
               | None, None => Ok false
               | None, Some _ => bail "Private key supplied, but not the certificate."
               | Some _, None => bail "Certificate supplied, but not the private key."
               | Some cert, Some key =>
                 ensure cert "Unable to read certificate." ;;
                 ensure key "Unable to read key." ;;
                 Ok true
               end;
    ensure (negb identity || tls_ok) "Unable to configure TLS." ;;
    ensure reflection_ok "Unable to start the GRPC2 reflection service." ;;
    Ok (Some (MkSetup (MkSocketAddr addr port) service_config identity
                (negb identity && enable_grpc_web config) (enable_grpc_web config)
                (health_max_finalized_delay config)))
  | None => Ok None
  end.

(** ** The runtime *)

(** The arguments of [start_haskell_init] (without profiling): the flags of the
    operator, and no signal handlers unless the operator asks for them. *)
Definition INSTALL_SIGNAL_HANDLERS : text := of_string "--install-signal-handlers".
Definition sets_handlers (flag : text) : bool :=
  bool_decide (is_Some (strip_prefix INSTALL_SIGNAL_HANDLERS (trim flag))).

Definition start_haskell_init (program_name : text) (rts_flags : list text) : list text :=
  [program_name; of_string "+RTS"] ++
  (if decide (rts_flags = []) then [of_string "--install-signal-handlers=no"]
   else (if forallb (λ arg, negb (sets_handlers arg)) rts_flags
         then [of_string "--install-signal-handlers=no"] else [])
        ++ filter (λ flag, trim flag ≠ []) rts_flags) ++
  [of_string "-RTS"].

(** ** Starting consensus *)

(** [BakerConfig] (without the feature [profiling]); the files are named by paths *)
Record BakerConfig (Path : Type) := MkBakerConfig {
  gc_logging : option text;
  rts_flags : list text;
  maximum_block_size : u32;
  block_construction_timeout : u32;
  transaction_insertions_before_purge : u32;
  transaction_keep_alive : u32;
  transactions_purging_delay : u32;
  import_blocks_from : option Path;
  download_blocks_from : option text;
  download_blocks_timeout : u32;
  genesis_data_file : Path;
  account_cache_size : u32;
  baker_credentials_file : option Path;
  decrypt_baker_credentials : bool;
  modules_cache_size : u32;
}.
Arguments gc_logging {_} _.
Arguments rts_flags {_} _.
Arguments maximum_block_size {_} _.
Arguments block_construction_timeout {_} _.
Arguments transaction_insertions_before_purge {_} _.
Arguments transaction_keep_alive {_} _.
Arguments transactions_purging_delay {_} _.
Arguments import_blocks_from {_} _.
Arguments download_blocks_from {_} _.
Arguments download_blocks_timeout {_} _.
Arguments genesis_data_file {_} _.
Arguments account_cache_size {_} _.
Arguments baker_credentials_file {_} _.
Arguments decrypt_baker_credentials {_} _.
Arguments modules_cache_size {_} _.

(** The file system, the terminal and the decryption of [concordium_base] *)
Class BakerExt (Path : Type) := {
  EncryptedData : Type;
  data_file : Path → Path;
  File : Type;
  open : Path → outcome File;
  read_to_end : File → outcome bytes;
  parse_encrypted : bytes → outcome EncryptedData;
  read_password : outcome bytes;
  decrypt : bytes → EncryptedData → option bytes;
}.

Record ConsensusRuntimeParameters := MkRuntimeParameters {
  max_block_size : u64;
  rp_block_construction_timeout : u64;
  insertions_before_purging : u64;
  rp_transaction_keep_alive : u64;
  rp_transactions_purging_delay : u64;
  accounts_cache_size : u32;
  rp_modules_cache_size : u32;
}.

Section consensus.
Context `{!BakerExt Path}.

(** [get_baker_data] *)
Definition get_baker_data (conf : BakerConfig Path) : outcome (bytes * option bytes) :=
  genesis_data ← match open (data_file (genesis_data_file conf)) with
                 | Ok file => match read_to_end file with
                              | Ok read_data => Ok read_data
                              | _ => bail "Cannot not read genesis file"
                              end
                 | _ => bail "Cannot open the genesis file"
                 end;
  private_data ←
    match baker_credentials_file conf with
    | Some path =>
      read_data ← match file ← open path; read_to_end file with
                  | Ok read_data => Ok read_data
                  | _ => bail "Cannot open the baker credentials file"
                  end;
      if decrypt_baker_credentials conf then
        et ← parse_encrypted read_data;
        pass ← read_password;
        match decrypt pass et with
        | Some d => Ok (Some d)
        | None => bail "Could not decrypt baker credentials."
        end
      else Ok (Some read_data)
    | None => Ok None
    end;
  Ok (genesis_data, private_data).

(** [start_consensus_layer]: the arguments of the runtime, and the container that the
    library gives for these parameters and data *)
Definition start_consensus_layer (program_name : text) (conf : BakerConfig Path)
    (get_consensus_ptr : ConsensusRuntimeParameters → bytes → option bytes → outcome unit)
    (genesis_data : bytes) (private_data : option bytes) : list text * outcome ConsensusContainer :=
  let args := start_haskell_init program_name (rts_flags conf) in
  let runtime_parameters :=
    MkRuntimeParameters (maximum_block_size conf) (block_construction_timeout conf)
      (transaction_insertions_before_purge conf) (transaction_keep_alive conf)
      (transactions_purging_delay conf) (account_cache_size conf) (modules_cache_size conf) in
  (args, ConsensusContainer_new (get_consensus_ptr runtime_parameters genesis_data private_data)
           private_data).

(** A node takes part in consensus exactly when it is given the credentials of a baker. *)
Lemma active_iff_credentials program_name conf get_consensus_ptr genesis_data private_data c :
  get_baker_data conf = Ok (genesis_data, private_data) →
  (start_consensus_layer program_name conf get_consensus_ptr genesis_data private_data).2 = Ok c →
  is_active c = true ↔ is_Some (baker_credentials_file conf).
Proof.
  intros (g & _ & (p & Hp & [= -> ->])%outcome_bind_ok)%outcome_bind_ok.
  unfold start_consensus_layer, ConsensusContainer_new. simpl.
  intros ([] & _ & [= <-])%outcome_bind_ok. unfold is_active. simpl.
  destruct (baker_credentials_file conf) as [path|]; [|injection Hp as <-; simpl].
  - assert (is_Some private_data) as [d ->].
    { apply outcome_bind_ok in Hp as (r & _ & Hp). destruct (decrypt_baker_credentials conf).
      - apply outcome_bind_ok in Hp as (et & _ & Hp). apply outcome_bind_ok in Hp as (pass & _ & Hp).
        destruct (decrypt pass et); simplify_eq. by eexists.
      - injection Hp as <-. by eexists. }
    simpl. by split; [eexists|].
  - split; [done|]. by intros [].
Qed.
End consensus.

(** The library and the runtime below it *)
Inductive Library := Up | LibStopped | Exited.

(** ** The system *)

(** A server task: there is none, it serves, it was told to stop, it has ended *)
Inductive Task := NoTask | Serving | Leaving | TaskDone.
#[global] Instance Task_eq_dec : EqDecision Task.
Proof. solve_decision. Defined.

Definition is_finished (t : Task) : bool := bool_decide (t = NoTask ∨ t = TaskDone).

Inductive Pc :=
  | Waiting                        (* for the shutdown signal *)
  | StopRpc
  | AwaitRpc (deadline : Z)
  | StopRpc2
  | AwaitRpc2 (deadline : Z)
  | CloseNode
  | JoinNode
  | JoinQueues
  | StopConsensus
  | StopHaskell
  | Finished
  | ExitedEarly.

Inductive Caller := ByRpc | ByRpc2 | ByNode | ByQueues | ByImport | ByMain.
#[global] Instance Caller_eq_dec : EqDecision Caller.
Proof. solve_decision. Defined.

Record Sys := MkSys {
  pc : Pc;
  rpc_task : Task;
  rpc2_task : Task;
  relays : bool;
  node_thread : bool;
  queue_threads : bool;
  closing : bool;
  (** the task that stops an import waits for the signal *)
  import_pending : bool;
  library : Library;
  clock : Z;
  (** calls that found the library stopped *)
  late_calls : list Caller;
}.

Definition with_pc (p : Pc) (s : Sys) : Sys :=
  MkSys p (rpc_task s) (rpc2_task s) (relays s) (node_thread s) (queue_threads s) (closing s)
    (import_pending s) (library s) (clock s) (late_calls s).
Definition with_rpc (t : Task) (s : Sys) : Sys :=
  MkSys (pc s) t (rpc2_task s) (relays s) (node_thread s) (queue_threads s) (closing s)
    (import_pending s) (library s) (clock s) (late_calls s).
Definition with_rpc2 (t : Task) (relays : bool) (s : Sys) : Sys :=
  MkSys (pc s) (rpc_task s) t relays (node_thread s) (queue_threads s) (closing s)
    (import_pending s) (library s) (clock s) (late_calls s).
Definition with_threads (node queues closing : bool) (s : Sys) : Sys :=
  MkSys (pc s) (rpc_task s) (rpc2_task s) (relays s) node queues closing
    (import_pending s) (library s) (clock s) (late_calls s).
Definition with_library (l : Library) (s : Sys) : Sys :=
  MkSys (pc s) (rpc_task s) (rpc2_task s) (relays s) (node_thread s) (queue_threads s) (closing s)
    (import_pending s) l (clock s) (late_calls s).
Definition import_called (s : Sys) : Sys :=
  MkSys (pc s) (rpc_task s) (rpc2_task s) (relays s) (node_thread s) (queue_threads s) (closing s)
    false (library s) (clock s) (late_calls s).
Definition later (d : Z) (s : Sys) : Sys :=
  MkSys (pc s) (rpc_task s) (rpc2_task s) (relays s) (node_thread s) (queue_threads s) (closing s)
    (import_pending s) (library s) (clock s + d) (late_calls s).

(** A call into the library *)
Definition call (c : Caller) (s : Sys) : Sys :=
  match library s with
  | Up => s
  | _ => MkSys (pc s) (rpc_task s) (rpc2_task s) (relays s) (node_thread s) (queue_threads s)
           (closing s) (import_pending s) (library s) (clock s) (late_calls s ++ [c])
  end.

Definition timeout_duration : Z := 10000.

(** [timeout(timeout_duration, task).await]: the task has ended, or the time is over.
    The handle is dropped in either case, which does not stop a task. *)
Definition await_task (t : Task) (deadline : Z) (s : Sys) (next : Pc) : option Sys :=
  if is_finished t then Some (with_pc next s)
  else if decide (deadline ≤ clock s)%Z then Some (with_pc next s)
  else None.

(** [shutdown] of the second server, up to the wait for its task: the relays are aborted,
    and the task itself only when it cannot be told to stop. *)
Definition GRPC2Server_shutdown (send_ok : bool) (s : Sys) : Sys :=
  with_pc (AwaitRpc2 (clock s + timeout_duration))
    (with_rpc2 (if send_ok then Leaving else TaskDone) false s).

(** A step of [main]; [send_ok] says whether the receiver of a stop signal is there,
    [close_ok] whether the node can be closed.  [None] is a step that has to wait. *)
Definition main_step (send_ok close_ok : bool) (s : Sys) : option Sys :=
  match pc s with
  | Waiting => None
  | StopRpc =>
    if is_finished (rpc_task s) then Some (with_pc StopRpc2 s)
    else Some (with_pc (AwaitRpc (clock s + timeout_duration))
                 (with_rpc (if send_ok then Leaving else TaskDone) s))
  | AwaitRpc deadline => await_task (rpc_task s) deadline s StopRpc2
  | StopRpc2 =>
    if is_finished (rpc2_task s) then Some (with_pc CloseNode s)
    else Some (GRPC2Server_shutdown send_ok s)
  | AwaitRpc2 deadline => await_task (rpc2_task s) deadline s CloseNode
  | CloseNode =>
    if close_ok then Some (with_pc JoinNode (with_threads (node_thread s) (queue_threads s) true s))
    else Some (with_pc ExitedEarly s)
  | JoinNode => if node_thread s then None else Some (with_pc JoinQueues s)
  | JoinQueues => if queue_threads s then None else Some (with_pc StopConsensus s)
  | StopConsensus => Some (with_pc StopHaskell (with_library LibStopped s))
  | StopHaskell => Some (with_pc Finished (with_library Exited s))
  | Finished => None
  | ExitedEarly => None
  end.

Inductive step (s : Sys) : Sys → Prop :=
  (** a signal, an error of a server or a request to shut down *)
  | step_signal : pc s = Waiting → step s (with_pc StopRpc s)
  | step_main send_ok close_ok s' : main_step send_ok close_ok s = Some s' → step s s'
  (** the servers answer requests while they run *)
  | step_rpc_call : rpc_task s = Serving ∨ rpc_task s = Leaving → step s (call ByRpc s)
  | step_rpc2_call : rpc2_task s = Serving ∨ rpc2_task s = Leaving → step s (call ByRpc2 s)
  | step_rpc_ends : rpc_task s = Serving ∨ rpc_task s = Leaving → step s (with_rpc TaskDone s)
  | step_rpc2_ends :
      rpc2_task s = Serving ∨ rpc2_task s = Leaving → step s (with_rpc2 TaskDone (relays s) s)
  (** the threads pass messages to consensus until they are told to stop *)
  | step_node_call : node_thread s = true → step s (call ByNode s)
  | step_queues_call : queue_threads s = true → step s (call ByQueues s)
  | step_node_ends : closing s = true → step s (with_threads false (queue_threads s) true s)
  | step_queues_end : closing s = true → step s (with_threads (node_thread s) false true s)
  | step_import : import_pending s = true → pc s ≠ Waiting → step s (import_called (call ByImport s))
  | step_time d : (0 ≤ d)%Z → step s (later d s).

Definition Sys_new (rpc rpc2 : bool) : Sys :=
  MkSys Waiting (if rpc then Serving else NoTask) (if rpc2 then Serving else NoTask) true true true
    false true Up 0 [].

(** ** No call finds the library stopped *)

(** How far main has come *)
Definition stage (p : Pc) : nat :=
  match p with
  | Waiting => 0 | StopRpc => 1 | AwaitRpc _ => 2 | StopRpc2 => 3 | AwaitRpc2 _ => 4
  | CloseNode => 5 | ExitedEarly => 5 | JoinNode => 6 | JoinQueues => 7
  | StopConsensus => 8 | StopHaskell => 9 | Finished => 10
  end.

(** The servers stop in time and an import is told to stop before the library is stopped. *)
Definition prompt (s : Sys) : Prop :=
  (3 ≤ stage (pc s) → is_finished (rpc_task s) = true)
  ∧ (5 ≤ stage (pc s) → is_finished (rpc2_task s) = true)
  ∧ (9 ≤ stage (pc s) → import_pending s = false).

Definition prompt_step (s s' : Sys) : Prop := step s s' ∧ prompt s'.

(** The library runs until main has joined the threads. *)
Record ordered (s : Sys) : Prop := {
  ord_library : library s = Up ∨ 9 ≤ stage (pc s);
  ord_node : 7 ≤ stage (pc s) → node_thread s = false;
  ord_queues : 8 ≤ stage (pc s) → queue_threads s = false;
  ord_prompt : prompt s;
  ord_calls : late_calls s = [];
}.

Lemma call_up c s : library s = Up → call c s = s.
Proof. unfold call. by intros ->. Qed.

Lemma ordered_call c s :
  ordered s → (9 ≤ stage (pc s) → False) → call c s = s.
Proof. intros Ho Hc. apply call_up. by destruct (ord_library _ Ho) as [|?%Hc]. Qed.

(** Main does not move on before the threads have ended. *)
Lemma ordered_main send_ok close_ok s s' :
  ordered s → main_step send_ok close_ok s = Some s' → prompt s' → ordered s'.
Proof.
  intros [Hl Hn Hq _ Hc] Hm Hp. unfold main_step, await_task in Hm.
  destruct (pc s) eqn:Ep; simpl in *; repeat case_match; simplify_eq/=;
    (split; simpl; [|intros; (done || lia || apply Hn; lia)|intros; (done || lia || apply Hq; lia)|done|done]);
    by (right; lia) || (destruct Hl; [by left|lia]).
Qed.

Lemma ordered_step s s' : ordered s → prompt_step s s' → ordered s'.
Proof.
  intros Ho [Hs Hp]. destruct (Ho) as [Hl Hn Hq (H1 & H2 & H3) Hc].
  destruct Hs as [Hw|send_ok close_ok s' Hm|Hr|Hr|Hr|Hr|Hr|Hr|Hr|Hr|Hr Hw|d Hd].
  - split; simpl; try done; try lia. destruct Hl as [|Hl]; [by left|]. rewrite Hw in Hl. simpl in Hl. lia.
  - by eapply ordered_main.
  - rewrite ordered_call; [done|done|]. intros Hst. specialize (H1 ltac:(lia)). by destruct Hr as [Hr|Hr]; rewrite Hr in H1.
  - rewrite ordered_call; [done|done|]. intros Hst. specialize (H2 ltac:(lia)). by destruct Hr as [Hr|Hr]; rewrite Hr in H2.
  - by split.
  - by split.
  - rewrite ordered_call; [done|done|]. intros Hst. by rewrite Hn in Hr by lia.
  - rewrite ordered_call; [done|done|]. intros Hst. by rewrite Hq in Hr by lia.
  - by split.
  - by split.
  - rewrite ordered_call in Hp |- *; [|done|intros Hst; by rewrite H3 in Hr|done|intros Hst; by rewrite H3 in Hr].
    by split.
  - by split.
Qed.

(** C18: the node shuts down in order.  When the servers end within the time that main
    waits for them, and an import is told to stop before main gets to the library, no
    task and no thread of the node calls the consensus library after it was stopped,
    however the tasks are interleaved and however long the threads take. *)
Theorem shutdown_in_order rpc rpc2 s :
  rtc prompt_step (Sys_new rpc rpc2) s → late_calls s = [].
Proof.
  intros Hr. apply ord_calls. refine (rtc_ind_r (R:=prompt_step) ordered (Sys_new rpc rpc2) _ _ s Hr).
  - split; simpl; try done; try lia; [by left|]. split; [|split]; simpl; lia.
  - intros s1 s2 _ Hs Ho. by eapply ordered_step.
Qed.

(** C38: a server that does not stop in time is not terminated, although main reports that
    it was shut down by force.  Main drops the handle of its task, goes on and stops
    consensus, while the server still takes requests and passes them to the library
    through a pointer that is not valid any more. *)
Theorem server_outlives_shutdown s d :
  pc s = AwaitRpc2 d → rpc2_task s = Leaving → late_calls s = [] →
  ∃ s', rtc step s s' ∧ pc s' = StopHaskell ∧ library s' = LibStopped ∧ rpc2_task s' = Leaving
        ∧ late_calls s' = [ByRpc2].
Proof.
  destruct s as [p t1 t2 rel nt qt cl imp lib now late]. simpl. intros -> -> ->.
  set (now' := (now + Z.max 0 (d - now))%Z).
  exists (MkSys StopHaskell t1 Leaving rel false false true imp LibStopped now' [ByRpc2]). split; [|done].
  eapply rtc_l; [apply (step_time _ (Z.max 0 (d - now))); lia|].
  eapply rtc_l; [apply (step_main _ true true (MkSys CloseNode t1 Leaving rel nt qt cl imp lib now' []))|].
  { unfold main_step, await_task. simpl. rewrite decide_True by lia. reflexivity. }
  eapply rtc_l; [by eapply (step_main _ true true)|]. simpl.
  eapply rtc_l; [by apply step_node_ends|]. eapply rtc_l; [by apply step_queues_end|]. simpl.
  do 3 (eapply rtc_l; [by eapply (step_main _ true true)|]). simpl.
  eapply rtc_l; [apply step_rpc2_call; by right|]. apply rtc_refl.
Qed.

(** The server is configured exactly when it is given an address, a port and, if it is to
    use TLS, both the certificate and the key. *)
Lemma GRPC2Server_new_ok tls_ok reflection_ok config setup :
  GRPC2Server_new tls_ok reflection_ok config = Ok (Some setup) →
  is_enabled config = true
  ∧ tls setup = bool_decide (is_Some (x509_cert config))
  ∧ tls setup = bool_decide (is_Some (cert_private_key config))
  ∧ (tls setup = true → tls_ok = true)
  ∧ (accept_http1 setup = true → tls setup = false ∧ grpc_web setup = true).
Proof.
  unfold GRPC2Server_new, is_enabled. destruct (listen_addr config); [|done].
  destruct (listen_port config); [|done].
  intros (? & _ & (sc & _ & (identity & Hi & Ht)%outcome_bind_ok)%outcome_bind_ok)%outcome_bind_ok.
  apply outcome_bind_ok in Ht as ([] & Htls & ([] & _ & [= <-])%outcome_bind_ok). simpl.
  destruct (x509_cert config) as [[]|], (cert_private_key config) as [[]|]; simplify_eq/=;
    destruct tls_ok; simplify_eq/=; split_and!; try done; by destruct (enable_grpc_web config).
Qed.

(** The runtime is always told what to do with signals: by the operator, or not to
    install handlers. *)
Lemma start_haskell_handlers program rts_flags :
  of_string "--install-signal-handlers=no" ∈ start_haskell_init program rts_flags
  ∨ ∃ flag, flag ∈ rts_flags ∧ sets_handlers flag = true.
Proof.
  unfold start_haskell_init. case_decide; [left; set_solver|].
  destruct (forallb _ rts_flags) eqn:E; [left; set_solver|]. right.
  induction rts_flags as [|flag l IH]; [done|]. simpl in E. destruct (sets_handlers flag) eqn:Ef.
  - exists flag. set_solver.
  - destruct l as [|f' l]; [done|]. destruct IH as (f & Hf & Hs); [done|exact E|]. exists f. set_solver.
Qed.

(** *** Witnesses *)

Module LifecycleExample.

(** A node with the second server: main waits for it. *)
Definition awaiting : Sys :=
  MkSys (AwaitRpc2 10000) NoTask Leaving false true true false true Up 0 [].

(** It has shut down, after requests, messages and the end of an import. *)
Definition ended : Sys := MkSys Finished NoTask TaskDone false false false true false Exited 0 [].

(** One more step of a run *)
Tactic Notation "prompt_by" tactic3(t) :=
  eapply rtc_l; [split; [t|split; [|split]; simpl; (done || lia)]|simpl].

Lemma ended_reachable : rtc prompt_step (Sys_new false true) ended.
Proof.
  prompt_by (apply step_rpc2_call; by left). prompt_by (by apply step_signal).
  prompt_by (by apply step_import). do 2 prompt_by (by eapply (step_main _ true true)).
  prompt_by (by apply step_queues_call). prompt_by (apply step_rpc2_ends; by right).
  do 2 prompt_by (by eapply (step_main _ true true)).
  prompt_by (by apply step_node_ends). prompt_by (by apply step_queues_end).
  do 4 prompt_by (by eapply (step_main _ true true)). apply rtc_refl.
Qed.

Lemma shutdown_in_order_witness : pc ended = Finished ∧ late_calls ended = [].
Proof. split; [done|]. apply (shutdown_in_order false true). exact ended_reachable. Defined.

Lemma server_outlives_shutdown_witness :
  ∃ s', rtc step awaiting s' ∧ pc s' = StopHaskell ∧ library s' = LibStopped
        ∧ rpc2_task s' = Leaving ∧ late_calls s' = [ByRpc2].
Proof. apply (server_outlives_shutdown awaiting 10000); reflexivity. Defined.
End LifecycleExample.
