(* ===== verification/Abi.v ===== *)
(** * The foreign interface between the node and the consensus library

    Models the declarations by which the two programs are linked: the [extern] block and
    the callback types of [concordium-node/src/consensus_ffi/ffi.rs] on one side, the
    [foreign export] declarations of [concordium-consensus/src/Concordium/External.hs]
    and [External/GRPC2.hs] on the other.  No compiler compares them; a linker only looks
    at names.  Both are data here, with the types as they are written, and a type denotes
    a machine representation.  The theorem says that every value that one side passes, as
    an argument, as a result or through a callback, is the value that the other side
    reads. *)
From S2P Require Import Prelude.

#[local] Open Scope string_scope.

(** ** Machine representations

    An integer of some width, an address and what is found there, code that can be
    called, or nothing. *)
Inductive Repr :=
  | IntR (bits : Z) (signed : bool)
  | Octet
  | Object (name : string)
  | Addr (to : Repr)
  | Code (args : list Repr) (res : Repr)
  | NoValue.

(** What both sides leave to code that is not theirs: whether [char] is signed on the
    platform, the types of [concordium-base], the callback of the contract state, and the
    functions of the Haskell runtime, with their arguments and result. *)
Class AbiExt := {
  char_signed : bool;
  GenesisIndex_repr : Repr;
  Timestamp_repr : Repr;
  LoadCallback_repr : Repr;
  runtime_exports : string → option (list Repr * Repr);
}.

(** ** The side of the node *)
Module Rust.
Inductive type :=
  | U8 | U32 | U64 | I32 | I64 | Bool | CChar | Unit
  | Struct (name : string)
  | Const (t : type)
  | Mut (t : type)
  | Fn (args : list type) (ret : type)
  | LoadCallback.

Record Decl := MkDecl { d_name : string; d_params : list (string * type); d_ret : type }.

Definition PeerIdFFI : type := U64.
Definition consensus_runner : type := Struct "consensus_runner".
Definition execute_block : type := Struct "execute_block".
Definition ExecuteBlockCallback : type := Mut execute_block.
Definition Regenesis : type := Struct "Regenesis".
Definition vec_u8 : type := Struct "Vec<u8>".
Definition NotificationContext : type := Struct "NotificationContext".
Definition CryptographicParameters : type := Struct "CryptographicParameters".
Definition OptionCryptographicParameters : type := Struct "Option<CryptographicParameters>".
Definition OptionV1ContractStateReceiver : type := Struct "Option<V1ContractStateReceiver>".
Definition PersistentState : type := Struct "PersistentState".
Definition Sender : type := Struct "Sender<Result<Vec<u8>, Status>>".

Definition LogCallback : type := Fn [CChar; CChar; Const U8] Unit.
Definition BroadcastCallback : type := Fn [I64; U32; Const U8; I64] Unit.
Definition CatchUpStatusCallback : type := Fn [U32; Const U8; I64] Unit.
Definition DirectMessageCallback : type := Fn [PeerIdFFI; I64; U32; Const CChar; I64] Unit.
Definition RegenesisCallback : type := Fn [Const Regenesis; Const U8] Unit.
Definition RegenesisFreeCallback : type := Fn [Const Regenesis] Unit.
Definition CopyToVecCallback : type := Fn [Mut vec_u8; Const U8; I64] Unit.
Definition CopyCryptographicParametersCallback : type :=
  Fn [Mut OptionCryptographicParameters; Const CryptographicParameters] Unit.
Definition CopyV1ContractStateCallback : type :=
  Fn [Mut OptionV1ContractStateReceiver; Mut PersistentState; LoadCallback] Unit.
Definition NotifyCallback : type := Fn [Mut NotificationContext; U8; Const U8; U64] Unit.
(** the type of [enqueue_bytearray_callback] *)
Definition enqueue_fn : type := Fn [Mut Sender; Const U8; I64] I32.

(** The functions of the runtime; a reference is passed like a pointer. *)
Definition CInt : type := I32.
Definition runtime_externs : list Decl := [
  MkDecl "hs_init" [("argc", Mut CInt); ("argv", Mut (Mut (Mut CChar)))] Unit;
  MkDecl "hs_init_with_rtsopts" [("argc", Const CInt); ("argv", Const (Const (Const CChar)))] Unit;
  MkDecl "hs_exit" [] Unit
].

Definition externs1 : list Decl := [
  MkDecl "startConsensus" [
    ("max_block_size", U64); ("block_construction_timeout", U64);
    ("insertions_before_purging", U64); ("transaction_keep_alive", U64);
    ("transactions_purging_delay", U64); ("accounts_cache_size", U32);
    ("modules_cache_size", U32); ("genesis_data", Const U8); ("genesis_data_len", I64);
    ("private_data", Const U8); ("private_data_len", I64);
    ("notify_context", Mut NotificationContext); ("notify_callback", NotifyCallback);
    ("broadcast_callback", BroadcastCallback); ("catchup_status_callback", CatchUpStatusCallback);
    ("regenesis_arc", Const Regenesis); ("free_regenesis_arc", RegenesisFreeCallback);
    ("regenesis_callback", RegenesisCallback); ("maximum_log_level", U8);
    ("log_callback", LogCallback); ("appdata_dir", Const U8); ("appdata_dir_len", I64);
    ("runner_ptr_ptr", Mut (Mut consensus_runner))] I64;
  MkDecl "startConsensusPassive" [
    ("max_block_size", U64); ("block_construction_timeout", U64);
    ("insertions_before_purging", U64); ("transaction_keep_alive", U64);
    ("transactions_purging_delay", U64); ("accounts_cache_size", U32);
    ("modules_cache_size", U32); ("genesis_data", Const U8); ("genesis_data_len", I64);
    ("notify_context", Mut NotificationContext); ("notify_callback", NotifyCallback);
    ("catchup_status_callback", CatchUpStatusCallback); ("regenesis_arc", Const Regenesis);
    ("free_regenesis_arc", RegenesisFreeCallback); ("regenesis_callback", RegenesisCallback);
    ("maximum_log_level", U8); ("log_callback", LogCallback); ("appdata_dir", Const U8);
    ("appdata_dir_len", I64); ("runner_ptr_ptr", Mut (Mut consensus_runner))] I64;
  MkDecl "startBaker" [
    ("consensus", Mut consensus_runner)] Unit;
  MkDecl "receiveBlock" [
    ("consensus", Mut consensus_runner); ("genesis_index", U32); ("block_data", Const U8);
    ("data_length", U64); ("execute_block_ptr_ptr", Mut (Mut execute_block))] I64;
  MkDecl "executeBlock" [
    ("consensus", Mut consensus_runner); ("execute_block_callback", ExecuteBlockCallback)] I64;
  MkDecl "receiveFinalizationMessage" [
    ("consensus", Mut consensus_runner); ("genesis_index", U32); ("finalization_data", Const U8);
    ("data_length", I64)] I64;
  MkDecl "receiveFinalizationRecord" [
    ("consensus", Mut consensus_runner); ("genesis_index", U32); ("finalization_data", Const U8);
    ("data_length", I64)] I64;
  MkDecl "receiveTransaction" [
    ("consensus", Mut consensus_runner); ("tx", Const U8); ("data_length", I64);
    ("out_hash", Mut U8)] I64;
  MkDecl "stopBaker" [
    ("consensus", Mut consensus_runner)] Unit;
  MkDecl "stopConsensus" [
    ("consensus", Mut consensus_runner)] Unit;
  MkDecl "getConsensusStatus" [
    ("consensus", Mut consensus_runner)] (Const CChar);
  MkDecl "getBlockInfo" [
    ("consensus", Mut consensus_runner); ("block_hash", Const CChar)] (Const CChar);
  MkDecl "getAncestors" [
    ("consensus", Mut consensus_runner); ("block_hash", Const CChar); ("amount", U64)] (Const CChar);
  MkDecl "getBranches" [
    ("consensus", Mut consensus_runner)] (Const CChar);
  MkDecl "getAccountList" [
    ("consensus", Mut consensus_runner); ("block_hash", Const CChar)] (Const CChar);
  MkDecl "getInstances" [
    ("consensus", Mut consensus_runner); ("block_hash", Const CChar)] (Const CChar);
  MkDecl "getAccountInfo" [
    ("consensus", Mut consensus_runner); ("block_hash", Const CChar);
    ("account_address", Const CChar)] (Const CChar);
  MkDecl "getInstanceInfo" [
    ("consensus", Mut consensus_runner); ("block_hash", Const CChar);
    ("contract_address", Const CChar)] (Const CChar);
  MkDecl "invokeContract" [
    ("consensus", Mut consensus_runner); ("block_hash", Const CChar); ("context", Const CChar)] (Const CChar);
  MkDecl "getRewardStatus" [
    ("consensus", Mut consensus_runner); ("block_hash", Const CChar)] (Const CChar);
  MkDecl "getBirkParameters" [
    ("consensus", Mut consensus_runner); ("block_hash", Const CChar)] (Const CChar);
  MkDecl "getModuleList" [
    ("consensus", Mut consensus_runner); ("block_hash", Const CChar)] (Const CChar);
  MkDecl "getModuleSource" [
    ("consensus", Mut consensus_runner); ("block_hash", Const CChar); ("module_ref", Const CChar)] (Const U8);
  MkDecl "getBakerList" [
    ("consensus", Mut consensus_runner); ("block_hash", Const U8)] (Const CChar);
  MkDecl "getPoolStatus" [
    ("consensus", Mut consensus_runner); ("block_hash", Const U8); ("passive_delegation", Bool);
    ("baker_id", U64)] (Const CChar);
  MkDecl "freeCStr" [
    ("hstring", Const CChar)] Unit
].

Definition externs2 : list Decl := [
  MkDecl "getCatchUpStatus" [
    ("consensus", Mut consensus_runner); ("genesis_index", Mut U32); ("msg", Mut (Const U8))] I64;
  MkDecl "receiveCatchUpStatus" [
    ("consensus", Mut consensus_runner); ("peer_id", PeerIdFFI); ("genesis_index", U32);
    ("msg", Const U8); ("msg_len", I64); ("object_limit", I64);
    ("direct_callback", DirectMessageCallback)] I64;
  MkDecl "bakerStatusBestBlock" [
    ("consensus", Mut consensus_runner); ("baker_id", Mut U64); ("has_baker_id", Mut U8)] U8;
  MkDecl "checkIfWeAreFinalizer" [
    ("consensus", Mut consensus_runner)] U8;
  MkDecl "checkIfRunning" [
    ("consensus", Mut consensus_runner)] U8;
  MkDecl "getAccountNonFinalizedTransactions" [
    ("consensus", Mut consensus_runner); ("account_address", Const CChar)] (Const CChar);
  MkDecl "getBlockSummary" [
    ("consensus", Mut consensus_runner); ("block_hash", Const CChar)] (Const CChar);
  MkDecl "getBlocksAtHeight" [
    ("consensus", Mut consensus_runner); ("block_height", U64); ("genesis_index", U32);
    ("restrict", U8)] (Const CChar);
  MkDecl "getLastFinalizedBlockHeight" [
    ("consensus", Mut consensus_runner)] U64;
  MkDecl "getTransactionStatus" [
    ("consensus", Mut consensus_runner); ("transaction_hash", Const CChar)] (Const CChar);
  MkDecl "getTransactionStatusInBlock" [
    ("consensus", Mut consensus_runner); ("transaction_hash", Const CChar);
    ("block_hash", Const CChar)] (Const CChar);
  MkDecl "getNextAccountNonce" [
    ("consensus", Mut consensus_runner); ("account_address", Const CChar)] (Const CChar);
  MkDecl "getAllIdentityProviders" [
    ("consensus", Mut consensus_runner); ("block_hash", Const CChar)] (Const CChar);
  MkDecl "getAllAnonymityRevokers" [
    ("consensus", Mut consensus_runner); ("block_hash", Const CChar)] (Const CChar);
  MkDecl "getCryptographicParameters" [
    ("consensus", Mut consensus_runner); ("block_hash", Const CChar)] (Const CChar);
  MkDecl "importBlocks" [
    ("consensus", Mut consensus_runner); ("import_file_path", Const U8);
    ("import_file_path_len", I64)] I64;
  MkDecl "stopImportingBlocks" [
    ("consensus", Mut consensus_runner)] Unit;
  MkDecl "freeByteArray" [
    ("hstring", Const U8)] Unit;
  MkDecl "getAccountInfoV2" [
    ("consensus", Mut consensus_runner); ("block_id_type", U8); ("block_id", Const U8);
    ("account_id_type", U8); ("account_id", Const U8); ("out_hash", Mut U8); ("out", Mut vec_u8);
    ("copier", CopyToVecCallback)] I64;
  MkDecl "getNextAccountSequenceNumberV2" [
    ("consensus", Mut consensus_runner); ("account_address_ptr", Const U8); ("out", Mut vec_u8);
    ("copier", CopyToVecCallback)] I64;
  MkDecl "getConsensusInfoV2" [
    ("consensus", Mut consensus_runner); ("out", Mut vec_u8); ("copier", CopyToVecCallback)] I64;
  MkDecl "getCryptographicParametersV2" [
    ("consensus", Mut consensus_runner); ("block_id_type", U8); ("block_id", Const U8);
    ("out_hash", Mut U8); ("out", Mut OptionCryptographicParameters);
    ("copier", CopyCryptographicParametersCallback)] I64
].

Definition externs3 : list Decl := [
  MkDecl "getModuleListV2" [
    ("consensus", Mut consensus_runner); ("stream", Mut Sender); ("block_id_type", U8);
    ("block_id", Const U8); ("out_hash", Mut U8); ("callback", enqueue_fn)] I64;
  MkDecl "getModuleSourceV2" [
    ("consensus", Mut consensus_runner); ("block_id_type", U8); ("block_id", Const U8);
    ("module_ref", Const U8); ("out_hash", Mut U8); ("out", Mut vec_u8);
    ("copier", CopyToVecCallback)] I64;
  MkDecl "getInstanceListV2" [
    ("consensus", Mut consensus_runner); ("stream", Mut Sender); ("block_id_type", U8);
    ("block_id", Const U8); ("out_hash", Mut U8); ("callback", enqueue_fn)] I64;
  MkDecl "getInstanceInfoV2" [
    ("consensus", Mut consensus_runner); ("block_id_type", U8); ("block_id", Const U8);
    ("contract_address_index", U64); ("contract_address_subindex", U64); ("out_hash", Mut U8);
    ("out", Mut vec_u8); ("copier", CopyToVecCallback)] I64;
  MkDecl "getInstanceStateV2" [
    ("consensus", Mut consensus_runner); ("block_id_type", U8); ("block_id", Const U8);
    ("contract_address_index", U64); ("contract_address_subindex", U64); ("out_hash", Mut U8);
    ("out_v0", Mut vec_u8); ("copier_v0", CopyToVecCallback);
    ("out_v1", Mut OptionV1ContractStateReceiver); ("copier_v1", CopyV1ContractStateCallback)] I64;
  MkDecl "getAncestorsV2" [
    ("consensus", Mut consensus_runner); ("stream", Mut Sender); ("block_id_type", U8);
    ("block_id", Const U8); ("depth", U64); ("out_hash", Mut U8); ("callback", enqueue_fn)] I64
].

Definition externs4 : list Decl := [
  MkDecl "getAccountListV2" [
    ("consensus", Mut consensus_runner); ("stream", Mut Sender); ("block_id_type", U8);
    ("block_id", Const U8); ("out_hash", Mut U8); ("callback", enqueue_fn)] I64;
  MkDecl "getBlockItemStatusV2" [
    ("consensus", Mut consensus_runner); ("transaction_hash", Const U8); ("out", Mut vec_u8);
    ("copier", CopyToVecCallback)] I64;
  MkDecl "invokeInstanceV2" [
    ("consensus", Mut consensus_runner); ("block_id_type", U8); ("block_id", Const U8);
    ("contract_index", U64); ("contract_subindex", U64); ("invoker_address_type", U8);
    ("invoker_account_address_ptr", Const U8); ("invoker_contract_index", U64);
    ("invoker_contract_subindex", U64); ("amount", U64); ("receive_name_ptr", Const U8);
    ("receive_name_len", U32); ("parameter_ptr", Const U8); ("parameter_len", U32);
    ("energy", U64); ("out_hash", Mut U8); ("out", Mut vec_u8); ("copier", CopyToVecCallback)] I64;
  MkDecl "getBlockInfoV2" [
    ("consensus", Mut consensus_runner); ("block_id_type", U8); ("block_id", Const U8);
    ("out_hash", Mut U8); ("out", Mut vec_u8); ("copier", CopyToVecCallback)] I64;
  MkDecl "getBakerListV2" [
    ("consensus", Mut consensus_runner); ("stream", Mut Sender); ("block_id_type", U8);
    ("block_id", Const U8); ("out_hash", Mut U8); ("callback", enqueue_fn)] I64;
  MkDecl "getPoolInfoV2" [
    ("consensus", Mut consensus_runner); ("block_id_type", U8); ("block_id", Const U8);
    ("baker_id", U64); ("out_hash", Mut U8); ("out", Mut vec_u8); ("copier", CopyToVecCallback)] I64
].

Definition externs5 : list Decl := [
  MkDecl "getPassiveDelegationInfoV2" [
    ("consensus", Mut consensus_runner); ("block_id_type", U8); ("block_id", Const U8);
    ("out_hash", Mut U8); ("out", Mut vec_u8); ("copier", CopyToVecCallback)] I64;
  MkDecl "getBlocksAtHeightV2" [
    ("consensus", Mut consensus_runner); ("height", U64); ("genesis_index", U32);
    ("restrict", U8); ("out", Mut vec_u8); ("copier", CopyToVecCallback)] I64;
  MkDecl "getTokenomicsInfoV2" [
    ("consensus", Mut consensus_runner); ("block_id_type", U8); ("block_id", Const U8);
    ("out_hash", Mut U8); ("out", Mut vec_u8); ("copier", CopyToVecCallback)] I64;
  MkDecl "getPoolDelegatorsV2" [
    ("consensus", Mut consensus_runner); ("stream", Mut Sender); ("block_id_type", U8);
    ("block_id", Const U8); ("baker_id", U64); ("out_hash", Mut U8); ("callback", enqueue_fn)] I64;
  MkDecl "getPoolDelegatorsRewardPeriodV2" [
    ("consensus", Mut consensus_runner); ("stream", Mut Sender); ("block_id_type", U8);
    ("block_id", Const U8); ("baker_id", U64); ("out_hash", Mut U8); ("callback", enqueue_fn)] I64;
  MkDecl "getPassiveDelegatorsV2" [
    ("consensus", Mut consensus_runner); ("stream", Mut Sender); ("block_id_type", U8);
    ("block_id", Const U8); ("out_hash", Mut U8); ("callback", enqueue_fn)] I64
].

Definition externs6 : list Decl := [
  MkDecl "getPassiveDelegatorsRewardPeriodV2" [
    ("consensus", Mut consensus_runner); ("stream", Mut Sender); ("block_id_type", U8);
    ("block_id", Const U8); ("out_hash", Mut U8); ("callback", enqueue_fn)] I64;
  MkDecl "getBranchesV2" [
    ("consensus", Mut consensus_runner); ("out", Mut vec_u8); ("copier", CopyToVecCallback)] I64;
  MkDecl "getElectionInfoV2" [
    ("consensus", Mut consensus_runner); ("block_id_type", U8); ("block_id", Const U8);
    ("out_hash", Mut U8); ("out", Mut vec_u8); ("copier", CopyToVecCallback)] I64;
  MkDecl "getIdentityProvidersV2" [
    ("consensus", Mut consensus_runner); ("stream", Mut Sender); ("block_id_type", U8);
    ("block_id", Const U8); ("out_hash", Mut U8); ("callback", enqueue_fn)] I64;
  MkDecl "getAnonymityRevokersV2" [
    ("consensus", Mut consensus_runner); ("stream", Mut Sender); ("block_id_type", U8);
    ("block_id", Const U8); ("out_hash", Mut U8); ("callback", enqueue_fn)] I64;
  MkDecl "getAccountNonFinalizedTransactionsV2" [
    ("consensus", Mut consensus_runner); ("stream", Mut Sender);
    ("account_address_ptr", Const U8); ("callback", enqueue_fn)] I64;
  MkDecl "getBlockItemsV2" [
    ("consensus", Mut consensus_runner); ("stream", Mut Sender); ("block_id_type", U8);
    ("block_hash_ptr", Const U8); ("out_hash", Mut U8); ("callback", enqueue_fn)] I64
].

Definition externs7 : list Decl := [
  MkDecl "getBlockTransactionEventsV2" [
    ("consensus", Mut consensus_runner); ("stream", Mut Sender); ("block_id_type", U8);
    ("block_id", Const U8); ("out_hash", Mut U8); ("callback", enqueue_fn)] I64;
  MkDecl "getBlockSpecialEventsV2" [
    ("consensus", Mut consensus_runner); ("stream", Mut Sender); ("block_id_type", U8);
    ("block_id", Const U8); ("out_hash", Mut U8); ("callback", enqueue_fn)] I64;
  MkDecl "getBlockPendingUpdatesV2" [
    ("consensus", Mut consensus_runner); ("stream", Mut Sender); ("block_id_type", U8);
    ("block_id", Const U8); ("out_hash", Mut U8); ("callback", enqueue_fn)] I64;
  MkDecl "getNextUpdateSequenceNumbersV2" [
    ("consensus", Mut consensus_runner); ("block_id_type", U8); ("block_id", Const U8);
    ("out_hash", Mut U8); ("out", Mut vec_u8); ("copier", CopyToVecCallback)] I64;
  MkDecl "getBlockChainParametersV2" [
    ("consensus", Mut consensus_runner); ("block_id_type", U8); ("block_id", Const U8);
    ("out_hash", Mut U8); ("out", Mut vec_u8); ("copier", CopyToVecCallback)] I64;
  MkDecl "getBlockFinalizationSummaryV2" [
    ("consensus", Mut consensus_runner); ("block_id_type", U8); ("block_id", Const U8);
    ("out_hash", Mut U8); ("out", Mut vec_u8); ("copier", CopyToVecCallback)] I64;
  MkDecl "getLastFinalizedBlockSlotTimeV2" [
    ("consensus", Mut consensus_runner)] U64
].
Definition externs : list Decl :=
  externs1 ++ externs2 ++ externs3 ++ externs4 ++ externs5 ++ externs6 ++ externs7.

(** A pointer to octets may be declared with any of the types of octets. *)
Definition target (t : type) (r : Repr) : Repr :=
  match t with U8 | CChar => Octet | _ => r end.

Fixpoint repr `{!AbiExt} (t : type) : Repr :=
  match t with
  | U8 | Bool => IntR 8 false
  | U32 => IntR 32 false
  | U64 => IntR 64 false
  | I32 => IntR 32 true
  | I64 => IntR 64 true
  | CChar => IntR 8 char_signed
  | Unit => NoValue
  | Struct name => Object name
  | Const t | Mut t => Addr (target t (repr t))
  | Fn args ret => Code (map repr args) (repr ret)
  | LoadCallback => LoadCallback_repr
  end.
End Rust.

(** ** The side of the library *)
Module Haskell.
Inductive type :=
  | Word8 | Word32 | Word64 | Int32 | Int64 | CBool | CChar | Unit
  | GenesisIndex | Timestamp
  | Data (name : string)
  | Ptr (t : type)
  | StablePtr (t : type)
  | Fun (args : list type) (res : type)
  | FunPtr (t : type).

Record Export := MkExport { e_name : string; e_args : list type; e_res : type }.

Definition CString : type := Ptr CChar.
Definition PeerID : type := Word64.
Definition ReceiveResult : type := Int64.
Definition ConsensusRunner : type := Data "ConsensusRunner".
Definition ExecuteBlock : type := Data "ExecuteBlock".
Definition NotifyContext : type := Data "NotifyContext".
Definition RegenesisArc : type := Data "RegenesisArc".
Definition SenderChannel : type := Data "SenderChannel".
Definition ReceiverVec : type := Data "ReceiverVec".
Definition CryptographicParameters : type := Data "CryptographicParameters".
Definition ReceiverCryptographicParameters : type := Data "ReceiverCryptographicParameters".
Definition PersistentStateReceiver : type := Data "PersistentStateReceiver".
Definition PersistentState : type := Data "PersistentState".
Definition Vec : type := Data "Vec".

Definition LogCallback : type := Fun [Word8; Word8; CString] Unit.
Definition BroadcastCallback : type := Fun [Int64; GenesisIndex; CString; Int64] Unit.
Definition DirectMessageCallback : type := Fun [PeerID; Int64; GenesisIndex; CString; Int64] Unit.
Definition CatchUpStatusCallback : type := Fun [GenesisIndex; CString; Int64] Unit.
Definition RegenesisCallback : type := Fun [Ptr RegenesisArc; Ptr Word8] Unit.
(** [FinalizerPtr RegenesisArc] *)
Definition RegenesisFree : type := FunPtr (Fun [Ptr RegenesisArc] Unit).
Definition NotifyCallback : type := Fun [Ptr NotifyContext; Word8; Ptr Word8; Word64] Unit.
Definition CopyToVecCallback : type := Fun [Ptr ReceiverVec; Ptr Word8; Int64] Unit.
Definition CopyCryptographicParametersCallback : type :=
  Fun [Ptr ReceiverCryptographicParameters; Ptr CryptographicParameters] Unit.
Definition ChannelSendCallback : type := Fun [Ptr SenderChannel; Ptr Word8; Int64] Int32.
Definition LoadCallbackType : type := Fun [Word64] (Ptr Vec).
Definition LoadCallback : type := FunPtr LoadCallbackType.
Definition PersistentStateCopier : type :=
  Fun [Ptr PersistentStateReceiver; Ptr PersistentState; LoadCallback] Unit.

Definition exports1 : list Export := [
  MkExport "startConsensus" [
    Word64; Word64; Word64; Word64; Word64; Word32; Word32; CString; Int64; CString; Int64;
    Ptr NotifyContext; FunPtr NotifyCallback; FunPtr BroadcastCallback;
    FunPtr CatchUpStatusCallback; Ptr RegenesisArc; RegenesisFree; FunPtr RegenesisCallback;
    Word8; FunPtr LogCallback; CString; Int64; Ptr (StablePtr ConsensusRunner)] Int64;
  MkExport "startConsensusPassive" [
    Word64; Word64; Word64; Word64; Word64; Word32; Word32; CString; Int64; Ptr NotifyContext;
    FunPtr NotifyCallback; FunPtr CatchUpStatusCallback; Ptr RegenesisArc; RegenesisFree;
    FunPtr RegenesisCallback; Word8; FunPtr LogCallback; CString; Int64;
    Ptr (StablePtr ConsensusRunner)] Int64;
  MkExport "stopConsensus" [StablePtr ConsensusRunner] Unit;
  MkExport "startBaker" [StablePtr ConsensusRunner] Unit;
  MkExport "stopBaker" [StablePtr ConsensusRunner] Unit;
  MkExport "receiveBlock" [
    StablePtr ConsensusRunner; GenesisIndex; CString; Word64; Ptr (StablePtr ExecuteBlock)] Int64;
  MkExport "executeBlock" [StablePtr ConsensusRunner; StablePtr ExecuteBlock] Int64;
  MkExport "receiveFinalizationMessage" [
    StablePtr ConsensusRunner; GenesisIndex; CString; Int64] Int64;
  MkExport "receiveFinalizationRecord" [
    StablePtr ConsensusRunner; GenesisIndex; CString; Int64] Int64;
  MkExport "receiveTransaction" [StablePtr ConsensusRunner; CString; Int64; Ptr Word8] Int64;
  MkExport "getConsensusStatus" [StablePtr ConsensusRunner] CString;
  MkExport "getBlockInfo" [StablePtr ConsensusRunner; CString] CString;
  MkExport "getAncestors" [StablePtr ConsensusRunner; CString; Word64] CString;
  MkExport "getBranches" [StablePtr ConsensusRunner] CString;
  MkExport "getCatchUpStatus" [StablePtr ConsensusRunner; Ptr GenesisIndex; Ptr CString] Int64;
  MkExport "receiveCatchUpStatus" [
    StablePtr ConsensusRunner; PeerID; GenesisIndex; CString; Int64; Int64;
    FunPtr DirectMessageCallback] ReceiveResult;
  MkExport "getAccountList" [StablePtr ConsensusRunner; CString] CString;
  MkExport "getInstances" [StablePtr ConsensusRunner; CString] CString;
  MkExport "getAccountInfo" [StablePtr ConsensusRunner; CString; CString] CString;
  MkExport "getInstanceInfo" [StablePtr ConsensusRunner; CString; CString] CString;
  MkExport "invokeContract" [StablePtr ConsensusRunner; CString; CString] CString;
  MkExport "getRewardStatus" [StablePtr ConsensusRunner; CString] CString;
  MkExport "getBirkParameters" [StablePtr ConsensusRunner; CString] CString;
  MkExport "getModuleList" [StablePtr ConsensusRunner; CString] CString;
  MkExport "getModuleSource" [StablePtr ConsensusRunner; CString; CString] CString;
  MkExport "getBakerList" [StablePtr ConsensusRunner; CString] CString;
  MkExport "getPoolStatus" [StablePtr ConsensusRunner; CString; CBool; Word64] CString;
  MkExport "getTransactionStatus" [StablePtr ConsensusRunner; CString] CString;
  MkExport "getTransactionStatusInBlock" [StablePtr ConsensusRunner; CString; CString] CString;
  MkExport "getAccountNonFinalizedTransactions" [StablePtr ConsensusRunner; CString] CString;
  MkExport "getBlockSummary" [StablePtr ConsensusRunner; CString] CString;
  MkExport "getNextAccountNonce" [StablePtr ConsensusRunner; CString] CString;
  MkExport "getBlocksAtHeight" [StablePtr ConsensusRunner; Word64; Word32; Word8] CString;
  MkExport "getLastFinalizedBlockHeight" [StablePtr ConsensusRunner] Word64;
  MkExport "getAllIdentityProviders" [StablePtr ConsensusRunner; CString] CString;
  MkExport "getAllAnonymityRevokers" [StablePtr ConsensusRunner; CString] CString;
  MkExport "getCryptographicParameters" [StablePtr ConsensusRunner; CString] CString;
  MkExport "bakerStatusBestBlock" [StablePtr ConsensusRunner; Ptr Word64; Ptr Word8] Word8;
  MkExport "checkIfWeAreFinalizer" [StablePtr ConsensusRunner] Word8;
  MkExport "checkIfRunning" [StablePtr ConsensusRunner] Word8;
  MkExport "freeCStr" [CString] Unit;
  MkExport "importBlocks" [StablePtr ConsensusRunner; CString; Int64] Int64;
  MkExport "stopImportingBlocks" [StablePtr ConsensusRunner] Unit
].

Definition exports2 : list Export := [
  MkExport "getAccountInfoV2" [
    StablePtr ConsensusRunner; Word8; Ptr Word8; Word8; Ptr Word8; Ptr Word8; Ptr ReceiverVec;
    FunPtr CopyToVecCallback] Int64;
  MkExport "getAccountListV2" [
    StablePtr ConsensusRunner; Ptr SenderChannel; Word8; Ptr Word8; Ptr Word8;
    FunPtr ChannelSendCallback] Int64;
  MkExport "getModuleListV2" [
    StablePtr ConsensusRunner; Ptr SenderChannel; Word8; Ptr Word8; Ptr Word8;
    FunPtr ChannelSendCallback] Int64;
  MkExport "getModuleSourceV2" [
    StablePtr ConsensusRunner; Word8; Ptr Word8; Ptr Word8; Ptr Word8; Ptr ReceiverVec;
    FunPtr CopyToVecCallback] Int64;
  MkExport "getInstanceListV2" [
    StablePtr ConsensusRunner; Ptr SenderChannel; Word8; Ptr Word8; Ptr Word8;
    FunPtr ChannelSendCallback] Int64;
  MkExport "getAncestorsV2" [
    StablePtr ConsensusRunner; Ptr SenderChannel; Word8; Ptr Word8; Word64; Ptr Word8;
    FunPtr ChannelSendCallback] Int64;
  MkExport "getInstanceInfoV2" [
    StablePtr ConsensusRunner; Word8; Ptr Word8; Word64; Word64; Ptr Word8; Ptr ReceiverVec;
    FunPtr CopyToVecCallback] Int64;
  MkExport "getInstanceStateV2" [
    StablePtr ConsensusRunner; Word8; Ptr Word8; Word64; Word64; Ptr Word8; Ptr ReceiverVec;
    FunPtr CopyToVecCallback; Ptr PersistentStateReceiver; FunPtr PersistentStateCopier] Int64;
  MkExport "getNextAccountSequenceNumberV2" [
    StablePtr ConsensusRunner; Ptr Word8; Ptr ReceiverVec; FunPtr CopyToVecCallback] Int64;
  MkExport "getBlockItemStatusV2" [
    StablePtr ConsensusRunner; Ptr Word8; Ptr ReceiverVec; FunPtr CopyToVecCallback] Int64
].

Definition exports3 : list Export := [
  MkExport "getConsensusInfoV2" [
    StablePtr ConsensusRunner; Ptr ReceiverVec; FunPtr CopyToVecCallback] Int64;
  MkExport "invokeInstanceV2" [
    StablePtr ConsensusRunner; Word8; Ptr Word8; Word64; Word64; Word8; Ptr Word8; Word64; Word64;
    Word64; Ptr Word8; Word32; Ptr Word8; Word32; Word64; Ptr Word8; Ptr ReceiverVec;
    FunPtr CopyToVecCallback] Int64;
  MkExport "getCryptographicParametersV2" [
    StablePtr ConsensusRunner; Word8; Ptr Word8; Ptr Word8; Ptr ReceiverCryptographicParameters;
    FunPtr CopyCryptographicParametersCallback] Int64;
  MkExport "getBlockInfoV2" [
    StablePtr ConsensusRunner; Word8; Ptr Word8; Ptr Word8; Ptr ReceiverVec;
    FunPtr CopyToVecCallback] Int64;
  MkExport "getBakerListV2" [
    StablePtr ConsensusRunner; Ptr SenderChannel; Word8; Ptr Word8; Ptr Word8;
    FunPtr ChannelSendCallback] Int64;
  MkExport "getPoolInfoV2" [
    StablePtr ConsensusRunner; Word8; Ptr Word8; Word64; Ptr Word8; Ptr ReceiverVec;
    FunPtr CopyToVecCallback] Int64;
  MkExport "getPassiveDelegationInfoV2" [
    StablePtr ConsensusRunner; Word8; Ptr Word8; Ptr Word8; Ptr ReceiverVec;
    FunPtr CopyToVecCallback] Int64;
  MkExport "getBlocksAtHeightV2" [
    StablePtr ConsensusRunner; Word64; Word32; Word8; Ptr ReceiverVec; FunPtr CopyToVecCallback] Int64;
  MkExport "getTokenomicsInfoV2" [
    StablePtr ConsensusRunner; Word8; Ptr Word8; Ptr Word8; Ptr ReceiverVec;
    FunPtr CopyToVecCallback] Int64
].

Definition exports4 : list Export := [
  MkExport "getPoolDelegatorsV2" [
    StablePtr ConsensusRunner; Ptr SenderChannel; Word8; Ptr Word8; Word64; Ptr Word8;
    FunPtr ChannelSendCallback] Int64;
  MkExport "getPoolDelegatorsRewardPeriodV2" [
    StablePtr ConsensusRunner; Ptr SenderChannel; Word8; Ptr Word8; Word64; Ptr Word8;
    FunPtr ChannelSendCallback] Int64;
  MkExport "getPassiveDelegatorsV2" [
    StablePtr ConsensusRunner; Ptr SenderChannel; Word8; Ptr Word8; Ptr Word8;
    FunPtr ChannelSendCallback] Int64;
  MkExport "getPassiveDelegatorsRewardPeriodV2" [
    StablePtr ConsensusRunner; Ptr SenderChannel; Word8; Ptr Word8; Ptr Word8;
    FunPtr ChannelSendCallback] Int64;
  MkExport "getBranchesV2" [
    StablePtr ConsensusRunner; Ptr ReceiverVec; FunPtr CopyToVecCallback] Int64;
  MkExport "getElectionInfoV2" [
    StablePtr ConsensusRunner; Word8; Ptr Word8; Ptr Word8; Ptr ReceiverVec;
    FunPtr CopyToVecCallback] Int64;
  MkExport "getIdentityProvidersV2" [
    StablePtr ConsensusRunner; Ptr SenderChannel; Word8; Ptr Word8; Ptr Word8;
    FunPtr ChannelSendCallback] Int64;
  MkExport "getAnonymityRevokersV2" [
    StablePtr ConsensusRunner; Ptr SenderChannel; Word8; Ptr Word8; Ptr Word8;
    FunPtr ChannelSendCallback] Int64;
  MkExport "getAccountNonFinalizedTransactionsV2" [
    StablePtr ConsensusRunner; Ptr SenderChannel; Ptr Word8; FunPtr ChannelSendCallback] Int64;
  MkExport "getBlockItemsV2" [
    StablePtr ConsensusRunner; Ptr SenderChannel; Word8; Ptr Word8; Ptr Word8;
    FunPtr ChannelSendCallback] Int64;
  MkExport "getBlockTransactionEventsV2" [
    StablePtr ConsensusRunner; Ptr SenderChannel; Word8; Ptr Word8; Ptr Word8;
    FunPtr ChannelSendCallback] Int64;
  MkExport "getBlockSpecialEventsV2" [
    StablePtr ConsensusRunner; Ptr SenderChannel; Word8; Ptr Word8; Ptr Word8;
    FunPtr ChannelSendCallback] Int64
].

Definition exports5 : list Export := [
  MkExport "getBlockPendingUpdatesV2" [
    StablePtr ConsensusRunner; Ptr SenderChannel; Word8; Ptr Word8; Ptr Word8;
    FunPtr ChannelSendCallback] Int64;
  MkExport "getNextUpdateSequenceNumbersV2" [
    StablePtr ConsensusRunner; Word8; Ptr Word8; Ptr Word8; Ptr ReceiverVec;
    FunPtr CopyToVecCallback] Int64;
  MkExport "getBlockChainParametersV2" [
    StablePtr ConsensusRunner; Word8; Ptr Word8; Ptr Word8; Ptr ReceiverVec;
    FunPtr CopyToVecCallback] Int64;
  MkExport "getBlockFinalizationSummaryV2" [
    StablePtr ConsensusRunner; Word8; Ptr Word8; Ptr Word8; Ptr ReceiverVec;
    FunPtr CopyToVecCallback] Int64;
  MkExport "getLastFinalizedBlockSlotTimeV2" [StablePtr ConsensusRunner] Timestamp
].
Definition exports : list Export := exports1 ++ exports2 ++ exports3 ++ exports4 ++ exports5.

(** The object of the node that an opaque type of the library stands for *)
Definition stands_for (name : string) : string :=
  match name with
  | "ConsensusRunner" => "consensus_runner"
  | "ExecuteBlock" => "execute_block"
  | "NotifyContext" => "NotificationContext"
  | "RegenesisArc" => "Regenesis"
  | "SenderChannel" => "Sender<Result<Vec<u8>, Status>>"
  | "ReceiverVec" => "Vec<u8>"
  | "ReceiverCryptographicParameters" => "Option<CryptographicParameters>"
  | "PersistentStateReceiver" => "Option<V1ContractStateReceiver>"
  | name => name
  end.

Definition target (t : type) (r : Repr) : Repr :=
  match t with Word8 | CChar => Octet | _ => r end.

Fixpoint repr `{!AbiExt} (t : type) : Repr :=
  match t with
  | Word8 | CBool => IntR 8 false
  | Word32 => IntR 32 false
  | Word64 => IntR 64 false
  | Int32 => IntR 32 true
  | Int64 => IntR 64 true
  | CChar => IntR 8 char_signed
  | Unit => NoValue
  | GenesisIndex => GenesisIndex_repr
  | Timestamp => Timestamp_repr
  | Data name => Object (stands_for name)
  | Ptr t => Addr (target t (repr t))
  | StablePtr t => Addr (repr t)
  | Fun args res => Code (map repr args) (repr res)
  | FunPtr t => repr t
  end.
End Haskell.
Import Rust(Decl, d_name, d_params, d_ret, externs, runtime_externs).
Import Haskell(Export, e_name, e_args, e_res, exports).

(** [GenesisIndex] is a [Word32] and [Timestamp] a [Word64]; the callback of the contract
    state is the one that the library declares in [ContractStateFFIHelpers.hs]; the
    prototypes of [HsFFI.h] are [void hs_init(int *argc, char **argv[])], the same for
    [hs_init_with_rtsopts], and [void hs_exit(void)], where an [int] has 32 bits. *)
Class AbiLaws `{!AbiExt} : Prop := {
  genesis_index_word32 : GenesisIndex_repr = IntR 32 false;
  timestamp_word64 : Timestamp_repr = IntR 64 false;
  load_callback_agrees : LoadCallback_repr = Haskell.repr Haskell.LoadCallback;
  hs_init_prototype :
    runtime_exports "hs_init" = Some ([Addr (IntR 32 true); Addr (Addr (Addr Octet))], NoValue);
  hs_init_with_rtsopts_prototype :
    runtime_exports "hs_init_with_rtsopts"
    = Some ([Addr (IntR 32 true); Addr (Addr (Addr Octet))], NoValue);
  hs_exit_prototype : runtime_exports "hs_exit" = Some ([], NoValue);
}.

(** ** Passing a value

    A register holds a value of a type when its low bits do; the others are arbitrary. *)
Definition in_range (bits : Z) (signed : bool) (v : Z) : Prop :=
  if signed then (- 2 ^ (bits - 1) ≤ v < 2 ^ (bits - 1))%Z else (0 ≤ v < 2 ^ bits)%Z.

Definition holds (bits v reg : Z) : Prop := (reg mod 2 ^ bits = v mod 2 ^ bits)%Z.

Definition read (bits : Z) (signed : bool) (reg : Z) : Z :=
  let low := (reg mod 2 ^ bits)%Z in
  if signed && (2 ^ (bits - 1) <=? low)%Z then (low - 2 ^ bits)%Z else low.

(** Every value that the one side passes (octets only below [lim]) the other one reads. *)
Definition arrives (lim : Z) (bits : Z) (signed : bool) (bits' : Z) (signed' : bool) : Prop :=
  ∀ v reg, in_range bits signed v → (bits = 8 → v < lim)%Z → holds bits v reg →
  read bits' signed' reg = v.

(** Values of the representation [x] pass to the representation [y] ([forward]) or from
    [y] to [x].  The arguments of code go the opposite way. *)
Fixpoint carries (lim : Z) (forward : bool) (x y : Repr) : Prop :=
  match x, y with
  | IntR b s, IntR b' s' => if forward then arrives lim b s b' s' else arrives lim b' s' b s
  | Octet, Octet => True
  | Object n, Object n' => n = n'
  | Addr t, Addr t' => carries lim true t t' ∧ carries lim false t t'
  | Code args res, Code args' res' =>
    (fix all args args' := match args, args' with
     | [], [] => True
     | a :: args, a' :: args' => carries lim (negb forward) a a' ∧ all args args'
     | _, _ => False
     end) args args' ∧ carries lim forward res res'
  | NoValue, NoValue => True
  | _, _ => False
  end.

(** Decides it; with [lenient], unsigned octets may be read as signed ones. *)
Fixpoint agrees (lenient forward : bool) (x y : Repr) : bool :=
  match x, y with
  | IntR b s, IntR b' s' =>
    (0 <? b)%Z && (b =? b')%Z
    && (eqb s s' || lenient && (b =? 8)%Z && negb (if forward then s else s'))
  | Octet, Octet => true
  | Object n, Object n' => String.eqb n n'
  | Addr t, Addr t' => agrees false true t t' && agrees false false t t'
  | Code args res, Code args' res' =>
    (fix all args args' := match args, args' with
     | [], [] => true
     | a :: args, a' :: args' => agrees lenient (negb forward) a a' && all args args'
     | _, _ => false
     end) args args' && agrees lenient forward res res'
  | NoValue, NoValue => true
  | _, _ => false
  end.

(** The callback for the log, which is declared with [c_char] *)
Definition is_log_callback (p : string * Rust.type) : bool := String.eqb p.1 "log_callback".

(** The arguments of a declaration and of an exported function *)
Fixpoint args_agree `{!AbiExt} (ps : list (string * Rust.type)) (args : list Repr) : bool :=
  match ps, args with
  | [], [] => true
  | p :: ps, a :: args =>
    agrees (char_signed && is_log_callback p) false a (Rust.repr p.2) && args_agree ps args
  | _, _ => false
  end.

(** A declaration and an exported function that can be linked *)
Definition links `{!AbiExt} (d : Decl) (args : list Repr) (res : Repr) : bool :=
  args_agree (d_params d) args && agrees false true res (Rust.repr (d_ret d)).

Definition linked `{!AbiExt} (d : Decl) (e : Export) : bool :=
  String.eqb (d_name d) (e_name e) && links d (map Haskell.repr (e_args e)) (Haskell.repr (e_res e)).

(** Octets that may be passed through an argument: all, but for those that the library
    passes to the callback for the log where [char] is signed *)
Definition octet_limit `{!AbiExt} (p : string * Rust.type) : Z :=
  if char_signed && is_log_callback p then 128 else 256.

(** Every value that one side passes in a call of [d] is the value that the other reads. *)
Definition passes `{!AbiExt} (d : Decl) (args : list Repr) (res : Repr) : Prop :=
  Forall2 (λ p a, carries (octet_limit p) false a (Rust.repr p.2)) (d_params d) args
  ∧ carries 256 true res (Rust.repr (d_ret d)).

(** ** Agreement *)

(** Values of equal representation arrive. *)
Lemma arrives_same lim b s : (0 < b)%Z → arrives lim b s b s.
Proof.
  intros Hb v reg Hv _ Hh. unfold read. rewrite Hh. unfold in_range in Hv.
  assert (2 ^ b = 2 * 2 ^ (b - 1))%Z as E.
  { rewrite <- Z.pow_succ_r by lia. f_equal. lia. }
  assert (0 < 2 ^ (b - 1))%Z by (apply Z.pow_pos_nonneg; lia).
  destruct s; cbn [andb].
  - destruct (decide (0 ≤ v)%Z).
    + rewrite Z.mod_small by lia. destruct (Z.leb_spec (2 ^ (b - 1)) v); lia.
    + assert (v mod 2 ^ b = v + 2 ^ b)%Z as ->.
      { symmetry. apply Z.mod_unique with (-1)%Z; lia. }
      destruct (Z.leb_spec (2 ^ (b - 1)) (v + 2 ^ b)); lia.
  - by rewrite Z.mod_small by lia.
Qed.

(** An unsigned octet below [128] arrives as a signed one. *)
Lemma arrives_octet lim : (lim ≤ 128)%Z → arrives lim 8 false 8 true.
Proof.
  intros Hl v reg Hv Hlim Hh. specialize (Hlim eq_refl). unfold read. rewrite Hh.
  unfold in_range in Hv. rewrite Z.mod_small by lia.
  destruct (Z.leb_spec (2 ^ (8 - 1)) v); simpl in *; lia.
Qed.

Lemma agrees_int lenient forward lim b s b' s' :
  (lenient = true → lim ≤ 128)%Z → agrees lenient forward (IntR b s) (IntR b' s') = true →
  carries lim forward (IntR b s) (IntR b' s').
Proof.
  intros Hl. cbn. rewrite !andb_true_iff, Z.ltb_lt, Z.eqb_eq. intros [[Hb <-] Hs].
  destruct (eqb s s') eqn:E; [apply eqb_prop in E as <-; destruct forward; by apply arrives_same|].
  cbn in Hs. apply andb_true_iff in Hs as [[-> ->%Z.eqb_eq]%andb_true_iff Hs].
  destruct forward, s, s'; try done; by apply arrives_octet, Hl.
Qed.

Lemma agrees_carries x : ∀ lenient forward lim y,
  (lenient = true → lim ≤ 128)%Z → agrees lenient forward x y = true → carries lim forward x y.
Proof.
  revert x. fix IH 1. intros [b s| |n|t|args res|] lenient forward lim [b' s'| |n'|t'|args' res'|] Hl;
    try done.
  - by apply agrees_int.
  - by intros ->%String.eqb_eq.
  - cbn. intros [H1 H2]%andb_true_iff. split; by eapply (IH t); [|eassumption].
  - cbn. intros [Ha Hr]%andb_true_iff. split; [|by eapply IH].
    revert args' Ha. induction args as [|a args IHa]; intros [|a' args'] Ha; try done.
    apply andb_true_iff in Ha as [Ha Has]. split; [by eapply (IH a)|by apply IHa].
Qed.

Lemma args_agree_carries `{!AbiExt} ps args :
  args_agree ps args = true →
  Forall2 (λ p a, carries (octet_limit p) false a (Rust.repr p.2)) ps args.
Proof.
  revert args. induction ps as [|p ps IH]; intros [|a args]; try done. cbn.
  intros [Ha Has]%andb_true_iff. constructor; [|by apply IH].
  eapply agrees_carries; [|exact Ha]. unfold octet_limit. by intros ->.
Qed.

Lemma links_passes `{!AbiExt} d args res : links d args res = true → passes d args res.
Proof.
  intros [Ha Hr]%andb_true_iff. split; [by apply args_agree_carries|]. by eapply agrees_carries; [|exact Hr].
Qed.

Lemma all_linked {ext : AbiExt} {laws : AbiLaws} d :
  d ∈ externs → d_name d ≠ "freeByteArray" → existsb (linked d) exports = true.
Proof.
  intros Hd Hn.
  assert (forallb (λ d, String.eqb (d_name d) "freeByteArray" || existsb (linked d) exports) externs
    = true) as Hall.
  { destruct ext as [c gi ts lc rt], laws as [Hg Ht Hc _ _ _]. cbn in Hg, Ht, Hc. subst.
    destruct c; vm_compute; reflexivity. }
  rewrite forallb_forall in Hall. apply list_elem_of_In, Hall, orb_true_iff in Hd as [E|E]; [|done].
  by apply String.eqb_eq in E.
Qed.

Lemma runtime_linked {ext : AbiExt} {laws : AbiLaws} d :
  d ∈ runtime_externs →
  ∃ args res, runtime_exports (d_name d) = Some (args, res) ∧ links d args res = true.
Proof.
  destruct laws as [_ _ _ H1 H2 H3]. unfold runtime_externs. rewrite !elem_of_cons, elem_of_nil.
  intros [->|[->|[->|[]]]]; eexists _, _; (split; [eassumption|reflexivity]).
Qed.

(** The names are those of single functions. *)
Lemma export_names : NoDup (map e_name exports).
Proof. by apply (bool_decide_eq_true_1 (NoDup (map e_name exports))); vm_compute. Qed.

(** C23: every foreign function that [ffi.rs] declares, but for one that is never called, is
    there under the same name: the three functions of the Haskell runtime in the runtime,
    every other one among the exports of the library, once.  The declarations of both sides
    agree: the arguments and the result, and those of the callbacks that are handed over,
    have representations under which every value that one side passes is the value that the
    other one reads.  Only the callback for the log is declared with octets of another sign
    where [char] is signed, so that it takes values below 128. *)
Theorem foreign_calls_agree `{!AbiExt, !AbiLaws} d :
  (d ∈ externs → d_name d ≠ "freeByteArray" →
   ∃ e, e ∈ exports ∧ e_name e = d_name d
     ∧ (∀ e', e' ∈ exports → e_name e' = d_name d → e' = e)
     ∧ passes d (map Haskell.repr (e_args e)) (Haskell.repr (e_res e)))
  ∧ (d ∈ runtime_externs →
     ∃ args res, runtime_exports (d_name d) = Some (args, res) ∧ passes d args res).
Proof.
  split; [intros Hd Hn|intros (args & res & E & Hl)%runtime_linked; eauto using links_passes].
  pose proof (all_linked d Hd Hn) as Hl.
  apply existsb_exists in Hl as (e & He%list_elem_of_In & [Hname Ha]%andb_true_iff).
  apply String.eqb_eq in Hname. exists e. split_and!; [done|done| |by apply links_passes].
  intros e' He' Hn'. destruct (list_elem_of_lookup_1 _ _ He) as [i Hi].
  destruct (list_elem_of_lookup_1 _ _ He') as [j Hj].
  assert (i = j) as <-; [|congruence].
  apply (NoDup_lookup (map e_name exports) i j (d_name d)); [apply export_names|..];
    change (map e_name exports) with (e_name <$> exports); rewrite list_lookup_fmap.
  - rewrite Hi. cbn. by f_equal.
  - rewrite Hj. cbn. by f_equal.
Qed.

(** The sign matters: a level of the log with the highest bit set would not arrive. *)
Lemma log_octet_sign : ¬ arrives 256 8 false 8 true.
Proof. intros Ha. by specialize (Ha 200%Z 200%Z ltac:(done) ltac:(done) eq_refl). Qed.

(** ** Witness: a platform with signed characters *)
Module AbiExample.
#[local] Instance platform : AbiExt := {|
  char_signed := true;
  GenesisIndex_repr := IntR 32 false;
  Timestamp_repr := IntR 64 false;
  LoadCallback_repr := Code [IntR 64 false] (Addr (Object "Vec"));
  runtime_exports name :=
    if String.eqb name "hs_exit" then Some ([], NoValue)
    else if String.eqb name "hs_init" || String.eqb name "hs_init_with_rtsopts"
    then Some ([Addr (IntR 32 true); Addr (Addr (Addr Octet))], NoValue)
    else None;
|}.
#[local] Instance platform_laws : AbiLaws.
Proof. by split. Qed.

Definition receive_transaction : Decl := Rust.MkDecl "receiveTransaction" [
    ("consensus", Rust.Mut Rust.consensus_runner); ("tx", Rust.Const Rust.U8);
    ("data_length", Rust.I64); ("out_hash", Rust.Mut Rust.U8)] Rust.I64.
Definition hs_exit : Decl := Rust.MkDecl "hs_exit" [] Rust.Unit.

Lemma foreign_calls_agree_witness :
  map octet_limit (d_params receive_transaction) = [256; 256; 256; 256]%Z
  ∧ (∃ e, e ∈ exports ∧ e_name e = d_name receive_transaction
     ∧ (∀ e', e' ∈ exports → e_name e' = d_name receive_transaction → e' = e)
     ∧ passes receive_transaction (map Haskell.repr (e_args e)) (Haskell.repr (e_res e)))
  ∧ ∃ args res, runtime_exports (d_name hs_exit) = Some (args, res) ∧ passes hs_exit args res.
Proof.
  split; [reflexivity|]. split.
  - apply (proj1 (foreign_calls_agree receive_transaction)); [|done].
    apply (list_elem_of_lookup_2 _ 7). reflexivity.
  - apply (proj2 (foreign_calls_agree hs_exit)). apply (list_elem_of_lookup_2 _ 2). reflexivity.
Defined.
End AbiExample.
