(* ===== verification/Services.v ===== *)
(** * The service description of the second interface

    Models [build_grpc2] of [concordium-node/build.rs], which describes the methods of the
    second interface by hand because most answers are octets that the consensus library
    encoded, and [RawCodec] of [concordium-node/src/grpc2.rs], which passes such octets
    on.  The server that [tonic_build] generates from the description calls the method
    whose path is that of the request and answers [Unimplemented] to other paths.  The
    names of the methods, the keys of the configuration of endpoints and the endpoints of
    [Queries], [Streams] and [Relay] are compared. *)
From Stdlib Require Import Ascii.
From S2P Require Import Prelude.
From S2P Require Import Status.
From S2P Require Import ServiceConfig.
From S2P Require Import Foreign.
From S2P Require Import Queries.
From S2P Require Import Relay.
From S2P Require Import Streams.
From S2P Require Import StreamProofs.

#[local] Open Scope string_scope.

(** ** The description *)

(** [Vec<u8>], [Arc<[u8]>], or a message of the schema *)
Inductive Output := Octets | SharedOctets | Message (type : string).
Inductive Codec := RawCodec | ProstCodec.

#[global] Instance Output_eq_dec : EqDecision Output.
Proof. solve_decision. Defined.
#[global] Instance Codec_eq_dec : EqDecision Codec.
Proof. solve_decision. Defined.

Record Method := MkMethod {
  name : string;
  route_name : string;
  input_type : string;
  output_type : Output;
  codec_path : Codec;
  server_streaming : bool;
}.
#[global] Instance Method_eq_dec : EqDecision Method.
Proof. solve_decision. Defined.

Definition methods1 : list Method := [
  MkMethod "get_finalized_blocks" "GetFinalizedBlocks" "Empty"
    SharedOctets RawCodec true;
  MkMethod "get_blocks" "GetBlocks" "Empty"
    SharedOctets RawCodec true;
  MkMethod "get_account_info" "GetAccountInfo" "AccountInfoRequest"
    Octets RawCodec false;
  MkMethod "get_account_list" "GetAccountList" "BlockHashInput"
    Octets RawCodec true;
  MkMethod "get_module_list" "GetModuleList" "BlockHashInput"
    Octets RawCodec true;
  MkMethod "get_module_source" "GetModuleSource" "ModuleSourceRequest"
    Octets RawCodec false;
  MkMethod "get_instance_list" "GetInstanceList" "BlockHashInput"
    Octets RawCodec true;
  MkMethod "get_instance_info" "GetInstanceInfo" "InstanceInfoRequest"
    Octets RawCodec false;
  MkMethod "get_instance_state" "GetInstanceState" "InstanceInfoRequest"
    (Message "InstanceStateKvPair") ProstCodec true;
  MkMethod "instance_state_lookup" "InstanceStateLookup" "InstanceStateLookupRequest"
    (Message "InstanceStateValueAtKey") ProstCodec false;
  MkMethod "get_next_account_sequence_number" "GetNextAccountSequenceNumber" "AccountAddress"
    Octets RawCodec false;
  MkMethod "get_consensus_info" "GetConsensusInfo" "Empty"
    Octets RawCodec false;
  MkMethod "get_ancestors" "GetAncestors" "AncestorsRequest"
    Octets RawCodec true;
  MkMethod "get_block_item_status" "GetBlockItemStatus" "TransactionHash"
    Octets RawCodec false;
  MkMethod "get_cryptographic_parameters" "GetCryptographicParameters" "BlockHashInput"
    (Message "CryptographicParameters") ProstCodec false
].

Definition methods2 : list Method := [
  MkMethod "get_block_info" "GetBlockInfo" "BlockHashInput"
    Octets RawCodec false;
  MkMethod "get_baker_list" "GetBakerList" "BlockHashInput"
    Octets RawCodec true;
  MkMethod "get_pool_info" "GetPoolInfo" "PoolInfoRequest"
    Octets RawCodec false;
  MkMethod "get_passive_delegation_info" "GetPassiveDelegationInfo" "BlockHashInput"
    Octets RawCodec false;
  MkMethod "get_blocks_at_height" "GetBlocksAtHeight" "BlocksAtHeightRequest"
    Octets RawCodec false;
  MkMethod "get_tokenomics_info" "GetTokenomicsInfo" "BlockHashInput"
    Octets RawCodec false;
  MkMethod "invoke_instance" "InvokeInstance" "InvokeInstanceRequest"
    Octets RawCodec false;
  MkMethod "get_pool_delegators" "GetPoolDelegators" "GetPoolDelegatorsRequest"
    Octets RawCodec true;
  MkMethod "get_pool_delegators_reward_period" "GetPoolDelegatorsRewardPeriod" "GetPoolDelegatorsRequest"
    Octets RawCodec true;
  MkMethod "get_passive_delegators" "GetPassiveDelegators" "BlockHashInput"
    Octets RawCodec true;
  MkMethod "get_passive_delegators_reward_period" "GetPassiveDelegatorsRewardPeriod" "BlockHashInput"
    Octets RawCodec true;
  MkMethod "get_branches" "GetBranches" "Empty"
    Octets RawCodec false;
  MkMethod "get_election_info" "GetElectionInfo" "BlockHashInput"
    Octets RawCodec false;
  MkMethod "get_identity_providers" "GetIdentityProviders" "BlockHashInput"
    Octets RawCodec true;
  MkMethod "get_anonymity_revokers" "GetAnonymityRevokers" "BlockHashInput"
    Octets RawCodec true
].

Definition methods3 : list Method := [
  MkMethod "get_account_non_finalized_transactions" "GetAccountNonFinalizedTransactions" "AccountAddress"
    Octets RawCodec true;
  MkMethod "get_block_transaction_events" "GetBlockTransactionEvents" "BlockHashInput"
    Octets RawCodec true;
  MkMethod "get_block_special_events" "GetBlockSpecialEvents" "BlockHashInput"
    Octets RawCodec true;
  MkMethod "get_block_pending_updates" "GetBlockPendingUpdates" "BlockHashInput"
    Octets RawCodec true;
  MkMethod "get_next_update_sequence_numbers" "GetNextUpdateSequenceNumbers" "BlockHashInput"
    Octets RawCodec false;
  MkMethod "get_block_chain_parameters" "GetBlockChainParameters" "BlockHashInput"
    Octets RawCodec false;
  MkMethod "get_block_finalization_summary" "GetBlockFinalizationSummary" "BlockHashInput"
    Octets RawCodec false;
  MkMethod "shutdown" "Shutdown" "Empty"
    (Message "Empty") ProstCodec false;
  MkMethod "send_block_item" "SendBlockItem" "SendBlockItemRequest"
    (Message "TransactionHash") ProstCodec false;
  MkMethod "get_peers_info" "GetPeersInfo" "Empty"
    (Message "PeersInfo") ProstCodec false;
  MkMethod "peer_connect" "PeerConnect" "IpSocketAddress"
    (Message "Empty") ProstCodec false;
  MkMethod "peer_disconnect" "PeerDisconnect" "IpSocketAddress"
    (Message "Empty") ProstCodec false;
  MkMethod "get_banned_peers" "GetBannedPeers" "Empty"
    (Message "BannedPeers") ProstCodec false;
  MkMethod "ban_peer" "BanPeer" "PeerToBan"
    (Message "Empty") ProstCodec false;
  MkMethod "unban_peer" "UnbanPeer" "BannedPeer"
    (Message "Empty") ProstCodec false;
  MkMethod "dump_start" "DumpStart" "DumpRequest"
    (Message "Empty") ProstCodec false
].

Definition methods4 : list Method := [
  MkMethod "dump_stop" "DumpStop" "Empty"
    (Message "Empty") ProstCodec false;
  MkMethod "get_node_info" "GetNodeInfo" "Empty"
    (Message "NodeInfo") ProstCodec false;
  MkMethod "get_account_transaction_sign_hash" "GetAccountTransactionSignHash" "PreAccountTransaction"
    (Message "AccountTransactionSignHash") ProstCodec false;
  MkMethod "get_block_items" "GetBlockItems" "BlockHashInput"
    Octets RawCodec true
].
Definition query_service : list Method := methods1 ++ methods2 ++ methods3 ++ methods4.

(** The path of a method: the package and the name of the service, and the route *)
Definition path (route_name : string) : string := "/concordium.v2.Queries/" +:+ route_name.

(** The method that the generated server calls *)
Definition route (uri : string) : option Method :=
  snd <$> list_find (λ m, path (route_name m) = uri) query_service.

(** ** The codec *)

(** [RawEncoder::encode]: the item is appended to the buffer. *)
Definition RawEncoder_encode (item dst : bytes) : bytes := dst ++ item.

(** [RawDecoder::decode], over the decoder of [prost] *)
Definition RawDecoder_decode {D} (decode : bytes → option D) (src : bytes) : Reply (option D) :=
  match decode src with Some d => Value (Some d) | None => Status Internal end.

(** ** The configuration by names *)

(** The fields of [ServiceConfig] under the names that [serde] gives them *)
Definition flags : list (string * (ServiceConfig → bool)) := [
  ("get_finalized_blocks", en_get_finalized_blocks);
  ("get_blocks", en_get_blocks);
  ("get_account_list", en_get_account_list);
  ("get_account_info", en_get_account_info);
  ("get_module_list", en_get_module_list);
  ("get_module_source", en_get_module_source);
  ("get_instance_list", en_get_instance_list);
  ("get_instance_info", en_get_instance_info);
  ("get_instance_state", en_get_instance_state);
  ("instance_state_lookup", en_instance_state_lookup);
  ("get_next_account_sequence_number", en_get_next_account_sequence_number);
  ("get_consensus_info", en_get_consensus_info);
  ("get_ancestors", en_get_ancestors);
  ("get_block_item_status", en_get_block_item_status);
  ("invoke_instance", en_invoke_instance);
  ("get_cryptographic_parameters", en_get_cryptographic_parameters);
  ("get_block_info", en_get_block_info);
  ("get_baker_list", en_get_baker_list);
  ("get_pool_info", en_get_pool_info);
  ("get_passive_delegation_info", en_get_passive_delegation_info);
  ("get_blocks_at_height", en_get_blocks_at_height);
  ("get_tokenomics_info", en_get_tokenomics_info);
  ("get_pool_delegators", en_get_pool_delegators);
  ("get_pool_delegators_reward_period", en_get_pool_delegators_reward_period);
  ("get_passive_delegators", en_get_passive_delegators);
  ("get_passive_delegators_reward_period", en_get_passive_delegators_reward_period);
  ("get_branches", en_get_branches);
  ("get_election_info", en_get_election_info);
  ("get_identity_providers", en_get_identity_providers);
  ("get_anonymity_revokers", en_get_anonymity_revokers);
  ("get_account_non_finalized_transactions", en_get_account_non_finalized_transactions);
  ("get_block_transaction_events", en_get_block_transaction_events);
  ("get_block_special_events", en_get_block_special_events);
  ("get_block_pending_updates", en_get_block_pending_updates);
  ("get_next_update_sequence_numbers", en_get_next_update_sequence_numbers);
  ("get_block_chain_parameters", en_get_block_chain_parameters);
  ("get_block_finalization_summary", en_get_block_finalization_summary);
  ("shutdown", en_shutdown);
  ("peer_connect", en_peer_connect);
  ("peer_disconnect", en_peer_disconnect);
  ("get_banned_peers", en_get_banned_peers);
  ("ban_peer", en_ban_peer);
  ("unban_peer", en_unban_peer);
  ("dump_start", en_dump_start);
  ("dump_stop", en_dump_stop);
  ("get_peers_info", en_get_peers_info);
  ("get_node_info", en_get_node_info);
  ("send_block_item", en_send_block_item);
  ("get_account_transaction_sign_hash", en_get_account_transaction_sign_hash);
  ("get_block_items", en_get_block_items)
].

Definition flag_named (n : string) : option (ServiceConfig → bool) :=
  snd <$> (snd <$> list_find (λ f, f.1 = n) flags).

(** [snake_case] in [CamelCase] *)
Definition upper (c : Ascii.ascii) : Ascii.ascii :=
  let n := Ascii.nat_of_ascii c in
  if decide (97 ≤ n ≤ 122)%nat then Ascii.ascii_of_nat (n - 32)%nat else c.

Fixpoint camel (up : bool) (s : string) : string :=
  match s with
  | "" => ""
  | String "_"%char s => camel true s
  | String c s => String (if up then upper c else c) (camel false s)
  end.
Definition camel_case : string → string := camel true.

(** The methods that the endpoints implement *)
Definition query_method (q : Query) : string :=
  match q with
  | AccountInfo _ _ => "get_account_info"
  | ModuleSource _ _ => "get_module_source"
  | InstanceInfo _ _ => "get_instance_info"
  | NextAccountSequenceNumber _ => "get_next_account_sequence_number"
  | ConsensusInfo => "get_consensus_info"
  | BlockItemStatus _ => "get_block_item_status"
  | InvokeInstance _ => "invoke_instance"
  | BlockInfo _ => "get_block_info"
  | PoolInfo _ _ => "get_pool_info"
  | PassiveDelegationInfo _ => "get_passive_delegation_info"
  | BlocksAtHeight _ => "get_blocks_at_height"
  | TokenomicsInfo _ => "get_tokenomics_info"
  | Branches => "get_branches"
  | ElectionInfo _ => "get_election_info"
  | NextUpdateSequenceNumbers _ => "get_next_update_sequence_numbers"
  | BlockChainParameters _ => "get_block_chain_parameters"
  | BlockFinalizationSummary _ => "get_block_finalization_summary"
  end.

Definition stream_method (q : StreamQuery) : string :=
  match q with
  | AccountList _ => "get_account_list"
  | ModuleList _ => "get_module_list"
  | InstanceList _ => "get_instance_list"
  | Ancestors _ _ => "get_ancestors"
  | BakerList _ => "get_baker_list"
  | PoolDelegators _ _ => "get_pool_delegators"
  | PoolDelegatorsRewardPeriod _ _ => "get_pool_delegators_reward_period"
  | PassiveDelegators _ => "get_passive_delegators"
  | PassiveDelegatorsRewardPeriod _ => "get_passive_delegators_reward_period"
  | IdentityProviders _ => "get_identity_providers"
  | AnonymityRevokers _ => "get_anonymity_revokers"
  | AccountNonFinalizedTransactions _ => "get_account_non_finalized_transactions"
  | BlockItems _ => "get_block_items"
  | BlockTransactionEvents _ => "get_block_transaction_events"
  | BlockSpecialEvents _ => "get_block_special_events"
  | BlockPendingUpdates _ => "get_block_pending_updates"
  end.

(** A method answers with octets of the library, at once or in a stream. *)
Definition raw (streaming : bool) (m : Method) : Prop :=
  output_type m = Octets ∧ codec_path m = RawCodec ∧ server_streaming m = streaming.

(** ** The theorems *)

Lemma routed_query q :
  ∃ m, route (path (camel_case (query_method q))) = Some m ∧ name m = query_method q ∧ raw false m
    ∧ flag_named (name m) = Some (flag_of q).
Proof. destruct q; eexists; (split; [vm_compute; reflexivity|]); repeat split. Qed.

Lemma routed_stream q :
  ∃ m, route (path (camel_case (stream_method q))) = Some m ∧ name m = stream_method q ∧ raw true m
    ∧ flag_named (name m) = Some (stream_flag q).
Proof. destruct q; eexists; (split; [vm_compute; reflexivity|]); repeat split. Qed.

(** An endpoint is enabled by the entry of the table that has the name of its method. *)
Lemma flags_by_name t n f : flag_named n = Some f → f (from_table t) = default false (t n).
Proof.
  unfold flag_named. intros (e & ([i p] & E & ->)%fmap_Some & ->)%fmap_Some.
  apply list_find_Some in E as (E & <- & _).
  assert (Forall (λ e, e.2 (from_table t) = default false (t e.1)) flags) as Hall.
  { unfold flags. repeat (constructor; [reflexivity|]). constructor. }
  rewrite Forall_lookup in Hall. exact (Hall _ _ E).
Qed.

(** The endpoint does what it does when everything is enabled if the entry [n] of the
    configuration file is true, and otherwise only replies that it is unimplemented. *)
Definition gated {A} (n : string) (endpoint : ServiceConfig → A) (refused : A) : Prop :=
  ∀ t, endpoint (from_table t) = if default false (t n) then endpoint new_all_enabled else refused.

Section gates.
Context `{!ChannelExt, !StreamExt, !QueryExt}.

Lemma flag_gates {A} n f (endpoint : ServiceConfig → A) refused ok :
  flag_named n = Some f → f new_all_enabled = true →
  (∀ cfg, endpoint cfg = if f cfg then ok else refused) → gated n endpoint refused.
Proof. intros Hf Hn He t. rewrite !He, Hn, (flags_by_name t n f Hf). done. Qed.

Lemma answer_gated q : gated (query_method q) (λ cfg, answer cfg q) (Status Unimplemented).
Proof.
  destruct (routed_query q) as (m & _ & <- & _ & Hf). eapply flag_gates; [exact Hf|by destruct q|].
  intros cfg. rewrite answers_specified. reflexivity.
Qed.

Lemma stream_gated q w : gated (stream_method q) (λ cfg, run_query cfg q w) (Status Unimplemented, w).
Proof.
  destruct (routed_stream q) as (m & _ & <- & _ & Hf). eapply flag_gates; [exact Hf|by destruct q|].
  intros cfg. rewrite run_query_spec. reflexivity.
Qed.

(** C24: the description of the service, the configuration of endpoints and the endpoints
    fit together.  The paths of the methods are distinct, and the route of a method is its
    name in camel case.  The keys of the configuration are exactly the names of the
    methods.  Every query with one answer is routed to a method that replies with raw
    octets, every query that is answered with a stream to one that streams raw octets, and
    the endpoint itself is governed by the entry with the name of that method and by no
    other: it replies [Unimplemented] and does nothing unless the entry is true.  The same
    holds for the endpoints that send blocks as they come and for those that answer with
    values of Rust. *)
Theorem service_agrees :
  NoDup (map (λ m, path (route_name m)) query_service)
  ∧ map name query_service ≡ₚ map fst flags
  ∧ Forall (λ m, route_name m = camel_case (name m)) query_service
  ∧ (∀ q, ∃ m, route (path (camel_case (query_method q))) = Some m ∧ name m = query_method q
       ∧ raw false m ∧ gated (name m) (λ cfg, answer cfg q) (Status Unimplemented))
  ∧ (∀ q, ∃ m, route (path (camel_case (stream_method q))) = Some m ∧ name m = stream_method q
       ∧ raw true m
       ∧ ∀ w, gated (name m) (λ cfg, run_query cfg q w) (Status Unimplemented, w))
  ∧ (∀ s, gated "get_blocks" (λ cfg, get_blocks cfg s) (Status Unimplemented, s)
       ∧ gated "get_finalized_blocks" (λ cfg, get_finalized_blocks cfg s) (Status Unimplemented, s))
  ∧ (∀ b a k, gated "get_instance_state" (λ cfg, get_instance_state cfg b a) (Status Unimplemented)
       ∧ gated "instance_state_lookup" (λ cfg, instance_state_lookup cfg b a k) (Status Unimplemented))
  ∧ ∀ b, gated "get_cryptographic_parameters" (λ cfg, get_cryptographic_parameters cfg b)
           (Status Unimplemented).
Proof.
  split_and!.
  - apply (bool_decide_eq_true_1 (NoDup _)). vm_compute. reflexivity.
  - apply (bool_decide_eq_true_1 (_ ≡ₚ _)). vm_compute. reflexivity.
  - apply (bool_decide_eq_true_1 (Forall _ _)). vm_compute. reflexivity.
  - intros q. destruct (routed_query q) as (m & Hr & Hn & Hm & _). exists m. rewrite Hn.
    by split_and!; [..|apply answer_gated].
  - intros q. destruct (routed_stream q) as (m & Hr & Hn & Hm & _). exists m. rewrite Hn.
    split_and!; [done..|]. intros w. apply stream_gated.
  - intros s. by split; eapply flag_gates.
  - intros b a k. by split; eapply flag_gates.
  - intros b. by eapply flag_gates.
Qed.
End gates.

(** ** A request, from the path to the octets of the reply *)
Section serve.
Context `{!QueryExt}.
(** How [prost] decodes the request of a method *)
Context (decode_request : string → bytes → option Query).

(** A request to a method with one answer, as the server handles it; [table] is the
    configuration file. *)
Definition serve (table : string → option bool) (uri : string) (body : bytes) : Reply bytes :=
  match route uri with
  | None => Status Unimplemented
  | Some m =>
    request ← RawDecoder_decode (decode_request (name m)) body;
    match request with
    | Some q =>
      response ← answer (from_table table) q;
      Value (RawEncoder_encode (resp_body response) [])
    | None => Status Internal
    end
  end.

(** C22: a request to the path of a query is answered with the octets that its meaning
    demands, from the path over the decoder, the endpoint, the foreign call and the encoder
    to the body of the reply, when the entry with the name of the method enables it, and
    is refused as unimplemented otherwise. *)
Theorem query_served table q body :
  decode_request (query_method q) body = Some q →
  serve table (path (camel_case (query_method q))) body
  = if default false (table (query_method q))
    then response ← spec new_all_enabled q; Value (resp_body response)
    else Status Unimplemented.
Proof.
  intros Hd. unfold serve. destruct (routed_query q) as (m & -> & Hn & _ & Hf).
  unfold RawDecoder_decode. rewrite Hn, Hd. cbn [mbind Reply_bind]. rewrite answers_specified.
  unfold spec. rewrite (flags_by_name table _ _ Hf), Hn.
  assert (flag_of q new_all_enabled = true) as -> by by destruct q.
  by destruct (default false _).
Qed.

(** Other paths are not served. *)
Lemma unknown_path_refused table uri body :
  (∀ m, m ∈ query_service → uri ≠ path (route_name m)) → serve table uri body = Status Unimplemented.
Proof.
  intros Hu. unfold serve, route. destruct (list_find _ _) as [[i m]|] eqn:E; [|done].
  apply list_find_Some in E as (E & Hp & _). exfalso. eapply Hu; [by eapply list_elem_of_lookup_2|done].
Qed.
End serve.

(** *** Witness: a configuration that enables one endpoint *)
Module ServicesExample.
#[local] Existing Instance QueryExample.lib.
Definition decode (method : string) (body : bytes) : option Query :=
  if String.eqb method "get_account_info" then Some QueryExample.request else None.
Definition table (key : string) : option bool :=
  if String.eqb key "get_account_info" then Some true else None.

Lemma query_served_witness :
  serve decode table "/concordium.v2.Queries/GetAccountInfo" [] = Value [7%Z].
Proof. exact (query_served decode table QueryExample.request [] eq_refl). Defined.

(** The other entries do not enable the list of blocks, and this one enables the account. *)
Lemma service_agrees_witness :
  answer (from_table table) QueryExample.request = answer new_all_enabled QueryExample.request
  ∧ (get_blocks (from_table table) Relays_new).1 = Status Unimplemented.
Proof.
  destruct (@service_agrees StreamExample.channels StreamExample.lib QueryExample.lib)
    as (_ & _ & _ & Hq & _ & Hb & _).
  destruct (Hq QueryExample.request) as (m & _ & Hn & _ & Hg). split.
  - rewrite (Hg table), Hn. reflexivity.
  - rewrite (proj1 (Hb Relays_new) table). reflexivity.
Defined.
End ServicesExample.
