(* ===== verification/Startup.v ===== *)
(** * Starting the node

    Models how [main] of [concordium-node/src/bin/cli.rs] starts the node up to the point
    where [Lifecycle] begins, with [setup_shutdown_signal_handling] and
    [RpcServerImpl::new] of [concordium-node/src/rpc.rs].  The first part gives the order
    of the actions and what an error leaves behind, the second one the way of a signal
    through the broadcast channel (capacity 4; a receiver gets what is sent after it was
    created, and an error when it falls behind) to main and to the task that stops the
    import of blocks. *)
From S2P Require Import Prelude.
From S2P Require Import PeerTypes.
From S2P Require Import IpText.
From S2P Require Import Metrics.
From S2P Require Import Lifecycle.

(** ** The order of actions *)

Inductive ConsensusLogLevel := Error | Warning | Info | Debug | Trace.

Inductive Action :=
  | InstantiateNode
  | SetupSignals
  | StartPrometheus (addr : SocketAddr)
  | StartPushGateway
  | CreateDatabaseDirectory
  | StartConsensus (level : ConsensusLogLevel) (notifications : bool)
  | SpawnImportStopper
  | StartRpc (addr : SocketAddr)
  | StartRpc2 (setup : Setup)
  | OutOfBandCatchUp
  | StartQueueThreads
  | SpawnPollThread
  | EstablishConnections
  | StartBaker.

(** [RpcCliConfig] *)
Record RpcCliConfig := MkRpcCliConfig {
  no_rpc_server : bool;
  no_rpc_server_node_endpoints : bool;
  rpc_server_port : u16;
  rpc_server_addr : list Ascii.ascii;
  rpc_server_token : list Ascii.ascii;
}.

(** The options that main looks at *)
Record MainConfig := MkMainConfig {
  mc_prometheus : PrometheusConfig;
  mc_rpc : RpcCliConfig;
  mc_grpc2 : GRPC2Config;
  mc_no_network : bool;
  mc_no_consensus_logs : bool;
  mc_trace : bool;
  mc_debug : bool;
}.

(** What the steps that can fail come to *)
Record Results := MkResults {
  r_stats : outcome unit;
  r_node : outcome unit;
  r_baker_data : outcome unit;
  r_database_exists : bool;
  r_create_dir_all : outcome unit;
  r_consensus : outcome unit;
  r_tls_ok : bool;
  r_reflection_ok : bool;
  r_connections : outcome unit;
}.

(** An action that is done when its result is a value *)
Abbreviation Main := (ST (list Action)) (only parsing).
Definition act (a : Action) : Main unit := st_modify (λ acts, acts ++ [a]).

Definition log_level (conf : MainConfig) : ConsensusLogLevel :=
  if mc_no_consensus_logs conf then Error
  else if mc_trace conf then Trace
  else if mc_debug conf then Debug
  else Info.

(** [RpcServerImpl::new]: the address that the server listens on *)
Definition RpcServerImpl_new (conf : RpcCliConfig) : outcome SocketAddr :=
  ip ← context "invalid IP address syntax" (IpAddr_from_str (rpc_server_addr conf));
  Ok (MkSocketAddr ip (rpc_server_port conf)).

(** [main] up to the point where it waits for the signal to shut down *)
Definition main_start (conf : MainConfig) (r : Results) : Main unit :=
  st_lift (r_stats r) ;;
  st_lift (r_node r) ;;
  act InstantiateNode ;;
  act SetupSignals ;;
  (match prometheus_listen_port (mc_prometheus conf) with
   | Some plp =>
     pla ← st_lift (context "Invalid Prometheus address"
             (IpAddr_from_str (String.list_ascii_of_string (prometheus_listen_addr (mc_prometheus conf)))));
     act (StartPrometheus (MkSocketAddr pla plp))
   | None => mret tt
   end) ;;
  act StartPushGateway ;;
  st_lift (r_baker_data r) ;;
  (if r_database_exists r then mret tt
   else st_lift (r_create_dir_all r) ;; act CreateDatabaseDirectory) ;;
  let notifications := is_enabled (mc_grpc2 conf) in
  st_lift (r_consensus r) ;;
  act (StartConsensus (log_level conf) notifications) ;;
  act SpawnImportStopper ;;
  (if no_rpc_server (mc_rpc conf) then mret tt
   else addr ← st_lift (RpcServerImpl_new (mc_rpc conf)); act (StartRpc addr)) ;;
  (if notifications then
     rpc2 ← st_lift (GRPC2Server_new (r_tls_ok r) (r_reflection_ok r) (mc_grpc2 conf));
     match rpc2 with Some setup => act (StartRpc2 setup) | None => mret tt end
   else mret tt) ;;
  act OutOfBandCatchUp ;;
  act StartQueueThreads ;;
  act SpawnPollThread ;;
  (if mc_no_network conf then mret tt
   else st_lift (r_connections r) ;; act EstablishConnections) ;;
  act StartBaker.

Lemma is_enabled_addr conf : is_enabled conf = true → is_Some (listen_addr conf).
Proof. unfold is_enabled. by intros [H%bool_decide_eq_true_1 _]%andb_true_iff. Qed.

(** When main succeeds, so did the servers. *)
Lemma main_started conf r acts :
  main_start conf r [] = (Ok tt, acts) →
  (no_rpc_server (mc_rpc conf) = false → ∃ addr, RpcServerImpl_new (mc_rpc conf) = Ok addr)
  ∧ (is_enabled (mc_grpc2 conf) = true →
     ∃ setup, GRPC2Server_new (r_tls_ok r) (r_reflection_ok r) (mc_grpc2 conf) = Ok (Some setup)).
Proof.
  unfold main_start. intros Hm. do 11 apply ST_bind_inv in Hm as (? & ? & _ & Hm).
  apply ST_bind_inv in Hm as (? & ? & Hrpc & Hm). apply ST_bind_inv in Hm as (? & ? & Hrpc2 & _).
  split; intros E; rewrite E in *.
  - destruct (RpcServerImpl_new _); [by eexists|done..].
  - pose proof (is_enabled_addr _ E) as Ha. unfold mbind, ST_bind in Hrpc2.
    destruct (GRPC2Server_new _ _ _) as [[setup|]|e|e] eqn:G; [by eexists| |done..].
    unfold GRPC2Server_new in G. destruct (listen_addr _); [|by destruct Ha].
    by repeat apply outcome_bind_ok in G as (? & _ & G).
Qed.

(** The system that [Lifecycle] takes over, by the servers that were started *)
Definition is_rpc (a : Action) : bool := match a with StartRpc _ => true | _ => false end.
Definition is_rpc2 (a : Action) : bool := match a with StartRpc2 _ => true | _ => false end.

Definition started_system (acts : list Action) : Sys := Sys_new (existsb is_rpc acts) (existsb is_rpc2 acts).

(** Consensus is started when everything that it needs is there. *)
Lemma consensus_needs conf r level b :
  StartConsensus level b ∈ (main_start conf r []).2 →
  r_stats r = Ok tt ∧ r_node r = Ok tt ∧ r_baker_data r = Ok tt
  ∧ (r_database_exists r = false → r_create_dir_all r = Ok tt) ∧ r_consensus r = Ok tt.
Proof.
  unfold main_start, mbind, ST_bind, st_lift, act, st_modify. cbn.
  destruct (r_stats r) as [[]|e|e]; [|set_solver..]. destruct (r_node r) as [[]|e|e]; [|set_solver..].
  destruct (prometheus_listen_port _) as [plp|]; [destruct (IpAddr_from_str _); [|set_solver]|]; cbn.
  all: destruct (r_baker_data r) as [[]|e|e]; [|set_solver..].
  all: destruct (r_database_exists r); cbn; [|destruct (r_create_dir_all r) as [[]|e|e]; [|set_solver..]].
  all: cbn; destruct (r_consensus r) as [[]|e|e]; [by auto|set_solver..].
Qed.

(** When main succeeds the servers that run are the ones that the configuration asks for,
    baking is started last, and shutting down begins in that state. *)
Lemma main_starts_servers conf r acts :
  main_start conf r [] = (Ok tt, acts) →
  last acts = Some StartBaker
  ∧ started_system acts = Sys_new (negb (no_rpc_server (mc_rpc conf))) (is_enabled (mc_grpc2 conf)).
Proof.
  intros Hm. destruct (main_started _ _ _ Hm) as [H1 H2]. revert Hm.
  unfold main_start, mbind, ST_bind, st_lift, act, st_modify. cbn.
  destruct (r_stats r) as [[]|e|e]; [|done..]. destruct (r_node r) as [[]|e|e]; [|done..].
  destruct (prometheus_listen_port _) as [plp|]; [destruct (IpAddr_from_str _); [|done]|]; cbn.
  all: destruct (r_baker_data r) as [[]|e|e]; [|done..].
  all: destruct (r_database_exists r); cbn; [|destruct (r_create_dir_all r) as [[]|e|e]; [|done..]].
  all: cbn; destruct (r_consensus r) as [[]|e|e]; [|done..].
  all: destruct (no_rpc_server (mc_rpc conf)); [|destruct (H1 eq_refl) as [addr ->]].
  all: destruct (is_enabled (mc_grpc2 conf)); [destruct (H2 eq_refl) as [setup ->]|].
  all: destruct (mc_no_network conf); [|destruct (r_connections r) as [[]|e|e]; [|done..]].
  all: by intros [= <-].
Qed.

(** What was started before an error is not stopped: when the address of the first server
    can not be parsed main returns while consensus runs. *)
Lemma error_leaves_consensus conf r :
  r_stats r = Ok tt → r_node r = Ok tt → prometheus_listen_port (mc_prometheus conf) = None →
  r_baker_data r = Ok tt → r_database_exists r = true → r_consensus r = Ok tt →
  no_rpc_server (mc_rpc conf) = false → IpAddr_from_str (rpc_server_addr (mc_rpc conf)) = None →
  ∃ e acts, main_start conf r [] = (Err e, acts)
    ∧ last acts = Some SpawnImportStopper ∧ StartConsensus (log_level conf) (is_enabled (mc_grpc2 conf)) ∈ acts.
Proof.
  intros H1 H2 H3 H4 H5 H6 H7 H8. unfold main_start, RpcServerImpl_new.
  rewrite H1, H2, H3, H4, H5, H6, H7, H8. do 2 eexists. split; [reflexivity|]. split; [reflexivity|]. set_solver.
Qed.

(** ** Signals

    The broadcast channel is the number of messages that were sent; a receiver is the
    number of those that it has seen. *)
Definition CAPACITY : nat := 4.

Inductive Received := Message | Lagged | Waits.

Definition recv (sent pos : nat) : Received :=
  if decide (pos = sent) then Waits
  else if decide (sent - pos ≤ CAPACITY) then Message else Lagged.

(** Where main is: before and after the task that stops an import was spawned, in the
    import of a number of chunks, waiting for the signal, shutting down *)
Inductive Where := BeforeConsensus | AfterConsensus | Importing (chunks : nat) | AtSignal | Down.

Record Signals := MkSignals {
  at_ : Where;
  sent : nat;
  (** the receiver of main was created with the channel *)
  main_pos : nat;
  stopper_pos : option nat;
  (** [import_stopped], set before [stop_importing_blocks] is called *)
  stopped : bool;
  imported : nat;
}.

Definition Signals_new : Signals := MkSignals BeforeConsensus 0 0 None false 0.

Inductive sig_step (chunks : nat) (s : Signals) : Signals → Prop :=
  (** the handler of signals, an error of a server, or a request *)
  | sig_sent : sig_step chunks s (MkSignals (at_ s) (S (sent s)) (main_pos s) (stopper_pos s) (stopped s) (imported s))
  (** [shutdown_sender.subscribe()] *)
  | sig_subscribe :
      at_ s = BeforeConsensus →
      sig_step chunks s (MkSignals AfterConsensus (sent s) (main_pos s) (Some (sent s)) (stopped s) (imported s))
  (** the stopper sets the flag after its first message or error *)
  | sig_stopper pos :
      stopper_pos s = Some pos → recv (sent s) pos ≠ Waits →
      sig_step chunks s (MkSignals (at_ s) (sent s) (main_pos s) None true (imported s))
  | sig_import : at_ s = AfterConsensus →
      sig_step chunks s (MkSignals (Importing chunks) (sent s) (main_pos s) (stopper_pos s) (stopped s) (imported s))
  (** a chunk is imported when the flag is not set; otherwise the import ends *)
  | sig_chunk k : at_ s = Importing (S k) → stopped s = false →
      sig_step chunks s (MkSignals (Importing k) (sent s) (main_pos s) (stopper_pos s) false (S (imported s)))
  | sig_import_ends k : at_ s = Importing k → k = 0 ∨ stopped s = true →
      sig_step chunks s (MkSignals AtSignal (sent s) (main_pos s) (stopper_pos s) (stopped s) (imported s))
  (** [shutdown_receiver.recv()], whose error shuts down as well *)
  | sig_main : at_ s = AtSignal → recv (sent s) (main_pos s) ≠ Waits →
      sig_step chunks s (MkSignals Down (sent s) (main_pos s) (stopper_pos s) (stopped s) (imported s)).

Abbreviation sig_reachable chunks := (rtc (sig_step chunks) Signals_new) (only parsing).

(** Main has seen nothing before it waits for the signal. *)
Lemma main_pos_zero chunks s : sig_reachable chunks s → main_pos s = 0.
Proof.
  intros Hr. refine (rtc_ind_r (R:=sig_step chunks) (λ s, main_pos s = 0) Signals_new _ _ s Hr); [done|].
  intros s1 s2 _ Hs Hp. by destruct Hs.
Qed.

(** How many steps main has to do at most until it is down *)
Definition main_rank (chunks : nat) (w : Where) : nat :=
  match w with
  | BeforeConsensus => chunks + 4
  | AfterConsensus => chunks + 3
  | Importing k => k + 2
  | AtSignal => 1
  | Down => 0
  end.

(** C35: no signal is lost.  Once a signal was sent, whenever that was, main can always go on
    until it shuts down: it never waits, each of its steps brings it closer, and no step of
    another task sets it back; the bound is the number of chunks to import and a constant. *)
Theorem signal_shuts_down chunks s :
  sig_reachable chunks s → 0 < sent s → at_ s ≠ Down →
  (∃ s', sig_step chunks s s' ∧ main_rank chunks (at_ s') < main_rank chunks (at_ s))
  ∧ ∀ s', sig_step chunks s s' →
      0 < sent s' ∧ main_rank chunks (at_ s') ≤ main_rank chunks (at_ s).
Proof.
  intros Hr%main_pos_zero Hs Hd. split.
  - destruct (at_ s) as [| |k| |] eqn:E; [..|done].
    + eexists. split; [by apply sig_subscribe|]. simpl. lia.
    + eexists. split; [by apply sig_import|]. simpl. lia.
    + destruct k as [|k]; [|destruct (stopped s) eqn:Es].
      * eexists. split; [eapply sig_import_ends; [done|by left]|]. simpl. lia.
      * eexists. split; [eapply sig_import_ends; [done|by right]|]. simpl. lia.
      * eexists. split; [by eapply sig_chunk|]. simpl. lia.
    + eexists. split; [apply sig_main; [done|]|simpl; lia].
      rewrite Hr. unfold recv. case_decide; [lia|]. by case_decide.
  - intros s' Hstep. destruct Hstep; simpl; split; try lia; rewrite ?H; simpl; lia.
Qed.

(** A message that is sent when the stopper has subscribed reaches it. *)
Lemma stopper_wakes chunks s pos :
  stopper_pos s = Some pos → pos < sent s →
  ∃ s', sig_step chunks s s' ∧ stopped s' = true.
Proof.
  intros Hp Hlt. eexists. split; [eapply sig_stopper; [done|]|done].
  unfold recv. case_decide; [lia|]. by case_decide.
Qed.

(** The stopper has seen all messages, and the import goes on. *)
Definition unstopped (chunks : nat) (s : Signals) : Prop :=
  stopper_pos s = Some (sent s) ∧ stopped s = false ∧
  match at_ s with
  | BeforeConsensus => False
  | AfterConsensus => imported s = 0
  | Importing k => imported s + k = chunks
  | AtSignal | Down => imported s = chunks
  end.

(** A signal that arrives before the task that stops an import has subscribed does not
    stop the import, although main shuts down afterwards: that task only sees later
    messages, so that all chunks are imported first. *)
Theorem early_signal_imports_all chunks s s' :
  at_ s = AfterConsensus → stopper_pos s = Some (sent s) → stopped s = false → imported s = 0 →
  rtc (λ a b, sig_step chunks a b ∧ sent b = sent a) s s' → at_ s' = AtSignal ∨ at_ s' = Down →
  stopped s' = false ∧ imported s' = chunks.
Proof.
  intros Ha Hp Hst Hi Hr.
  assert (unstopped chunks s') as (_ & Hs & Hc); [|intros [E|E]; by rewrite E in Hc].
  refine (rtc_ind_r (R:=λ a b, sig_step chunks a b ∧ sent b = sent a) (unstopped chunks) s _ _ s' Hr);
    [unfold unstopped; by rewrite Ha|]. unfold unstopped.
  intros s1 s2 _ [Hstep Hsent] (H1 & H2 & H3).
  destruct Hstep as [|E|pos E Hw|E|k E _|k E [->|E2]|E _]; simpl in *; rewrite ?E in *; try done.
  - lia.
  - simplify_eq. exfalso. apply Hw. unfold recv. by rewrite decide_True.
  - split_and!; [done|done|lia].
  - split_and!; [done|done|lia].
  - split_and!; [done|done|lia].
  - congruence.
Qed.

(** ** Witnesses *)
Module StartupExample.

(** A signal during the start of consensus, and an import of two chunks *)
Definition signalled : Signals := MkSignals AfterConsensus 1 0 (Some 1) false 0.
Definition imported_all : Signals := MkSignals Down 1 0 (Some 1) false 2.

Lemma signalled_reachable : sig_reachable 2 signalled.
Proof. eapply rtc_l; [apply sig_sent|]. eapply rtc_l; [by apply sig_subscribe|]. apply rtc_refl. Qed.

Lemma signal_shuts_down_witness :
  (∃ s', sig_step 2 signalled s' ∧ main_rank 2 (at_ s') < main_rank 2 (at_ signalled))
  ∧ ∀ s', sig_step 2 signalled s' →
      0 < sent s' ∧ main_rank 2 (at_ s') ≤ main_rank 2 (at_ signalled).
Proof. apply (signal_shuts_down 2 signalled); [exact signalled_reachable|simpl; lia|done]. Defined.

Lemma early_signal_imports_all_witness : stopped imported_all = false ∧ imported imported_all = 2.
Proof.
  apply (early_signal_imports_all 2 signalled imported_all); try reflexivity; [|by right].
  eapply rtc_l; [split; [by apply sig_import|done]|].
  eapply rtc_l; [split; [by eapply sig_chunk|done]|]. eapply rtc_l; [split; [by eapply sig_chunk|done]|].
  eapply rtc_l; [split; [eapply sig_import_ends; [done|by left]|done]|].
  eapply rtc_l; [split; [by apply sig_main|done]|]. apply rtc_refl.
Defined.
End StartupExample.
