(* ===== verification/Bootstrap.v ===== *)
(** * The bootstrapper and the program that checks it

    Models [concordium-node/src/bin/bootstrapper.rs], a node that only tells others about
    their peers, and [concordium-node/src/bin/bootstrap_checker.rs], which starts a node,
    waits until it is connected and reports an incident when that takes more than ten
    seconds.  The file with the genesis hashes, its decoder and the environment variables
    are parameters; time passes by the clock that [get_uptime] reads. *)
From S2P Require Import Prelude.
From S2P Require Import PeerTypes.
From S2P Require Import NetTypes.
From S2P Require Import Config.
From S2P Require Import NodeState.
From S2P Require Import Connectivity.
From S2P Require Import Maintenance.
From S2P Require Import NodeInvariant.
From S2P Require Import NodeExample.
From S2P Require Import Metrics.

(** ** The two configurations *)

Definition with_connection (c : ConnectionConfig) (conf : Config) : Config :=
  MkConfig (conf_common conf) c (conf_cli conf) (conf_bootstrapper conf).

(** The options with another limit on the peers and another number of threads *)
Definition adjusted (max : option u16) (threads : nat) (c : ConnectionConfig) : ConnectionConfig := {|
  cc_desired_nodes := cc_desired_nodes c;
  cc_max_allowed_nodes := max;
  cc_max_allowed_nodes_percentage := cc_max_allowed_nodes_percentage c;
  cc_no_bootstrap_dns := cc_no_bootstrap_dns c;
  cc_no_clear_bans := cc_no_clear_bans c;
  cc_relay_broadcast_percentage := cc_relay_broadcast_percentage c;
  cc_connect_to := cc_connect_to c;
  cc_disallow_multiple_peers_on_ip := cc_disallow_multiple_peers_on_ip c;
  cc_dns_resolver := cc_dns_resolver c;
  cc_bootstrap_nodes := cc_bootstrap_nodes c;
  cc_housekeeping_interval := cc_housekeeping_interval c;
  cc_bootstrapping_interval := cc_bootstrapping_interval c;
  cc_max_latency := cc_max_latency c;
  cc_hard_connection_limit := cc_hard_connection_limit c;
  cc_conn_requests_batch_limit := cc_conn_requests_batch_limit c;
  cc_catch_up_batch_limit := cc_catch_up_batch_limit c;
  cc_thread_pool_size := threads;
  cc_dedup_size_long := cc_dedup_size_long c;
  cc_dedup_size_short := cc_dedup_size_short c;
  cc_socket_write_size := cc_socket_write_size c;
  cc_socket_read_size := cc_socket_read_size c;
  cc_socket_so_linger := cc_socket_so_linger c;
  cc_events_queue_size := cc_events_queue_size c;
  cc_deduplication_hashing_algorithm := cc_deduplication_hashing_algorithm c;
  cc_max_normal_keep_alive := cc_max_normal_keep_alive c
|}.

(** ** The surroundings *)
Class BootExt `{!NodeExt} := {
  data_dir_join : string → string;
  read_file : string → outcome bytes;
  parse_hashes : bytes → outcome (list BlockHash);
  env_var : string → outcome string;
}.

Section bootstrap.
Context `{!BootExt}.

(** The file with the genesis hashes: the one that is given, or the one in the data
    directory *)
Definition hashes_file (conf : Config) : string :=
  default (data_dir_join "genesis_hash") (bs_regenesis_block_hashes (conf_bootstrapper conf)).

Definition read_regenesis (conf : Config) : outcome Regenesis :=
  regenesis_hashes_bytes ← read_file (hashes_file conf);
  regenesis_blocks ← parse_hashes regenesis_hashes_bytes;
  let regenesis_arc := Regenesis_from_blocks regenesis_blocks in
  ensure (bool_decide (0 < length (genesis_blocks_known regenesis_arc)))
    "Bootstrapper can't run without specifying genesis hashes." ;;
  Ok regenesis_arc.

(** [main] of the bootstrapper up to the start of its thread *)
Definition bootstrapper (env : Env) (ip : IpAddr) (fresh : P2PNodeId) (store : kv)
    (seeds : u64 * u64 * u64 * u64) (conf : Config) : outcome P2PNode :=
  let conf := with_connection (adjusted (Some (bs_max_nodes (conf_bootstrapper conf)))
                (cc_thread_pool_size (conf_connection conf)) (conf_connection conf)) conf in
  '(_, stats_export_service) ← instantiate_stats_export_engine;
  regenesis_arc ← read_regenesis conf;
  P2PNode_new env ip (default fresh (common_id (conf_common conf))) conf Bootstrapper store seeds
    stats_export_service regenesis_arc.

(** [main] of the checker up to its loop *)
Definition bootstrap_checker (env : Env) (ip : IpAddr) (fresh : P2PNodeId) (store : kv)
    (seeds : u64 * u64 * u64 * u64) (conf : Config) : outcome P2PNode :=
  let conf := with_connection (adjusted (Some 0%Z) 1 (conf_connection conf)) conf in
  _ ← env_var "PD_TOKEN";
  _ ← env_var "PD_EMAIL";
  _ ← env_var "PD_SVCID";
  '(_, stats_export_service) ← instantiate_stats_export_engine;
  regenesis_arc ← read_regenesis conf;
  node ← P2PNode_new env ip (default fresh (common_id (conf_common conf))) conf Node store seeds
           stats_export_service regenesis_arc;
  Ok (if cc_no_bootstrap_dns (conf_connection conf) then node else attempt_bootstrap env node).
End bootstrap.

(** ** The loop of the checker

    In each round the program sleeps, looks at the connections and then at the clock;
    [connected] and [uptime] are what it sees in a round, and [notified] says whether the
    report could be sent ([expect]). *)
Inductive Verdict := Bootstrapped | NotBootstrapped.

Definition SLEEP : Z := 500.
Definition DEADLINE : Z := 10000.

Fixpoint check_loop (rounds : nat) (connected : nat → bool) (uptime : nat → Z) (notified : bool)
    (i : nat) : option (outcome Verdict) :=
  match rounds with
  | O => None
  | S rounds =>
    if connected i then Some (Ok Bootstrapped)
    else if decide (DEADLINE < uptime i)%Z then
      Some (if notified then Ok NotBootstrapped
            else Panic "Couldn't send a bootstrap error notification")
    else check_loop rounds connected uptime notified (S i)
  end.

(** Each round takes as long as it sleeps. *)
Definition time_passes (uptime : nat → Z) : Prop :=
  (SLEEP ≤ uptime 0%nat)%Z ∧ ∀ i, (uptime i + SLEEP ≤ uptime (S i))%Z.

(** Twenty-one sleeps are longer than the deadline. *)
Definition ROUNDS : nat := 21.

Lemma uptime_bound uptime i : time_passes uptime → (SLEEP * Z.of_nat (S i) ≤ uptime i)%Z.
Proof. intros [H0 Hs]. induction i as [|i IH]; [lia|]. specialize (Hs i). lia. Qed.

(** The loop ends when the deadline will have passed. *)
Lemma check_loop_ends connected uptime notified rounds i :
  (DEADLINE < uptime (i + rounds)%nat)%Z →
  ∃ j, i ≤ j ≤ i + rounds ∧ (∀ k, i ≤ k < j → connected k = false ∧ (uptime k ≤ DEADLINE)%Z)
    ∧ check_loop (S rounds) connected uptime notified i
      = Some (if connected j then Ok Bootstrapped
              else if notified then Ok NotBootstrapped
              else Panic "Couldn't send a bootstrap error notification")
    ∧ (connected j = false → (DEADLINE < uptime j)%Z).
Proof.
  revert i. induction rounds as [|rounds IH]; intros i Hu.
  - exists i. rewrite Nat.add_0_r in *. split; [lia|]. split; [lia|]. simpl.
    rewrite decide_True by done. by destruct (connected i).
  - destruct (connected i) eqn:Ec; [|destruct (decide (DEADLINE < uptime i)%Z) as [Hd|Hd]].
    + exists i. split; [lia|]. split; [lia|]. simpl. rewrite Ec. split; [done|congruence].
    + exists i. split; [lia|]. split; [lia|]. simpl. rewrite Ec. by rewrite decide_True.
    + destruct (IH (S i)) as (j & Hj & Hk & Hl & Hdl); [by rewrite Nat.add_succ_l, <- Nat.add_succ_r|].
      exists j. split; [lia|]. split.
      * intros k Hki. destruct (decide (k = i)) as [->|]; [split; [done|lia]|apply Hk; lia].
      * split; [|done]. rewrite <- Hl. cbn [check_loop]. by rewrite Ec, decide_False.
Qed.

(** The checker ends.  Whatever happens, it ends after at most twenty-one rounds, with
    success exactly when it saw a connection in some round before the deadline was passed
    in an earlier one, and otherwise with a report, which is made only when more than ten
    seconds have passed. *)
Theorem bootstrap_check_ends connected uptime notified :
  time_passes uptime →
  ∃ j, j < ROUNDS ∧ (∀ k, k < j → connected k = false ∧ (uptime k ≤ DEADLINE)%Z)
    ∧ check_loop ROUNDS connected uptime notified 0
      = Some (if connected j then Ok Bootstrapped
              else if notified then Ok NotBootstrapped
              else Panic "Couldn't send a bootstrap error notification")
    ∧ (connected j = false → (DEADLINE < uptime j)%Z).
Proof.
  intros Ht. pose proof (uptime_bound uptime 20 Ht) as Hu. unfold SLEEP in Hu.
  destruct (check_loop_ends connected uptime notified 20 0) as (j & Hj & Hk & Hl); [unfold DEADLINE; simpl; lia|].
  exists j. split; [unfold ROUNDS; lia|]. split; [intros k ?; apply Hk; lia|done].
Qed.

(** ** The nodes *)
Section nodes.
Context `{!BootExt}.

Lemma P2PNode_new_config env ip id conf t store seeds s r n :
  P2PNode_new env ip id conf t store seeds s r = Ok n →
  p2p_peer_type (self_peer n) = t ∧ regenesis n = r ∧ NodeConfig_new conf t = Ok (config n).
Proof.
  unfold P2PNode_new. intros (given & _ & (conf' & Hc & Hn)%outcome_bind_ok)%outcome_bind_ok.
  destruct (no_clear_bans conf'); [by injection Hn as <-|].
  unfold st_try, Bans.clear_bans, Bans.lift_kv in Hn. cbn [kvs] in Hn.
  destruct (kv_clear store) as [[] store']; by simplify_eq.
Qed.

Lemma read_regenesis_ok conf r :
  read_regenesis conf = Ok r → genesis_blocks_known r ≠ [].
Proof.
  unfold read_regenesis.
  intros (bs & _ & (blocks & _ & ([] & He & [= <-])%outcome_bind_ok)%outcome_bind_ok)%outcome_bind_ok.
  by destruct blocks.
Qed.

(** A bootstrapper that starts is a node in a good state that acts as a bootstrapper,
    knows at least one genesis block and keeps at most the configured number of peers. *)
Theorem bootstrapper_starts env ip fresh store seeds conf n :
  bootstrapper env ip fresh store seeds conf = Ok n →
  node_ok n ∧ p2p_peer_type (self_peer n) = Bootstrapper
  ∧ genesis_blocks_known (regenesis n) ≠ []
  ∧ max_allowed_nodes (config n) = bs_max_nodes (conf_bootstrapper conf).
Proof.
  unfold bootstrapper.
  intros ([reg stats] & _ & (r & Hr & Hn)%outcome_bind_ok)%outcome_bind_ok.
  split; [by eapply P2PNode_new_ok|]. apply P2PNode_new_config in Hn as (-> & -> & Hc).
  split_and!; [done|by eapply read_regenesis_ok|].
  unfold NodeConfig_new in Hc. apply outcome_bind_ok in Hc as (net & _ & [= <-]). done.
Qed.
End nodes.

(** *** Witnesses *)
Module BootstrapExample.
Definition uptime (i : nat) : Z := 600 * Z.of_nat (S i).

(** The node is connected in the fourth round. *)
Lemma bootstrap_check_ends_witness :
  ∃ j, j < ROUNDS ∧ (∀ k, k < j → (bool_decide (3 ≤ k)) = false ∧ (uptime k ≤ DEADLINE)%Z)
    ∧ check_loop ROUNDS (λ k, bool_decide (3 ≤ k)) uptime true 0
      = Some (if bool_decide (3 ≤ j) then Ok Bootstrapped else Ok NotBootstrapped)
    ∧ (bool_decide (3 ≤ j) = false → (DEADLINE < uptime j)%Z).
Proof.
  apply (bootstrap_check_ends (λ k, bool_decide (3 ≤ k)) uptime true).
  split; [done|]. intros i. unfold uptime, SLEEP. lia.
Defined.

#[local] Existing Instance NodeExample.ext.
#[local] Instance files : BootExt := {|
  data_dir_join f := f;
  read_file _ := Ok [];
  parse_hashes _ := Ok [true];
  env_var _ := Ok "";
|}.

Lemma bootstrapper_starts_witness :
  ∃ n, bootstrapper NodeExample.env (V4 10) (MkP2PNodeId 7) (∅ : gset bytes) (1, 2, 3, 4)%Z
         (Config_default "." ".") = Ok n
    ∧ node_ok n ∧ p2p_peer_type (self_peer n) = Bootstrapper
    ∧ genesis_blocks_known (regenesis n) ≠ []
    ∧ max_allowed_nodes (config n) = bs_max_nodes (conf_bootstrapper (Config_default "." ".")).
Proof.
  eexists. split; [reflexivity|].
  apply (bootstrapper_starts NodeExample.env (V4 10) (MkP2PNodeId 7) (∅ : gset bytes) (1, 2, 3, 4)%Z).
  reflexivity.
Defined.
End BootstrapExample.
