(* ===== verification/MacLog.v ===== *)
(** * Logging

    Models [concordium-node/src/macos_log.rs], the logger for the system log of macOS, and
    the filters that [setup_logger] and [setup_macos_logger] of
    [concordium-node/src/utils.rs] set.  The system log is the list of what was written to
    it.  The macros of the [log] crate consult its global maximum before they call a
    logger; how they do is a parameter. *)
From S2P Require Import Prelude.
From S2P Require Import Text.
From S2P Require Import Config.

(** ** Levels *)

(** [log::Level], by its number *)
Inductive LogLevel := LError | LWarn | LInfo | LDebug | LTrace.
Definition level_number (l : LogLevel) : nat :=
  match l with LError => 1 | LWarn => 2 | LInfo => 3 | LDebug => 4 | LTrace => 5 end.

(** [log::LevelFilter]: off, or up to a level *)
Definition LevelFilter : Type := option LogLevel.
Definition filter_number (f : LevelFilter) : nat :=
  match f with Some l => level_number l | None => 0 end.
Definition passes (l : LogLevel) (f : LevelFilter) : bool :=
  bool_decide (level_number l ≤ filter_number f).

(** [Level] of the system log *)
Inductive Level := LevelDefault | LevelInfo | LevelDebug | LevelError | LevelFault.
Definition Level_code (l : Level) : u8 :=
  match l with LevelDefault => 0 | LevelInfo => 1 | LevelDebug => 2 | LevelError => 16 | LevelFault => 17 end.
Definition Level_from (other : LogLevel) : Level :=
  match other with
  | LTrace => LevelDebug
  | LDebug => LevelDebug
  | LInfo => LevelInfo
  | LWarn => LevelError
  | LError => LevelFault
  end.

(** ** Messages *)

(** [to_cstr]: the character zero is replaced, so that [CString::new] succeeds. *)
Definition to_cstr (message : text) : text :=
  flat_map (λ c, if decide (c = 0%Z) then of_string "(null)" else [c]) message.

Lemma to_cstr_no_nul message : 0%Z ∉ to_cstr message.
Proof.
  unfold to_cstr. induction message as [|c message IH]; [set_solver|]. cbn [flat_map].
  rewrite elem_of_app. intros [Hc|Hc]; [|done]. case_decide as E.
  - revert Hc. apply (bool_decide_eq_true_1 (0%Z ∉ of_string "(null)")). by vm_compute.
  - by apply list_elem_of_singleton in Hc as <-.
Qed.

Lemma to_cstr_unchanged message : 0%Z ∉ message → to_cstr message = message.
Proof.
  unfold to_cstr. induction message as [|c message IH]; [done|]. intros Hn. cbn [flat_map].
  rewrite IH by set_solver. by rewrite decide_False by set_solver.
Qed.

(** ** The logger *)

(** A handle of the system log, by what it was created with *)
Record MacOsLog := MkMacOsLog { os_subsystem : text; os_category : text }.

(** What is written to the system log *)
Record Entry := MkEntry { to : MacOsLog; code : u8; written : text }.

Record MacOsLogger := MkMacOsLogger {
  loggers : gmap text (option LevelFilter * MacOsLog);
  subsystem : text;
}.

(** The global state: the maximum of the [log] crate and the system log *)
Record World := MkWorld { max_level : LevelFilter; syslog : list Entry }.

Definition MacOsLog_new (subsystem category : text) : MacOsLog :=
  MkMacOsLog (to_cstr subsystem) (to_cstr category).

Definition log_with_level (inner : MacOsLog) (level : Level) (msg : text) (w : World) : World :=
  MkWorld (max_level w) (syslog w ++ [MkEntry inner (Level_code level) (to_cstr msg)]).

Definition MacOsLogger_new (subsystem : text) : MacOsLogger := MkMacOsLogger ∅ subsystem.

Definition level_filter (level : LevelFilter) (w : World) : World := MkWorld level (syslog w).

Definition category_level_filter (category : text) (level : LevelFilter) (l : MacOsLogger) : MacOsLogger :=
  MkMacOsLogger
    (<[category := match loggers l !! category with
                   | Some (_, logger) => (Some level, logger)
                   | None => (Some level, MacOsLog_new (subsystem l) category)
                   end]> (loggers l)) (subsystem l).

(** The level up to which messages of a target are logged *)
Definition effective (l : MacOsLogger) (w : World) (target : text) : LevelFilter :=
  default (max_level w) (loggers l !! target ≫= fst).

Definition enabled (l : MacOsLogger) (w : World) (target : text) (level : LogLevel) : bool :=
  passes level (effective l w target).

(** [log] of the logger *)
Definition log (target : text) (level : LogLevel) (message : text) (l : MacOsLogger) (w : World) :
    MacOsLogger * World :=
  if enabled l w target level then
    match loggers l !! target with
    | Some (_, logger) => (l, log_with_level logger (Level_from level) message w)
    | None =>
      let new_logger := MacOsLog_new (subsystem l) target in
      (MkMacOsLogger (<[target := (None, new_logger)]> (loggers l)) (subsystem l),
       log_with_level new_logger (Level_from level) message w)
    end
  else (l, w).

(** ** What the program sets *)

Definition QUIET : list text :=
  of_string <$> ["tokio_reactor"; "hyper"; "reqwest"; "gotham"; "h2"]%string.

Definition chosen_level (trace debug : bool) : LevelFilter :=
  if trace then Some LTrace else if debug then Some LDebug else Some LInfo.

(** [setup_macos_logger] *)
Definition setup_macos_logger (trace debug : bool) (subsystem : text) (w : World) : MacOsLogger * World :=
  let l := MacOsLogger_new subsystem in
  let w := level_filter (chosen_level trace debug) w in
  (foldl (λ l category, category_level_filter category (Some LError) l) l QUIET, w).

(** ** The logger of the process *)

(** What [setup_logger] sets: the text of the default filter, the filters of the modules,
    and whether lines carry a time *)
Record StderrLogger := MkStderrLogger {
  default_filter : text;
  module_filters : list (text * LevelFilter);
  timestamps : bool;
}.

Inductive Logger :=
  | ToStderr (l : StderrLogger)
  | ToSyslog (l : MacOsLogger)
  | FromFile (config_file : string).

(** The messages of [get_config_and_logging_setup] *)
Inductive Info :=
  | TheConfig (conf : Config)
  | StartingUp
  | DataDirectory (dir : string)
  | ConfigDirectory (dir : string)
  | TheNetwork (enabled : bool)
  | TheLogLevel (level : text).

(** The global state of the [log] crate: the logger, if it was set, the maximum level, and
    the records the logger was given *)
Record Process := MkProcess {
  installed : option Logger;
  world : World;
  records : list Info;
}.
Definition fresh_process : Process := MkProcess None (MkWorld None []) [].

(** [set_boxed_logger], which can be called once *)
Definition set_logger (l : Logger) : ST Process unit :=
  p ← st_get;
  match installed p with
  | Some _ => st_lift (Panic "a logger was already set")
  | None => st_modify (λ p, MkProcess (Some l) (world p) (records p))
  end.

(** A record of level information; without a logger it is dropped. *)
Definition info (i : Info) : ST Process unit :=
  st_modify (λ p, match installed p with
                  | Some _ => MkProcess (installed p) (world p) (records p ++ [i])
                  | None => p
                  end).

Definition log_lvl (trace debug : bool) : text :=
  if trace then of_string "trace" else if debug then of_string "debug" else of_string "info".

Section set_up.
(** The variable [LOG_LEVEL] of the environment, and whether a configuration of log4rs
    can be read *)
Context (LOG_LEVEL : option text) (init_file : string → bool).

(** [setup_logger_config] *)
Definition setup_logger_config (config_file : string) : ST Process unit :=
  if init_file config_file then set_logger (FromFile config_file) else st_lift (Panic "log4rs::init_file").

(** [setup_logger] *)
Definition setup_logger (trace debug no_log_timestamp : bool) : ST Process unit :=
  set_logger (ToStderr (MkStderrLogger (default (log_lvl trace debug) LOG_LEVEL)
    ((λ category, (category, Some LError)) <$> QUIET) (negb no_log_timestamp))).

(** [setup_macos_logger], with the logger installed *)
Definition install_macos_logger (trace debug : bool) (subsystem : text) : ST Process unit :=
  p ← st_get;
  let '(l, w) := setup_macos_logger trace debug subsystem (world p) in
  st_modify (λ p, MkProcess (installed p) w (records p)) ;;
  set_logger (ToSyslog l).

(** [get_config_and_logging_setup], on the result of [parse_config] and that of reading
    the preferences; [macos] says for which system the program was built, [use_mac_log] is
    an option that exists there. *)
Definition get_config_and_logging_setup {Prefs} (macos : bool) (use_mac_log : option text)
    (parsed : outcome Config) (preferences : outcome Prefs) : ST Process (Config * Prefs) :=
  conf ← st_lift parsed;
  app_prefs ← st_lift preferences;
  let common := conf_common conf in
  let trace := common_trace common in
  let debug := common_debug common in
  (if common_print_config common then info (TheConfig conf) else mret tt) ;;
  (if macos then
     match use_mac_log with
     | Some subsystem => install_macos_logger trace debug subsystem
     | None => setup_logger trace debug (common_no_log_timestamp common)
     end
   else
     match common_log_config common with
     | Some log_config => setup_logger_config log_config
     | None => setup_logger trace debug (common_no_log_timestamp common)
     end) ;;
  info StartingUp ;;
  info (DataDirectory (common_data_dir common)) ;;
  info (ConfigDirectory (common_config_dir common)) ;;
  info (TheNetwork (negb (cli_no_network (conf_cli conf)))) ;;
  info (TheLogLevel (log_lvl trace debug)) ;;
  mret (conf, app_prefs).
End set_up.

(** ** The theorems *)

(** Every logger writes for its own category. *)
Definition logger_ok (l : MacOsLogger) : Prop :=
  ∀ target f logger, loggers l !! target = Some (f, logger) → logger = MacOsLog_new (subsystem l) target.

Lemma logger_ok_new s : logger_ok (MacOsLogger_new s).
Proof. intros target f logger. simpl. by rewrite lookup_empty. Qed.

Lemma logger_ok_filter category level l :
  logger_ok l → logger_ok (category_level_filter category level l).
Proof.
  intros Hl target f logger. simpl. destruct (decide (target = category)) as [->|Hne].
  - rewrite lookup_insert_eq. destruct (loggers l !! category) as [[f' g]|] eqn:E; intros [= <- <-]; [|done].
    by eapply Hl.
  - rewrite lookup_insert_ne by done. apply Hl.
Qed.

Lemma logger_ok_log target level message l w : logger_ok l → logger_ok (log target level message l w).1.
Proof.
  intros Hl. unfold log. destruct (enabled _ _ _ _); [|done].
  destruct (loggers l !! target) as [[f g]|] eqn:E; [done|]. intros t f g. simpl.
  destruct (decide (t = target)) as [->|Hne].
  - rewrite lookup_insert_eq. by intros [= <- <-].
  - rewrite lookup_insert_ne by done. apply Hl.
Qed.

(** Logging does not change which messages are enabled. *)
Lemma effective_log target level message l w t :
  effective (log target level message l w).1 (log target level message l w).2 t = effective l w t.
Proof.
  unfold log. destruct (enabled _ _ _ _); [|done].
  destruct (loggers l !! target) as [[f g]|] eqn:E; [done|]. unfold effective. simpl.
  destruct (decide (t = target)) as [->|Hne].
  - by rewrite lookup_insert_eq, E.
  - by rewrite lookup_insert_ne.
Qed.

Section macros.
(** Whether a macro of the [log] crate calls the logger, under the global maximum *)
Context (dispatched : LevelFilter → LogLevel → bool).
Hypothesis dispatched_spec : ∀ max level, dispatched max level = passes level max.

(** A log statement of the program *)
Definition statement (r : text * LogLevel * text) (s : MacOsLogger * World) : MacOsLogger * World :=
  let '(target, level, message) := r in
  if dispatched (max_level s.2) level then log target level message s.1 s.2 else s.

(** The entry of a statement that is shown *)
Definition entry_of (subsystem : text) (r : text * LogLevel * text) : Entry :=
  let '(target, level, message) := r in
  MkEntry (MacOsLog_new subsystem target) (Level_code (Level_from level)) (to_cstr message).

Definition shown (l : MacOsLogger) (w : World) (r : text * LogLevel * text) : bool :=
  let '(target, level, _) := r in passes level (max_level w) && passes level (effective l w target).

Lemma statement_spec r l w :
  logger_ok l →
  let s := statement r (l, w) in
  logger_ok s.1 ∧ subsystem s.1 = subsystem l ∧ max_level s.2 = max_level w
  ∧ (∀ t, effective s.1 s.2 t = effective l w t)
  ∧ syslog s.2 = syslog w ++ (if shown l w r then [entry_of (subsystem l) r] else []).
Proof.
  destruct r as [[target level] message]. intros Hl. cbn zeta. unfold statement, shown. simpl.
  rewrite dispatched_spec. destruct (passes level (max_level w)); [|by rewrite app_nil_r].
  split; [by apply logger_ok_log|]. split_and!; [| |apply effective_log|].
  - unfold log. destruct (enabled _ _ _ _); [|done]. by destruct (loggers l !! target) as [[]|].
  - unfold log. destruct (enabled _ _ _ _); [|done]. by destruct (loggers l !! target) as [[]|].
  - unfold log, enabled. destruct (passes level (effective l w target)); [|by rewrite app_nil_r].
    destruct (loggers l !! target) as [[f g]|] eqn:E; [|done]. simpl. by rewrite (Hl _ _ _ E).
Qed.

(** The system log shows, in the order in which they are made, exactly the statements
    whose level passes both the global maximum and the filter of their target, which is
    the one that was set for it or else the maximum: each under the subsystem and its own
    target, with the code of its level and its text, in which no character is zero. *)
Theorem logged_exactly rs l w :
  logger_ok l →
  syslog (foldl (λ s r, statement r s) (l, w) rs).2
  = syslog w ++ (entry_of (subsystem l) <$> filter (λ r, shown l w r = true) rs)
  ∧ Forall (λ r, 0%Z ∉ written (entry_of (subsystem l) r)) rs.
Proof.
  intros Hl. split; [|apply Forall_forall; intros [[t lv] m] _; apply to_cstr_no_nul].
  revert l w Hl. induction rs as [|r rs IH]; intros l w Hl; [by rewrite app_nil_r|]. cbn [foldl].
  destruct (statement_spec r l w Hl) as (Hok & Hsub & Hmax & Heff & Hlog).
  destruct (statement r (l, w)) as [l' w']. simpl in *. rewrite IH by done. rewrite Hlog, Hsub, <- app_assoc.
  f_equal. rewrite (list_filter_iff (λ r, shown l' w' r = true) (λ r, shown l w r = true)).
  - rewrite filter_cons. destruct (shown l w r); [by rewrite decide_True|by rewrite decide_False].
  - intros [[t lv] m]. unfold shown. by rewrite Hmax, Heff.
Qed.

(** A filter of a category can not show more than the default one. *)
Lemma category_filter_only_restricts r l w :
  shown l w r = true → passes r.1.2 (max_level w) = true.
Proof. destruct r as [[t lv] m]. by intros [? _]%andb_true_iff. Qed.
End macros.

(** ** Setting logging up *)

(** The logger that the configuration asks for *)
Definition wanted_logger (LOG_LEVEL : option text) (macos : bool) (use_mac_log : option text)
    (common : CommonConfig) : Logger :=
  let stderr := ToStderr (MkStderrLogger
    (default (log_lvl (common_trace common) (common_debug common)) LOG_LEVEL)
    ((λ category, (category, Some LError)) <$> QUIET) (negb (common_no_log_timestamp common))) in
  if macos then
    match use_mac_log with
    | Some subsystem =>
      ToSyslog (setup_macos_logger (common_trace common) (common_debug common) subsystem (MkWorld None [])).1
    | None => stderr
    end
  else
    match common_log_config common with
    | Some log_config => FromFile log_config
    | None => stderr
    end.

(** At the start of a process, once the options and the preferences are read, the
    logger that they ask for is installed, unless its own configuration can not be read,
    in which case the process panics; the five lines on the program are then logged in
    order.  The configuration is never among them, also when [--print-config] asks for it:
    it is printed before there is a logger, and dropped. *)
Theorem logging_set_up {Prefs} LOG_LEVEL init_file macos use_mac_log conf (prefs : Prefs) :
  let common := conf_common conf in
  let r := get_config_and_logging_setup LOG_LEVEL init_file macos use_mac_log (Ok conf) (Ok prefs)
             fresh_process in
  match macos, common_log_config common with
  | false, Some log_config =>
    r.1 = (if init_file log_config then Ok (conf, prefs) else Panic "log4rs::init_file")
  | _, _ => r.1 = Ok (conf, prefs)
  end
  ∧ (r.1 = Ok (conf, prefs) →
     installed r.2 = Some (wanted_logger LOG_LEVEL macos use_mac_log common)
     ∧ records r.2 = [StartingUp; DataDirectory (common_data_dir common);
                      ConfigDirectory (common_config_dir common);
                      TheNetwork (negb (cli_no_network (conf_cli conf)));
                      TheLogLevel (log_lvl (common_trace common) (common_debug common))]).
Proof.
  destruct conf as [common conn cli bs]. cbn zeta. unfold wanted_logger. cbn [conf_common conf_cli].
  destruct common as [? ? ? ? debug trace ? ? ? ? ? nots cfg ? print ?]. simpl.
  unfold get_config_and_logging_setup, setup_logger_config. simpl.
  destruct print, macos, use_mac_log, cfg as [f|]; try done.
  all: unfold mbind, ST_bind, st_lift; cbn; by destruct (init_file f).
Qed.

(** ** An example *)

Module MacLogExample.
Definition s0 : MacOsLogger * World := setup_macos_logger false true (of_string "software.concordium") (MkWorld None []).
Definition statements : list (text * LogLevel * text) :=
  [(of_string "p2p", LDebug, [104; 0; 105]%Z); (of_string "h2", LWarn, of_string "quiet");
   (of_string "p2p", LTrace, of_string "too fine"); (of_string "h2", LError, of_string "broken")].

Lemma setup_logger_ok trace debug subsystem w : logger_ok (setup_macos_logger trace debug subsystem w).1.
Proof. simpl. do 5 apply logger_ok_filter. apply logger_ok_new. Qed.

Lemma logged_exactly_witness :
  syslog (foldl (λ s r, statement (λ m l, passes l m) r s) s0 statements).2
  = [MkEntry (MacOsLog_new (of_string "software.concordium") (of_string "p2p")) 2 (of_string "h(null)i");
     MkEntry (MacOsLog_new (of_string "software.concordium") (of_string "h2")) 17 (of_string "broken")].
Proof.
  pose proof (logged_exactly (λ m l, passes l m) (λ _ _, eq_refl) statements s0.1 s0.2
    (setup_logger_ok false true _ _)) as [H _].
  rewrite (surjective_pairing s0). rewrite H. by vm_compute.
Defined.
End MacLogExample.
