(* ===== verification/Runtime.v ===== *)
(** * The Haskell runtime

    Models [start_haskell], [stop_haskell] and [stop_nopanic] of
    [concordium-node/src/consensus_ffi/ffi.rs]: the flags with which the runtime is started
    when the node is built for profiling, and the three static variables by which threads
    that start and stop the runtime agree.  [Lifecycle] has the flags without profiling and
    the place of these calls in the life of the node. *)
From S2P Require Import Prelude.
From S2P Require Import Text.
From S2P Require Import Lifecycle.

(** ** The flags for profiling *)

Record Profiling := MkProfiling {
  heap : text;
  stack : bool;
  time : bool;
  exceptions : bool;
  gc_log : option text;
  profile_sampling_interval : text;
}.

Definition NONE : text := of_string "none".
Definition DEFAULT_INTERVAL : text := of_string "0.1".

(** The flags of the heap profile *)
Definition heap_flags (heap : text) (stack : bool) : list text :=
  let xt := if stack then [of_string "-xt"] else [] in
  if decide (heap = of_string "cost") then of_string "-hc" :: xt
  else if decide (heap = of_string "module") then of_string "-hm" :: xt
  else if decide (heap = of_string "description") then of_string "-hd" :: xt
  else if decide (heap = of_string "type") then of_string "-hy" :: xt
  else [].

(** Flags are pushed under a condition. *)
Definition push_if (b : bool) (flags args : list text) : list text :=
  if b then args ++ flags else args.
Definition alone (args : list text) : bool := bool_decide (length args = 1).

(** A profile of which the log can be large *)
Definition long_profile (p : Profiling) : bool :=
  bool_decide (heap p ≠ NONE) || time p || bool_decide (is_Some (gc_log p))
  || bool_decide (profile_sampling_interval p ≠ DEFAULT_INTERVAL).

(** [start_haskell_init] with the feature [profiling] *)
Definition start_haskell_init_profiling (program_name : text) (p : Profiling) (rts_flags : list text) :
    list text :=
  let args := [program_name] in
  let args := push_if (long_profile p) [of_string "+RTS"; of_string "-L100"] args in
  let args := args ++ heap_flags (heap p) (stack p) in
  let args := push_if (bool_decide (profile_sampling_interval p ≠ DEFAULT_INTERVAL))
                [of_string "-i" ++ profile_sampling_interval p] args in
  let args := push_if (time p) [of_string "-p"] args in
  let args := match gc_log p with Some log => args ++ [of_string "-S" ++ log] | None => args end in
  let args := push_if (exceptions p && alone args) [of_string "+RTS"] args in
  let args := push_if (exceptions p) [of_string "-xc"] args in
  let args := push_if (alone args) [of_string "+RTS"] args in
  let args := push_if (forallb (λ arg, negb (sets_handlers arg)) rts_flags)
                [of_string "--install-signal-handlers=no"] args in
  let args := args ++ filter (λ flag, trim flag ≠ []) rts_flags in
  push_if (bool_decide (1 < length args)) [of_string "-RTS"] args.

(** The flags of the profile itself *)
Definition profile_flags (p : Profiling) : list text :=
  (if long_profile p then [of_string "-L100"] else [])
  ++ heap_flags (heap p) (stack p)
  ++ (if bool_decide (profile_sampling_interval p ≠ DEFAULT_INTERVAL)
      then [of_string "-i" ++ profile_sampling_interval p] else [])
  ++ (if time p then [of_string "-p"] else [])
  ++ match gc_log p with Some log => [of_string "-S" ++ log] | None => [] end
  ++ (if exceptions p then [of_string "-xc"] else []).

Lemma heap_flags_none stack : heap_flags NONE stack = [].
Proof. by destruct stack; vm_compute. Qed.

Lemma push_if_app b flags args : push_if b flags args = args ++ if b then flags else [].
Proof. destruct b; simpl; by rewrite ?app_nil_r. Qed.

Lemma alone_long x y l : alone (x :: y :: l) = false.
Proof. done. Qed.

Lemma app_opt {A B} (o : option A) (f : A → B) (a : list B) :
  match o with Some x => a ++ [f x] | None => a end = a ++ match o with Some x => [f x] | None => [] end.
Proof. destruct o; by rewrite ?app_nil_r. Qed.

(** The flags of the runtime are always enclosed in one pair of [+RTS] and [-RTS]:
    those of the profile that was asked for, the flag that leaves signals to the node
    unless the operator decides on it, and the flags of the operator that are not blank. *)
Theorem profiling_flags_enclosed program p rts_flags :
  start_haskell_init_profiling program p rts_flags
  = [program; of_string "+RTS"] ++ profile_flags p
    ++ (if forallb (λ arg, negb (sets_handlers arg)) rts_flags
        then [of_string "--install-signal-handlers=no"] else [])
    ++ filter (λ flag, trim flag ≠ []) rts_flags ++ [of_string "-RTS"].
Proof.
  unfold start_haskell_init_profiling, profile_flags. destruct (long_profile p) eqn:E.
  - rewrite !push_if_app, !app_opt. generalize (heap_flags (heap p) (stack p)). intros hs. simpl app.
    rewrite !alone_long, !andb_false_r. by rewrite <- !app_assoc.
  - unfold long_profile in E. apply orb_false_iff in E as [[[E1 E2]%orb_false_iff E3]%orb_false_iff E4].
    apply bool_decide_eq_false in E1, E3. apply dec_stable in E1.
    destruct (gc_log p); [naive_solver|]. rewrite E1, E2, E4, heap_flags_none.
    by destruct (exceptions p), (forallb _ rts_flags).
Qed.

(** ** Starting and stopping *)

(** Calls of the runtime *)
Inductive Call := hs_init (args : list text) | hs_exit.

(** [START_ONCE], [STOP_ONCE] and [STOPPED], whether [stop_nopanic] is registered to be
    called when the process exits, the threads of [stop_haskell] that are between its two
    steps, those that panicked, and the calls so far *)
Record State := MkState {
  START_ONCE : bool;
  STOP_ONCE : bool;
  STOPPED : bool;
  at_exit : bool;
  stopping : nat;
  panicked : nat;
  exited : bool;
  calls : list Call;
}.
Definition initial : State := MkState false false false false 0 0 false [].

Definition start_haskell (args : list text) (s : State) : State :=
  if START_ONCE s then s
  else MkState true (STOP_ONCE s) (STOPPED s) true (stopping s) (panicked s) (exited s)
         (calls s ++ [hs_init args]).

(** The first step of [stop_haskell], the exchange of [STOPPED] *)
Definition stop_haskell (s : State) : State :=
  if STOPPED s
  then MkState (START_ONCE s) (STOP_ONCE s) true (at_exit s) (stopping s) (S (panicked s)) (exited s) (calls s)
  else MkState (START_ONCE s) (STOP_ONCE s) true (at_exit s) (S (stopping s)) (panicked s) (exited s) (calls s).

Definition stop_nopanic (s : State) : State :=
  if STOP_ONCE s then s
  else MkState (START_ONCE s) true (STOPPED s) (at_exit s) (stopping s) (panicked s) (exited s)
         (calls s ++ [hs_exit]).

(** A thread of [stop_haskell] past its first step *)
Definition stopping_done (s : State) : State :=
  MkState (START_ONCE s) (STOP_ONCE s) (STOPPED s) (at_exit s) (pred (stopping s)) (panicked s)
    (exited s) (calls s).

(** The process exits. *)
Definition exit (s : State) : State :=
  let s := if at_exit s then stop_nopanic s else s in
  MkState (START_ONCE s) (STOP_ONCE s) (STOPPED s) (at_exit s) (stopping s) (panicked s) true (calls s).

(** The threads of the process take their steps in any order. *)
Inductive step : State → State → Prop :=
  | step_start args s : exited s = false → step s (start_haskell args s)
  | step_stop s : exited s = false → step s (stop_haskell s)
  | step_nopanic s : exited s = false → 0 < stopping s → step s (stopping_done (stop_nopanic s))
  | step_exit s : exited s = false → step s (exit s).

Definition is_init (c : Call) : bool := match c with hs_init _ => true | hs_exit => false end.
Definition inits (s : State) : nat := length (List.filter is_init (calls s)).
Definition exits (s : State) : nat := length (List.filter (negb ∘ is_init) (calls s)).

(** How the variables describe the calls *)
Record runtime_ok (s : State) : Prop := {
  ok_init : inits s = Nat.b2n (START_ONCE s);
  ok_exit : exits s = Nat.b2n (STOP_ONCE s);
  ok_registered : at_exit s = START_ONCE s;
  ok_stopping : stopping s ≤ Nat.b2n (STOPPED s);
  ok_panicked : STOPPED s = false → panicked s = 0;
  ok_exited : exited s = true → START_ONCE s = true → STOP_ONCE s = true;
}.

Lemma runtime_ok_nopanic s : runtime_ok s → runtime_ok (stop_nopanic s) ∧ STOP_ONCE (stop_nopanic s) = true.
Proof.
  intros Hok. unfold stop_nopanic. destruct (STOP_ONCE s) eqn:E; [done|].
  destruct Hok as [H1 H2 H3 H4 H5 H6]. rewrite E in H2. unfold inits, exits in *.
  split; [split; unfold inits, exits; simpl; rewrite ?List.filter_app, ?length_app, ?H1, ?H2; simpl; auto; try lia|done].
Qed.

Lemma runtime_ok_step s s' : runtime_ok s → step s s' → runtime_ok s'.
Proof.
  intros Hok Hst. revert Hok. destruct Hst as [args t Ht|t Ht|t Ht Hs|t Ht]; intros Hok.
  - unfold start_haskell. destruct (START_ONCE t) eqn:E; [done|].
    destruct Hok as [H1 H2 H3 H4 H5 H6]. rewrite E in H1. unfold inits, exits in *.
    split; unfold inits, exits; simpl; rewrite ?List.filter_app, ?length_app, ?H1, ?H2; simpl; auto; try lia.
    congruence.
  - destruct Hok as [H1 H2 H3 H4 H5 H6]. unfold stop_haskell.
    destruct (STOPPED t); split; simpl in *; auto; lia || done.
  - destruct (runtime_ok_nopanic _ Hok) as [[H1 H2 H3 H4 H5 H6] _]. split; simpl; auto. lia.
  - unfold exit. rewrite (ok_registered _ Hok). destruct (START_ONCE t) eqn:E.
    + destruct (runtime_ok_nopanic _ Hok) as [[H1 H2 H3 H4 H5 H6] Ho]. by split.
    + destruct Hok. split; simpl; auto. congruence.
Qed.

Lemma runtime_reachable s : rtc step initial s → runtime_ok s.
Proof.
  intros Hr. refine (rtc_ind_r (R:=step) runtime_ok initial _ _ s Hr); [by split|].
  intros y z _ Hstep IH. by eapply runtime_ok_step.
Qed.

(** However the threads that start and stop the runtime and the exit of the process
    interleave, the runtime is started at most once and stopped at most once; a process that
    exits after it started the runtime has stopped it exactly once; and of several calls
    of [stop_haskell] all but the first panic. *)
Theorem runtime_stopped_once s :
  rtc step initial s →
  inits s ≤ 1 ∧ exits s ≤ 1
  ∧ (exited s = true → inits s = 1 → exits s = 1)
  ∧ stopping s ≤ 1 ∧ (0 < panicked s → STOPPED s = true).
Proof.
  intros [H1 H2 H3 H4 H5 H6]%runtime_reachable. rewrite H1, H2.
  destruct (START_ONCE s), (STOP_ONCE s), (STOPPED s); simpl in *; naive_solver lia.
Qed.

(** Stopping before the start uses up the one stop: the runtime that is started later is
    not stopped when the process exits. *)
Lemma stop_before_start args :
  ∃ s, rtc step initial s ∧ exited s = true ∧ calls s = [hs_exit; hs_init args].
Proof.
  exists (exit (start_haskell args (stopping_done (stop_nopanic (stop_haskell initial))))).
  split_and!; [|done|done].
  eapply rtc_l; [by apply step_stop|]. eapply rtc_l; [apply step_nopanic; simpl; [done|lia]|].
  eapply rtc_l; [by apply (step_start args)|]. apply rtc_once. by apply step_exit.
Qed.

(** ** An example *)

Module RuntimeExample.
Definition last : State :=
  exit (stopping_done (stop_nopanic (stop_haskell (stop_haskell (start_haskell [] (start_haskell [] initial)))))).

Lemma runtime_stopped_once_witness : inits last = 1 ∧ exits last = 1 ∧ panicked last = 1.
Proof.
  destruct (runtime_stopped_once last) as (_ & _ & H & _).
  - eapply rtc_l; [by apply (step_start [])|]. eapply rtc_l; [by apply (step_start [])|].
    eapply rtc_l; [by apply step_stop|]. eapply rtc_l; [by apply step_stop|].
    eapply rtc_l; [apply step_nopanic; simpl; [done|lia]|]. apply rtc_once. by apply step_exit.
  - split; [done|]. split; [by apply H|done].
Defined.
End RuntimeExample.
