(* ===== verification/LibraryStart.v ===== *)
(** * Starting the consensus library

    Models the part of [concordium-consensus/src/Concordium/External.hs] that starts the
    library ([startConsensus], [startConsensusPassive], [migrateGlobalState],
    [handleStartExceptions], [toLogMethod]), the way from there to the files of the data
    directory ([makeMultiVersionRunner] and [startupSkov] of [MultiVersion.hs],
    [initialiseExistingGlobalState] of [GlobalState.hs], [checkExistingDatabase] of
    [GlobalState/Persistent/TreeState.hs]), and the functions of
    [concordium-node/src/consensus_ffi/ffi.rs] on the other side of the boundary
    ([get_consensus_ptr], [on_log_emited]).  The files of the data directory are a map;
    operations on them may fail at any time.  What the library does with a database that it
    has found, or with the genesis data where it has found none, the content of the database
    and the numbers of sources and levels of log messages are parameters. *)
From stdpp Require Import pretty.
From S2P Require Import Prelude.
From S2P Require Import Text.
From S2P Require Import NetTypes.
From S2P Require Import Foreign.
From S2P Require Import QueriesV1.
From S2P Require Import Runner.
From S2P Require Import Lifecycle.
From S2P Require Import MacLog.
Import HsTypes.

(** ** Log messages of the library *)

Module Logs.
Inductive LogSource :=
  | Runner | Afgjort | Birk | Crypto | Kontrol | Skov | Baker | External | GlobalState
  | BlockState | TreeState | LMDB | Scheduler.
Inductive HsLogLevel := LLError | LLWarning | LLInfo | LLDebug | LLTrace.

(** [logSourceId] and [logLevelId] of [Concordium.Logger] *)
Class LogIds := {
  logSourceId : LogSource → u8;
  logLevelId : HsLogLevel → u8;
}.

(** The tables in the documentation of [LogCallback] *)
Class LogIdsLaws `{!LogIds} := {
  source_ids : logSourceId <$> [Runner; Afgjort; Birk; Crypto; Kontrol; Skov; Baker; External;
                                GlobalState; BlockState; TreeState; LMDB; Scheduler]
               = [0; 1; 2; 3; 4; 5; 6; 7; 8; 9; 10; 11; 12]%Z;
  level_ids : logLevelId <$> [LLError; LLWarning; LLInfo; LLDebug] = [1; 2; 3; 4]%Z;
  trace_id : (5 ≤ logLevelId LLTrace < 256)%Z;
}.

Definition identifier_to_string (id : u8) : string :=
  match id with
  | 0%Z => "Runner" | 1%Z => "Afgjort" | 2%Z => "Birk" | 3%Z => "Crypto" | 4%Z => "Kontrol"
  | 5%Z => "Skov" | 6%Z => "Baker" | 7%Z => "External" | 8%Z => "GlobalState"
  | 9%Z => "BlockState" | 10%Z => "TreeState" | 11%Z => "LMDB" | 12%Z => "Scheduler"
  | _ => "Unknown"
  end.

(** [on_log_emited]: the level and the line that are logged *)
Definition on_log_emited (identifier log_level : u8) (log_message : ptr) :
    outcome (LogLevel * string * bytes) :=
  m ← packCString log_message;
  match from_utf8 m with
  | Ok msg =>
    let id := identifier_to_string identifier in
    Ok (match log_level with
        | 1%Z => LError | 2%Z => LWarn | 3%Z => LInfo | 4%Z => LDebug | _ => LTrace
        end, id, msg)
  | _ => Panic "log_callback: unable to decode as UTF-8"
  end.

(** [pack] of [Data.ByteString.Char8] keeps the low eight bits of a character. *)
Definition pack (msg : text) : bytes := (λ c, c mod 256)%Z <$> msg.

Section method.
Context `{!LogIds}.

(** [toLogMethod]; [None] when the level is not asked for *)
Definition toLogMethod (maxLogLevel : u8) (src : LogSource) (lvl : HsLogLevel) (msg : text) :
    option (outcome (LogLevel * string * bytes)) :=
  if decide (logLevelId lvl ≤ maxLogLevel)%Z
  then Some (on_log_emited (logSourceId src) (logLevelId lvl) (ToBytes (pack msg ++ [0%Z])))
  else None.

Definition source_name (src : LogSource) : string :=
  match src with
  | Runner => "Runner" | Afgjort => "Afgjort" | Birk => "Birk" | Crypto => "Crypto" | Kontrol => "Kontrol"
  | Skov => "Skov" | Baker => "Baker" | External => "External" | GlobalState => "GlobalState"
  | BlockState => "BlockState" | TreeState => "TreeState" | LMDB => "LMDB" | Scheduler => "Scheduler"
  end.
Definition rust_level (lvl : HsLogLevel) : LogLevel :=
  match lvl with
  | LLError => LError | LLWarning => LWarn | LLInfo => LInfo | LLDebug => LDebug | LLTrace => LTrace
  end.

(** Characters of ASCII but for the one that ends a string *)
Definition plain (msg : text) : Prop := Forall (λ c, 1 ≤ c < 128)%Z msg.

Lemma pack_plain msg : plain msg → pack msg = msg.
Proof.
  unfold plain, pack. induction 1 as [|c msg Hc _ IH]; [done|]. cbn. by rewrite IH, Z.mod_small by lia.
Qed.

Lemma plain_no_null msg : plain msg → 0%Z ∉ msg.
Proof. unfold plain. rewrite Forall_forall. intros Hp Hin%Hp. lia. Qed.

(** How much of a message is ASCII does not matter to the rest. *)
Lemma utf8_plain_app msg rest n :
  plain msg → utf8_valid_fuel (length msg + n) (msg ++ rest) = utf8_valid_fuel n rest.
Proof.
  unfold plain. induction 1 as [|c msg Hc _ IH]; [done|]. cbn [length app plus utf8_valid_fuel].
  by rewrite bool_decide_true by lia.
Qed.

Lemma utf8_plain msg : plain msg → from_utf8 msg = Ok msg.
Proof.
  intros Hm. unfold from_utf8. pose proof (utf8_plain_app msg [] 1 Hm) as Hu.
  rewrite app_nil_r, Nat.add_1_r in Hu. by rewrite Hu.
Qed.

Lemma plain_not_continuation r rest : plain (r :: rest) → continuation r = false.
Proof. intros [Hr _]%Forall_cons. apply bool_decide_false. lia. Qed.

(** An octet that only starts a longer character of UTF-8 can not come before ASCII. *)
Lemma utf8_not_plain msg b rest :
  plain msg → (128 ≤ b)%Z → plain rest → from_utf8 (msg ++ b :: rest) = Err (Other "invalid utf-8 sequence").
Proof.
  intros Hm Hb Hr. unfold from_utf8. rewrite length_app. cbn [length].
  replace (S (length msg + S (length rest))) with (length msg + S (S (length rest))) by lia.
  rewrite utf8_plain_app by done. generalize (S (length rest)). intros n. cbn [utf8_valid_fuel].
  rewrite bool_decide_false by lia.
  destruct rest as [|r rest]; [by repeat case_bool_decide|].
  rewrite (plain_not_continuation r rest) by done.
  by repeat (case_bool_decide || case_match).
Qed.

Context `{!LogIdsLaws}.

Lemma level_known lvl :
  match logLevelId lvl with
  | 1%Z => LError | 2%Z => LWarn | 3%Z => LInfo | 4%Z => LDebug | _ => LTrace
  end = rust_level lvl.
Proof.
  pose proof level_ids as Hl. pose proof trace_id as Ht. simpl in Hl. injection Hl as H1 H2 H3 H4.
  destruct lvl; simpl; [by rewrite H1|by rewrite H2|by rewrite H3|by rewrite H4|].
  destruct (logLevelId LLTrace) as [|p|]; try done. repeat (destruct p; try done; try lia).
Qed.

Lemma source_known src : identifier_to_string (logSourceId src) = source_name src.
Proof. pose proof source_ids as Hs. simpl in Hs. simplify_eq. destruct src; simpl; match goal with H : logSourceId _ = _ |- _ => by rewrite H end. Qed.

(** The octets before the first null, all if there is none *)
Fixpoint before_null (bs : bytes) : bytes :=
  match bs with
  | [] => []
  | x :: bs => if decide (x = 0%Z) then [] else x :: before_null bs
  end.

Lemma until_null_terminated bs : until_null (bs ++ [0%Z]) = Ok (before_null bs).
Proof. induction bs as [|x bs IH]; [done|]. simpl. case_decide; [done|]. by rewrite IH. Qed.

Lemma before_null_none bs : 0%Z ∉ bs → before_null bs = bs.
Proof.
  induction bs as [|x bs IH]; [done|]. rewrite not_elem_of_cons. intros [Hx Hb]. simpl.
  rewrite decide_False by done. by rewrite IH.
Qed.

(** What becomes of a message whose level is asked for *)
Lemma log_line maxLogLevel src lvl msg :
  (logLevelId lvl ≤ maxLogLevel)%Z →
  toLogMethod maxLogLevel src lvl msg
  = Some (let sent := before_null (pack msg) in
          if is_ok (from_utf8 sent) then Ok (rust_level lvl, source_name src, sent)
          else Panic "log_callback: unable to decode as UTF-8").
Proof.
  intros Hl. unfold toLogMethod. rewrite decide_True by done. unfold on_log_emited, packCString.
  rewrite until_null_terminated. cbn [mbind outcome_bind]. rewrite level_known, source_known.
  cbv zeta. unfold from_utf8. by destruct (utf8_valid_fuel _ _).
Qed.

Lemma log_line_ok maxLogLevel src lvl msg :
  (logLevelId lvl ≤ maxLogLevel)%Z → plain msg →
  toLogMethod maxLogLevel src lvl msg = Some (Ok (rust_level lvl, source_name src, msg)).
Proof.
  intros Hl Hm. rewrite log_line by done. cbv zeta.
  by rewrite pack_plain, before_null_none, utf8_plain by (done || by apply plain_no_null).
Qed.

(** C39: a message of the library is logged only when its level is asked for.  Then the
    low octets of its characters up to the first null are logged, at the level of the
    message and under the name of its source, if they are UTF-8; otherwise the node panics,
    in a function that C calls.  So a message of ASCII characters without null is logged as
    it is, and one that has among such characters a single one whose low octet is 128 or
    more makes the node panic; other characters may be logged as something else. *)
Theorem log_message_delivered maxLogLevel src lvl msg :
  if decide (logLevelId lvl ≤ maxLogLevel)%Z then
    let sent := before_null (pack msg) in
    toLogMethod maxLogLevel src lvl msg
    = Some (if is_ok (from_utf8 sent) then Ok (rust_level lvl, source_name src, sent)
            else Panic "log_callback: unable to decode as UTF-8")
    ∧ (plain msg → sent = msg ∧ is_ok (from_utf8 sent) = true)
    ∧ ∀ pre c rest, msg = pre ++ c :: rest → plain pre → plain rest → (128 ≤ c mod 256)%Z →
        is_ok (from_utf8 sent) = false
  else toLogMethod maxLogLevel src lvl msg = None.
Proof.
  destruct (decide (logLevelId lvl ≤ maxLogLevel)%Z) as [Hl|Hl]; [|unfold toLogMethod; by rewrite decide_False].
  cbv zeta. split_and!; [by rewrite log_line|..].
  - intros Hm. rewrite pack_plain, before_null_none, utf8_plain by (done || by apply plain_no_null). done.
  - intros pre c rest -> Hp Hr Hc. unfold pack. rewrite fmap_app, fmap_cons.
    fold (pack pre) (pack rest). rewrite !pack_plain by done.
    rewrite before_null_none, utf8_not_plain; [done..|].
    rewrite elem_of_app, elem_of_cons. apply plain_no_null in Hp, Hr. naive_solver lia.
Qed.
End method.
End Logs.
Import Logs.

(** ** Actions of the library *)

Inductive InitException :=
  | InitBlockStatePathDir | InitBlockStatePermissionError | InitTreeStatePermissionError
  | InitDatabaseOpeningError | InitGenesisBlockNotInDataBaseError | InitGenesisBlockIncorrect
  | InitDatabaseInvariantViolation | InitIncorrectDatabaseVersion.

(** [StartInitException] *)
Definition StartInitException (e : InitException) : StartResult :=
  match e with
  | InitBlockStatePathDir => BlockStatePathDir
  | InitBlockStatePermissionError => BlockStatePermissionError
  | InitTreeStatePermissionError => TreeStatePermissionError
  | InitDatabaseOpeningError => DatabaseOpeningError
  | InitGenesisBlockNotInDataBaseError => GenesisBlockNotInDataBaseError
  | InitGenesisBlockIncorrect => GenesisBlockIncorrect
  | InitDatabaseInvariantViolation => DatabaseInvariantViolation
  | InitIncorrectDatabaseVersion => IncorrectDatabaseVersion
  end.

(** Exceptions, with what is displayed of them *)
Inductive Exc :=
  | IOError (shown : text)
  | InitError (e : InitException) (shown : text)
  | InvalidGenesisData
  | OtherException.

(** An action returns, throws, or aborts the process. *)
Inductive Result (A : Type) := Returned (a : A) | Thrown (e : Exc) | Aborted.
Arguments Returned {A}.
Arguments Thrown {A}.
Arguments Aborted {A}.

(** The data directory: files and directories by name; what a directory holds is a
    parameter. *)
Inductive Node (D : Type) := AFile (content : bytes) | ADirectory (content : D).
Arguments AFile {D}.
Arguments ADirectory {D}.

Record World (D R : Type) := MkWorld {
  files : gmap string (Node D);
  (** Operations on files so far *)
  operations : nat;
  logged : list (LogLevel * string * bytes);
  (** Whether the node's reference to its record of genesis blocks has a finalizer *)
  finalizer : bool;
  (** The runner to which the node's pointer points, none while it is null *)
  runner_ptr : option R;
}.
Arguments MkWorld {D R}.
Arguments files {D R}.
Arguments operations {D R}.
Arguments logged {D R}.
Arguments finalizer {D R}.
Arguments runner_ptr {D R}.

Definition IO (D R A : Type) : Type := World D R → Result A * World D R.
#[global] Instance IO_ret D R : MRet (IO D R) := λ A a w, (Returned a, w).
#[global] Instance IO_bind D R : MBind (IO D R) := λ A B f c w,
  match c w with
  | (Returned a, w) => f a w
  | (Thrown e, w) => (Thrown e, w)
  | (Aborted, w) => (Aborted, w)
  end.

(** [displayException] of the exceptions that [checkExistingDatabase] throws *)
Definition BlockStatePathDirError : Exc :=
  InitError InitBlockStatePathDir (of_string "Block state path points to a directory, not a file.").
Definition BlockStatePermission : Exc :=
  InitError InitBlockStatePermissionError
    (of_string "Cannot get read and write permissions to the block state file.").
Definition TreeStatePermission : Exc :=
  InitError InitTreeStatePermissionError
    (of_string "Cannot get read and write permissions to the tree state file.").

(** What [getPermissions] gives: a permission error, the permissions, or another exception *)
Inductive PermissionsOf := NotPermitted | Permissions (readable writable : bool) | NoPermissions (e : Exc).

(** [show] of a string: the names of the control characters, and an escape *)
Definition asciiTab : list string :=
  ["NUL"; "SOH"; "STX"; "ETX"; "EOT"; "ENQ"; "ACK"; "a"; "b"; "t"; "n"; "v"; "f"; "r"; "SO"; "SI";
   "DLE"; "DC1"; "DC2"; "DC3"; "DC4"; "NAK"; "SYN"; "ETB"; "CAN"; "EM"; "SUB"; "ESC"; "FS"; "GS"; "RS"; "US"].
Definition showLitChar (c : Z) (rest : text) : text :=
  let protect (p : Z → bool) := if match rest with x :: _ => p x | [] => false end then of_string "\&" else [] in
  if decide (127 < c)%Z
  then 92%Z :: of_string (pretty c) ++ protect (λ x, bool_decide (48 ≤ x ≤ 57)%Z)
  else if decide (c = 127%Z) then of_string "\DEL"
  else if decide (c = 92%Z) then [92; 92]%Z
  else if decide (c = 34%Z) then [92; 34]%Z
  else if decide (32 ≤ c)%Z then [c]
  else 92%Z :: of_string (default ""%string (asciiTab !! Z.to_nat c))
       ++ (if decide (c = 14%Z) then protect (λ x, bool_decide (x = 72%Z)) else []).
Fixpoint showLitString (s : text) : text :=
  match s with
  | [] => []
  | c :: rest => showLitChar c rest ++ showLitString rest
  end.
Definition show_string (s : text) : text := 34%Z :: showLitString s ++ [34%Z].

(** Names in the data directory *)
Definition BLOCKSTATE : string := "blockstate.dat".
Definition TREESTATE : string := "treestate".
Definition BLOCKSTATE_0 : string := "blockstate-0.dat".
Definition TREESTATE_0 : string := "treestate-0".

(** ** Parameters *)

Record RuntimeParameters := MkRP {
  rpBlockSize : i64;
  rpBlockTimeout : u64;
  rpEarlyBlockThreshold : u64;
  rpMaxBakingDelay : u64;
  rpInsertionsBeforeTransactionPurge : i64;
  rpTransactionsKeepAliveTime : u64;
  rpTransactionsPurgingDelay : i64;
  rpAccountsCacheSize : i64;
  rpModulesCacheSize : i64;
}.

(** [Callbacks]: the type of message with which a message is broadcast, if it is, and the
    number with which a block is notified *)
Record Callbacks := MkCallbacks {
  broadcastBlock : option MessageType;
  broadcastFinalizationMessage : option MessageType;
  broadcastFinalizationRecord : option MessageType;
  notifyBlockArrived : option u8;
  notifyBlockFinalized : option u8;
}.

(** What is not defined here: the identity of a baker, the protocol version of genesis data,
    the runner that is made from a database or from genesis data, the decoding and joining
    of paths, the content of a tree state (its version, and whether it has an entry
    [data.mdb], which may be a file), the permissions of files, and which operations on
    files fail. *)
Class LibExt := {
  D : Type;
  Identity : Type;
  RunnerT : Type;
  ProtocolVersion : Type;
  eitherDecodeStrict : bytes → text + Identity;
  getPVGenesisDataPV : bytes → option ProtocolVersion;
  load_chain : text → RuntimeParameters → Callbacks → option Identity → ProtocolVersion → bytes →
    gmap string (Node D) → Result RunnerT * gmap string (Node D);
  new_chain : text → RuntimeParameters → Callbacks → option Identity → bytes →
    gmap string (Node D) → Result RunnerT * gmap string (Node D);
  peekCStringLen : bytes → text;
  join_path : text → string → text;
  addDatabaseVersion : D → D;
  data_mdb : D → option bool;
  partly_removed : D → D;
  getPermissions : string → PermissionsOf;
  fault : nat → option Exc;
  defaultEarlyBlockThreshold : u64;
  defaultMaxBakingDelay : u64;
}.

Section start.
Context {ids : LogIds} {ext : LibExt}.
Context (maxLogLevel : u8).

(** [logM]: the message; a panic of the callback, which C calls, is taken to end the process *)
Definition logM (src : LogSource) (lvl : HsLogLevel) (msg : text) : IO D RunnerT unit := λ w,
  match toLogMethod maxLogLevel src lvl msg with
  | None => (Returned tt, w)
  | Some (Ok line) => (Returned tt, MkWorld (files w) (operations w) (logged w ++ [line]) (finalizer w) (runner_ptr w))
  | Some _ => (Aborted, w)
  end.

(** [catches] of [handleStartExceptions] *)
Definition handleStartExceptions (c : IO D RunnerT StartResult) : IO D RunnerT i64 := λ w,
  match c w with
  | (Returned r, w) => (Returned (toStartResult r), w)
  | (Thrown (IOError shown), w) =>
    (logM External LLError shown ;; mret (toStartResult StartIOException)) w
  | (Thrown (InitError e shown), w) =>
    (logM External LLError shown ;; mret (toStartResult (StartInitException e))) w
  | (Thrown InvalidGenesisData, w) => (Returned (toStartResult StartGenesisFailure), w)
  | (Thrown OtherException, w) => (Thrown OtherException, w)
  | (Aborted, w) => (Aborted, w)
  end.

Definition doesPathExist (name : string) : IO D RunnerT bool := λ w,
  (Returned (bool_decide (is_Some (files w !! name))), w).
Definition doesFileExist (name : string) : IO D RunnerT bool := λ w,
  (Returned (match files w !! name with Some (AFile _) => true | _ => false end), w).
Definition doesDirectoryExist (name : string) : IO D RunnerT bool := λ w,
  (Returned (match files w !! name with Some (ADirectory _) => true | _ => false end), w).

(** An operation that changes files: it fails, or does what it should. *)
Definition operation (f : gmap string (Node D) → option (gmap string (Node D))) : IO D RunnerT unit := λ w,
  let w' := MkWorld (files w) (S (operations w)) (logged w) (finalizer w) (runner_ptr w) in
  match fault (operations w), f (files w) with
  | Some e, _ => (Thrown e, w')
  | None, None => (Thrown (IOError []), w')
  | None, Some fs => (Returned tt, MkWorld fs (S (operations w)) (logged w) (finalizer w) (runner_ptr w))
  end.

Definition renameFile (old new : string) : IO D RunnerT unit :=
  operation (λ fs, match fs !! old with
                   | Some (AFile c) => Some (<[new := AFile c]> (delete old fs))
                   | _ => None
                   end).
Definition renameDirectory (old new : string) : IO D RunnerT unit :=
  operation (λ fs, match fs !! old with
                   | Some (ADirectory c) => Some (<[new := ADirectory c]> (delete old fs))
                   | _ => None
                   end).
Definition add_version (dir : string) : IO D RunnerT unit :=
  operation (λ fs, match fs !! dir with
                   | Some (ADirectory c) => Some (<[dir := ADirectory (addDatabaseVersion c)]> fs)
                   | _ => None
                   end).

(** [migrateGlobalState] *)
Definition migrateGlobalState : IO D RunnerT unit :=
  blockStateExists ← doesPathExist BLOCKSTATE_0;
  treeStateExists ← doesPathExist TREESTATE_0;
  if (blockStateExists || treeStateExists : bool) then mret tt
  else
    oldBlockStateExists ← doesFileExist BLOCKSTATE;
    oldTreeStateExists ← doesDirectoryExist TREESTATE;
    match oldBlockStateExists, oldTreeStateExists with
    | true, true =>
      logM GlobalState LLInfo (of_string "Migrating global state from legacy version.") ;;
      renameFile BLOCKSTATE BLOCKSTATE_0 ;;
      renameDirectory TREESTATE TREESTATE_0 ;;
      add_version TREESTATE_0 ;;
      logM GlobalState LLInfo (of_string "Migration complete.")
    | true, false =>
      logM GlobalState LLWarning (of_string "Cannot migrate legacy database as 'treestate' is absent.")
    | false, true =>
      logM GlobalState LLWarning (of_string "Cannot migrate legacy database as 'blockstate.dat' is absent.")
    | false, false => mret tt
    end.

Definition removeFile (name : string) : IO D RunnerT unit :=
  operation (λ fs, match fs !! name with
                   | Some (AFile _) => Some (delete name fs)
                   | _ => None
                   end).
(** When this fails part of the directory may be gone. *)
Definition removeDirectoryRecursive (name : string) : IO D RunnerT unit := λ w,
  match files w !! name, operation (λ fs, Some (delete name fs)) w with
  | Some (ADirectory c), (Thrown e, w') =>
    (Thrown e, MkWorld (<[name := ADirectory (partly_removed c)]> (files w)) (operations w') (logged w') (finalizer w') (runner_ptr w'))
  | Some (ADirectory _), done => done
  | _, _ => operation (λ _, None) w
  end.

Definition throwM {A} (e : Exc) : IO D RunnerT A := λ w, (Thrown e, w).

(** [logExceptionAndThrowTS] *)
Definition logExceptionAndThrowTS {A} (e : Exc) : IO D RunnerT A :=
  logM TreeState LLError (match e with InitError _ shown | IOError shown => shown | _ => [] end) ;;
  throwM e.

(** [checkRWFile]; [file] says whether the path is a file. *)
Definition checkRWFile (path : string) (file : bool) (exc : Exc) : IO D RunnerT unit :=
  (if file then mret tt else logExceptionAndThrowTS BlockStatePathDirError) ;;
  match getPermissions path with
  | NotPermitted => logExceptionAndThrowTS exc
  | Permissions readable writable =>
    if readable && writable then mret tt else logExceptionAndThrowTS exc
  | NoPermissions e => throwM e
  end.

(** [doesPathExist] and [doesFileExist] for the entry [data.mdb] of a tree state: whether it
    is a file, if it exists *)
Definition tree_state_file (treeStateDir : string) : IO D RunnerT (option bool) := λ w,
  (Returned (match files w !! treeStateDir with Some (ADirectory c) => data_mdb c | _ => None end), w).

(** [checkExistingDatabase], for names in the directory [base] *)
Definition checkExistingDatabase (base : text) (treeStateDir blockStateFile : string) : IO D RunnerT bool :=
  let treeStateFile := (treeStateDir +:+ "/data.mdb")%string in
  bsPathEx ← doesPathExist blockStateFile;
  tsPathEx ← tree_state_file treeStateDir;
  match (bsPathEx : bool), tsPathEx with
  | true, Some tsFile =>
    bsFile ← doesFileExist blockStateFile;
    checkRWFile blockStateFile bsFile BlockStatePermission ;;
    checkRWFile treeStateFile tsFile TreeStatePermission ;;
    logM TreeState LLTrace (of_string "Existing database found.") ;;
    logM TreeState LLTrace (of_string "TreeState filepath: " ++ show_string (join_path base blockStateFile)) ;;
    logM TreeState LLTrace (of_string "BlockState filepath: " ++ show_string (join_path base treeStateFile)) ;;
    mret true
  | true, None =>
    logM GlobalState LLWarning (of_string "Block state file exists, but tree state database does not. Deleting the block state file.") ;;
    removeFile blockStateFile ;;
    mret false
  | false, Some _ =>
    logM GlobalState LLWarning (of_string "Tree state database exists, but block state file does not. Deleting the tree state database.") ;;
    removeDirectoryRecursive treeStateDir ;;
    mret false
  | false, None => mret false
  end.

(** [mvcRuntimeParameters]: [fromIntegral] to signed numbers keeps 64 bits. *)
Definition mvcRuntimeParameters (rp : ConsensusRuntimeParameters) : RuntimeParameters :=
  MkRP (as_i64 (max_block_size rp)) (rp_block_construction_timeout rp)
    defaultEarlyBlockThreshold defaultMaxBakingDelay (as_i64 (insertions_before_purging rp))
    (rp_transaction_keep_alive rp) (as_i64 (rp_transactions_purging_delay rp))
    (accounts_cache_size rp) (rp_modules_cache_size rp).

(** [makeRegenesisRef] *)
Definition makeRegenesisRef : IO D RunnerT unit := λ w,
  (Returned tt, MkWorld (files w) (operations w) (logged w) true (runner_ptr w)).

(** An action of which only the result and the files are known *)
Definition on_files (f : gmap string (Node D) → Result RunnerT * gmap string (Node D)) : IO D RunnerT RunnerT := λ w,
  let '(r, fs) := f (files w) in
  (r, MkWorld fs (operations w) (logged w) (finalizer w) (runner_ptr w)).

(** [makeMultiVersionRunner], which is [startupSkov] but for the threads it starts: the first
    round of its loop, with [initialiseExistingSkov] and [initialiseExistingGlobalState], at
    the names that [globalStateConfig] gives to the first genesis block *)
Definition makeMultiVersionRunner (path : text) (rp : RuntimeParameters) (c : Callbacks)
    (identity : option Identity) (genesis : bytes) : IO D RunnerT RunnerT :=
  match getPVGenesisDataPV genesis with
  | None => throwM InvalidGenesisData
  | Some spv =>
    logM Skov LLDebug (of_string "Attempting to use existing global state.") ;;
    existingDB ← checkExistingDatabase path TREESTATE_0 BLOCKSTATE_0;
    if (existingDB : bool) then on_files (load_chain path rp c identity spv genesis)
    else
      logM Skov LLDebug (of_string "No existing global state.") ;;
      logM Runner LLTrace (of_string "Attempting to decode genesis") ;;
      on_files (new_chain path rp c identity genesis)
  end.

Definition active_callbacks (notifyContext : bool) : Callbacks :=
  MkCallbacks (Some MessageBlock) (Some MessageFinalization) (Some MessageFinalizationRecord)
    (if notifyContext then Some 0%Z else None) (if notifyContext then Some 1%Z else None).
Definition passive_callbacks (notifyContext : bool) : Callbacks :=
  MkCallbacks None None None
    (if notifyContext then Some 0%Z else None) (if notifyContext then Some 1%Z else None).

(** [poke runnerPtrPtr =<< newStablePtr runner] *)
Definition poke_runner (runner : RunnerT) : IO D RunnerT unit := λ w,
  (Returned tt, MkWorld (files w) (operations w) (logged w) (finalizer w) (Some runner)).

(** [startConsensus]; [notifyContext] says whether the context is not null. *)
Definition startConsensus (rp : ConsensusRuntimeParameters) (genesisBS bakerInfoBS : bytes)
    (notifyContext : bool) (appData : bytes) : IO D RunnerT i64 :=
  handleStartExceptions
    match eitherDecodeStrict bakerInfoBS with
    | inl err =>
      logM External LLError (of_string "Failed to decode baker identity data: " ++ err) ;;
      mret StartBakerIdentityFailure
    | inr bakerIdentity =>
      let appDataPath := peekCStringLen appData in
      migrateGlobalState ;;
      makeRegenesisRef ;;
      runner ← makeMultiVersionRunner appDataPath (mvcRuntimeParameters rp) (active_callbacks notifyContext)
                 (Some bakerIdentity) genesisBS;
      poke_runner runner ;;
      mret StartSuccess
    end.

(** [startConsensusPassive] *)
Definition startConsensusPassive (rp : ConsensusRuntimeParameters) (genesisBS : bytes)
    (notifyContext : bool) (appData : bytes) : IO D RunnerT i64 :=
  handleStartExceptions
    (let appDataPath := peekCStringLen appData in
     migrateGlobalState ;;
     makeRegenesisRef ;;
     runner ← makeMultiVersionRunner appDataPath (mvcRuntimeParameters rp) (passive_callbacks notifyContext)
                None genesisBS;
     poke_runner runner ;;
     mret StartSuccess).

(** [get_consensus_ptr] with both calls; the result is the pointer, none if it is null.
    A path that is not Unicode has no [to_str].  An exception that the library does not
    catch ends the process. *)
Definition to_str (path : bytes) : option bytes := if is_ok (from_utf8 path) then Some path else None.
Definition get_consensus_runner (rp : ConsensusRuntimeParameters) (genesis_data : bytes)
    (private_data : option bytes) (notification_context : bool) (appdata_dir : bytes)
    (w : World D RunnerT) : outcome (option RunnerT) * World D RunnerT :=
  match to_str appdata_dir with
  | None => (Panic "called Option::unwrap on a None value", w)
  | Some appdata_buf =>
    let '(r, w) :=
      match private_data with
      | Some private_data_bytes =>
        startConsensus rp genesis_data private_data_bytes notification_context appdata_buf w
      | None => startConsensusPassive rp genesis_data notification_context appdata_buf w
      end in
    (match r with
     | Returned ret_code => get_consensus_ptr ret_code ;; Ok (runner_ptr w)
     | _ => Panic "the process ended"
     end, w)
  end.
End start.

(** ** The theorems *)

Section proofs.
Context {ids : LogIds} {ext : LibExt}.
Context (maxLogLevel : u8).

Lemma IO_bind_inv {D R A B} (c : IO D R A) (f : A → IO D R B) w b w' :
  (c ≫= f) w = (Returned b, w') → ∃ a w1, c w = (Returned a, w1) ∧ f a w1 = (Returned b, w').
Proof. unfold mbind, IO_bind. destruct (c w) as [[] ?]; naive_solver. Qed.

Lemma IO_bind_ok {D R A B} (c : IO D R A) (f : A → IO D R B) w a w1 :
  c w = (Returned a, w1) → (c ≫= f) w = f a w1.
Proof. unfold mbind, IO_bind. by intros ->. Qed.

(** Actions that leave alone what belongs to the node: its pointer and its reference *)
Definition node_side (w : World D RunnerT) : option RunnerT * bool := (runner_ptr w, finalizer w).
Definition keeps {A} (c : IO D RunnerT A) : Prop := ∀ w, node_side (c w).2 = node_side w.

Lemma keeps_ptr_bind {A B} (c : IO D RunnerT A) (f : A → IO D RunnerT B) :
  keeps c → (∀ a, keeps (f a)) → keeps (c ≫= f).
Proof.
  intros Hc Hf w. unfold mbind, IO_bind. specialize (Hc w). destruct (c w) as [[a|e|] w1]; simpl in *; try done.
  by rewrite Hf.
Qed.
Lemma keeps_ret {A} (a : A) : keeps (mret a).
Proof. done. Qed.
Lemma keeps_logM src lvl msg : keeps (logM maxLogLevel src lvl msg).
Proof. intros w. unfold logM. by repeat case_match. Qed.
Lemma keeps_operation f : keeps (operation f).
Proof. intros w. unfold operation. by repeat case_match. Qed.
Lemma keeps_throw {A} e : keeps (throwM (A := A) e).
Proof. done. Qed.
Lemma keeps_on_files f : keeps (on_files f).
Proof. intros w. unfold on_files. by case_match. Qed.
Lemma keeps_remove name : keeps (removeDirectoryRecursive name).
Proof. intros w. unfold removeDirectoryRecursive, operation. by repeat case_match; simplify_eq/=. Qed.
Lemma keeps_logThrow {A} e : keeps (logExceptionAndThrowTS maxLogLevel (A := A) e).
Proof. apply keeps_ptr_bind; [apply keeps_logM|done]. Qed.
Lemma keeps_checkRW path file exc : keeps (checkRWFile maxLogLevel path file exc).
Proof.
  unfold checkRWFile. apply keeps_ptr_bind; [destruct file; [done|apply keeps_logThrow]|intros _].
  repeat case_match; (done || apply keeps_logThrow).
Qed.
Lemma keeps_migrate : keeps (migrateGlobalState maxLogLevel).
Proof.
  unfold migrateGlobalState. apply keeps_ptr_bind; [done|]. intros b. apply keeps_ptr_bind; [done|]. intros t.
  destruct (b || t); [done|]. apply keeps_ptr_bind; [done|]. intros ob. apply keeps_ptr_bind; [done|]. intros ot.
  destruct ob, ot; [|apply keeps_logM..|done].
  repeat (apply keeps_ptr_bind; [apply keeps_logM || apply keeps_operation|intros _]). apply keeps_logM.
Qed.

Lemma keeps_check base tree block : keeps (checkExistingDatabase maxLogLevel base tree block).
Proof.
  unfold checkExistingDatabase. apply keeps_ptr_bind; [done|]. intros bs. apply keeps_ptr_bind; [done|]. intros ts.
  destruct bs, ts as [ts|]; [| | |done];
    repeat (apply keeps_ptr_bind; [apply keeps_logM || apply keeps_operation || apply keeps_remove
                                   || apply keeps_checkRW || done|intros ?]); done.
Qed.
Lemma keeps_make path rp c id genesis : keeps (makeMultiVersionRunner maxLogLevel path rp c id genesis).
Proof.
  unfold makeMultiVersionRunner. case_match; [|done]. apply keeps_ptr_bind; [apply keeps_logM|intros _].
  apply keeps_ptr_bind; [apply keeps_check|]. intros []; [apply keeps_on_files|].
  repeat (apply keeps_ptr_bind; [apply keeps_logM|intros _]). apply keeps_on_files.
Qed.

(** What both ways to start the library do *)
Definition body (path : text) (rp : RuntimeParameters) (c : Callbacks) (id : option Identity) (genesis : bytes) :
    IO D RunnerT StartResult :=
  migrateGlobalState maxLogLevel ;;
  makeRegenesisRef ;;
  runner ← makeMultiVersionRunner maxLogLevel path rp c id genesis;
  poke_runner runner ;;
  mret StartSuccess.

(** The world with the finalizer, and with the pointer *)
Definition referenced (w : World D RunnerT) : World D RunnerT :=
  MkWorld (files w) (operations w) (logged w) true (runner_ptr w).
Definition pointing (w : World D RunnerT) (runner : RunnerT) : World D RunnerT :=
  MkWorld (files w) (operations w) (logged w) (finalizer w) (Some runner).

(** The runner of a start from [w] that ends in [w']: it is made after the migration. *)
Definition made path rp c id genesis (w : World D RunnerT) (runner : RunnerT) (w' : World D RunnerT) : Prop :=
  ∃ w1 w2, migrateGlobalState maxLogLevel w = (Returned tt, w1)
    ∧ makeMultiVersionRunner maxLogLevel path rp c id genesis (referenced w1) = (Returned runner, w2)
    ∧ w' = pointing w2 runner.

Lemma body_spec path rp c id genesis w r w' :
  body path rp c id genesis w = (r, w') →
  match r with
  | Returned sr => sr = StartSuccess ∧ ∃ runner, made path rp c id genesis w runner w'
  | _ => runner_ptr w' = runner_ptr w
  end.
Proof.
  unfold body, made, mbind, IO_bind. pose proof (keeps_migrate w) as [= Hk _].
  destruct (migrateGlobalState maxLogLevel w) as [[[]|e|] w1]; simpl in *; [|by intros [= <- <-]..].
  fold (referenced w1). pose proof (keeps_make path rp c id genesis (referenced w1)) as [= Hm _].
  destruct (makeMultiVersionRunner maxLogLevel path rp c id genesis (referenced w1)) as [[runner|e|] w2] eqn:E;
    simpl in *; intros [= <- <-]; [|congruence..].
  split; [done|]. by exists runner, w1, w2.
Qed.

Lemma made_finalizer path rp c id genesis w runner w' :
  made path rp c id genesis w runner w' → finalizer w' = true.
Proof.
  intros (w1 & w2 & _ & Hm & ->). pose proof (keeps_make path rp c id genesis (referenced w1)) as Hk.
  rewrite Hm in Hk. by injection Hk.
Qed.

Lemma handle_spec (c : IO D RunnerT StartResult) w r w' :
  handleStartExceptions maxLogLevel c w = (r, w') →
  (∃ sr, c w = (Returned sr, w') ∧ r = Returned (toStartResult sr))
  ∨ (runner_ptr w' = runner_ptr (c w).2 ∧ r ≠ Returned 0%Z ∧ ∀ sr, (c w).1 ≠ Returned sr).
Proof.
  unfold handleStartExceptions. destruct (c w) as [[sr|[shown|i shown| |]|] w1] eqn:E; simpl.
  - intros [= <- <-]. left. by exists sr.
  - unfold mbind, IO_bind. pose proof (keeps_logM External LLError shown w1) as [= Hk _].
    destruct (logM _ _ _ _ w1) as [[[]|e|] w2]; intros [= <- <-]; by right.
  - unfold mbind, IO_bind. pose proof (keeps_logM External LLError shown w1) as [= Hk _].
    destruct (logM _ _ _ _ w1) as [[[]|e|] w2]; intros [= <- <-]; right; simpl in *; try done.
    split_and!; [done|by destruct i|done].
  - intros [= <- <-]. by right.
  - intros [= <- <-]. by right.
  - intros [= <- <-]. by right.
Qed.

(** The parameters, as numbers that fit *)
Definition same_parameters (rp : ConsensusRuntimeParameters) : RuntimeParameters :=
  MkRP (max_block_size rp) (rp_block_construction_timeout rp)
    defaultEarlyBlockThreshold defaultMaxBakingDelay (insertions_before_purging rp)
    (rp_transaction_keep_alive rp) (rp_transactions_purging_delay rp)
    (accounts_cache_size rp) (rp_modules_cache_size rp).
Definition fitting (rp : ConsensusRuntimeParameters) : Prop :=
  fits 63 (max_block_size rp) ∧ fits 63 (insertions_before_purging rp)
  ∧ fits 63 (rp_transactions_purging_delay rp).

Lemma parameters_kept rp : fitting rp → mvcRuntimeParameters rp = same_parameters rp.
Proof. intros (H1 & H2 & H3). unfold mvcRuntimeParameters, same_parameters. by rewrite !as_i64_small by (unfold fits in *; lia). Qed.

Lemma ptr_error code : code ≠ 0%Z → ∃ e, get_consensus_ptr code = Err e.
Proof. intros Hne. unfold get_consensus_ptr. repeat case_match; (done || by eexists). Qed.

Lemma handled_body path rp c id genesis w r w' :
  runner_ptr w = None →
  handleStartExceptions maxLogLevel (body path rp c id genesis) w = (r, w') →
  match r with
  | Returned code => if decide (code = 0%Z)
      then ∃ runner, made path rp c id genesis w runner w'
      else runner_ptr w' = None
  | _ => runner_ptr w' = None
  end.
Proof.
  intros Hw [(sr & Hc & ->)|(Hk & Hne & Hnr)]%handle_spec.
  - apply body_spec in Hc as (-> & Hr). by rewrite decide_True.
  - assert (runner_ptr w' = None) as Hn.
    { rewrite Hk, <- Hw. destruct (body path rp c id genesis w) as [r1 w1] eqn:E. apply body_spec in E.
      destruct r1; [|done..]. exfalso. by eapply Hnr. }
    destruct r as [code|e|]; [|done..]. rewrite decide_False by congruence. done.
Qed.

Lemma identity_failure msg w r w' :
  runner_ptr w = None →
  handleStartExceptions maxLogLevel (logM maxLogLevel External LLError msg ;; mret StartBakerIdentityFailure) w
  = (r, w') →
  runner_ptr w' = None ∧ r ≠ Returned 0%Z.
Proof.
  intros Hw Hh. assert (runner_ptr ((logM maxLogLevel External LLError msg ;; mret StartBakerIdentityFailure) w).2
    = runner_ptr w) as Hk.
  { assert (keeps (logM maxLogLevel External LLError msg ;; mret StartBakerIdentityFailure)) as Hk
      by (apply keeps_ptr_bind; [apply keeps_logM|done]). by pose proof (Hk w) as [= ? _]. }
  apply handle_spec in Hh as [(sr & Hc & ->)|(Hp & Hne & _)]; [|split; congruence].
  rewrite Hc in Hk. simpl in Hk. split; [congruence|].
  by apply IO_bind_inv in Hc as ([] & w1 & _ & [= <- _]).
Qed.

(** C25: when the node is given a pointer to a consensus runner it is not null: it points to
    the runner that the library made, after migrating the data directory, from the path of
    that directory, which is Unicode, the node's parameters, unchanged, the genesis data,
    and, exactly when the node has credentials, the baker identity they decode to; only then
    does the runner broadcast messages, and it reports blocks exactly when the node gave a
    context for it.  The node's record of genesis blocks is then freed with the last
    reference of the library.  When starting fails, or the node panics because the path is
    not Unicode, the pointer stays null.  The three sizes among the parameters that the
    library reads as signed numbers are below 2^63. *)
Theorem consensus_started rp genesis private_data ctx path w r w' :
  fitting rp → runner_ptr w = None →
  get_consensus_runner maxLogLevel rp genesis private_data ctx path w = (r, w') →
  match r with
  | Ok p => finalizer w' = true ∧ ∃ runner id buf w1 w2, p = Some runner ∧ to_str path = Some buf
      ∧ match private_data with
        | Some bs => ∃ i, id = Some i ∧ eitherDecodeStrict bs = inr i
        | None => id = None
        end
      ∧ migrateGlobalState maxLogLevel w = (Returned tt, w1)
      ∧ makeMultiVersionRunner maxLogLevel (peekCStringLen buf) (same_parameters rp)
          (if bool_decide (is_Some private_data) then active_callbacks ctx else passive_callbacks ctx)
          id genesis (referenced w1)
        = (Returned runner, w2)
      ∧ w' = pointing w2 runner
  | _ => runner_ptr w' = None
  end.
Proof.
  intros Hrp Hw. unfold get_consensus_runner. destruct (to_str path) as [buf|]; [|by intros [= <- <-]].
  destruct private_data as [bs|]; [unfold startConsensus; destruct (eitherDecodeStrict bs) as [err|i] eqn:Ei|].
  - destruct (handleStartExceptions _ _ w) as [r1 w1] eqn:E. intros [= <- <-].
    apply identity_failure in E as [Hp Hne]; [|done]. destruct r1 as [code|e|]; [|done..].
    by destruct (ptr_error code) as [e ->]; [congruence|].
  - destruct (handleStartExceptions _ _ w) as [r1 w1] eqn:E. intros [= <- <-]. rewrite parameters_kept in E by done.
    apply handled_body in E; [|done]. destruct r1 as [code|e|]; [|done..].
    destruct (decide (code = 0%Z)) as [->|Hne]; [|by destruct (ptr_error code) as [e ->]].
    destruct E as (runner & Hm). split; [by eapply made_finalizer|].
    destruct Hm as (w2 & w3 & H1 & H2 & ->). exists runner, (Some i), buf, w2, w3. naive_solver.
  - unfold startConsensusPassive. destruct (handleStartExceptions _ _ w) as [r1 w1] eqn:E. intros [= <- <-].
    rewrite parameters_kept in E by done.
    apply handled_body in E; [|done]. destruct r1 as [code|e|]; [|done..].
    destruct (decide (code = 0%Z)) as [->|Hne]; [|by destruct (ptr_error code) as [e ->]].
    destruct E as (runner & Hm). split; [by eapply made_finalizer|].
    destruct Hm as (w2 & w3 & H1 & H2 & ->). by exists runner, None, buf, w2, w3.
Qed.
End proofs.

(** ** The migration of the data directory *)

Section migration.
Context {ids : LogIds} {laws : LogIdsLaws} {ext : LibExt}.
Context (maxLogLevel : u8).

(** A message of ASCII does not abort, and changes nothing but the log. *)
Lemma logM_plain src lvl msg w :
  plain msg →
  ∃ w', logM maxLogLevel src lvl msg w = (Returned tt, w') ∧ files w' = files w ∧ operations w' = operations w.
Proof.
  intros Hm. unfold logM. destruct (decide (logLevelId lvl ≤ maxLogLevel)%Z) as [Hl|Hl].
  - rewrite log_line_ok by done. by eexists.
  - unfold toLogMethod. rewrite decide_False by done. by eexists.
Qed.

(** A directory of the old version *)
Definition legacy (fs : gmap string (Node D)) (b : bytes) (t : D) : Prop :=
  fs !! BLOCKSTATE = Some (AFile b) ∧ fs !! TREESTATE = Some (ADirectory t)
  ∧ fs !! BLOCKSTATE_0 = None ∧ fs !! TREESTATE_0 = None.

Definition first_renamed (fs : gmap string (Node D)) (b : bytes) : gmap string (Node D) :=
  <[BLOCKSTATE_0 := AFile b]> (delete BLOCKSTATE fs).
Definition migrated (fs : gmap string (Node D)) (b : bytes) (t : D) : gmap string (Node D) :=
  <[TREESTATE_0 := ADirectory (addDatabaseVersion t)]> (delete TREESTATE (first_renamed fs b)).

(** Where a state of the new version exists, nothing is changed. *)
Lemma migrate_nothing w :
  is_Some (files w !! BLOCKSTATE_0) ∨ is_Some (files w !! TREESTATE_0) →
  migrateGlobalState maxLogLevel w = (Returned tt, w).
Proof.
  intros Hs. unfold migrateGlobalState, mbind, IO_bind. simpl.
  replace (bool_decide _ || bool_decide _) with true; [done|]. symmetry.
  apply orb_true_iff. by rewrite !bool_decide_eq_true.
Qed.

(** The beginning of a migration: the first file is renamed. *)
Lemma migrate_first w b t :
  legacy (files w) b t → fault (operations w) = None →
  ∃ w', files w' = first_renamed (files w) b ∧ operations w' = S (operations w)
    ∧ migrateGlobalState maxLogLevel w
      = (renameDirectory TREESTATE TREESTATE_0 ;;
         add_version TREESTATE_0 ;;
         logM maxLogLevel GlobalState LLInfo (of_string "Migration complete.")) w'.
Proof.
  intros (Hb & Ht & Hb0 & Ht0) Hf. unfold migrateGlobalState.
  erewrite IO_bind_ok by done. erewrite IO_bind_ok by done. rewrite Hb0, Ht0. cbn [orb].
  rewrite !bool_decide_false by by intros []. cbn [orb].
  erewrite IO_bind_ok by done. erewrite IO_bind_ok by done. rewrite Hb, Ht.
  destruct (logM_plain GlobalState LLInfo (of_string "Migrating global state from legacy version.") w)
    as (w1 & Hl & Hfs & Hop); [by apply (bool_decide_eq_true_1 _); vm_compute|].
  erewrite (IO_bind_ok _ _ w) by done. exists (MkWorld (first_renamed (files w) b) (S (operations w)) (logged w1) (finalizer w1) (runner_ptr w1)).
  split_and!; [done..|]. erewrite (IO_bind_ok (renameFile BLOCKSTATE BLOCKSTATE_0) _ w1 tt); [done|].
  unfold renameFile, operation. by rewrite Hfs, Hop, Hf, Hb.
Qed.

Lemma legacy_kept fs b t name :
  legacy fs b t → name ∈ [TREESTATE; TREESTATE_0] → first_renamed fs b !! name = fs !! name.
Proof.
  intros _ Hn. unfold first_renamed.
  assert (name ≠ BLOCKSTATE_0 ∧ name ≠ BLOCKSTATE) as [H1 H2] by set_solver.
  by rewrite lookup_insert_ne, lookup_delete_ne.
Qed.

(** A data directory of the old version is migrated when no operation on it fails: the
    block state and the tree state have their new names, with the version added to the tree
    state, the old names are gone, every other entry is as it was, and migrating again
    changes nothing. *)
Theorem migration_complete w b t :
  legacy (files w) b t →
  (∀ n, operations w ≤ n < operations w + 3 → fault n = None) →
  ∃ w', migrateGlobalState maxLogLevel w = (Returned tt, w')
    ∧ files w' !! BLOCKSTATE_0 = Some (AFile b)
    ∧ files w' !! TREESTATE_0 = Some (ADirectory (addDatabaseVersion t))
    ∧ files w' !! BLOCKSTATE = None ∧ files w' !! TREESTATE = None
    ∧ (∀ name, name ∉ [BLOCKSTATE; TREESTATE; BLOCKSTATE_0; TREESTATE_0] → files w' !! name = files w !! name)
    ∧ migrateGlobalState maxLogLevel w' = (Returned tt, w').
Proof.
  intros Hl Hf. destruct (migrate_first w b t Hl) as (w1 & Hfs & Hop & ->); [apply Hf; lia|].
  unfold mbind at 1, IO_bind at 1, renameDirectory, operation. rewrite Hop, Hf by lia. rewrite Hfs.
  rewrite (legacy_kept _ b t) by (done || set_solver). rewrite (proj1 (proj2 Hl)).
  unfold mbind at 1, IO_bind at 1, add_version, operation. cbn [files operations]. rewrite Hf by lia.
  rewrite lookup_insert_eq, insert_insert_eq. fold (migrated (files w) b t).
  match goal with |- ∃ _, logM _ _ _ _ ?w2 = _ ∧ _ =>
    destruct (logM_plain GlobalState LLInfo (of_string "Migration complete.") w2) as (w3 & Hw3 & Hfs3 & _) end;
    [by apply (bool_decide_eq_true_1 _); vm_compute|].
  exists w3. split; [done|]. cbn [files] in Hfs3. rewrite Hfs3.
  split_and!; [..|apply migrate_nothing; rewrite Hfs3; right; unfold migrated; rewrite lookup_insert_eq; by eexists].
  all: unfold migrated, first_renamed.
  - by rewrite lookup_insert_ne, lookup_delete_ne, lookup_insert_eq.
  - by rewrite lookup_insert_eq.
  - by rewrite lookup_insert_ne, lookup_delete_ne, lookup_insert_ne, lookup_delete_eq.
  - by rewrite lookup_insert_ne, lookup_delete_eq.
  - intros name Hn.
    by rewrite lookup_insert_ne, lookup_delete_ne, lookup_insert_ne, lookup_delete_ne by set_solver.
Qed.

(** The part of a start that reads no files goes well. *)
Definition startable (genesis : bytes) (private_data : option bytes) (path buf : bytes) (id : option Identity) : Prop :=
  to_str path = Some buf ∧ is_Some (getPVGenesisDataPV genesis)
  ∧ match private_data with
    | Some bs => ∃ i, id = Some i ∧ eitherDecodeStrict bs = inr i
    | None => id = None
    end.

(** What the node makes of the result of a start *)
Definition outcome_of (r : Result i64 * World D RunnerT) : outcome (option RunnerT) :=
  match r.1 with
  | Returned ret_code => get_consensus_ptr ret_code ;; Ok (runner_ptr r.2)
  | _ => Panic "the process ended"
  end.

Lemma start_body rp genesis private_data ctx path buf id w :
  startable genesis private_data path buf id →
  ∃ c, c = (if bool_decide (is_Some private_data) then active_callbacks ctx else passive_callbacks ctx)
  ∧ let r := handleStartExceptions maxLogLevel
               (body maxLogLevel (peekCStringLen buf) (mvcRuntimeParameters rp) c id genesis) w in
    get_consensus_runner maxLogLevel rp genesis private_data ctx path w = (outcome_of r, r.2).
Proof.
  intros (Hp & _ & Hid). eexists. split; [done|]. unfold get_consensus_runner. rewrite Hp.
  destruct private_data as [bs|]; [destruct Hid as (i & -> & Hi)|subst id];
    unfold startConsensus, startConsensusPassive; [rewrite Hi|]; cbv zeta;
    match goal with |- (let '(_, _) := ?x in _) = (outcome_of ?y, _) => change x with y; by destruct y end.
Qed.

(** Handling an exception only logs it, and never makes a success of it. *)
Lemma handle_files (c : IO D RunnerT StartResult) w :
  files (handleStartExceptions maxLogLevel c w).2 = files (c w).2.
Proof.
  unfold handleStartExceptions. destruct (c w) as [[sr|[shown|i shown| |]|] w1]; [done| | |done..];
    unfold mbind, IO_bind, logM; by repeat case_match; simplify_eq/=.
Qed.
Lemma handle_thrown (c : IO D RunnerT StartResult) w e w' :
  c w = (Thrown e, w') → is_ok (outcome_of (handleStartExceptions maxLogLevel c w)) = false.
Proof.
  intros Hc. destruct (handleStartExceptions maxLogLevel c w) as [r w1] eqn:Eh. apply handle_spec in Eh as [(sr & Hr & _)|(_ & Hr & _)]; [congruence|].
  unfold outcome_of. cbn [fst snd]. destruct r as [code|e'|]; [|done..].
  by destruct (ptr_error code) as [e1 ->]; [congruence|].
Qed.

(** A block state whose tree state is missing is removed, unless that fails. *)
Lemma check_partial base w b :
  files w !! BLOCKSTATE_0 = Some (AFile b) → files w !! TREESTATE_0 = None →
  ∃ w', files w' = (if fault (operations w) is Some _ then files w else delete BLOCKSTATE_0 (files w))
    ∧ checkExistingDatabase maxLogLevel base TREESTATE_0 BLOCKSTATE_0 w
      = (if fault (operations w) is Some e then Thrown e else Returned false, w').
Proof.
  intros Hb Ht. unfold checkExistingDatabase. cbv zeta.
  erewrite IO_bind_ok by done. rewrite Hb, bool_decide_true by by eexists.
  erewrite IO_bind_ok by (unfold tree_state_file; by rewrite Ht). cbv iota.
  destruct (logM_plain GlobalState LLWarning (of_string "Block state file exists, but tree state database does not. Deleting the block state file.") w)
    as (w1 & Hl & Hfs & Hop); [by apply (bool_decide_eq_true_1 _); vm_compute|].
  erewrite (IO_bind_ok _ _ w) by done. unfold mbind, IO_bind, removeFile, operation. rewrite Hfs, Hop, Hb.
  destruct (fault (operations w)); (eexists; split; [|reflexivity]; reflexivity).
Qed.

Lemma make_partial path rp c id genesis w b :
  is_Some (getPVGenesisDataPV genesis) →
  files w !! BLOCKSTATE_0 = Some (AFile b) → files w !! TREESTATE_0 = None →
  match fault (operations w) with
  | Some e => ∃ w', makeMultiVersionRunner maxLogLevel path rp c id genesis w = (Thrown e, w') ∧ files w' = files w
  | None => ∃ w', files w' = delete BLOCKSTATE_0 (files w)
      ∧ makeMultiVersionRunner maxLogLevel path rp c id genesis w = on_files (new_chain path rp c id genesis) w'
  end.
Proof.
  intros [spv Hg] Hb Ht. unfold makeMultiVersionRunner. rewrite Hg.
  destruct (logM_plain Skov LLDebug (of_string "Attempting to use existing global state.") w)
    as (w1 & Hl & Hfs & Hop); [by apply (bool_decide_eq_true_1 _); vm_compute|].
  erewrite (IO_bind_ok _ _ w) by done. rewrite <- Hfs in Hb, Ht |- *. rewrite <- Hop.
  destruct (check_partial path w1 b Hb Ht) as (w2 & Hfs2 & Hc).
  destruct (fault (operations w1)) as [e|]; [exists w2; unfold mbind, IO_bind; by rewrite Hc|].
  destruct (logM_plain Skov LLDebug (of_string "No existing global state.") w2)
    as (w3 & Hl3 & Hfs3 & _); [by apply (bool_decide_eq_true_1 _); vm_compute|].
  destruct (logM_plain Runner LLTrace (of_string "Attempting to decode genesis") w3)
    as (w4 & Hl4 & Hfs4 & _); [by apply (bool_decide_eq_true_1 _); vm_compute|].
  exists w4. split; [congruence|]. erewrite IO_bind_ok by done. cbv iota.
  erewrite IO_bind_ok by done. by erewrite IO_bind_ok.
Qed.

(** A start that finds a block state without its tree state *)
Lemma body_partial path rp c id genesis w b :
  is_Some (getPVGenesisDataPV genesis) →
  files w !! BLOCKSTATE_0 = Some (AFile b) → files w !! TREESTATE_0 = None →
  let r := body maxLogLevel path rp c id genesis w in
  if fault (operations w) is Some e then r.1 = Thrown e ∧ files r.2 = files w
  else let '(made, fs) := new_chain path rp c id genesis (delete BLOCKSTATE_0 (files w)) in
       files r.2 = fs
       ∧ ∀ runner, made = Returned runner → r.1 = Returned StartSuccess ∧ runner_ptr r.2 = Some runner.
Proof.
  intros Hg Hb Ht r. subst r. unfold body. erewrite IO_bind_ok by (apply migrate_nothing; rewrite Hb; left; by eexists).
  erewrite IO_bind_ok by done. fold (referenced w).
  pose proof (make_partial path rp c id genesis (referenced w) b Hg Hb Ht) as Hm. cbn [operations files referenced] in Hm.
  destruct (fault (operations w)) as [e|].
  - destruct Hm as (w1 & Hm & Hfs). unfold mbind, IO_bind. by rewrite Hm.
  - destruct Hm as (w1 & Hfs & Hm). unfold mbind, IO_bind. rewrite Hm. unfold on_files. rewrite Hfs.
    destruct (new_chain _ _ _ _ _ _) as [[runner|e|] fs]; (split; [done|]); by intros ? [= ->].
Qed.

(** The same after exceptions are handled *)
Lemma start_partial path rp c id genesis w b :
  is_Some (getPVGenesisDataPV genesis) →
  files w !! BLOCKSTATE_0 = Some (AFile b) → files w !! TREESTATE_0 = None →
  let r := handleStartExceptions maxLogLevel (body maxLogLevel path rp c id genesis) w in
  if fault (operations w) is Some _ then is_ok (outcome_of r, r.2).1 = false ∧ files (outcome_of r, r.2).2 = files w
  else let '(made, fs) := new_chain path rp c id genesis (delete BLOCKSTATE_0 (files w)) in
       files (outcome_of r, r.2).2 = fs
       ∧ ∀ runner, made = Returned runner → (outcome_of r, r.2).1 = Ok (Some runner).
Proof.
  intros Hg Hb Ht. cbv zeta. cbn [fst snd]. rewrite handle_files.
  pose proof (body_partial path rp c id genesis w b Hg Hb Ht) as Hp. cbv zeta in Hp.
  destruct (fault (operations w)) as [e|].
  - destruct Hp as [Hr Hfs]. split; [|done]. eapply (handle_thrown _ w e). rewrite <- Hr. apply surjective_pairing.
  - destruct (new_chain _ _ _ _ _ _) as [made fs]. destruct Hp as [Hfs Hr]. split; [done|].
    intros runner Hm. destruct (Hr runner Hm) as [H1 H2].
    unfold handleStartExceptions. destruct (body _ _ _ _ _ _ w) as [r1 w1]. cbn [fst snd] in H1, H2. subst r1.
    unfold outcome_of. cbn [fst snd]. rewrite H2. done.
Qed.

(** The start in which the second step of the migration fails *)
Lemma first_start path rp c id genesis w b t e :
  legacy (files w) b t → fault (operations w) = None → fault (S (operations w)) = Some e →
  ∃ w', body maxLogLevel path rp c id genesis w = (Thrown e, w') ∧ files w' = first_renamed (files w) b.
Proof.
  intros Hl Hf He. destruct (migrate_first w b t Hl Hf) as (w1 & Hfs & Hop & Hm).
  unfold body. unfold mbind at 1, IO_bind at 1. rewrite Hm.
  unfold mbind at 1, IO_bind at 1, renameDirectory, operation. rewrite Hop, He. by eexists.
Qed.

(** C40: a migration of the data directory that fails at its second step is never taken up
    again, and the next start deletes the block state.  The start in which it fails gives no
    runner, and leaves the block state under its new name and the tree state under its old
    one.  A start from such a directory, with a path in Unicode, genesis data of a known
    version and decodable credentials if any, migrates nothing.  It removes the block state;
    if this fails it gives no runner and changes nothing.  Otherwise it makes a chain from the
    genesis data, in a directory that has the block state under neither name. *)
Theorem interrupted_migration rp genesis private_data ctx path buf id w b t e :
  startable genesis private_data path buf id →
  legacy (files w) b t → fault (operations w) = None → fault (S (operations w)) = Some e →
  let start := get_consensus_runner maxLogLevel rp genesis private_data ctx path in
  let fs := first_renamed (files w) b in
  is_ok (start w).1 = false ∧ files (start w).2 = fs
  ∧ fs !! BLOCKSTATE_0 = Some (AFile b) ∧ fs !! BLOCKSTATE = None
  ∧ fs !! TREESTATE = Some (ADirectory t) ∧ fs !! TREESTATE_0 = None
  ∧ ∀ w2, files w2 = fs →
      migrateGlobalState maxLogLevel w2 = (Returned tt, w2)
      ∧ if fault (operations w2) is Some _ then is_ok (start w2).1 = false ∧ files (start w2).2 = fs
        else let '(made, fs') := new_chain (peekCStringLen buf) (mvcRuntimeParameters rp)
               (if bool_decide (is_Some private_data) then active_callbacks ctx else passive_callbacks ctx)
               id genesis (delete BLOCKSTATE_0 fs) in
             files (start w2).2 = fs' ∧ ∀ runner, made = Returned runner → (start w2).1 = Ok (Some runner).
Proof.
  intros Hs Hl Hf He start fs. subst start fs. cbv beta.
  assert (∀ name, name ∈ [TREESTATE; TREESTATE_0] → first_renamed (files w) b !! name = files w !! name) as Hk
    by (intros name; by eapply legacy_kept).
  assert (first_renamed (files w) b !! BLOCKSTATE_0 = Some (AFile b)) as Hb by apply lookup_insert_eq.
  assert (first_renamed (files w) b !! TREESTATE_0 = None) as Ht by (rewrite Hk; [apply Hl|set_solver]).
  split; [|split; [|split_and!; [done| | |done|]]].
  - destruct (start_body rp genesis private_data ctx path buf id w Hs) as (c & _ & ->).
    destruct (first_start (peekCStringLen buf) (mvcRuntimeParameters rp) c id genesis w b t e Hl Hf He) as (w1 & Hw1 & _).
    by eapply handle_thrown.
  - destruct (start_body rp genesis private_data ctx path buf id w Hs) as (c & _ & ->).
    destruct (first_start (peekCStringLen buf) (mvcRuntimeParameters rp) c id genesis w b t e Hl Hf He) as (w1 & Hw1 & Hfs).
    cbn [snd]. by rewrite handle_files, Hw1.
  - unfold first_renamed. by rewrite lookup_insert_ne, lookup_delete_eq.
  - rewrite Hk by set_solver. apply Hl.
  - intros w2 Hw2. rewrite <- Hw2 in Hb, Ht |- *.
    split; [apply migrate_nothing; rewrite Hb; left; by eexists|].
    destruct (start_body rp genesis private_data ctx path buf id w2 Hs) as (c & <- & ->).
    eapply start_partial; [apply Hs|done..].
Qed.
End migration.

(** ** Examples *)

Module LibraryStartExample.
#[local] Instance ex_ids : LogIds := {|
  logSourceId := λ s, match s with
    | Runner => 0 | Afgjort => 1 | Birk => 2 | Crypto => 3 | Kontrol => 4 | Skov => 5 | Baker => 6
    | External => 7 | GlobalState => 8 | BlockState => 9 | TreeState => 10 | LMDB => 11 | Scheduler => 12
    end%Z;
  logLevelId := λ l, match l with LLError => 1 | LLWarning => 2 | LLInfo => 3 | LLDebug => 4 | LLTrace => 5 end%Z;
|}.
#[local] Instance ex_laws : LogIdsLaws.
Proof. by split. Qed.

(** A library in which the operation [n] of a start fails *)
Definition lib (n : nat) : LibExt := {|
  D := nat;
  Identity := bytes;
  RunnerT := option bytes;
  eitherDecodeStrict := λ bs, if decide (bs = []) then inl (of_string "empty") else inr bs;
  ProtocolVersion := Z;
  getPVGenesisDataPV := head;
  load_chain := λ _ _ _ id _ _ fs, (Returned id, fs);
  new_chain := λ _ _ _ id genesis fs, (Returned id, <[BLOCKSTATE_0 := AFile genesis]> (<[TREESTATE_0 := ADirectory 1]> fs));
  peekCStringLen := λ p, p;
  join_path := λ p name, p ++ of_string "/" ++ of_string name;
  data_mdb := λ _, Some true;
  partly_removed := λ c, c;
  getPermissions := λ _, Permissions true true;
  addDatabaseVersion := S;
  fault := λ m, if decide (m = n) then Some (IOError (of_string "disk")) else None;
  defaultEarlyBlockThreshold := 30000;
  defaultMaxBakingDelay := 10000;
|}.
Definition rp : ConsensusRuntimeParameters := MkRuntimeParameters 3145728 10000 1000 600 300 10000 1000.
Definition w0 : World nat (option bytes) :=
  MkWorld {[BLOCKSTATE := AFile [1%Z]; TREESTATE := ADirectory 5; "x"%string := AFile []]} 0 [] false None.

(** A path in ASCII, one with an accented letter, and two letters that look like UTF-8 *)
Lemma log_message_delivered_witness :
  toLogMethod 3 External LLError (of_string "/data: ") = Some (Ok (LError, "External"%string, of_string "/data: "))
  ∧ toLogMethod 3 External LLError (of_string "/d" ++ 233%Z :: of_string "p: ")
    = Some (Panic "log_callback: unable to decode as UTF-8")
  ∧ toLogMethod 3 External LLError [195; 169]%Z = Some (Ok (LError, "External"%string, [195; 169]%Z))
  ∧ toLogMethod 3 External LLDebug [65]%Z = None.
Proof.
  split_and!.
  - destruct (log_message_delivered 3 External LLError (of_string "/data: ")) as (-> & _). reflexivity.
  - destruct (log_message_delivered 3 External LLError (of_string "/d" ++ 233%Z :: of_string "p: "))
      as (-> & _ & Hbad).
    rewrite (Hbad (of_string "/d") 233%Z (of_string "p: ") eq_refl); [reflexivity| | |];
      by apply (bool_decide_eq_true_1 _); vm_compute.
  - destruct (log_message_delivered 3 External LLError [195; 169]%Z) as (-> & _). reflexivity.
  - exact (log_message_delivered 3 External LLDebug [65]%Z).
Defined.

Lemma legacy_w0 : legacy (ext := lib 9) (files w0) [1%Z] 5.
Proof. by vm_compute. Qed.

Lemma migration_complete_witness :
  ∃ w', migrateGlobalState (ext := lib 9) 3 w0 = (Returned tt, w')
    ∧ files w' !! TREESTATE_0 = Some (ADirectory 6) ∧ files w' !! TREESTATE = None.
Proof.
  destruct (migration_complete (ext := lib 9) 3 w0 [1%Z] 5 legacy_w0) as (w' & H & _ & Ht & _ & Hn & _).
  - intros n Hn. simpl in *. by rewrite decide_False by lia.
  - exists w'. split; [exact H|]. split; [exact Ht|exact Hn].
Defined.

(** A directory after a start that was interrupted, and a later start in which nothing fails *)
Definition w1 : World nat (option bytes) :=
  MkWorld (first_renamed (ext := lib 1) (files w0) [1%Z]) 7 [] false None.
Lemma interrupted_migration_witness :
  let start := get_consensus_runner (ext := lib 1) 3 rp [7%Z] None true [] in
  is_ok (start w0).1 = false ∧ files (start w0).2 !! BLOCKSTATE_0 = Some (AFile [1%Z])
  ∧ (start w1).1 = Ok (Some None) ∧ files (start w1).2 !! BLOCKSTATE_0 = Some (AFile [7%Z])
  ∧ files (start w1).2 !! TREESTATE = Some (ADirectory 5).
Proof.
  assert (startable (ext := lib 1) [7%Z] None [] [] None) as Hs by (split_and!; [done|by eexists|done]).
  destruct (interrupted_migration (ext := lib 1) 3 rp [7%Z] None true [] [] None w0 [1%Z] 5
              (IOError (of_string "disk")) Hs legacy_w0) as (Hok & Hfs & Hb & _ & _ & _ & Hw); [done..|].
  destruct (Hw w1 eq_refl) as (_ & Hfs1 & Hr1).
  cbv zeta. rewrite Hfs, Hfs1, (Hr1 None eq_refl). split_and!; [exact Hok|exact Hb|done|by vm_compute..].
Defined.

Lemma consensus_started_witness :
  ∃ w', get_consensus_runner (ext := lib 9) 3 rp [7%Z] (Some [8%Z]) true [] w0 = (Ok (Some (Some [8%Z])), w')
    ∧ finalizer w' = true.
Proof.
  destruct (get_consensus_runner (ext := lib 9) 3 rp [7%Z] (Some [8%Z]) true [] w0) as [r w'] eqn:E.
  pose proof (consensus_started (ext := lib 9) 3 rp [7%Z] (Some [8%Z]) true [] w0 r w') as H.
  assert (r = Ok (Some (Some [8%Z]))) as -> by (change r with (r, w').1; rewrite <- E; by vm_compute).
  exists w'. split; [reflexivity|]. refine (proj1 (H _ eq_refl E)). unfold fitting, fits. simpl. lia.
Defined.
End LibraryStartExample.
