(* ===== verification/Installer.v ===== *)
(** * Installing the service

    Models the custom actions of the installer
    ([service/windows/installer/custom-actions/src/lib.rs]), the commands of the service
    ([service/windows/src/manager.rs]) and the entry points of its program ([main] and
    [nonservice_main] of [service/windows/src/main.rs]).  Windows is a parameter, whose
    answers may depend on all calls so far; what a program does is the list of its calls,
    with their answers. *)
From S2P Require Import Prelude.
From S2P Require Import Text.

(** ** The custom actions *)

Module Custom.

(** A handle of the service control manager or of a service *)
Definition Handle : Type := nat.

Inductive Call :=
  | MsiGetPropertyW (install_handle : u32) (name : list u16) (room : u32)
  | OpenSCManagerW (h : option Handle)
  | OpenServiceW (manager : Handle) (name : list u16) (access : u32) (h : option Handle)
  | ChangeServiceConfigW (service : Handle) (start_type : u32) (ok : bool)
  | StartServiceW (service : Handle) (ok : bool)
  | CloseServiceHandle (h : Handle)
  | RemoveDirAll (dir : list u16) (ok : bool).

Definition Trace : Type := list Call.

Definition ERROR_SUCCESS : u32 := 0.
Definition ERROR_MORE_DATA : u32 := 234.
Definition ERROR_FUNCTION_NOT_CALLED : u32 := 1626.
Definition SERVICE_CHANGE_CONFIG : u32 := 2.
Definition SERVICE_START : u32 := 16.
Definition SERVICE_AUTO_START : u32 := 2.
Definition SERVICE_DEMAND_START : u32 := 3.

Class Win32 := {
  (** [MsiGetPropertyW]: its result, what it writes to the buffer, and the length *)
  get_property : u32 → list u16 → u32 → u32 * list u16 * u32;
  (** The handle that is returned, none for a null pointer *)
  open_manager : Trace → option Handle;
  open_service : Trace → list u16 → u32 → option Handle;
  (** Whether the call succeeds *)
  change_config : Trace → bool;
  start_service_ok : Trace → bool;
  remove_dir_ok : Trace → bool;
}.

(** The documented behaviour of [MsiGetPropertyW] on a property with the value [v]: the
    value and a terminating zero are written when there is room for both, and else what
    fits in the room; the length is that of the value. *)
Class Win32Laws `{!Win32} (h : u32) (name v : list u16) := {
  property_short : (Z.of_nat (length v) + 1 < 2 ^ 32)%Z;
  property_read room : (Z.of_nat (length v) < room)%Z →
    get_property h name room = (ERROR_SUCCESS, v ++ [0%Z], Z.of_nat (length v));
  property_more room : (0 ≤ room ≤ Z.of_nat (length v))%Z →
    ∃ w, get_property h name room = (ERROR_MORE_DATA, w, Z.of_nat (length v))
         ∧ (Z.of_nat (length w) ≤ room)%Z;
}.

Section actions.
Context `{!Win32}.

(** The error is the number that the source returns. *)
Definition Act (A : Type) : Type := Trace → (u32 + A) * Trace.
Definition act_ret {A} (a : A) : Act A := λ t, (inr a, t).
Definition act_err {A} (e : u32) : Act A := λ t, (inl e, t).
Definition act_bind {A B} (c : Act A) (f : A → Act B) : Act B := λ t,
  match c t with
  | (inr a, t) => f a t
  | (inl e, t) => (inl e, t)
  end.
(** A call, whose answer may depend on those before *)
Definition call {A} (answer : Trace → A) (c : A → Call) : Act A := λ t,
  let a := answer t in (inr a, t ++ [c a]).

Notation "x ⟵ c ; k" := (act_bind c (λ x, k)) (at level 20, c at level 100, k at level 200).
Notation "c ;;; k" := (act_bind c (λ _, k)) (at level 100, k at level 200, right associativity).

(** What a call leaves in a buffer *)
Definition overwrite (buffer w : list u16) : list u16 := w ++ drop (length w) buffer.

Definition property : list u16 := of_string "CustomActionData" ++ [0%Z].

(** [get_data]; the length is kept at its width. *)
Definition get_data (install_handle : u32) : Act (list u16) :=
  r ⟵ call (λ _, get_property install_handle property 0) (λ _, MsiGetPropertyW install_handle property 0);
  let '(res, w, len) := r in
  let value_vec := overwrite [0%Z] w in
  if decide (res = ERROR_MORE_DATA) then
    let len := ((len + 1) mod 2 ^ 32)%Z in
    let value_vec := replicate (Z.to_nat len) 0%Z in
    r ⟵ call (λ _, get_property install_handle property len) (λ _, MsiGetPropertyW install_handle property len);
    let '(res, w, _) := r in
    if decide (res = ERROR_SUCCESS) then act_ret (overwrite value_vec w) else act_err res
  else if decide (res = ERROR_SUCCESS) then act_ret value_vec
  else act_err res.

(** [set_service_start] *)
Definition set_service_start (install_handle start_type : u32) : Act unit :=
  service_name ⟵ get_data install_handle;
  sc_manager ⟵ call open_manager OpenSCManagerW;
  match sc_manager with
  | None => act_err 1%Z
  | Some sc_manager =>
    service_handle ⟵ call (λ t, open_service t service_name SERVICE_CHANGE_CONFIG)
                          (OpenServiceW sc_manager service_name SERVICE_CHANGE_CONFIG);
    match service_handle with
    | None =>
      call (λ _, tt) (λ _, CloseServiceHandle sc_manager) ;;;
      act_err 1%Z
    | Some service_handle =>
      res ⟵ call change_config (ChangeServiceConfigW service_handle start_type);
      call (λ _, tt) (λ _, CloseServiceHandle service_handle) ;;;
      call (λ _, tt) (λ _, CloseServiceHandle sc_manager) ;;;
      if (res : bool) then act_ret tt else act_err 1%Z
    end
  end.

(** [start_service] *)
Definition start_service (install_handle : u32) : Act unit :=
  service_name ⟵ get_data install_handle;
  sc_manager ⟵ call open_manager OpenSCManagerW;
  match sc_manager with
  | None => act_err 1%Z
  | Some sc_manager =>
    service_handle ⟵ call (λ t, open_service t service_name SERVICE_START)
                          (OpenServiceW sc_manager service_name SERVICE_START);
    match service_handle with
    | None =>
      call (λ _, tt) (λ _, CloseServiceHandle sc_manager) ;;;
      act_err 1%Z
    | Some service_handle =>
      res ⟵ call start_service_ok (StartServiceW service_handle);
      call (λ _, tt) (λ _, CloseServiceHandle service_handle) ;;;
      call (λ _, tt) (λ _, CloseServiceHandle sc_manager) ;;;
      if (res : bool) then act_ret tt else act_err 1%Z
    end
  end.

(** The exported functions return a code, and never panic but for the last one, on a
    buffer without any character. *)
Definition code {A} (c : Act A) (t : Trace) : u32 * Trace :=
  match c t with
  | (inl _, t) => (ERROR_FUNCTION_NOT_CALLED, t)
  | (inr _, t) => (ERROR_SUCCESS, t)
  end.

Definition SetServiceStartAuto (install_handle : u32) : Trace → u32 * Trace :=
  code (set_service_start install_handle SERVICE_AUTO_START).
Definition SetServiceStartDemand (install_handle : u32) : Trace → u32 * Trace :=
  code (set_service_start install_handle SERVICE_DEMAND_START).
Definition StartService (install_handle : u32) : Trace → u32 * Trace :=
  code (start_service install_handle).

Definition DeleteDataFolder (install_handle : u32) (t : Trace) : outcome u32 * Trace :=
  match get_data install_handle t with
  | (inl _, t) => (Ok ERROR_FUNCTION_NOT_CALLED, t)
  | (inr [], t) => (Panic "attempt to subtract with overflow", t)
  | (inr data_dir_wide, t) =>
    let data_dir := take (length data_dir_wide - 1) data_dir_wide in
    let ok := remove_dir_ok t in
    (Ok (if ok then ERROR_SUCCESS else ERROR_FUNCTION_NOT_CALLED), t ++ [RemoveDirAll data_dir ok])
  end.

(** ** Handles *)

(** The handles that are open after a call, if the call only uses open ones and closes
    the one that was opened last *)
Definition track (open : list Handle) (c : Call) : option (list Handle) :=
  match c with
  | OpenSCManagerW (Some h) => Some (h :: open)
  | OpenServiceW m _ _ h =>
    if decide (m ∈ open) then Some (match h with Some h => h :: open | None => open end) else None
  | ChangeServiceConfigW s _ _ | StartServiceW s _ => if decide (s ∈ open) then Some open else None
  | CloseServiceHandle h =>
    match open with
    | h' :: open => if decide (h = h') then Some open else None
    | [] => None
    end
  | _ => Some open
  end.
Fixpoint tracked (open : list Handle) (t : Trace) : option (list Handle) :=
  match t with
  | [] => Some open
  | c :: t => open ← track open c; tracked open t
  end.

(** What the actions are for *)
Definition set_to (v : list u16) (start_type : u32) (t : Trace) : Prop :=
  ∃ m s, OpenServiceW m (v ++ [0%Z]) SERVICE_CHANGE_CONFIG (Some s) ∈ t
         ∧ ChangeServiceConfigW s start_type true ∈ t.
Definition started (v : list u16) (t : Trace) : Prop :=
  ∃ m s, OpenServiceW m (v ++ [0%Z]) SERVICE_START (Some s) ∈ t ∧ StartServiceW s true ∈ t.

Section laws.
Context (h : u32) (v : list u16) `{!Win32Laws h property v}.

(** The calls of [get_data] *)
Definition data_calls : Trace :=
  [MsiGetPropertyW h property 0; MsiGetPropertyW h property (Z.of_nat (length v) + 1)].

(** The value of the property is read, with the zero that ends it. *)
Lemma get_data_spec t : get_data h t = (inr (v ++ [0%Z]), t ++ data_calls).
Proof.
  pose proof (property_short (h:=h) (name:=property) (v:=v)) as Hs.
  destruct (property_more (h:=h) (name:=property) (v:=v) 0) as (w & Hw & _); [lia|].
  unfold get_data, act_bind, call. rewrite Hw. simpl. rewrite Z.mod_small by lia.
  rewrite property_read by lia. simpl. unfold act_ret, overwrite, data_calls.
  rewrite drop_ge; [by rewrite app_nil_r, <- app_assoc|]. rewrite length_app, length_replicate. simpl. lia.
Qed.

(** The cases of a session with the service control manager *)
Ltac session E :=
  repeat case_match; simplify_eq/=; repeat (rewrite decide_True by set_solver; simpl);
  (split; [done|]); (split; [|done]); 
  (split; [first [discriminate | intros _; do 2 eexists; split; by repeat constructor]|done || set_solver]).

(** Each of the custom actions on services opens the service that the property of the
    installer names, and reports success exactly when Windows did what the action is for;
    it uses a handle only while it is open, and whatever fails, closes every handle it
    opened exactly once, the last one first.  The action that deletes the data removes
    exactly the directory of the property, and never panics. *)
Theorem custom_actions_spec :
  (∀ start_type, let r := code (set_service_start h start_type) [] in
     tracked [] r.2 = Some [] ∧ (r.1 = ERROR_SUCCESS ↔ set_to v start_type r.2)
     ∧ (r.1 ≠ ERROR_SUCCESS → r.1 = ERROR_FUNCTION_NOT_CALLED))
  ∧ (let r := StartService h [] in
     tracked [] r.2 = Some [] ∧ (r.1 = ERROR_SUCCESS ↔ started v r.2)
     ∧ (r.1 ≠ ERROR_SUCCESS → r.1 = ERROR_FUNCTION_NOT_CALLED))
  ∧ (∃ ok, DeleteDataFolder h []
           = (Ok (if ok : bool then ERROR_SUCCESS else ERROR_FUNCTION_NOT_CALLED),
              data_calls ++ [RemoveDirAll v ok])).
Proof.
  split_and!.
  - intros start_type. unfold code. destruct (set_service_start h start_type []) as [r t] eqn:E.
    unfold set_service_start, act_bind, call, act_ret, act_err in E. rewrite get_data_spec in E.
    unfold set_to. session E.
  - unfold StartService, code. destruct (start_service h []) as [r t] eqn:E.
    unfold start_service, act_bind, call, act_ret, act_err in E. rewrite get_data_spec in E.
    unfold started. session E.
  - unfold DeleteDataFolder. rewrite get_data_spec. simpl. eexists.
    destruct (v ++ [0%Z]) eqn:E; [by destruct v|]. rewrite <- E, length_app, Nat.add_sub, take_app_length.
    done.
Qed.
End laws.
End actions.
End Custom.

(** ** The commands of the service *)

Module Manager.

Definition SERVICE_NAME : string := "ConcordiumNode".
Definition SERVICE_DISPLAY_NAME : string := "Concordium Node Runner Service".
Definition SERVICE_DESCRIPTION : string := "Runs one or more Concordium blockchain nodes.".
Definition EVENT_LOG_NAME : string := "Concordium Node Runner Service".

Inductive ManagerAccess := CREATE_SERVICE | ENUMERATE_SERVICE.
Inductive Access := QUERY_STATUS | CHANGE_CONFIG | DELETE | START | STOP.
Inductive StartType := AutoStart | OnDemand | Disabled.

Record ServiceInfo := MkServiceInfo {
  name : string;
  display_name : string;
  start_type : StartType;
  executable_path : string;
  launch_arguments : list string;
  account_name : option string;
}.

(** What the program asks of Windows *)
Inductive Request :=
  | CurrentExe
  | LocalComputer (access : ManagerAccess)
  | CreateService (info : ServiceInfo) (access : list Access)
  | SetDescription (description : string)
  | OpenService (name : string) (access : list Access)
  | Delete
  | Start (arguments : list string)
  | Stop
  | Register (event_log : string)
  | Deregister (event_log : string)
  | Notepad (file : string)
  | Usage.

Section commands.
(** Whether a request succeeds, after those before it *)
Context (succeeds : list Request → Request → bool).
(** [current_exe], and [get_config_file_path] of [config.rs] *)
Context (exe_path : string) (config_file_path : outcome string).

Definition Cmd := ST (list Request).

(** A request; its failure is returned. *)
Definition request (r : Request) : Cmd unit := λ t,
  (if succeeds t r then Ok tt else bail "a request failed", t ++ [r]).

Definition install : Cmd unit :=
  request CurrentExe ;;
  request (LocalComputer CREATE_SERVICE) ;;
  let service_info := MkServiceInfo SERVICE_NAME SERVICE_DISPLAY_NAME OnDemand exe_path [] None in
  request (CreateService service_info [QUERY_STATUS; CHANGE_CONFIG]) ;;
  request (SetDescription SERVICE_DESCRIPTION) ;;
  mret tt.

Definition remove : Cmd unit :=
  request (LocalComputer ENUMERATE_SERVICE) ;;
  request (OpenService SERVICE_NAME [DELETE]) ;;
  request Delete ;;
  mret tt.

Definition start : Cmd unit :=
  request (LocalComputer ENUMERATE_SERVICE) ;;
  request (OpenService SERVICE_NAME [START]) ;;
  request (Manager.Start []) ;;
  mret tt.

Definition stop : Cmd unit :=
  request (LocalComputer ENUMERATE_SERVICE) ;;
  request (OpenService SERVICE_NAME [STOP]) ;;
  request Manager.Stop ;;
  mret tt.

(** Requests of which the result is dropped *)
Definition tell (r : Request) : Cmd unit := st_modify (λ t, t ++ [r]).

(** [to_lowercase], on the letters of ASCII.  No other character than the sign of the unit
    Kelvin becomes one of them, and no command has a k. *)
Definition to_lowercase (s : text) : text :=
  (λ c, if decide (65 ≤ c ≤ 90)%Z then (c + 32)%Z else c) <$> s.

(** [nonservice_main], on the second of the arguments *)
Definition nonservice_main (arg : option text) : Cmd unit :=
  let arg := default [] (to_lowercase <$> arg) in
  if decide (arg = of_string "install") then
    install ;; tell (Register EVENT_LOG_NAME)
  else if decide (arg = of_string "remove") then
    remove ;; tell (Deregister EVENT_LOG_NAME)
  else if decide (arg = of_string "start") then start
  else if decide (arg = of_string "stop") then stop
  else if decide (arg = of_string "configure") then
    config_path ← st_lift config_file_path;
    request (Notepad config_path)
  else tell Usage.

(** What [service_dispatcher::start] returns: when the program was not started as a
    service, the connection to the controller fails. *)
Inductive Dispatched := Served | NotAService | OtherError.

Definition main (d : Dispatched) (arg : option text) : Cmd unit :=
  match d with
  | Served => mret tt
  | NotAService => nonservice_main arg
  | OtherError => st_lift (bail "service_dispatcher::start")
  end.
End commands.

(** ** What the commands do *)

(** The requests of a command, in order *)
Inductive Command := Install | Remove | StartIt | StopIt | Configure | Help.

Definition parse (arg : option text) : Command :=
  let arg := default [] (to_lowercase <$> arg) in
  if decide (arg = of_string "install") then Install
  else if decide (arg = of_string "remove") then Remove
  else if decide (arg = of_string "start") then StartIt
  else if decide (arg = of_string "stop") then StopIt
  else if decide (arg = of_string "configure") then Configure
  else Help.

Definition requests (exe_path config_path : string) (c : Command) : list Request :=
  match c with
  | Install =>
    [CurrentExe; LocalComputer CREATE_SERVICE;
     CreateService (MkServiceInfo SERVICE_NAME SERVICE_DISPLAY_NAME OnDemand exe_path [] None)
       [QUERY_STATUS; CHANGE_CONFIG]; SetDescription SERVICE_DESCRIPTION; Register EVENT_LOG_NAME]
  | Remove => [LocalComputer ENUMERATE_SERVICE; OpenService SERVICE_NAME [DELETE]; Delete; Deregister EVENT_LOG_NAME]
  | StartIt => [LocalComputer ENUMERATE_SERVICE; OpenService SERVICE_NAME [START]; Start []]
  | StopIt => [LocalComputer ENUMERATE_SERVICE; OpenService SERVICE_NAME [STOP]; Stop]
  | Configure => [Notepad config_path]
  | Help => [Usage]
  end.

(** Requests whose failure is not reported *)
Definition told (r : Request) : bool :=
  match r with Register _ | Deregister _ | Usage => true | _ => false end.

(** A plan is followed up to the first request that fails. *)
Fixpoint follow (succeeds : list Request → Request → bool) (plan t : list Request) :
    outcome unit * list Request :=
  match plan with
  | [] => (Ok tt, t)
  | r :: plan =>
    if told r || succeeds t r then follow succeeds plan (t ++ [r])
    else (bail "a request failed", t ++ [r])
  end.

(** Run outside the service, the program makes the requests of the command that its
    argument names, in any mixture of cases, in order up to the first one that fails, whose
    error it returns; without a known command it only prints its usage. *)
Theorem command_performed succeeds exe_path config_path arg :
  main succeeds exe_path (Ok config_path) NotAService arg []
  = follow succeeds (requests exe_path config_path (parse arg)) [].
Proof.
  unfold main, nonservice_main, parse. generalize (default [] (to_lowercase <$> arg)). intros a.
  repeat case_decide; simpl; unfold install, remove, start, stop, tell, request, mbind, ST_bind, st_lift; simpl.
  all: repeat (destruct (succeeds _ _); simpl; [|done]); done.
Qed.
End Manager.

(** ** Examples *)

Module InstallerExample.
Import Custom.

(** Windows with a property, and a service that can not be opened for starting *)
#[local] Instance win : Win32 := {|
  get_property := λ h name room,
    if decide (1 < room)%Z then (ERROR_SUCCESS, [100; 0]%Z, 1%Z) else (ERROR_MORE_DATA, [], 1%Z);
  open_manager := λ t, Some (length t);
  open_service := λ t name access, if decide (access = SERVICE_START) then None else Some (length t);
  change_config := λ t, true;
  start_service_ok := λ t, true;
  remove_dir_ok := λ t, true;
|}.
#[local] Instance win_laws : Win32Laws 7 property [100]%Z.
Proof.
  split; [done| |].
  - intros room Hr. simpl in *. by rewrite decide_True by lia.
  - intros room Hr. simpl in *. rewrite decide_False by lia. eexists. split; [done|]. simpl. lia.
Qed.

Lemma custom_actions_spec_witness :
  (SetServiceStartAuto 7 []).1 = ERROR_SUCCESS ∧ set_to [100]%Z SERVICE_AUTO_START (SetServiceStartAuto 7 []).2
  ∧ (StartService 7 []).1 = ERROR_FUNCTION_NOT_CALLED ∧ tracked [] (StartService 7 []).2 = Some [].
Proof.
  destruct (custom_actions_spec 7 [100]%Z) as (Hset & Hstart & _). split; [done|].
  split; [by apply (Hset SERVICE_AUTO_START)|]. split; [done|apply Hstart].
Defined.

Lemma remove_twice :
  Manager.main (λ t r, negb (bool_decide (length t = 1))) "exe" (Ok "nodes.toml"%string) Manager.NotAService
    (Some (of_string "ReMove")) []
  = (bail "a request failed",
     [Manager.LocalComputer Manager.ENUMERATE_SERVICE; Manager.OpenService "ConcordiumNode" [Manager.DELETE]]).
Proof. by vm_compute. Qed.
End InstallerExample.
