(* ===== verification/CollectorServer.v ===== *)
(** * The server of the collector backend

    Models the rest of [collector-backend/src/bin/node-collector-backend.rs]: the options,
    the start of the program, the routes with the responses of their handlers, and the
    server as a system of requests and runs of the cleanup thread.  The handlers themselves
    are in [CollectorBackend].  The JSON form of a node and the HTTP server are
    parameters. *)
From S2P Require Import Prelude.
From S2P Require Import Text.
From S2P Require Import CollectorBackend.

(** ** Options *)

Record ConfigCli := MkConfigCli {
  host : text;
  port : u16;
  stale_time_allowed : u64;
  cleanup_interval : u64;
  print_config : bool;
  debug : bool;
  trace : bool;
  info_mode : bool;
  no_log_timestamp : bool;
  cli_banned_versions : list text;
  banned_node_names_file : option text;
  validation_config : ValidationConfig;
}.

Definition ConfigCli_default : ConfigCli :=
  MkConfigCli (of_string "0.0.0.0") 8080 3600000 300000 false false false false false [] None
    ValidationConfig_default.

Definition CollectorStateData_new (nodes : gmap text NodeInfo) (banned_versions banned_node_names : list text) :
    CollectorStateData := MkCollectorStateData nodes banned_versions banned_node_names.

(** The state with which [main] starts the server; [read_to_string] reads a file. *)
Definition main (read_to_string : text → outcome text) (conf : ConfigCli) : outcome CollectorStateData :=
  names ← match banned_node_names_file conf with
          | Some file => content ← read_to_string file; Ok (lines content)
          | None => Ok []
          end;
  Ok (CollectorStateData_new ∅ (cli_banned_versions conf) names).

(** ** Routes *)

Inductive Method := GET | POST.

Record Response := MkResponse {
  status : Z;
  mime : option string;
  headers : list (string * string);
  response_body : text;
}.

(** [HTMLStringResponse] and [JSONStringResponse] *)
Definition HTMLStringResponse (s : text) : Response := MkResponse 200 (Some "text/html"%string) [] s.
Definition JSONStringResponse (s : text) : Response :=
  MkResponse 200 (Some "application/json"%string) [("Access-Control-Allow-Origin", "*")%string] s.

Inductive Handler := Index | NodesSummary | NodesBlockInfo | NodesPost.

(** [router] *)
Definition router (m : Method) (path : string) : option Handler :=
  match m with
  | GET =>
    if decide (path = "/"%string) then Some Index
    else if decide (path = "/nodesSummary"%string) then Some NodesSummary
    else if decide (path = "/data/nodesSummary"%string) then Some NodesSummary
    else if decide (path = "/nodesBlocksInfo"%string) then Some NodesBlockInfo
    else if decide (path = "/data/nodesBlocksInfo"%string) then Some NodesBlockInfo
    else None
  | POST =>
    if decide (path = "/nodes/post"%string) then Some NodesPost
    else if decide (path = "/post/nodes"%string) then Some NodesPost
    else None
  end.

Section server.
Context `{!MapIter text NodeInfo} (decode : bytes → outcome NodeInfo).
Context (dashboard_json : NodeInfoDashboard → text) (chain_viz_json : NodeInfoChainViz → text).
Context (version : text).
(** The answer to a path without a route *)
Context (no_route : Response).

(** The loop of [nodes_summary] and [nodes_block_info] that writes an array *)
Fixpoint write_array {A} (json : A → text) (i : nat) (l : list A) : text :=
  match l with
  | [] => of_string "]"
  | x :: l => (if decide (i ≠ 0) then of_string "," else []) ++ json x ++ write_array json (S i) l
  end.

Definition index : Response :=
  HTMLStringResponse (of_string "<html><body><h1>Collector backend for concordium v" ++ version
    ++ of_string "</h1><p>Operational!</p></body></html>").

(** [nodes_post_handler_wrapper] *)
Definition nodes_post_handler_wrapper (now : u64) (v : ValidationConfig) (len : option u64)
    (body : list (outcome bytes)) (s : CollectorStateData) : outcome Response * CollectorStateData :=
  match nodes_post_handler decode now v len body s with
  | (Ok _, s) => (Ok (MkResponse 200 None [] []), s)
  | (Err _, s) => (Ok (MkResponse 400 None [] []), s)
  | (Panic e, s) => (Panic e, s)
  end.

(** A request *)
Record HttpRequest := MkRequest {
  method : Method;
  path : string;
  content_length : option u64;
  pieces : list (outcome bytes);
}.

Definition serve (now : u64) (v : ValidationConfig) (r : HttpRequest) (s : CollectorStateData) :
    outcome Response * CollectorStateData :=
  match router (method r) (path r) with
  | Some Index => (Ok index, s)
  | Some NodesSummary =>
    (Ok (JSONStringResponse (of_string "[" ++ write_array dashboard_json 0 (nodes_summary s))), s)
  | Some NodesBlockInfo =>
    (Ok (JSONStringResponse (of_string "[" ++ write_array chain_viz_json 0 (nodes_block_info s))), s)
  | Some NodesPost => nodes_post_handler_wrapper now v (content_length r) (pieces r) s
  | None => (Ok no_route, s)
  end.

(** The server: requests at any time, and runs of the cleanup thread *)
Inductive step (conf : ConfigCli) (s : CollectorStateData) : CollectorStateData → Prop :=
  | step_request now r : step conf s (serve now (validation_config conf) r s).2
  | step_cleanup now : step conf s (cleanup now (stale_time_allowed conf) s).

(** ** What the server keeps *)

(** A report that was accepted *)
Definition acceptable (conf : ConfigCli) (s : CollectorStateData) (i : NodeInfo) : Prop :=
  within_limits (validation_config conf) s i.

Record server_ok (conf : ConfigCli) (names : list text) (s : CollectorStateData) : Prop := {
  ok_versions : banned_versions s = cli_banned_versions conf;
  ok_names : banned_node_names s = names;
  ok_reports id i : nodes s !! id = Some i → nodeId i = id ∧ acceptable conf s i;
}.

Lemma post_changes now v len body s :
  let s' := (nodes_post_handler decode now v len body s).2 in
  s' = s ∨ ∃ i, validate_info v s i = Ok tt
                ∧ s' = with_nodes (<[nodeId i := with_last_updated now i]> (nodes s)) s.
Proof.
  unfold nodes_post_handler, mbind, ST_bind, st_lift, st_get, st_modify. cbn zeta. simpl.
  destruct (context _ len) as [l| |]; simpl; [|by left..].
  destruct (ensure _ _) as [[]| |]; simpl; [|by left..].
  destruct (read_body _ _ _) as [c| |]; simpl; [|by left..].
  destruct (decode c) as [i| |]; simpl; [|by left..].
  destruct (validate_info v s i) as [[]| |] eqn:Hi; simpl; [|by left..].
  destruct (validate_heights v s i) as [[]| |]; simpl; [|by left..].
  right. by exists i.
Qed.

Lemma wrapper_state now v len body s :
  (nodes_post_handler_wrapper now v len body s).2 = (nodes_post_handler decode now v len body s).2.
Proof. unfold nodes_post_handler_wrapper. by destruct (nodes_post_handler _ _ _ _ _ s) as [[] ?]. Qed.

Lemma acceptable_nodes conf x s i : acceptable conf s i → acceptable conf (with_nodes x s) i.
Proof. by intros []. Qed.

Lemma server_ok_insert conf names s now i :
  server_ok conf names s → validate_info (validation_config conf) s i = Ok tt →
  server_ok conf names (with_nodes (<[nodeId i := with_last_updated now i]> (nodes s)) s).
Proof.
  intros [Hv Hn Hr] Hi%validate_info_ok. split; [done..|]. intros id j. cbn [with_nodes nodes].
  destruct (decide (id = nodeId i)) as [->|Hne].
  - rewrite lookup_insert_eq. intros [= <-]. split; [done|]. by destruct Hi, i.
  - rewrite lookup_insert_ne by done. intros [? ?]%Hr. by split; [|apply acceptable_nodes].
Qed.

Lemma server_ok_step conf names s s' : server_ok conf names s → step conf s s' → server_ok conf names s'.
Proof.
  intros Hok [now r|now].
  - unfold serve. destruct (router _ _) as [[]|]; [done..| |done]. rewrite wrapper_state.
    destruct (post_changes now (validation_config conf) (content_length r) (pieces r) s)
      as [->|(i & Hi & ->)]; [done|by apply server_ok_insert].
  - destruct Hok as [Hv Hn Hr]. split; [done..|]. intros id i. unfold cleanup. cbn [with_nodes nodes].
    rewrite map_lookup_filter_Some. intros [[? ?]%Hr _]. by split; [|apply acceptable_nodes].
Qed.

(** At all times the server stores under each identifier a report of the node with this
    identifier, which is within its limits and has neither a version nor a name that the
    operator banned at the start. *)
Theorem stored_reports_valid read_to_string conf s0 s names :
  main read_to_string conf = Ok s0 → rtc (step conf) s0 s → names = banned_node_names s0 →
  server_ok conf names s.
Proof.
  intros Hm Hr ->. refine (rtc_ind_r (R:=step conf) (server_ok conf (banned_node_names s0)) s0 _ _ s Hr).
  - unfold main in Hm. apply outcome_bind_ok in Hm as (names & _ & [= <-]). split; [done..|].
    intros id i. cbn. by rewrite lookup_empty.
  - intros y z _ Hs IH. by eapply server_ok_step.
Qed.

(** Reading changes nothing, and lists every stored report once. *)
Lemma get_unchanged now v r s : method r = GET → (serve now v r s).2 = s.
Proof.
  intros Hg. unfold serve, router. rewrite Hg. by repeat case_decide.
Qed.

(** After a run of the cleanup no report is older than allowed. *)
Lemma cleanup_fresh now allowed s id i :
  nodes (cleanup now allowed s) !! id = Some i →
  (0 ≤ last_updated i + allowed < 2 ^ 64)%Z → (now < last_updated i + allowed)%Z.
Proof.
  unfold cleanup. cbn. rewrite map_lookup_filter_Some. intros [_ Hf] Hb.
  unfold u64_add in Hf. by rewrite wrap_small in Hf.
Qed.
End server.

(** ** Bans with white space *)

Lemma drop_while_idemp {A} (p : A → bool) l : drop_while p (drop_while p l) = drop_while p l.
Proof.
  destruct (drop_while_split p l) as (pre & _ & _ & Hh).
  destruct (drop_while p l) as [|x l'] eqn:E; [done|]. simpl. by rewrite (Hh x).
Qed.

(** What is trimmed can not be trimmed further. *)
Lemma trim_idemp t : trim (trim t) = trim t.
Proof.
  assert (drop_while is_whitespace (trim t) = trim t) as Hd.
  { unfold trim. set (a := drop_while is_whitespace t).
    destruct (drop_while_split is_whitespace (reverse a)) as (pre & Ha & _ & _).
    apply (f_equal reverse) in Ha. rewrite reverse_involutive, reverse_app in Ha.
    destruct (reverse (drop_while is_whitespace (reverse a))) as [|x b] eqn:E; [done|].
    destruct (drop_while_split is_whitespace t) as (_ & _ & _ & Hh). fold a in Hh. rewrite Ha in Hh. simpl.
    by rewrite (Hh x). }
  unfold trim at 1. rewrite Hd. unfold trim. by rewrite reverse_involutive, drop_while_idemp.
Qed.

(** The names of the file that have no white space around them *)
Definition trimmed_names (s : CollectorStateData) : CollectorStateData :=
  MkCollectorStateData (nodes s) (banned_versions s) (filter (λ n, trim n = n) (banned_node_names s)).

(** A line of the file of banned names with white space at its beginning or end bans no
    name: reports are judged as if it were not there, because the name of a report is
    trimmed before it is looked up, and the lines of the file are not. *)
Theorem untrimmed_ban_ineffective v s i : validate_info v (trimmed_names s) i = validate_info v s i.
Proof.
  unfold validate_info. cbn [trimmed_names banned_versions banned_node_names].
  replace (bool_decide (trim (nodeName i) ∉ filter _ _))
    with (bool_decide (trim (nodeName i) ∉ banned_node_names s)); [done|].
  apply bool_decide_ext. rewrite list_elem_of_filter, trim_idemp. naive_solver.
Qed.

(** ** An example *)

Module CollectorServerExample.
#[local] Instance iter : MapIter text NodeInfo := canonical_map_iter text NodeInfo.
Definition conf : ConfigCli :=
  MkConfigCli [] 8080 3600000 300000 false false false false false [] (Some []) ValidationConfig_default.
Definition read (_ : text) : outcome text := Ok (of_string "Bad" ++ 10%Z :: of_string "Spaced ").
Definition decode (bs : bytes) : outcome NodeInfo := Ok (CollectorExample.info [65%Z] bs 7).
Definition post (bs : bytes) : HttpRequest :=
  MkRequest POST "/nodes/post" (Some (Z.of_nat (length bs))) [Ok bs].
Definition run := serve decode (λ _, []) (λ _, []) [] (MkResponse 404 None [] []) 5 (validation_config conf).
Definition s0 : CollectorStateData := MkCollectorStateData ∅ [] [of_string "Bad"; of_string "Spaced "].
Definition s1 : CollectorStateData := (run (post (of_string "Good")) s0).2.
Definition s2 : CollectorStateData := (run (post (of_string " Bad")) s1).2.

Lemma stored_reports_valid_witness :
  main read conf = Ok s0 ∧ nodes s2 !! [65%Z] ≠ None ∧ server_ok conf (banned_node_names s0) s2.
Proof.
  split; [by vm_compute|]. split; [by vm_compute|].
  apply (stored_reports_valid decode (λ _, []) (λ _, []) [] (MkResponse 404 None [] []) read conf s0).
  - by vm_compute.
  - eapply rtc_l; [exact (step_request _ _ _ _ _ conf s0 5 (post (of_string "Good")))|].
    apply rtc_once. exact (step_request _ _ _ _ _ conf s1 5 (post (of_string " Bad"))).
  - reflexivity.
Defined.
End CollectorServerExample.
